(* ===== verification/_CoqProject ===== *)
-Q . S2P
Prelude.v
Update.v
Wp.v
Memory.v
Sem.v
SecFifo.v
Crc32.v
Net.v
GtCom.v
GtComThms.v
GtComSafe.v
Shm.v
RtPool.v
RtPoolSpec.v
RtPoolThms.v
ShmPool.v
ShmPoolInv.v
ShmPoolSpec.v
ShmPoolThms.v
ShmPoolStream.v
ShmPoolPacket.v
ShmPoolTable.v
MediaApi.v
MediaApiThms.v
Ctime.v
Cstring.v
RecName.v
RecNameThms.v
AlarmLog.v
AlarmLogThms.v
Recorder.v
RecorderSys.v
RecorderSpec.v
RecorderThms.v
RecorderRuns.v
RecThread.v
RecFrames.v
RecThreadThms.v
RecThreadRuns.v
NvPair.v
NvPairThms.v
Alarm.v
AlarmThms.v
AlarmRecord.v
FileIndex.v
FileIndexThms.v
FileIndexLock.v
DiskMan.v
DiskManThms.v
DiskManRuns.v
RecordSort.v
RecordSortThms.v
Double.v
Avi.v
AviBytes.v
AviFile.v
AviParse.v
AviOpen.v
AviThms.v
AviWriter.v
AviRepair.v
FileConvert.v
FileConvertThms.v
Playback.v
PlaybackServer.v
PlaybackFiles.v
PlaybackPlays.v
PlaybackQuery.v
PlaybackRuns.v
PlaybackTable.v
AviView.v
AviPlays.v
