(* ===== verification/Prelude.v ===== *)
(** * A video recorder and server, verified

    The repository is the software of a networked video recorder on 32-bit ARM Linux:
    processes that encode video, serve it to viewers, record it and watch alarm inputs,
    talking through shared memory and messages.  This development models its own core
    and proves what its parts promise.

    ** The parts and how they interact

    - Frames.  The encoder's process writes encoded frames into a shared frame pool
      (libsrc/gtipcs/mshmpool.c) that lies in a shared segment with a mutex and
      semaphores (mshm.c, msem.h); up to 32 readers follow it, each with a cursor and a
      semaphore.  A media source (libsrc/media_api_m) is a process's handle on a pool.
    - Recording.  The recorder (src/mp_hdmodule_m/hdmod.c) has four channels, each with a
      state (idle, recording ahead, recording for an alarm or by hand), the seconds it
      still records and a thread that reads its media source and writes files.  What it
      starts it also writes to a log, which it reads after a restart.  The files' names
      say what they hold (hdutil.c); they are AVI files (libsrc/avilib).
    - Alarms.  The main process (src/ipmain/alarm_process.c) reads the alarm inputs every
      second, acts on those that become alarms and tells the recorder.
    - Disk.  An index of the recordings per partition (libsrc/fileindex) is searched and
      kept by the recorder and by the disk manager (src/mp_diskman_m), which deletes the
      oldest when there is too little room.
    - Playing.  The playback server (src/recordplay) has five sessions; a viewer asks for
      a time and a channel, the recordings are looked up in the index and sorted by a
      program (tools/common/record_sort.c), and a thread per session sends their frames.
    - Streams and messages.  The server's threads pass bytes through a FIFO
      (src/rtimage/sec_fifo.c); the set-up protocol's messages are text
      (libsrc/nv_pair); a gateway's commands come in packets over sockets
      (libsrc/gtcomapi_ssl, gtsocket).

    ** Files

    The generic part: [Prelude] (machine integers, arrays at a C index, the monad [M] of
    calls on a state, automation), [Update] (records), [Wp] (rules for [M]), [Memory]
    (bytes), [Cstring] and [Ctime] (what the code uses of string.h, stdio.h and time.h).

    - [Sem], [Shm]: msem.h and mshm.c on a kernel's segments and semaphore sets; [Shm]
      ends with the exclusion of the mutex over all interleavings of the processes.
    - [ShmPool] models mshmpool.c; [ShmPoolInv] has the abstract pool (a list of frames)
      and the representation, [ShmPoolSpec] each call against it, and [ShmPoolThms],
      [ShmPoolStream], [ShmPoolPacket] and [ShmPoolTable] the promises to the writer, to
      readers and to the table of readers.
    - [MediaApi], [MediaApiThms]: media_api.c, the recording sources of venc_read.c.
    - [SecFifo]: sec_fifo.c, with the queue of bytes it is.
    - [Crc32]: tab_crc32.c, the table and the division it stands for.  [Net]: the reading
      and writing of gtsocket.c and commonlib.c, on what arrives piece by piece.  [GtCom]:
      gt_com_api.c in the memories it is given; [GtComThms] (what is sent is received),
      [GtComSafe] (whatever arrives, the receiver keeps to its memory).
    - [RtPool], [RtPoolSpec], [RtPoolThms]: rtpool.c, a pool of linked elements, with
      their lists.
    - [RecName], [RecNameThms]: the recordings' names.  [AlarmLog], [AlarmLogThms]: the
      log.
    - [Recorder] (channels and calls), [RecorderSys] (files, threads, parameters, the
      second), [RecorderSpec] (the timer of a channel, alone), [RecorderThms] (each call
      steps the timer), [RecorderRuns] (runs of calls, a restart).
    - [RecThread], [RecFrames], [RecThreadThms], [RecThreadRuns]: the recording thread,
      over any source of frames (the class [VideoSource] with its laws [SourceSpec], of
      which a media source is an instance), and what the other threads may do between
      its steps.
    - [NvPair], [NvPairThms]: nv_pair.c and the list of pairs it is.
    - [Alarm], [AlarmThms], [AlarmRecord]: the alarm inputs, and their way into the
      recorder.
    - [FileIndex], [FileIndexThms], [FileIndexLock]: fileindex.c over a disk and a
      database ([disk_env], with SQLite's laws as the class [DiskLaws]).  [DiskMan],
      [DiskManThms], [DiskManRuns]: a round of the disk manager, and what is promised of
      recordings on the disk.
    - [Double]: the doubles of the rates of frames.  [Avi]: avilib.c on the bytes of a
      file.  [AviBytes] (numbers and tags in bytes), [AviFile] (what the writer makes of
      the frames it is given), [AviParse] (the header read back), [AviOpen] (the chunks
      and the index), [AviThms] (a recording that was closed, and one that was
      interrupted, read back), [AviWriter] (the writer's state, its limit, its errors).
      [AviRepair]: what is left of an interrupted recording gets its index and header
      back.  [FileConvert], [FileConvertThms]: the disk manager's start, which repairs
      such recordings, names them for their length and corrects the index.
    - [RecordSort], [RecordSortThms]: the sorting program over a [qsort] with the laws
      [QsortLaws].  [Playback]: playback_file.c on one session and the files;
      [PlaybackServer]: the sessions' threads, the commands and the viewers' connections.
      [PlaybackFiles] (an open recording and its frames), [PlaybackPlays] (from one
      recording to the next), [PlaybackQuery] (the list that is played), [PlaybackRuns]
      (a viewer from its request to the end), [PlaybackTable] (connections that cross).
      These see a file as its chunks and an index of its frames, an abstract type of
      files; [AviView] shows that the reader of the bytes implements it, and [AviPlays]
      joins the two ends: what the recorder wrote is what the viewer is sent.

    ** Conventions

    A function of the code is a definition of its name.  An [int] is a [Z], cut to its
    width ([u32], [i32], [u8]) where the code can overflow it; an array is a list, read
    and written with [geti] and [seti], which have no value outside it.  A call on a
    shared state is of the monad [M], whose outcomes are: [Ret], it returns; [Blocked],
    it waits for ever or for another process; [Exited], it ends the process; [Undef], it
    does what C leaves undefined - a theorem that a call returns says that it does
    nothing undefined.  A loop without a structural bound takes fuel and is [Blocked]
    when it runs out: the theorems give the fuel that is enough (the length of what is
    left to write, the number of recordings that can be deleted, the length of a list
    file), or show that no fuel is (connecting a connected source).  What is outside the
    sources modelled (the kernel, the encoder, SQLite, the time, the file system's
    failures) is a parameter, with what the code relies on as hypotheses.  A statement to
    the database either does all it says or fails before it does anything: a query that
    fails, or has to be repeated, after some of its rows were given to the callback is not
    modelled.  Files end at 2^31 - 1 bytes, as the code opens them.

    ** What is shown

    - The pool is its list of frames: every call refines the abstract one, refuses
      exactly the frames that cannot fit, keeps the newest, and a reader that keeps up
      gets every frame once and in order; a sleeping reader is woken by the next frame.
    - The mutex excludes, until the segment is created again.  The FIFO is a queue of
      bytes.  The element pool loses and doubles no element.
    - Each channel's timer follows its own events alone, in any run of calls; an alarm
      is recorded for its time, recording ends when it was asked to; after a restart what
      was started by hand goes on, on channel 0.
      Connecting gives the seconds before the alarm.  Whatever the other threads do,
      every file starts with a key frame, and where a frame is not the next in number it
      is a key frame or, after a failed read, the one before again.
    - An input that becomes an alarm has its actions carried out once; with one recorded
      channel the first ten inputs are recorded, from the input's bit to the channel's
      state.
    - Names and log entries read back.  A recording that is added is found by exactly the
      queries that fit it; one that was locked stays, whatever is then asked of the index
      short of unlocking and whichever of it fails; making room ends, takes the oldest first and no more than it must.
    - A viewer is sent the frames of the time it asks for of the recordings that are
      found, in the order of their starts, but not the last frame of each but the last
      recording; then its session is free.  Closing a session can free another viewer's connection.
    - What is written to a recording is read back, also when it was interrupted, with its
      settings except the sampling rate; reading its bytes does what the abstract file
      says.  Where the file can take no more, a frame is refused and leaves an entry in the
      index; an error in the middle of a write shifts what follows by a byte.  Recordings that an interruption left
      are, at the next start, repaired, named with their length and in the index again.
    - A message's structure is a list of pairs, and its text is read back.  A packet that
      is sent is received, in whatever pieces; whatever else arrives, the receiver leaves
      no memory and gives out no message without its check sum; and the sum tells apart
      what differs within four bytes.

    Where the code does otherwise than it means to, a lemma or a theorem says so where
    the model is small enough to show it, and the manifest names the line.

    ** What is not modelled, and why

    Concurrency inside a call: the calls of one process on a pool are atomic under its
    mutex, as [Shm] shows; the recording thread's steps are interleaved with the other
    threads' ([RecThread]). Of the AVI files what is read by the number of a frame; the
    bytes of frames' payloads and of pictures; what sockets do besides reading and
    writing, drivers and devices, the shells the code starts, and envelopes of openssl.
    Of the modelled files: the still pictures, the sound of a recording and the query
    threads of hdmod.c; the live, key frame and playback sources of venc_read.c;
    creating an index; the motion detectors; playing from the pool of live frames, which
    the playback server has switched off. Other parts - the network server of
    src/rtimage, the rest of src/ipmain, devset, update, upnpd, the ONVIF library (C++),
    and the vendored openssl, sqlite3, zlib, libiconv, libupnp, boa, pppd, sshd - are
    listed in the manifest with the reason. *)

From Stdlib Require Export ZArith Lia.
From stdpp Require Export base tactics numbers list option.

(** Facts about memory, semaphores and rings that [eauto] chains. *)
Create HintDb cmem.

Declare Scope c_scope.
Delimit Scope c_scope with C.
Global Open Scope Z_scope.

Module Errno.

(** The errno values the modelled files return, negated, to their callers. *)
Definition EPERM : Z := 1.
Definition ENOENT : Z := 2.
Definition EINTR : Z := 4.
Definition EAGAIN : Z := 11.
Definition ENOMEM : Z := 12.
Definition EBUSY : Z := 16.
Definition EINVAL : Z := 22.
Definition EPIPE : Z := 32.
Definition ERANGE : Z := 34.
Definition ENAVAIL : Z := 119.

End Errno.
Export Errno.

(** The recording channels (include/venc_read.h). *)
Definition MAX_RECORD_CHANNEL_M : Z := 4.

(** ** Machine integers *)

(** The value a 32-bit unsigned object holds after storing [z] in it. *)
Definition u32 (z : Z) : Z := z mod 2 ^ 32.

(** The value a 32-bit two's complement object holds after storing [z] in it. *)
Definition i32 (z : Z) : Z := (z + 2 ^ 31) mod 2 ^ 32 - 2 ^ 31.

(** The value of an unsigned char after storing [z] in it. *)
Definition u8 (z : Z) : Z := z mod 2 ^ 8.

Definition INT_MAX : Z := 2147483647.

Lemma u32_range z : 0 <= u32 z < 2 ^ 32.
Proof. apply Z.mod_pos_bound. lia. Qed.

Lemma u32_small z : 0 <= z < 2 ^ 32 -> u32 z = z.
Proof. apply Z.mod_small. Qed.

Lemma i32_range z : - 2 ^ 31 <= i32 z < 2 ^ 31.
Proof. unfold i32. pose proof (Z.mod_pos_bound (z + 2 ^ 31) (2 ^ 32)). lia. Qed.

Lemma i32_small z : - 2 ^ 31 <= z < 2 ^ 31 -> i32 z = z.
Proof. intros. unfold i32. rewrite Z.mod_small; lia. Qed.

(** ** Arrays indexed by a C [int]

    [geti] and [seti] are an array access at an integer index; [None] is an
    access outside the array, which C leaves undefined. *)

Definition geti {A} (l : list A) (i : Z) : option A :=
  if 0 <=? i then l !! Z.to_nat i else None.

Definition seti {A} (l : list A) (i : Z) (x : A) : option (list A) :=
  if (0 <=? i) && (i <? Z.of_nat (length l))
  then Some (<[Z.to_nat i := x]> l) else None.

Notation "'zlen' l" := (Z.of_nat (length l)) (at level 10) : c_scope.
Open Scope c_scope.

(** Case analysis on the integer comparisons of the goal, in order. *)
Ltac zcase1 :=
  match goal with
  | |- context [?a <=? ?b] => destruct (Z.leb_spec a b)
  | |- context [?a <? ?b] => destruct (Z.ltb_spec a b)
  | |- context [?a =? ?b] => destruct (Z.eqb_spec a b)
  end.
Ltac zcase := repeat (zcase1; cbn [andb orb negb]; try lia; try (intros; discriminate)).

(** The same on a hypothesis. *)
Ltac zcase_in H :=
  repeat (match type of H with
  | context [?a <=? ?b] => destruct (Z.leb_spec a b)
  | context [?a <? ?b] => destruct (Z.ltb_spec a b)
  | context [?a =? ?b] => destruct (Z.eqb_spec a b)
  end; cbn [andb orb negb] in H; try lia; try discriminate).

(** Invert a chain of binds that returned [Some]. *)
Ltac inv_opt H :=
  repeat match type of H with
  | mbind _ _ = Some _ => apply bind_Some in H as (? & ? & H)
  | _ ≫= _ = Some _ => apply bind_Some in H as (? & ? & H)
  end; simplify_eq.

Section Arrays.
Context {A : Type}.
Implicit Types (l : list A) (i j : Z) (x y : A).

Lemma geti_Some l i x : geti l i = Some x -> 0 <= i < zlen l.
Proof.
  unfold geti. zcase. intros Hl%lookup_lt_Some. lia.
Qed.

Lemma geti_is_Some l i : 0 <= i < zlen l -> is_Some (geti l i).
Proof. intros. unfold geti. zcase. apply lookup_lt_is_Some. lia. Qed.

Lemma geti_of_nat l (n : nat) : geti l (Z.of_nat n) = l !! n.
Proof. unfold geti. zcase. by rewrite Nat2Z.id. Qed.

Lemma geti_to_nat l i : 0 <= i -> geti l i = l !! Z.to_nat i.
Proof. intros. unfold geti. by zcase. Qed.

Lemma geti_None l i : geti l i = None <-> i < 0 \/ zlen l <= i.
Proof.
  unfold geti. zcase.
  - rewrite lookup_ge_None. lia.
  - split; [lia | done].
Qed.

Lemma seti_Some l i x : 0 <= i < zlen l -> seti l i x = Some (<[Z.to_nat i := x]> l).
Proof. intros. unfold seti. by zcase. Qed.

Lemma seti_inv l i x l' :
  seti l i x = Some l' -> 0 <= i < zlen l /\ l' = <[Z.to_nat i := x]> l.
Proof. unfold seti. zcase; naive_solver lia. Qed.

Lemma seti_length l i x l' : seti l i x = Some l' -> length l' = length l.
Proof. intros [_ ->]%seti_inv. apply length_insert. Qed.

Lemma geti_seti_eq l i x l' : seti l i x = Some l' -> geti l' i = Some x.
Proof.
  intros [? ->]%seti_inv. rewrite geti_to_nat by lia.
  apply list_lookup_insert_eq. lia.
Qed.

Lemma geti_seti_ne l i j x l' : seti l i x = Some l' -> i <> j -> geti l' j = geti l j.
Proof.
  intros [? ->]%seti_inv ?. unfold geti. zcase; [|done].
  apply list_lookup_insert_ne. lia.
Qed.

Lemma geti_ext l1 l2 :
  length l1 = length l2 -> (forall i, 0 <= i < zlen l1 -> geti l1 i = geti l2 i) -> l1 = l2.
Proof.
  intros Hlen H. apply list_eq. intros n.
  destruct (decide (n < length l1)%nat).
  - specialize (H (Z.of_nat n) ltac:(lia)). by rewrite !geti_of_nat in H.
  - rewrite !lookup_ge_None_2 by lia. done.
Qed.

Lemma geti_app_l l1 l2 i : i < zlen l1 -> geti (l1 ++ l2) i = geti l1 i.
Proof. intros. unfold geti. zcase; [|done]. apply lookup_app_l. lia. Qed.

Lemma geti_app_r l1 l2 i : zlen l1 <= i -> geti (l1 ++ l2) i = geti l2 (i - zlen l1).
Proof.
  intros. unfold geti. zcase. rewrite lookup_app_r by lia. f_equal. lia.
Qed.

Lemma geti_take l n i : i < n -> geti (take (Z.to_nat n) l) i = geti l i.
Proof. intros. unfold geti. zcase; [|done]. apply lookup_take_lt. lia. Qed.

Lemma geti_drop l n i : 0 <= n -> 0 <= i -> geti (drop (Z.to_nat n) l) i = geti l (n + i).
Proof.
  intros. unfold geti. zcase. rewrite lookup_drop. f_equal. lia.
Qed.

Lemma geti_fmap {B} (f : A -> B) l i : geti (f <$> l) i = f <$> geti l i.
Proof. unfold geti. zcase; [apply list_lookup_fmap | done]. Qed.

End Arrays.

Lemma obind_ret {A B} (m : option A) (f : A -> option B) a : m = Some a -> (m ≫= f) = f a.
Proof. by intros ->. Qed.

(** ** C functions on a shared state

    A function that reads and writes a state [S] returns a value and the new
    state, or blocks in a system call with the state it has reached, or ends the
    process with [exit], or has undefined behaviour (an access outside an object,
    a null dereference). *)

Inductive outcome (S A : Type) : Type :=
| Ret (a : A) (s : S)
| Blocked (s : S)
| Exited (code : Z) (s : S)
| Undef.
Arguments Ret {S A} a s.
Arguments Blocked {S A} s.
Arguments Exited {S A} code s.
Arguments Undef {S A}.

Definition M (S A : Type) : Type := S -> outcome S A.

#[export] Instance M_ret S : MRet (M S) := fun A a s => Ret a s.
#[export] Instance M_bind S : MBind (M S) := fun A B f m s =>
  match m s with
  | Ret a s' => f a s'
  | Blocked s' => Blocked s'
  | Exited c s' => Exited c s'
  | Undef => Undef
  end.

Definition get_st {S} : M S S := fun s => Ret s s.
Definition put_st {S} (s : S) : M S () := fun _ => Ret () s.
Definition gets {S A} (f : S -> A) : M S A := fun s => Ret (f s) s.
Definition modify {S} (f : S -> S) : M S () := fun s => Ret () (f s).
Definition undef {S A} : M S A := fun _ => Undef.
Definition blocked {S A} : M S A := fun s => Blocked s.
Definition exit_with {S A} (c : Z) : M S A := fun s => Exited c s.

(** An access that may leave its object. *)
Definition access {S A} (o : option A) : M S A :=
  match o with Some a => mret a | None => undef end.

Section Monad.
Context {S : Type}.

Lemma bind_ret {A B} (m : M S A) (f : A -> M S B) s a s' :
  m s = Ret a s' -> (m ≫= f) s = f a s'.
Proof. intros H. cbv [mbind M_bind]. by rewrite H. Qed.

Lemma bind_access {A B} (o : option A) (f : A -> M S B) s a : o = Some a -> (access o ≫= f) s = f a s.
Proof. by intros ->. Qed.

Lemma bind_put {B} (f : () -> M S B) s s' : (put_st s' ≫= f) s = f () s'.
Proof. done. Qed.

Lemma bind_ret_inv {A B} (m : M S A) (f : A -> M S B) s b s'' :
  (m ≫= f) s = Ret b s'' -> exists a s', m s = Ret a s' /\ f a s' = Ret b s''.
Proof. cbv [mbind M_bind]. destruct (m s); naive_solver. Qed.

Lemma bind_assoc {A B C} (m : M S A) (f : A -> M S B) (g : B -> M S C) s :
  ((m ≫= f) ≫= g) s = (m ≫= (fun a => f a ≫= g)) s.
Proof. cbv [mbind M_bind]. by destruct (m s). Qed.
End Monad.

(** Runs the monadic operations at the head of the goal. *)
Ltac mrun := cbn [mbind M_bind mret M_ret get_st put_st gets modify undef blocked exit_with access].
