(* ===== verification/Update.v ===== *)
(** * Updating one field of a record

    [r <| f := v |>] is the record [r] with its field [f] set to [v].  A record
    type says how it is rebuilt from its fields with an instance of [Settable];
    the update of a field is then found from that instance. *)

From S2P Require Import Prelude.

(** An instance of [Settable] is the eta-expansion of the record. *)
Class Settable (R : Type) := { rebuild : R -> R }.

(** How a field is changed, found by the tactic below when the update is written. *)
Definition setter {R T : Type} (f : R -> T) : Type := (T -> T) -> R -> R.
Definition alter_field {R T : Type} (f : R -> T) (s : setter f) : (T -> T) -> R -> R := s.

Ltac find_setter :=
  match goal with
  | |- @setter ?R ?T ?f =>
      let e := constr:(rebuild (R := R)) in
      let e := eval hnf in e in
      let e := eval pattern f in e in
      match e with
      | ?g f => let t := eval cbv beta in (fun (u : T -> T) (r : R) => g (fun r => u (f r)) r) in
                exact t
      end
  end.

Notation "r <| f := v |>" := (alter_field f ltac:(find_setter) (fun _ => v) r)
  (at level 1, left associativity, f at level 99, v at level 99, only parsing) : c_scope.
Notation "r <| f ::= u |>" := (alter_field f ltac:(find_setter) u r)
  (at level 1, left associativity, f at level 99, u at level 99, only parsing) : c_scope.
Notation "r <| f := v |>" := (alter_field f _ (fun _ => v) r)
  (at level 1, left associativity, f at level 99, v at level 99, only printing) : c_scope.

Module UpdateExample.

Record pair_t := { left_field : Z; right_field : Z }.
#[local] Instance pair_settable : Settable pair_t :=
  {| rebuild := fun r => Build_pair_t (left_field r) (right_field r) |}.

Lemma update_read r v : left_field (r <| left_field := v |>) = v /\
  right_field (r <| left_field := v |>) = right_field r.
Proof. by split. Qed.

End UpdateExample.
