(* ===== verification/Wp.v ===== *)
(** * Rules for functions on a shared state

    [wp m Q R s]: from [s] the function [m] has no undefined behaviour; when it
    returns, [Q] holds of its value and of the state, and when it blocks or exits,
    [R] holds of the state it has reached. *)

From S2P Require Import Prelude.

Definition wp {S A} (m : M S A) (Q : A -> S -> Prop) (R : S -> Prop) (s : S) : Prop :=
  match m s with
  | Ret a s' => Q a s'
  | Blocked s' | Exited _ s' => R s'
  | Undef => False
  end.

Create HintDb wp.

Section Rules.
Context {S : Type}.
Implicit Types (R : S -> Prop) (s : S).

Lemma wp_ret {A} (a : A) (Q : A -> S -> Prop) R s : Q a s -> wp (mret a) Q R s.
Proof. done. Qed.

Lemma wp_bind {A B} (m : M S A) (f : A -> M S B) Q R s :
  wp m (fun a s' => wp (f a) Q R s') R s -> wp (m ≫= f) Q R s.
Proof. unfold wp. cbv [mbind M_bind]. by destruct (m s). Qed.

Lemma wp_mono {A} (m : M S A) (Q Q' : A -> S -> Prop) R s :
  wp m Q R s -> (forall a s', Q a s' -> Q' a s') -> wp m Q' R s.
Proof. unfold wp. destruct (m s); auto. Qed.

(** Sequencing with an intermediate assertion. *)
Lemma wp_seq {A B} (m : M S A) (f : A -> M S B) (P : A -> S -> Prop) Q R s :
  wp m P R s -> (forall a s', P a s' -> wp (f a) Q R s') -> wp (m ≫= f) Q R s.
Proof. intros Hm Hf. apply wp_bind. eapply wp_mono; [exact Hm | exact Hf]. Qed.

Lemma wp_get (Q : S -> S -> Prop) R s : Q s s -> wp get_st Q R s.
Proof. done. Qed.

Lemma wp_gets {A} (f : S -> A) (Q : A -> S -> Prop) R s : Q (f s) s -> wp (gets f) Q R s.
Proof. done. Qed.

Lemma wp_modify (f : S -> S) (Q : () -> S -> Prop) R s : Q () (f s) -> wp (modify f) Q R s.
Proof. done. Qed.

Lemma wp_access {A} (o : option A) (a : A) (Q : A -> S -> Prop) R s :
  o = Some a -> Q a s -> wp (access o) Q R s.
Proof. by intros ->. Qed.

Lemma wp_blocked {A} (Q : A -> S -> Prop) R s : R s -> wp blocked Q R s.
Proof. done. Qed.

Lemma wp_Ret {A} (m : M S A) (Q : A -> S -> Prop) R s a s' : m s = Ret a s' -> Q a s' -> wp m Q R s.
Proof. unfold wp. by intros ->. Qed.

Lemma wp_returned {A} (m : M S A) (Q : A -> S -> Prop) R s a s' : wp m Q R s -> m s = Ret a s' -> Q a s'.
Proof. unfold wp. intros Hw Hm. by rewrite Hm in Hw. Qed.

End Rules.
