(* ===== verification/Memory.v ===== *)
(** * Byte memory and circular buffers

    A block of memory is the list of its bytes.  [mem_read] and [mem_write] are
    [memcpy] out of and into such a block; [None] is an access that leaves the
    block, which C leaves undefined.  The second half is the arithmetic of a
    circular buffer of [N] bytes that starts at offset 0 of a block: which bytes
    a copy that wraps at [N] reads and writes.  The frame pool ([ShmPool]) and
    the stream fifo ([SecFifo]) both keep their payload in such a buffer. *)

From S2P Require Import Prelude.

Definition mem_read (m : list Z) (off n : Z) : option (list Z) :=
  if (0 <=? off) && (0 <=? n) && (off + n <=? zlen m)
  then Some (take (Z.to_nat n) (drop (Z.to_nat off) m)) else None.

Definition mem_write (m : list Z) (off : Z) (bs : list Z) : option (list Z) :=
  if (0 <=? off) && (off + zlen bs <=? zlen m)
  then Some (take (Z.to_nat off) m ++ bs ++ drop (Z.to_nat (off + zlen bs)) m)
  else None.

(** [memset(m + off, v, n)]. *)
Definition mem_set (m : list Z) (off v n : Z) : option (list Z) :=
  if 0 <=? n then mem_write m off (replicate (Z.to_nat n) v) else None.

Section Copies.
Implicit Types (m bs : list Z) (off n i : Z).

Lemma mem_read_Some m off n :
  0 <= off -> 0 <= n -> off + n <= zlen m ->
  exists bs, mem_read m off n = Some bs /\ zlen bs = n.
Proof.
  intros. unfold mem_read. zcase. eexists; split; [done|].
  rewrite length_take, length_drop. lia.
Qed.

Lemma mem_read_inv m off n bs :
  mem_read m off n = Some bs ->
  0 <= off /\ 0 <= n /\ off + n <= zlen m /\ zlen bs = n /\
  forall i, 0 <= i < n -> geti bs i = geti m (off + i).
Proof.
  unfold mem_read. zcase. intros [= <-]. split_and!; try lia.
  - rewrite length_take, length_drop. lia.
  - intros i Hi. rewrite geti_take by lia. rewrite geti_drop by lia. done.
Qed.

Lemma mem_write_Some m off bs :
  0 <= off -> off + zlen bs <= zlen m -> is_Some (mem_write m off bs).
Proof. intros. unfold mem_write. zcase. eauto. Qed.

Lemma mem_write_inv m off bs m' :
  mem_write m off bs = Some m' ->
  0 <= off /\ off + zlen bs <= zlen m /\ length m' = length m /\
  (forall i, 0 <= i < zlen bs -> geti m' (off + i) = geti bs i) /\
  (forall p, 0 <= p -> p < off \/ off + zlen bs <= p -> geti m' p = geti m p).
Proof.
  unfold mem_write. zcase. intros [= <-].
  assert (Hl : length (take (Z.to_nat off) m) = Z.to_nat off).
  { rewrite length_take. lia. }
  split_and!; try lia.
  - rewrite !length_app, Hl, length_drop. lia.
  - intros i Hi. rewrite geti_app_r by lia. rewrite geti_app_l by lia. f_equal. lia.
  - intros p Hp Hout. destruct (decide (p < off)).
    + rewrite geti_app_l by lia. by apply geti_take.
    + rewrite geti_app_r by lia. rewrite geti_app_r by lia.
      rewrite geti_drop by lia. f_equal. lia.
Qed.

Lemma mem_set_Some m off v n :
  0 <= off -> 0 <= n -> off + n <= zlen m -> is_Some (mem_set m off v n).
Proof.
  intros. unfold mem_set. zcase. apply mem_write_Some; [done|].
  rewrite length_replicate. lia.
Qed.

Lemma mem_set_inv m off v n m' :
  mem_set m off v n = Some m' ->
  0 <= off /\ 0 <= n /\ off + n <= zlen m /\ length m' = length m /\
  (forall p, 0 <= p -> p < off \/ off + n <= p -> geti m' p = geti m p).
Proof.
  unfold mem_set. zcase. intros (? & Hb & ? & _ & Hout)%mem_write_inv.
  rewrite length_replicate in *. split_and!; try lia.
  intros p ? ?. apply Hout; lia.
Qed.

End Copies.

(** ** Circular buffers *)

(** The block [m], read from offset [s] and wrapping at [N], starts with [bs]. *)
Definition circ_holds {A} (N : Z) (m : list A) (s : Z) (bs : list A) : Prop :=
  forall i, 0 <= i < zlen bs -> geti m ((s + i) mod N) = geti bs i.

(** [m'] differs from [m] at most on the [len] bytes that follow [s] modulo [N]. *)
Definition circ_frame {A} (N : Z) (m m' : list A) (s len : Z) : Prop :=
  length m' = length m /\
  forall p, 0 <= p -> N <= p \/ len <= (p - s) mod N -> geti m' p = geti m p.

(** The [n] bytes that follow [s] modulo [N]. *)
Definition circ_list (N : Z) (m : list Z) (s n : Z) : list Z :=
  (fun i => default 0 (geti m ((s + Z.of_nat i) mod N))) <$> seq 0 (Z.to_nat n).

Lemma mod_wrap N z : 0 <= z < 2 * N -> z mod N = if z <? N then z else z - N.
Proof.
  intros. zcase.
  - apply Z.mod_small; lia.
  - symmetry. apply (Z.mod_unique _ _ 1); lia.
Qed.

(** Distances around a ring of [N] slots that stay below [N]. *)
Lemma mod_dist N s t d : 0 < N -> 0 <= d < N -> (s + d - t) mod N = ((s - t) mod N + d) mod N.
Proof.
  intros. replace (s + d - t) with (s - t + d) by lia.
  by rewrite Z.add_mod_idemp_l by lia.
Qed.

Section CircularArray.
Context {A : Type} {N : Z} (HN : 0 < N).
Implicit Types (m bs : list A) (s t : Z).

Lemma circ_holds_ext m s bs1 bs2 :
  circ_holds N m s bs1 -> circ_holds N m s bs2 -> length bs1 = length bs2 -> bs1 = bs2.
Proof.
  intros H1 H2 Hl. apply geti_ext; [done|]. intros i Hi.
  rewrite <- H1, <- H2 by lia. done.
Qed.

Lemma circ_holds_mod m s bs : circ_holds N m (s mod N) bs <-> circ_holds N m s bs.
Proof.
  unfold circ_holds. split; intros H i Hi; specialize (H i Hi);
    by rewrite Z.add_mod_idemp_l in * by lia.
Qed.

Lemma circ_holds_app m s bs1 bs2 :
  circ_holds N m s (bs1 ++ bs2) <->
  circ_holds N m s bs1 /\ circ_holds N m (s + zlen bs1) bs2.
Proof.
  unfold circ_holds. rewrite length_app. split.
  - intros H. split; intros i Hi.
    + rewrite H by lia. apply geti_app_l; lia.
    + rewrite <- Z.add_assoc, H by lia. rewrite geti_app_r by lia. f_equal. lia.
  - intros [H1 H2] i Hi. destruct (decide (i < zlen bs1)).
    + rewrite geti_app_l by lia. apply H1; lia.
    + rewrite geti_app_r by lia. rewrite <- H2 by lia. do 2 f_equal. lia.
Qed.

Lemma circ_holds_frame m m' s len t bs :
  circ_holds N m t bs -> circ_frame N m m' s len ->
  len <= (t - s) mod N -> (t - s) mod N + zlen bs <= N ->
  circ_holds N m' t bs.
Proof.
  intros Hh [_ Hf] Hd Hn i Hi.
  rewrite <- Hh by lia. apply Hf; [apply Z.mod_pos_bound; lia|].
  right. rewrite Zminus_mod_idemp_l.
  replace (t + i - s) with ((t - s) + i) by lia.
  rewrite <- Z.add_mod_idemp_l by lia.
  pose proof (Z.mod_pos_bound (t - s) N). rewrite Z.mod_small; lia.
Qed.

Lemma circ_frame_refl m s len : circ_frame N m m s len.
Proof. by split. Qed.

Lemma circ_frame_trans m1 m2 m3 s n1 n2 :
  circ_frame N m1 m2 s n1 -> circ_frame N m2 m3 (s + n1) n2 ->
  0 <= n1 -> 0 <= n2 -> n1 + n2 <= N ->
  circ_frame N m1 m3 s (n1 + n2).
Proof.
  intros [Hl1 H1] [Hl2 H2] ? ? ?. split; [congruence|]. intros p Hp Hout.
  rewrite H2, H1; try done; [lia|]. destruct Hout as [|Hout]; [lia|]. right.
  replace (p - (s + n1)) with ((p - s) + - n1) by lia.
  rewrite <- Z.add_mod_idemp_l by lia.
  pose proof (Z.mod_pos_bound (p - s) N). rewrite Z.mod_small; lia.
Qed.

(** Storing one element after a run of the ring extends the run. *)
Lemma circ_holds_snoc m m' s bs x :
  circ_holds N m s bs -> zlen bs < N ->
  seti m ((s + zlen bs) mod N) x = Some m' -> circ_holds N m' s (bs ++ [x]).
Proof.
  intros Hh Hlt Hset. apply circ_holds_app. split.
  - intros i Hi. erewrite geti_seti_ne; [by apply Hh|exact Hset|].
    intros Heq. apply (f_equal (fun z => (z - s) mod N)) in Heq.
    rewrite !Zminus_mod_idemp_l in Heq.
    replace (s + zlen bs - s) with (zlen bs) in Heq by lia.
    replace (s + i - s) with i in Heq by lia.
    rewrite !Z.mod_small in Heq by lia. lia.
  - intros i Hi. cbn in Hi. assert (i = 0) as -> by lia.
    rewrite Z.add_0_r. cbn. by eapply geti_seti_eq.
Qed.

(** The run without its first element starts one slot later, and does not
    depend on what the first slot holds. *)
Lemma circ_holds_cons m m' s x y bs :
  circ_holds N m s (x :: bs) -> zlen bs < N -> 0 <= s < N ->
  seti m s y = Some m' -> circ_holds N m' ((s + 1) mod N) bs.
Proof.
  intros Hh Hlt Hs Hset. apply circ_holds_mod.
  apply (circ_holds_app m s [x] bs) in Hh as [_ Hh]. cbn in Hh.
  intros i Hi. erewrite geti_seti_ne; [by apply Hh|exact Hset|].
  intros Heq. apply (f_equal (fun z => (z - s) mod N)) in Heq.
  rewrite !Zminus_mod_idemp_l in Heq.
  replace (s + 1 + i - s) with (1 + i) in Heq by lia.
  rewrite Z.sub_diag, Z.mod_0_l in Heq by lia.
  rewrite Z.mod_small in Heq by lia. lia.
Qed.

Lemma circ_holds_head m s x bs :
  circ_holds N m s (x :: bs) -> 0 <= s < N -> geti m s = Some x.
Proof.
  intros Hh ?. specialize (Hh 0). rewrite Z.add_0_r, Z.mod_small in Hh by lia.
  apply Hh. cbn. lia.
Qed.

End CircularArray.

Section Circular.
Context {N : Z} (HN : 0 < N).
Implicit Types (m bs : list Z) (s t : Z).

(** A copy into the buffer that does not wrap. *)
Lemma circ_write_flat m s bs m' :
  mem_write m s bs = Some m' -> s + zlen bs <= N ->
  circ_holds N m' s bs /\ circ_frame N m m' s (zlen bs).
Proof.
  intros (? & ? & Hl & Hin & Hout)%mem_write_inv ?. split.
  - intros i Hi. rewrite Z.mod_small by lia. by apply Hin.
  - split; [done|]. intros p Hp Hrel. apply Hout; [done|].
    destruct Hrel as [|Hrel]; [lia|].
    destruct (decide (p < s)); [lia|]. destruct (decide (N <= p)); [lia|].
    rewrite Z.mod_small in Hrel by lia. lia.
Qed.

(** A copy that wraps, done in two pieces. *)
Lemma circ_write_wrap m s bs m1 m2 :
  0 <= s < N -> N - s <= zlen bs <= N ->
  mem_write m s (take (Z.to_nat (N - s)) bs) = Some m1 ->
  mem_write m1 0 (drop (Z.to_nat (N - s)) bs) = Some m2 ->
  circ_holds N m2 s bs /\ circ_frame N m m2 s (zlen bs).
Proof.
  intros Hs Hlen H1 H2.
  set (b1 := take _ bs) in *. set (b2 := drop _ bs) in *.
  assert (Hl1 : zlen b1 = N - s) by (unfold b1; rewrite length_take; lia).
  assert (Hl2 : zlen b2 = zlen bs - (N - s)) by (unfold b2; rewrite length_drop; lia).
  apply circ_write_flat in H1 as [Hh1 Hf1]; [|lia].
  apply circ_write_flat in H2 as [Hh2 Hf2]; [|lia].
  assert (Hf2' : circ_frame N m1 m2 (s + zlen b1) (zlen b2)).
  { destruct Hf2 as [? Hf2]. split; [done|]. intros p Hp Hout. apply Hf2; [done|].
    destruct Hout as [|Hout]; [by left|right].
    replace (p - (s + zlen b1)) with (p - 0 + (-1) * N) in Hout by lia.
    by rewrite Z.mod_add in Hout by lia. }
  split.
  - rewrite <- (take_drop (Z.to_nat (N - s)) bs). apply circ_holds_app. fold b1 b2. split.
    + eapply circ_holds_frame; [done|done|exact Hf2|..].
      * replace (s - 0) with s by lia. rewrite Z.mod_small; lia.
      * replace (s - 0) with s by lia. rewrite Z.mod_small; lia.
    + rewrite Hl1. replace (s + (N - s)) with N by lia.
      apply (circ_holds_mod HN). by rewrite Z.mod_same by lia.
  - replace (zlen bs) with (zlen b1 + zlen b2) by lia.
    eapply circ_frame_trans; eauto; lia.
Qed.

(** A copy out of the buffer that does not wrap. *)
Lemma circ_read_flat m s n bs :
  mem_read m s n = Some bs -> s + n <= N -> circ_holds N m s bs.
Proof.
  intros (? & ? & ? & Hl & Hin)%mem_read_inv ? i Hi.
  rewrite Z.mod_small by lia. symmetry. apply Hin. lia.
Qed.

Lemma circ_read_wrap m s n b1 b2 :
  0 <= s < N -> 0 <= n - (N - s) -> n <= N ->
  mem_read m s (N - s) = Some b1 -> mem_read m 0 (n - (N - s)) = Some b2 ->
  circ_holds N m s (b1 ++ b2) /\ zlen (b1 ++ b2) = n.
Proof.
  intros Hs ? ? H1 H2.
  pose proof (mem_read_inv _ _ _ _ H1) as (_ & _ & _ & Hl1 & _).
  pose proof (mem_read_inv _ _ _ _ H2) as (_ & _ & _ & Hl2 & _).
  split; [|rewrite length_app; lia].
  apply circ_holds_app. split; [eapply circ_read_flat; eauto; lia|].
  apply (circ_holds_mod HN). rewrite Hl1. replace (s + (N - s)) with N by lia.
  rewrite Z.mod_same by lia. eapply circ_read_flat; eauto. lia.
Qed.

(** A copy of at most [N] bytes into the buffer, split where it wraps. *)
Lemma circ_write_ok m s bs :
  0 <= s < N -> zlen bs <= N -> N <= zlen m ->
  exists m',
    (if zlen bs <=? N - s then mem_write m s bs
     else m1 ← mem_write m s (take (Z.to_nat (N - s)) bs);
          mem_write m1 0 (drop (Z.to_nat (N - s)) bs)) = Some m' /\
    circ_holds N m' s bs /\ circ_frame N m m' s (zlen bs).
Proof.
  intros Hs Hl Hm. destruct (Z.leb_spec (zlen bs) (N - s)).
  - destruct (mem_write_Some m s bs) as [m' Hw]; [lia..|].
    exists m'. split; [done|]. apply circ_write_flat; [done|lia].
  - destruct (mem_write_Some m s (take (Z.to_nat (N - s)) bs)) as [m1 Hw1];
      [lia|rewrite length_take; lia|].
    pose proof (mem_write_inv _ _ _ _ Hw1) as (_ & _ & Hlen & _).
    destruct (mem_write_Some m1 0 (drop (Z.to_nat (N - s)) bs)) as [m2 Hw2];
      [lia|rewrite length_drop; lia|].
    exists m2. rewrite Hw1. split; [exact Hw2|].
    eapply circ_write_wrap; eauto; lia.
Qed.

(** The matching copy out of the buffer. *)
Lemma circ_read_ok m s bs :
  circ_holds N m s bs -> 0 <= s < N -> zlen bs <= N -> N <= zlen m ->
  (if zlen bs <=? N - s then mem_read m s (zlen bs)
   else b1 ← mem_read m s (N - s);
        b2 ← mem_read m 0 (zlen bs - (N - s));
        Some (b1 ++ b2)) = Some bs.
Proof.
  intros Hh Hs Hl Hm. destruct (Z.leb_spec (zlen bs) (N - s)).
  - destruct (mem_read_Some m s (zlen bs)) as (b & Hr & Hb); [lia..|].
    rewrite Hr. f_equal. eapply circ_holds_ext; [eapply circ_read_flat|..]; eauto; lia.
  - destruct (mem_read_Some m s (N - s)) as (b1 & Hr1 & Hb1); [lia..|].
    destruct (mem_read_Some m 0 (zlen bs - (N - s))) as (b2 & Hr2 & Hb2); [lia..|].
    rewrite Hr1. cbn. rewrite Hr2. cbn. f_equal.
    destruct (circ_read_wrap m s (zlen bs) b1 b2) as [Hh' Hl']; [done|lia..|done|done|].
    eapply circ_holds_ext; eauto. lia.
Qed.

Lemma circ_list_length m s n : 0 <= n -> zlen (circ_list N m s n) = n.
Proof. intros. unfold circ_list. rewrite length_fmap, length_seq. lia. Qed.

Lemma circ_list_holds m s n :
  0 <= n -> N <= zlen m -> circ_holds N m s (circ_list N m s n).
Proof.
  intros Hn Hm i Hi. rewrite circ_list_length in Hi by lia.
  unfold circ_list. rewrite geti_fmap, (geti_to_nat (seq _ _)) by lia.
  rewrite lookup_seq_lt by lia. cbn. rewrite Z2Nat.id by lia.
  destruct (geti_is_Some m ((s + i) mod N)) as [x ->]; [|done].
  pose proof (Z.mod_pos_bound (s + i) N). lia.
Qed.

Lemma circ_list_unique m s bs :
  N <= zlen m -> circ_holds N m s bs -> circ_list N m s (zlen bs) = bs.
Proof.
  intros. eapply circ_holds_ext; [by apply circ_list_holds; lia|done|].
  apply Nat2Z.inj, circ_list_length. lia.
Qed.

End Circular.
