(* ===== verification/Sem.v ===== *)
(** * Semaphores (include/msem.h)

    A semaphore set is the list of its values, as the System V calls keep it.
    [semop] is one attempt of the system call; the wrappers of msem.h retry or
    give up on the errno it sets.  An attempt that fails for a reason of the
    kernel's own (an interrupted call, most of all) is an errno of the script
    [intr] that the wrapper meets before the attempt that reaches the set. *)

From S2P Require Import Prelude.

Definition SEMVMX : Z := 32767.
Definition EFBIG : Z := 27.

Inductive semop_result :=
| SemDone (sems : list Z)
| SemFail (errno : Z)
| SemSleep.

(** [semop] of one operation [op] on semaphore [n] of a set. *)
Definition semop (sems : list Z) (n op : Z) (nowait : bool) : semop_result :=
  match geti sems n with
  | None => SemFail EFBIG
  | Some v =>
      if SEMVMX <? v + op then SemFail ERANGE
      else if v + op <? 0 then (if nowait then SemFail EAGAIN else SemSleep)
      else SemDone (<[Z.to_nat n := v + op]> sems)
  end.

Fixpoint SemAdd (intr : list Z) (sems : list Z) (sem_num : Z) : Z * list Z :=
  match intr with
  | e :: intr' =>
      let rc := - e in
      if rc =? - EINTR then SemAdd intr' sems sem_num else (rc, sems)
  | [] =>
      match semop sems sem_num 1 true with
      | SemDone sems' => (0, sems')
      | SemFail e => (- e, sems)
      | SemSleep => (0, sems)
      end
  end.

(** [None]: the caller sleeps until the semaphore is raised. *)
Fixpoint SemReq (intr : list Z) (sems : list Z) (sem_num : Z) : option (Z * list Z) :=
  match intr with
  | e :: intr' =>
      if e =? - EINTR then SemReq intr' sems sem_num else Some (- e, sems)
  | [] =>
      match semop sems sem_num (-1) false with
      | SemDone sems' => Some (0, sems')
      | SemFail e => Some (- e, sems)
      | SemSleep => None
      end
  end.

Definition SemSetVal (sems : list Z) (sem_num val : Z) : Z * list Z :=
  if (0 <=? val) && (val <=? SEMVMX)
  then match seti sems sem_num val with
       | Some sems' => (0, sems')
       | None => (-1, sems)
       end
  else (-1, sems).

Definition SemGetVal (sems : list Z) (sem_num : Z) : Z :=
  default (-1) (geti sems sem_num).

(** [SemCreate] on the table of the existing sets, by key: the set's values and
    the return value, which is the key as the set's identifier. *)
Definition SemCreate (tbl : list (Z * list Z)) (SemKey SemNum : Z) : Z * list (Z * list Z) :=
  match List.find (fun p => fst p =? SemKey) tbl with
  | None => (SemKey, (SemKey, replicate (Z.to_nat SemNum) 0) :: tbl)
  | Some (_, sems) =>
      if SemNum <=? zlen sems then (SemKey, tbl) else (- 17, tbl)
  end.

(** A set whose values the kernel can hold. *)
Definition sems_ok (sems : list Z) : Prop := Forall (fun v => 0 <= v <= SEMVMX) sems.

Section SemFacts.
Implicit Types (sems : list Z) (n v : Z).

Lemma sems_ok_geti sems n v : sems_ok sems -> geti sems n = Some v -> 0 <= v <= SEMVMX.
Proof.
  unfold geti. destruct (0 <=? n); [|done]. intros Hok ?.
  unfold sems_ok in Hok. rewrite Forall_lookup in Hok. eauto.
Qed.

Lemma SemAdd_interrupted k sems n :
  SemAdd (replicate k EINTR) sems n = SemAdd [] sems n.
Proof. induction k as [|k IH]; [done|]. exact IH. Qed.

Lemma SemAdd_spec sems n v :
  sems_ok sems -> geti sems n = Some v ->
  SemAdd [] sems n =
    (if v <? SEMVMX then (0, <[Z.to_nat n := v + 1]> sems) else (- ERANGE, sems)).
Proof.
  intros Hok Hv. cbn. unfold semop. rewrite Hv.
  pose proof (sems_ok_geti _ _ _ Hok Hv).
  unfold SEMVMX in *. zcase; done.
Qed.

Lemma SemReq_spec sems n v :
  sems_ok sems -> geti sems n = Some v ->
  SemReq [] sems n =
    (if 0 <? v then Some (0, <[Z.to_nat n := v - 1]> sems) else None).
Proof.
  intros Hok Hv. cbn. unfold semop. rewrite Hv.
  pose proof (sems_ok_geti _ _ _ Hok Hv).
  unfold SEMVMX in *. zcase; done.
Qed.

Lemma sems_ok_insert sems i v : sems_ok sems -> 0 <= v <= SEMVMX -> sems_ok (<[i := v]> sems).
Proof. intros. by apply Forall_insert. Qed.

End SemFacts.

#[export] Hint Resolve sems_ok_insert : cmem.
