(* ===== verification/SecFifo.v ===== *)
(** * The byte FIFO between the stream threads (src/rtimage/sec_fifo.c)

    A circular buffer of [size] bytes with a write position [in_pos] (the field
    [in]) and a read position [out_pos] (the field [out]).  Its abstract state is
    the queue of the bytes written and not read yet. *)

From S2P Require Import Prelude Memory.

Definition SEC_MAX_LEN : Z := 1024 * 1024.
Definition sec_max_len : Z := SEC_MAX_LEN.

(** [buffer] is [None] while the pointer is null. *)
Record sec_buffer_t := {
  buffer : option (list Z); in_pos : Z; out_pos : Z; remain : Z; size : Z; stop : Z
}.

Definition set_io (b : list Z) (i o : Z) (s : sec_buffer_t) : sec_buffer_t :=
  {| buffer := Some b; in_pos := i; out_pos := o; remain := remain s; size := size s;
     stop := stop s |}.

(** [a % size], undefined for a buffer of size 0. *)
Definition wrap_pos (a size : Z) : option Z := if size =? 0 then None else Some (Z.rem a size).

(** The copy loop of [sec_buff_write]: the return value, the write position and
    the buffer. *)
Fixpoint sec_write_loop (fuel : nat) (b : list Z) (inp size : Z) (buff : list Z) (buff_cnt left : Z)
    : option (Z * Z * list Z) :=
  match fuel with
  | O => None
  | S fuel =>
      if 0 <? left then
        let valid_len := size - inp in
        if left <? valid_len then
          data ← mem_read buff buff_cnt left;
          b ← mem_write b inp data;
          inp ← wrap_pos (inp + left) size;
          sec_write_loop fuel b inp size buff left 0
        else
          data ← mem_read buff buff_cnt valid_len;
          b ← mem_write b inp data;
          inp ← wrap_pos (inp + valid_len) size;
          sec_write_loop fuel b inp size buff (buff_cnt + valid_len) (left - valid_len)
      else Some (buff_cnt, inp, b)
  end.

(** Every round copies at least one byte, except one that starts at the end of
    the buffer. *)
Definition sec_buff_write (s : sec_buffer_t) (buff : list Z) (buff_len : Z)
    : option (Z * sec_buffer_t) :=
  match buffer s with
  | None => Some (-1, s)
  | Some b =>
      '(cnt, inp, b) ← sec_write_loop (Z.to_nat buff_len + 2) b (in_pos s) (size s) buff 0 buff_len;
      Some (cnt, set_io b inp (out_pos s) s)
  end.

(** [memcpy] out of the buffer at [off], then [memset] of the same bytes. *)
Definition take_zero (b : list Z) (off n : Z) : option (list Z * list Z) :=
  data ← mem_read b off n;
  b ← mem_set b off 0 n;
  Some (data, b).

(** The bytes read are the third component; the return value is their number. *)
Definition sec_buff_read (s : sec_buffer_t) (len : Z) : option (Z * sec_buffer_t * list Z) :=
  if negb (stop s =? 0) then Some (-1, s, []) else
  b ← buffer s;
  let outp := out_pos s in
  let inp := in_pos s in
  if outp <=? inp then
    if outp + len <=? inp then
      '(data, b) ← take_zero b outp len;
      o ← wrap_pos (outp + len) (size s);
      Some (len, set_io b inp o s, data)
    else
      let tmp_len := inp - outp in
      '(data, b) ← take_zero b outp tmp_len;
      o ← wrap_pos (outp + tmp_len) (size s);
      Some (tmp_len, set_io b inp o s, data)
  else
    if outp + len <=? size s then
      data ← mem_read b outp len;
      o ← wrap_pos (outp + len) (size s);
      Some (len, set_io b inp o s, data)
    else
      let tmp_len := size s - outp in
      '(d1, b) ← take_zero b outp tmp_len;
      o ← wrap_pos (outp + tmp_len) (size s);
      let tmp_len2 := len - tmp_len in
      '(d2, b) ← take_zero b 0 tmp_len2;
      o ← wrap_pos (o + tmp_len2) (size s);
      Some (tmp_len + tmp_len2, set_io b inp o s, d1 ++ d2).

(** [None]: [malloc] failed. *)
Definition sec_buff_init (area : option (list Z)) (s : sec_buffer_t) : Z * sec_buffer_t :=
  match area with
  | None => (-1, {| buffer := None; in_pos := 0; out_pos := 0; remain := 0; size := 0; stop := 0 |})
  | Some b => (0, {| buffer := Some b; in_pos := 0; out_pos := 0; remain := 0;
                     size := sec_max_len - 1; stop := 0 |})
  end.

Definition sec_buff_exit (s : sec_buffer_t) : sec_buffer_t := s.

Definition sec_buff_remain (s : sec_buffer_t) : Z :=
  if out_pos s <=? in_pos s then in_pos s - out_pos s else in_pos s + size s - out_pos s.

Definition sec_buff_resize (s : sec_buffer_t) (resize : Z) : sec_buffer_t :=
  let resize := if SEC_MAX_LEN <=? resize then SEC_MAX_LEN else resize in
  {| buffer := buffer s;
     in_pos := if resize <=? in_pos s then resize else in_pos s;
     out_pos := if resize <=? out_pos s then resize else out_pos s;
     remain := remain s; size := resize; stop := stop s |}.

Definition sec_buff_get_size (s : sec_buffer_t) : Z := size s.

(** ** The queue *)

(** [s] holds the bytes [q], oldest first. *)
Definition fifo_rep (s : sec_buffer_t) (q : list Z) : Prop :=
  exists b, buffer s = Some b /\ 0 < size s <= zlen b /\ 0 <= out_pos s < size s /\
    in_pos s = (out_pos s + zlen q) mod size s /\ zlen q < size s /\
    circ_holds (size s) b (out_pos s) q.

Section Queue.
Implicit Types (s : sec_buffer_t) (q bs b : list Z).

Lemma wrap_pos_mod a n : 0 < n -> 0 <= a -> wrap_pos a n = Some (a mod n).
Proof. intros. unfold wrap_pos. rewrite (proj2 (Z.eqb_neq n 0)), Z.rem_mod_nonneg by lia. done. Qed.

Lemma mem_read_all l n : n = zlen l -> mem_read l 0 n = Some l.
Proof.
  intros ->. unfold mem_read. rewrite (proj2 (Z.leb_le _ _)), (proj2 (Z.leb_le _ _)) by lia.
  rewrite (proj2 (Z.leb_le _ _)) by lia. cbn [andb]. by rewrite drop_0, Nat2Z.id, firstn_all.
Qed.

Lemma mem_read_take l k n : n = k -> 0 <= k <= zlen l -> mem_read l 0 n = Some (take (Z.to_nat k) l).
Proof.
  intros -> ?. unfold mem_read. rewrite (proj2 (Z.leb_le 0 0)), (proj2 (Z.leb_le 0 k)) by lia.
  rewrite (proj2 (Z.leb_le _ _)) by lia. done.
Qed.

Lemma mem_read_drop l k n : 0 <= k <= zlen l -> n = zlen l - k -> mem_read l k n = Some (drop (Z.to_nat k) l).
Proof.
  intros ? ->. unfold mem_read. rewrite (proj2 (Z.leb_le 0 k)), (proj2 (Z.leb_le 0 _)) by lia.
  rewrite (proj2 (Z.leb_le _ _)) by lia. cbn [andb]. rewrite firstn_all2; [done|].
  rewrite length_drop. lia.
Qed.

(** What [sec_buff_write] returns: the bytes of the last copy after a wrap. *)
Definition write_ret (inp len size : Z) : Z :=
  if inp + len <=? size then len else inp + len - size.

Lemma write_loop_done fuel b inp N bs cnt left :
  left <= 0 -> sec_write_loop (S fuel) b inp N bs cnt left = Some (cnt, inp, b).
Proof. intros. cbn. destruct (Z.ltb_spec 0 left); [lia|done]. Qed.

(** One round that copies [data]. *)
Lemma write_loop_step fuel b inp N bs cnt left data b' :
  0 < N -> 0 <= inp <= N -> 0 < left -> data = take (Z.to_nat (Z.min left (N - inp))) (drop (Z.to_nat cnt) bs) ->
  0 <= cnt -> cnt + left <= zlen bs -> mem_write b inp data = Some b' ->
  sec_write_loop (S fuel) b inp N bs cnt left =
    if left <? N - inp then sec_write_loop fuel b' ((inp + left) mod N) N bs left 0
    else sec_write_loop fuel b' 0 N bs (cnt + (N - inp)) (left - (N - inp)).
Proof.
  intros HN Hi Hl -> Hc Hb Hw. cbn [sec_write_loop]. destruct (Z.ltb_spec 0 left); [|lia].
  unfold mem_read. rewrite (proj2 (Z.leb_le 0 cnt)) by lia.
  destruct (Z.ltb_spec left (N - inp)).
  - rewrite (proj2 (Z.leb_le 0 left)), (proj2 (Z.leb_le _ _)) by lia. cbn [andb mbind option_bind].
    rewrite Z.min_l in Hw by lia. rewrite Hw. cbn [mbind option_bind].
    by rewrite wrap_pos_mod by lia.
  - rewrite (proj2 (Z.leb_le 0 (N - inp))), (proj2 (Z.leb_le _ _)) by lia. cbn [andb mbind option_bind].
    rewrite Z.min_r in Hw by lia. rewrite Hw. cbn [mbind option_bind].
    rewrite wrap_pos_mod by lia. replace (inp + (N - inp)) with N by lia.
    by rewrite Z_mod_same_full.
Qed.

Lemma sec_write_loop_spec fuel b inp N bs :
  0 < N <= zlen b -> 0 <= inp < N -> 0 < zlen bs < N -> (2 < fuel)%nat ->
  exists b', sec_write_loop fuel b inp N bs 0 (zlen bs) =
      Some (write_ret inp (zlen bs) N, (inp + zlen bs) mod N, b') /\
    circ_holds N b' inp bs /\ circ_frame N b b' inp (zlen bs).
Proof.
  intros HN Hin Hbs Hf. destruct fuel as [|[|[|fuel]]]; try lia. unfold write_ret.
  destruct (Z.ltb_spec (zlen bs) (N - inp)).
  - destruct (mem_write_Some b inp bs) as [b' Hw]; [lia|lia|].
    rewrite (write_loop_step _ b inp N bs 0 (zlen bs) bs b') by
      (first [done|lia|rewrite Z.min_l, drop_0, Nat2Z.id, firstn_all by lia; done]).
    rewrite (proj2 (Z.ltb_lt _ _)), write_loop_done, (proj2 (Z.leb_le _ _)) by lia.
    exists b'. split; [done|]. apply circ_write_flat; first [done|lia].
  - set (k := Z.to_nat (N - inp)).
    destruct (mem_write_Some b inp (take k bs)) as [b1 Hw1]; [lia|rewrite length_take; lia|].
    pose proof (mem_write_inv _ _ _ _ Hw1) as (_ & _ & Hl1 & _).
    rewrite (write_loop_step _ b inp N bs 0 (zlen bs) (take k bs) b1) by
      (first [done|lia|rewrite Z.min_r, drop_0 by lia; done]).
    rewrite (proj2 (Z.ltb_ge _ _)) by lia.
    destruct (Z.leb_spec (inp + zlen bs) N).
    + rewrite write_loop_done by lia. exists b1.
      replace (inp + zlen bs) with N by lia. rewrite Z_mod_same_full.
      split; [do 3 f_equal; lia|]. rewrite firstn_all2 in Hw1 by lia.
      apply circ_write_flat; first [done|lia].
    + destruct (mem_write_Some b1 0 (drop k bs)) as [b2 Hw2]; [lia|rewrite length_drop; lia|].
      rewrite (write_loop_step _ b1 0 N bs _ _ (drop k bs) b2) by
        (first [done|lia|rewrite Z.min_l, (firstn_all2 (drop _ bs)) by
           (rewrite ?length_drop; lia); done]).
      rewrite (proj2 (Z.ltb_lt _ _)), write_loop_done by lia. exists b2. split.
      * do 3 f_equal; [lia|]. rewrite <- (Z_mod_plus_full (inp + zlen bs) (-1)). f_equal. lia.
      * eapply circ_write_wrap; first [done|lia].
Qed.
Lemma take_zero_spec b off n N :
  0 <= off -> 0 <= n -> off + n <= N -> 0 < N <= zlen b ->
  exists data b', take_zero b off n = Some (data, b') /\ mem_read b off n = Some data /\
    circ_frame N b b' off n.
Proof.
  intros Ho Hn Hf HN. destruct (mem_read_Some b off n) as (data & Hr & _); [lia..|].
  destruct (mem_set_Some b off 0 n) as [b' Hw]; [lia..|].
  exists data, b'. unfold take_zero. rewrite Hr. cbn. rewrite Hw. cbn. split; [done|]. split; [done|].
  apply mem_set_inv in Hw as (_ & _ & _ & Hl & Hout). split; [done|].
  intros p Hp Hrel. apply Hout; [done|]. destruct Hrel as [|Hrel]; [lia|].
  destruct (Z.le_gt_cases N p); [lia|]. destruct (Z.le_gt_cases off p); [|lia].
  rewrite Z.mod_small in Hrel; lia.
Qed.

Lemma circ_frame_mod N b b' (o n : Z) : circ_frame N b b' o n -> circ_frame N b b' (o + N) n.
Proof.
  intros [Hl Hf]. split; [done|]. intros p Hp Hrel. apply Hf; [done|].
  replace (p - (o + N)) with (p - o + (-1) * N) in Hrel by lia.
  by rewrite Z_mod_plus_full in Hrel.
Qed.

(** The rest of the queue after its first [n] bytes were read and zeroed. *)
Lemma rest_holds N b b' o q n :
  0 < N -> 0 <= n -> n <= zlen q < N -> circ_holds N b o q -> circ_frame N b b' o n ->
  circ_holds N b' (o + n) (drop (Z.to_nat n) q).
Proof.
  intros HN Hn Hq Hh Hf. rewrite <- (take_drop (Z.to_nat n) q) in Hh.
  apply circ_holds_app in Hh as [_ Hh]. rewrite length_take, Nat.min_l in Hh by lia.
  rewrite Z2Nat.id in Hh by lia.
  replace (o + n) with (o + n) in * by lia.
  eapply circ_holds_frame; [exact HN|exact Hh|exact Hf|..];
    replace (o + n - o) with n by lia; rewrite Z.mod_small by lia; [lia|].
  rewrite length_drop. lia.
Qed.

(** A queue of fewer bytes. *)
Lemma rep_rest s b b' q n :
  0 < size s <= zlen b -> 0 <= out_pos s < size s -> in_pos s = (out_pos s + zlen q) mod size s ->
  zlen q < size s -> circ_holds (size s) b (out_pos s) q -> 0 <= n <= zlen q ->
  circ_frame (size s) b b' (out_pos s) n ->
  fifo_rep (set_io b' (in_pos s) ((out_pos s + n) mod size s) s) (drop (Z.to_nat n) q).
Proof.
  intros HN Ho Hin Hq Hh Hn Hf. exists b'. cbn. pose proof Hf as [Hl _].
  split_and!; try done; try lia.
  - apply Z.mod_pos_bound. lia.
  - apply Z.mod_pos_bound. lia.
  - rewrite Hin, length_drop, Z.add_mod_idemp_l by lia. f_equal. lia.
  - rewrite length_drop. lia.
  - apply circ_holds_mod; [lia|]. by eapply rest_holds; try done; lia.
Qed.
Lemma fifo_remain s q : fifo_rep s q -> sec_buff_remain s = zlen q.
Proof.
  intros (b & _ & HN & Ho & Hin & Hq & _). unfold sec_buff_remain.
  rewrite mod_wrap in Hin by lia. zcase_in Hin; zcase.
Qed.

Lemma mem_read_ext m1 m2 off n :
  length m1 = length m2 -> (forall p, off <= p < off + n -> geti m1 p = geti m2 p) ->
  mem_read m1 off n = mem_read m2 off n.
Proof.
  intros Hl Hg.
  destruct (mem_read m1 off n) as [d1|] eqn:H1; destruct (mem_read m2 off n) as [d2|] eqn:H2.
  - apply mem_read_inv in H1 as (_ & _ & _ & Hl1 & Hd1). apply mem_read_inv in H2 as (_ & _ & _ & Hl2 & Hd2).
    f_equal. apply geti_ext; [lia|]. intros i Hi. rewrite Hd1, Hd2 by lia. apply Hg. lia.
  - unfold mem_read in *. rewrite Hl in H1. destruct (_ && _); congruence.
  - unfold mem_read in *. rewrite Hl in H1. destruct (_ && _); congruence.
  - done.
Qed.

Lemma length_app_Z (l1 l2 : list Z) : zlen (l1 ++ l2) = zlen l1 + zlen l2.
Proof. rewrite length_app. lia. Qed.
End Queue.

(** A buffer of 8 bytes, and that it is empty when both positions agree. *)
Definition fifo8 : sec_buffer_t :=
  {| buffer := Some (replicate 8 0); in_pos := 0; out_pos := 0; remain := 0; size := 8; stop := 0 |}.

Lemma fifo8_rep i : 0 <= i < 8 -> fifo_rep (set_io (replicate 8 0) i i fifo8) [].
Proof.
  intros. exists (replicate 8 0). cbn. split_and!; try done; try lia.
  - rewrite Z.mod_small; lia.
  - intros j Hj. cbn in Hj. lia.
Qed.

(** C34. Writing to a FIFO with room for the bytes appends them to the queue, in
    one or two copies.  The return value is their number only when they do not
    wrap; after a wrap it is the number of bytes of the second copy. *)
Theorem sec_buff_write_appends s q bs :
  fifo_rep s q -> bs <> [] -> zlen q + zlen bs < size s ->
  exists ret s', sec_buff_write s bs (zlen bs) = Some (ret, s') /\ fifo_rep s' (q ++ bs) /\
    sec_buff_remain s' = zlen q + zlen bs /\ out_pos s' = out_pos s /\
    ret = (if in_pos s + zlen bs <=? size s then zlen bs else in_pos s + zlen bs - size s).
Proof.
  intros (b & Hb & HN & Ho & Hin & Hq & Hh) Hne Hroom.
  assert (Hlen : 0 < zlen bs) by (destruct bs; [done|cbn; lia]).
  pose proof (Z.mod_pos_bound (out_pos s + zlen q) (size s) ltac:(lia)) as Hr. rewrite <- Hin in Hr.
  unfold sec_buff_write. rewrite Hb.
  destruct (sec_write_loop_spec (Z.to_nat (zlen bs) + 2) b (in_pos s) (size s) bs)
    as (b' & -> & Hnew & Hf); [lia..|]. cbn [mbind option_bind].
  eexists _, _. split; [reflexivity|].
  assert (Hin' : (in_pos s + zlen bs) mod size s = (out_pos s + zlen (q ++ bs)) mod size s).
  { rewrite Hin, Z.add_mod_idemp_l, length_app by lia. f_equal. lia. }
  assert (Hrep : fifo_rep (set_io b' ((in_pos s + zlen bs) mod size s) (out_pos s) s) (q ++ bs)).
  { exists b'. cbn. pose proof Hf as [Hl _]. split_and!; try done; try lia.
    - rewrite length_app. lia.
    - apply circ_holds_app. split.
      + destruct (decide (zlen q = 0)) as [Hq0|Hq0]; [intros i Hi; lia|].
        assert (Hd : (out_pos s - in_pos s) mod size s = size s - zlen q).
        { rewrite Hin, Zminus_mod_idemp_r. replace (out_pos s - _) with (- zlen q) by lia.
          rewrite Z_mod_nz_opp_full; rewrite Z.mod_small; lia. }
        eapply circ_holds_frame; [|exact Hh|exact Hf|..]; lia.
      + apply (circ_holds_mod (N := size s)); [lia|]. rewrite <- Hin. done. }
  split; [exact Hrep|]. split; [|done]. rewrite <- length_app_Z. by apply fifo_remain.
Qed.

Lemma sec_buff_write_appends_witness :
  exists ret s', sec_buff_write (set_io (replicate 8 0) 6 6 fifo8) [1; 2; 3; 4] 4 = Some (ret, s') /\
    fifo_rep s' [1; 2; 3; 4] /\ ret = 2.
Proof.
  destruct (sec_buff_write_appends (set_io (replicate 8 0) 6 6 fifo8) [] [1; 2; 3; 4])
    as (ret & s' & H1 & H2 & _ & _ & H3); [apply fifo8_rep; lia|done|cbn; lia|].
  exists ret, s'. split; [exact H1|]. split; [exact H2|exact H3].
Defined.


(** C35. On a FIFO that is not stopped, reading [len] bytes that are there, or any [len]
    while the data does not wrap, takes the oldest [min len] bytes off the queue and returns their
    number. *)
Theorem sec_buff_read_takes s q len :
  fifo_rep s q -> stop s = 0 -> 0 <= len -> len <= zlen q \/ out_pos s <= in_pos s ->
  let n := Z.min len (zlen q) in
  exists s', sec_buff_read s len = Some (n, s', take (Z.to_nat n) q) /\
    fifo_rep s' (drop (Z.to_nat n) q) /\ sec_buff_remain s' = zlen q - n.
Proof.
  intros (b & Hb & HN & Ho & Hin & Hq & Hh) Hstop Hlen Hcase n.
  enough (exists b', sec_buff_read s len =
      Some (n, set_io b' (in_pos s) ((out_pos s + n) mod size s) s, take (Z.to_nat n) q) /\
      circ_frame (size s) b b' (out_pos s) n) as (b' & Hret & Hf).
  { eexists. split; [exact Hret|].
    assert (Hrep : fifo_rep (set_io b' (in_pos s) ((out_pos s + n) mod size s) s) (drop (Z.to_nat n) q))
      by (eapply rep_rest; try done; lia).
    split; [done|]. rewrite (fifo_remain _ _ Hrep), length_drop. lia. }
  assert (Htake : circ_holds (size s) b (out_pos s) (take (Z.to_nat n) q)).
  { rewrite <- (take_drop (Z.to_nat n) q) in Hh. by apply circ_holds_app in Hh as [Hh _]. }
  assert (Hln : zlen (take (Z.to_nat n) q) = n) by (rewrite length_take; lia).
  pose proof (circ_read_ok (N := size s) ltac:(lia) b (out_pos s) _ Htake ltac:(lia) ltac:(lia) ltac:(lia)) as Hread.
  rewrite Hln in Hread. rewrite mod_wrap in Hin by lia.
  unfold sec_buff_read. rewrite Hstop, Hb. cbn [negb Z.eqb mbind option_bind].
  destruct (Z.leb_spec (out_pos s) (in_pos s)) as [Hle|Hgt].
  - assert (Hz : zlen q = in_pos s - out_pos s /\ in_pos s < size s) by (zcase_in Hin; lia).
    destruct (Z.leb_spec n (size s - out_pos s)); [|lia].
    destruct (take_zero_spec b (out_pos s) n (size s)) as (data & b' & Ht & Hr & Hf); [lia..|].
    rewrite Hr in Hread. injection Hread as ->.
    destruct (Z.leb_spec (out_pos s + len) (in_pos s)).
    + replace len with n by lia. rewrite Ht. cbn [mbind option_bind].
      rewrite wrap_pos_mod by lia. cbn. eauto.
    + replace (in_pos s - out_pos s) with n by lia. rewrite Ht. cbn [mbind option_bind].
      rewrite wrap_pos_mod by lia. cbn. eauto.
  - assert (n = len) as -> by lia.
    destruct (Z.leb_spec (out_pos s + len) (size s)).
    + rewrite (proj2 (Z.leb_le len (size s - out_pos s))) in Hread by lia.
      rewrite Hread. cbn [mbind option_bind]. rewrite wrap_pos_mod by lia. cbn.
      eexists; split; [done|]. split; [done|]. done.
    + rewrite (proj2 (Z.leb_gt len (size s - out_pos s))) in Hread by lia.
      set (n1 := size s - out_pos s) in *.
      destruct (take_zero_spec b (out_pos s) n1 (size s)) as (d1 & b1 & Ht1 & Hr1 & Hf1); [lia..|].
      pose proof Hf1 as [Hl1 _].
      destruct (take_zero_spec b1 0 (len - n1) (size s)) as (d2 & b2 & Ht2 & Hr2 & Hf2); [lia..|].
      rewrite Ht1. cbn [mbind option_bind]. rewrite wrap_pos_mod by lia. cbn [mbind option_bind].
      rewrite Ht2. cbn [mbind option_bind]. rewrite wrap_pos_mod by (try apply Z.add_nonneg_nonneg; try apply Z.mod_pos_bound; lia).
      cbn [mbind option_bind]. rewrite Hr1 in Hread. cbn [mbind option_bind] in Hread.
      assert (Hr2' : mem_read b 0 (len - n1) = Some d2).
      { rewrite <- Hr2. symmetry. apply mem_read_ext; [exact Hl1|].
        intros p Hp. apply Hf1; [lia|]. right.
        rewrite <- (Z_mod_plus_full _ 1), Z.mod_small by lia. lia. }
      rewrite Hr2' in Hread. cbn in Hread. injection Hread as <-.
      exists b2. split.
      * rewrite Z.add_mod_idemp_l by lia. replace (n1 + (len - n1)) with len by lia.
        by replace (out_pos s + n1 + (len - n1)) with (out_pos s + len) by lia.
      * replace len with (n1 + (len - n1)) by lia. eapply circ_frame_trans; [lia|exact Hf1| |lia..].
        replace (out_pos s + n1) with (0 + size s) by lia. by apply circ_frame_mod.
Qed.

Lemma sec_buff_read_takes_witness :
  exists s', sec_buff_read (set_io [3; 4; 0; 0; 0; 0; 1; 2] 2 6 fifo8) 3 = Some (3, s', [1; 2; 3]) /\
    fifo_rep s' [4].
Proof.
  destruct (sec_buff_read_takes (set_io [3; 4; 0; 0; 0; 0; 1; 2] 2 6 fifo8) [1; 2; 3; 4] 3)
    as (s' & H1 & H2 & _); [|done|lia|left; cbn; lia|].
  - eexists. cbn. split_and!; try done. intros i Hi. cbn in Hi.
    assert (i = 0 \/ i = 1 \/ i = 2 \/ i = 3) as [->|[->|[->| ->]]] by lia; reflexivity.
  - exists s'. split; [exact H1|exact H2].
Defined.

(** A read of a wrapped queue does not stop at the write position: asked for more
    bytes than there are, it returns stale ones, and its position passes the
    write position, so that the buffer then seems to hold almost [size] bytes. *)
Lemma sec_buff_read_overruns s q len :
  fifo_rep s q -> stop s = 0 -> in_pos s < out_pos s -> zlen q < len <= size s ->
  exists s' data, sec_buff_read s len = Some (len, s', data) /\
    (in_pos s < size s - (len - zlen q) -> sec_buff_remain s' = size s - (len - zlen q)).
Proof.
  intros (b & Hb & HN & Ho & Hin & Hq & Hh) Hstop Hlt Hlen.
  pose proof (Z.mod_pos_bound (out_pos s + zlen q) (size s) ltac:(lia)) as Hpos.
  rewrite <- Hin in Hpos. rewrite mod_wrap in Hin by lia.
  assert (Hz : zlen q = in_pos s + size s - out_pos s) by (zcase_in Hin; lia).
  unfold sec_buff_read. rewrite Hstop, Hb. cbn [negb Z.eqb mbind option_bind].
  destruct (Z.leb_spec (out_pos s) (in_pos s)); [lia|].
  destruct (Z.leb_spec (out_pos s + len) (size s)); [lia|].
  set (n1 := size s - out_pos s) in *.
  destruct (take_zero_spec b (out_pos s) n1 (size s)) as (d1 & b1 & -> & _ & [Hl1 _]); [lia..|].
  cbn [mbind option_bind]. replace (out_pos s + n1) with (size s) by lia.
  rewrite wrap_pos_mod by lia. rewrite Z_mod_same_full. cbn [mbind option_bind].
  destruct (take_zero_spec b1 0 (len - n1) (size s)) as (d2 & b2 & -> & _ & _); [lia..|].
  cbn [mbind option_bind]. rewrite wrap_pos_mod by lia. cbn [mbind option_bind].
  replace (n1 + (len - n1)) with len by lia.
  eexists _, _. split; [reflexivity|]. intros Hfit.
  unfold sec_buff_remain. cbn. rewrite Z.mod_small by lia. zcase.
Qed.

(** The last [n] of the first [m] bytes. *)
Definition last_of (n m : Z) (bs : list Z) : list Z := drop (Z.to_nat (m - n)) (take (Z.to_nat m) bs).

Lemma last_of_length n m bs : 0 <= n <= m -> m <= zlen bs -> zlen (last_of n m bs) = n.
Proof. intros. unfold last_of. rewrite length_drop, length_take. lia. Qed.

Lemma last_of_app n k m bs : 0 <= n -> 0 <= k -> n + k <= m <= zlen bs -> last_of (n + k) m bs = last_of n (m - k) bs ++ last_of k m bs.
Proof.
  intros Hn Hk Hm. unfold last_of. replace (Z.to_nat m) with (Z.to_nat (m - k) + Z.to_nat k)%nat by lia.
  rewrite <- take_take_drop, drop_app_le by (rewrite length_take; lia). replace (m - (n + k)) with (m - k - n) by lia.
  f_equal. by rewrite drop_app_length' by (rewrite length_take; lia).
Qed.

(** Where a copy of [left] bytes that wraps leaves the bytes it does not reach. *)
Lemma frame_wrap N b b1 b2 inp left : 0 < N -> 0 <= inp <= N -> N - inp <= left ->
  circ_frame N b b1 inp (N - inp) -> circ_frame N b1 b2 0 (left - (N - inp)) -> circ_frame N b (b2 : list Z) inp left.
Proof.
  intros HN Hi Hl [Hl1 H1] [Hl2 H2]. split; [congruence|]. intros p Hp Hout.
  destruct (Z.le_gt_cases N p) as [Hge | Hlt]; [rewrite H2, H1 by auto; done|]. destruct Hout as [|Hout]; [lia|].
  pose proof (Z.mod_pos_bound (p - inp) N HN). rewrite H2, H1; [done | lia | right; lia | lia |]. right. rewrite Z.sub_0_r, (Z.mod_small p) by lia.
  destruct (Z.lt_ge_cases p inp).
  - rewrite <- (Z_mod_plus_full (p - inp) 1), Z.mod_small in Hout by lia. lia.
  - rewrite Z.mod_small in Hout by lia. lia.
Qed.

Lemma write_loop_total fuel b inp N bs cnt left :
  0 < N <= zlen b -> 0 <= inp <= N -> 0 <= cnt -> 0 <= left -> cnt + left <= zlen bs ->
  left + (if inp =? N then 1 else 0) < Z.of_nat fuel ->
  exists cnt' b', sec_write_loop fuel b inp N bs cnt left =
      Some (cnt', if left =? 0 then inp else (inp + left) mod N, b') /\
    circ_holds N b' (inp + left - Z.min left N) (last_of (Z.min left N) (cnt + left) bs) /\ circ_frame N b b' inp left.
Proof.
  intros HN. revert b inp cnt left HN. induction fuel as [|fuel IH]; intros b inp cnt left HN Hi Hc Hl Hs Hf.
  { destruct (inp =? N); lia. }
  destruct (Z.eqb_spec left 0) as [->|].
  { rewrite write_loop_done by lia. eexists _, _. split; [done|]. split; [|apply circ_frame_refl].
    intros i. rewrite last_of_length by lia. lia. }
  set (data := take (Z.to_nat (Z.min left (N - inp))) (drop (Z.to_nat cnt) bs)).
  assert (Hd : zlen data = Z.min left (N - inp)) by (unfold data; rewrite length_take, length_drop; lia).
  assert (Hdl : forall k, k = Z.min left (N - inp) -> data = last_of k (cnt + k) bs).
  { intros k ->. unfold data, last_of. rewrite take_drop_commute. do 2 f_equal; lia. }
  destruct (mem_write_Some b inp data) as [b1 Hw]; [lia|lia|].
  pose proof (mem_write_inv _ _ _ _ Hw) as (_ & _ & Hl1 & _).
  destruct (circ_write_flat (N := N) b inp data b1 Hw ltac:(lia)) as [Hh1 Hf1].
  rewrite (write_loop_step _ b inp N bs cnt left data b1) by (try done; lia).
  destruct (Z.ltb_spec left (N - inp)).
  - destruct fuel as [|fuel]; [destruct (inp =? N); lia|]. rewrite write_loop_done by lia. eexists _, _. split; [done|].
    rewrite Z.min_l in * by lia. rewrite Hd in Hf1. replace (inp + left - left) with inp by lia. by rewrite <- Hdl by lia.
  - rewrite Z.min_r in Hd by lia. rewrite Hd in Hf1. set (n1 := N - inp) in *.
    destruct (IH b1 0 (cnt + n1) (left - n1)) as (c' & b' & -> & Hh2 & Hf2); try lia.
    { destruct (Z.eqb_spec 0 N), (Z.eqb_spec inp N); lia. }
    exists c', b'. split; [|split; [|by eapply frame_wrap; try done; lia]].
    { destruct (Z.eqb_spec (left - n1) 0).
      - replace (inp + left) with N by lia. by rewrite Z_mod_same_full.
      - do 3 f_equal. rewrite <- (Z_mod_plus_full (inp + left) (-1)). f_equal. lia. }
    replace (cnt + n1 + (left - n1)) with (cnt + left) in Hh2 by lia.
    destruct (Z.le_gt_cases N (left - n1)) as [Hbig | Hsmall].
    + rewrite !Z.min_r in * by lia. apply circ_holds_mod in Hh2; [|lia]. apply circ_holds_mod; [lia|].
      replace (inp + left - N) with (0 + (left - n1) - N + 1 * N) by lia. by rewrite Z_mod_plus_full.
    + rewrite (Z.min_l (left - n1)) in Hh2 by lia. set (m := Z.min n1 (N - (left - n1))).
      replace (Z.min left N) with (m + (left - n1)) by lia. rewrite last_of_app by lia.
      replace (cnt + left - (left - n1)) with (cnt + n1) by lia. apply circ_holds_app. rewrite last_of_length by lia. split.
      * rewrite (Hdl n1), <- (Z.sub_add m n1), last_of_app in Hh1 by lia. apply circ_holds_app in Hh1 as [_ Hh1].
        rewrite last_of_length, !Z.sub_add in Hh1 by lia. destruct (Z.eqb_spec m 0) as [Hz | Hm].
        { intros i. rewrite last_of_length by lia. lia. }
        replace (inp + left - (m + (left - n1))) with (inp + (n1 - m)) by lia.
        eapply circ_holds_frame; [exact (proj1 HN) | exact Hh1 | exact Hf2 | |]; rewrite ?last_of_length, Z.mod_small by lia; lia.
      * replace (inp + left - (m + (left - n1)) + m) with (0 + 1 * N) by lia. apply circ_holds_mod; [lia|]. rewrite Z_mod_plus_full.
        apply circ_holds_mod; [lia|]. by replace (0 + (left - n1) - (left - n1)) with 0 in Hh2 by lia.
Qed.

(** A write of any length ends, also when a resize has left the write position at the
    end of the buffer, and overwrites the oldest bytes if it must: of the bytes written the
    last ones, as many as the buffer has room for, are then in the buffer, up to the new
    write position, every byte that was not reached is as it was, and the read position
    stays. *)
Theorem sec_buff_write_ends s b bs len :
  buffer s = Some b -> 0 < size s <= zlen b -> 0 <= in_pos s <= size s -> 0 <= len <= zlen bs ->
  exists ret b', let n := Z.min len (size s) in
    sec_buff_write s bs len = Some (ret, set_io b' (if len =? 0 then in_pos s else (in_pos s + len) mod size s) (out_pos s) s) /\
    circ_holds (size s) b' (in_pos s + len - n) (last_of n len bs) /\ circ_frame (size s) b b' (in_pos s) len.
Proof.
  intros Hb HN Hi Hl. unfold sec_buff_write. rewrite Hb.
  destruct (write_loop_total (Z.to_nat len + 2) b (in_pos s) (size s) bs 0 len)
    as (cnt & b' & -> & Hholds); [lia..|destruct (in_pos s =? size s); lia|].
  eexists _, b'. split; [done | exact Hholds].
Qed.

(** Eleven bytes into four: the last four are there. *)
Lemma sec_buff_write_ends_witness :
  exists ret b', sec_buff_write (sec_buff_resize (set_io (replicate 8 0) 7 0 fifo8) 4)
      [1; 2; 3; 4; 5; 6; 7; 8; 9; 10; 11] 11 = Some (ret, set_io b' 3 0 (sec_buff_resize (set_io (replicate 8 0) 7 0 fifo8) 4)) /\
    circ_holds 4 b' 11 [8; 9; 10; 11] /\ take 4 b' = [9; 10; 11; 8].
Proof.
  destruct (sec_buff_write_ends (sec_buff_resize (set_io (replicate 8 0) 7 0 fifo8) 4) (replicate 8 0)
    [1; 2; 3; 4; 5; 6; 7; 8; 9; 10; 11] 11) as (ret & b' & H1 & H2 & _); [done|by vm_compute..|].
  exists ret, b'. split; [exact H1|]. split; [exact H2|]. vm_compute in H1. injection H1 as _ <-. reflexivity.
Defined.
