(* ===== verification/Crc32.v ===== *)
(** * The check sum of packets (src/libsrc/gtcomapi_ssl/tab_crc32.c)

    [tab_crc32] goes through a table, a byte at a time.  It is compared with the division
    by the polynomial, a bit at a time, and from that follows which errors it sees. *)

From S2P Require Import Prelude.

Definition is_byte (b : Z) : Prop := 0 <= b < 256.

Definition crc_table : list Z := [
  0x00000000; 0x77073096; 0xee0e612c; 0x990951ba; 0x076dc419; 0x706af48f;
  0xe963a535; 0x9e6495a3; 0x0edb8832; 0x79dcb8a4; 0xe0d5e91e; 0x97d2d988;
  0x09b64c2b; 0x7eb17cbd; 0xe7b82d07; 0x90bf1d91; 0x1db71064; 0x6ab020f2;
  0xf3b97148; 0x84be41de; 0x1adad47d; 0x6ddde4eb; 0xf4d4b551; 0x83d385c7;
  0x136c9856; 0x646ba8c0; 0xfd62f97a; 0x8a65c9ec; 0x14015c4f; 0x63066cd9;
  0xfa0f3d63; 0x8d080df5; 0x3b6e20c8; 0x4c69105e; 0xd56041e4; 0xa2677172;
  0x3c03e4d1; 0x4b04d447; 0xd20d85fd; 0xa50ab56b; 0x35b5a8fa; 0x42b2986c;
  0xdbbbc9d6; 0xacbcf940; 0x32d86ce3; 0x45df5c75; 0xdcd60dcf; 0xabd13d59;
  0x26d930ac; 0x51de003a; 0xc8d75180; 0xbfd06116; 0x21b4f4b5; 0x56b3c423;
  0xcfba9599; 0xb8bda50f; 0x2802b89e; 0x5f058808; 0xc60cd9b2; 0xb10be924;
  0x2f6f7c87; 0x58684c11; 0xc1611dab; 0xb6662d3d; 0x76dc4190; 0x01db7106;
  0x98d220bc; 0xefd5102a; 0x71b18589; 0x06b6b51f; 0x9fbfe4a5; 0xe8b8d433;
  0x7807c9a2; 0x0f00f934; 0x9609a88e; 0xe10e9818; 0x7f6a0dbb; 0x086d3d2d;
  0x91646c97; 0xe6635c01; 0x6b6b51f4; 0x1c6c6162; 0x856530d8; 0xf262004e;
  0x6c0695ed; 0x1b01a57b; 0x8208f4c1; 0xf50fc457; 0x65b0d9c6; 0x12b7e950;
  0x8bbeb8ea; 0xfcb9887c; 0x62dd1ddf; 0x15da2d49; 0x8cd37cf3; 0xfbd44c65;
  0x4db26158; 0x3ab551ce; 0xa3bc0074; 0xd4bb30e2; 0x4adfa541; 0x3dd895d7;
  0xa4d1c46d; 0xd3d6f4fb; 0x4369e96a; 0x346ed9fc; 0xad678846; 0xda60b8d0;
  0x44042d73; 0x33031de5; 0xaa0a4c5f; 0xdd0d7cc9; 0x5005713c; 0x270241aa;
  0xbe0b1010; 0xc90c2086; 0x5768b525; 0x206f85b3; 0xb966d409; 0xce61e49f;
  0x5edef90e; 0x29d9c998; 0xb0d09822; 0xc7d7a8b4; 0x59b33d17; 0x2eb40d81;
  0xb7bd5c3b; 0xc0ba6cad; 0xedb88320; 0x9abfb3b6; 0x03b6e20c; 0x74b1d29a;
  0xead54739; 0x9dd277af; 0x04db2615; 0x73dc1683; 0xe3630b12; 0x94643b84;
  0x0d6d6a3e; 0x7a6a5aa8; 0xe40ecf0b; 0x9309ff9d; 0x0a00ae27; 0x7d079eb1;
  0xf00f9344; 0x8708a3d2; 0x1e01f268; 0x6906c2fe; 0xf762575d; 0x806567cb;
  0x196c3671; 0x6e6b06e7; 0xfed41b76; 0x89d32be0; 0x10da7a5a; 0x67dd4acc;
  0xf9b9df6f; 0x8ebeeff9; 0x17b7be43; 0x60b08ed5; 0xd6d6a3e8; 0xa1d1937e;
  0x38d8c2c4; 0x4fdff252; 0xd1bb67f1; 0xa6bc5767; 0x3fb506dd; 0x48b2364b;
  0xd80d2bda; 0xaf0a1b4c; 0x36034af6; 0x41047a60; 0xdf60efc3; 0xa867df55;
  0x316e8eef; 0x4669be79; 0xcb61b38c; 0xbc66831a; 0x256fd2a0; 0x5268e236;
  0xcc0c7795; 0xbb0b4703; 0x220216b9; 0x5505262f; 0xc5ba3bbe; 0xb2bd0b28;
  0x2bb45a92; 0x5cb36a04; 0xc2d7ffa7; 0xb5d0cf31; 0x2cd99e8b; 0x5bdeae1d;
  0x9b64c2b0; 0xec63f226; 0x756aa39c; 0x026d930a; 0x9c0906a9; 0xeb0e363f;
  0x72076785; 0x05005713; 0x95bf4a82; 0xe2b87a14; 0x7bb12bae; 0x0cb61b38;
  0x92d28e9b; 0xe5d5be0d; 0x7cdcefb7; 0x0bdbdf21; 0x86d3d2d4; 0xf1d4e242;
  0x68ddb3f8; 0x1fda836e; 0x81be16cd; 0xf6b9265b; 0x6fb077e1; 0x18b74777;
  0x88085ae6; 0xff0f6a70; 0x66063bca; 0x11010b5c; 0x8f659eff; 0xf862ae69;
  0x616bffd3; 0x166ccf45; 0xa00ae278; 0xd70dd2ee; 0x4e048354; 0x3903b3c2;
  0xa7672661; 0xd06016f7; 0x4969474d; 0x3e6e77db; 0xaed16a4a; 0xd9d65adc;
  0x40df0b66; 0x37d83bf0; 0xa9bcae53; 0xdebb9ec5; 0x47b2cf7f; 0x30b5ffe9;
  0xbdbdf21c; 0xcabac28a; 0x53b39330; 0x24b4a3a6; 0xbad03605; 0xcdd70693;
  0x54de5729; 0x23d967bf; 0xb3667a2e; 0xc4614ab8; 0x5d681b02; 0x2a6f2b94;
  0xb40bbe37; 0xc30c8ea1; 0x5a05df1b; 0x2d02ef8d].

(** The loop over the bytes; [(int)crc] and the index are ints. *)
Fixpoint crc_loop (buf : list Z) (crc : Z) : option Z :=
  match buf with
  | [] => Some crc
  | b :: buf =>
      t ← geti crc_table (Z.land (Z.lxor (i32 crc) b) 0xff);
      crc_loop buf (Z.lxor t (Z.shiftr crc 8))
  end.

(** [buf] is the list of the [len] bytes that are read. *)
Definition tab_crc32 (buf : list Z) : option Z :=
  let crc := 0xffffffff in
  let crc := Z.lxor crc 0xffffffff in
  crc ← crc_loop buf crc;
  Some (Z.lxor crc 0xffffffff).

(** ** Division by the polynomial, the lowest bit first *)

Definition crc_bit (c : Z) : Z := if Z.odd c then Z.lxor (Z.shiftr c 1) 0xedb88320 else Z.shiftr c 1.
Definition crc_byte (c b : Z) : Z := Nat.iter 8 crc_bit (Z.lxor c b).
Definition crc_bits (buf : list Z) (c : Z) : Z := fold_left crc_byte buf c.

Definition is_u32 (c : Z) : Prop := 0 <= c < 2 ^ 32.

Lemma u32_bits c : is_u32 c <-> 0 <= c /\ forall i, 32 <= i -> Z.testbit c i = false.
Proof.
  unfold is_u32. split.
  - intros [H0 H]. split; [done|]. intros i Hi. rewrite <- (Z.mod_small c (2 ^ 32)) by done. apply Z.mod_pow2_bits_high. lia.
  - intros [H0 H]. split; [done|]. destruct (Z.eq_dec c 0) as [->|]; [lia|].
    apply Z.log2_lt_pow2; [lia|]. apply Z.lt_nge. intros Hge. specialize (H _ Hge). rewrite Z.bit_log2 in H by lia. discriminate.
Qed.

Lemma xor_u32 a b : is_u32 a -> is_u32 b -> is_u32 (Z.lxor a b).
Proof.
  rewrite !u32_bits. intros [Ha Ha'] [Hb Hb']. split; [by apply Z.lxor_nonneg|].
  intros i Hi. by rewrite Z.lxor_spec, Ha', Hb' by done.
Qed.

Lemma shiftr_u32 c n : 0 <= n -> is_u32 c -> is_u32 (Z.shiftr c n).
Proof.
  rewrite !u32_bits. intros Hn [Hc Hc']. split; [by apply Z.shiftr_nonneg|].
  intros i Hi. rewrite Z.shiftr_spec by lia. apply Hc'. lia.
Qed.

Lemma byte_u32 b : is_byte b -> is_u32 b.
Proof. unfold is_byte, is_u32. lia. Qed.

#[export] Hint Resolve xor_u32 shiftr_u32 byte_u32 : cmem.

(** *** A step is linear *)

Lemma odd_testbit c : Z.odd c = Z.testbit c 0.
Proof. symmetry. apply Z.bit0_odd. Qed.

Lemma crc_bit_xor a b : crc_bit (Z.lxor a b) = Z.lxor (crc_bit a) (crc_bit b).
Proof.
  unfold crc_bit. rewrite !odd_testbit, Z.lxor_spec, Z.shiftr_lxor.
  destruct (Z.testbit a 0), (Z.testbit b 0); cbn [xorb].
  - rewrite (Z.lxor_comm (Z.shiftr b 1)), !Z.lxor_assoc, <- (Z.lxor_assoc 0xedb88320), Z.lxor_nilpotent, Z.lxor_0_l. done.
  - rewrite !Z.lxor_assoc. f_equal. apply Z.lxor_comm.
  - by rewrite Z.lxor_assoc.
  - done.
Qed.

Lemma crc_bit_even c : crc_bit (Z.shiftl c 1) = c.
Proof.
  unfold crc_bit. rewrite odd_testbit, Z.shiftl_spec_low by lia. rewrite Z.shiftr_shiftl_l by lia. apply Z.shiftl_0_r.
Qed.

Lemma iter_xor n a b : Nat.iter n crc_bit (Z.lxor a b) = Z.lxor (Nat.iter n crc_bit a) (Nat.iter n crc_bit b).
Proof. induction n as [|n IH]; [done|]. by rewrite !Nat.iter_succ, IH, crc_bit_xor. Qed.

Lemma iter_even n c : Nat.iter n crc_bit (Z.shiftl c (Z.of_nat n)) = c.
Proof.
  induction n as [|n IH]; [apply Z.shiftl_0_r|].
  rewrite Nat.iter_succ_r. replace (Z.of_nat (S n)) with (Z.of_nat n + 1) by lia.
  by rewrite <- Z.shiftl_shiftl, crc_bit_even by lia.
Qed.

Lemma crc_bit_u32 c : is_u32 c -> is_u32 (crc_bit c).
Proof. intros. unfold crc_bit. destruct (Z.odd c); [apply xor_u32; [|by compute]|]; apply shiftr_u32; (lia || done). Qed.

Lemma iter_u32 n c : is_u32 c -> is_u32 (Nat.iter n crc_bit c).
Proof. intros. induction n; [done|]. rewrite Nat.iter_succ. by apply crc_bit_u32. Qed.

(** The polynomial has its highest bit, so nothing but zero becomes zero. *)
Lemma crc_bit_zero c : is_u32 c -> crc_bit c = 0 -> c = 0.
Proof.
  intros Hc. unfold crc_bit. destruct (Z.odd c) eqn:Ho.
  - rewrite Z.lxor_eq_0_iff. rewrite Z.shiftr_div_pow2 by lia. unfold is_u32 in Hc. intros Hq.
    pose proof (Z.div_lt_upper_bound c (2 ^ 1) 0x80000000 ltac:(lia) ltac:(lia)). lia.
  - rewrite Z.shiftr_div_pow2 by lia. intros Hq. pose proof (Z.div_mod c 2 ltac:(lia)) as Hd.
    rewrite Zmod_odd, Ho in Hd. change (2 ^ 1) with 2 in Hq. lia.
Qed.

Lemma iter_zero n c : is_u32 c -> Nat.iter n crc_bit c = 0 -> c = 0.
Proof.
  intros Hc. induction n as [|n IH]; [done|]. rewrite Nat.iter_succ. intros H%crc_bit_zero; [by apply IH | by apply iter_u32].
Qed.

Lemma iter_inj n a b : is_u32 a -> is_u32 b -> Nat.iter n crc_bit a = Nat.iter n crc_bit b -> a = b.
Proof.
  intros Ha Hb H. apply Z.lxor_eq. apply (iter_zero n); [by apply xor_u32|]. rewrite iter_xor, H. apply Z.lxor_nilpotent.
Qed.

(** *** The table *)

Lemma table_steps i : 0 <= i < 256 -> geti crc_table i = Some (Nat.iter 8 crc_bit i).
Proof.
  intros Hi. set (n := Z.to_nat i).
  assert (Hall : forallb (fun n => match geti crc_table (Z.of_nat n) with Some t => t =? Nat.iter 8 crc_bit (Z.of_nat n) | None => false end)
    (seq 0 256) = true) by (vm_compute; reflexivity).
  rewrite forallb_forall in Hall. specialize (Hall n). rewrite in_seq in Hall. specialize (Hall ltac:(lia)).
  replace (Z.of_nat n) with i in Hall by lia. destruct (geti crc_table i); [|done]. by apply Z.eqb_eq in Hall as ->.
Qed.

(** A number is its low byte and the rest. *)
Lemma low_byte c : c = Z.lxor (Z.land c 0xff) (Z.shiftl (Z.shiftr c 8) 8).
Proof.
  apply Z.bits_inj'. intros i Hi. change 0xff with (Z.ones 8). rewrite Z.lxor_spec, Z.land_spec, Z.testbit_ones_nonneg by lia.
  rewrite Z.shiftl_spec by lia. destruct (Z.ltb_spec i 8).
  - rewrite (Z.testbit_neg_r _ (i - 8)) by lia. by destruct (Z.testbit c i).
  - rewrite Z.shiftr_spec by lia. replace (i - 8 + 8) with i by lia. by destruct (Z.testbit c i).
Qed.

Lemma eight_steps c : Nat.iter 8 crc_bit c = Z.lxor (Nat.iter 8 crc_bit (Z.land c 0xff)) (Z.shiftr c 8).
Proof.
  transitivity (Nat.iter 8 crc_bit (Z.lxor (Z.land c 0xff) (Z.shiftl (Z.shiftr c 8) 8))); [by rewrite <- low_byte|].
  rewrite (iter_xor 8). f_equal. apply (iter_even 8).
Qed.

Lemma index_byte c b : Z.land (Z.lxor (i32 c) b) 0xff = Z.land (Z.lxor c b) 0xff.
Proof.
  apply Z.bits_inj'. intros i Hi. change 0xff with (Z.ones 8). rewrite !Z.land_spec, !Z.lxor_spec, Z.testbit_ones_nonneg by lia.
  destruct (Z.ltb_spec i 8); [|by rewrite !andb_false_r]. do 2 f_equal.
  rewrite <- (Z.mod_pow2_bits_low (i32 c) 32), <- (Z.mod_pow2_bits_low c 32) by lia. f_equal.
  unfold i32. rewrite Zminus_mod_idemp_l. f_equal. lia.
Qed.

Lemma byte_range c : 0 <= Z.land c 0xff < 256.
Proof. change 0xff with (Z.ones 8). rewrite Z.land_ones by lia. apply Z.mod_pos_bound. lia. Qed.

Lemma shiftr_byte c b : is_byte b -> Z.shiftr (Z.lxor c b) 8 = Z.shiftr c 8.
Proof.
  intros Hb. rewrite Z.shiftr_lxor. rewrite (Z.shiftr_div_pow2 b) by lia.
  rewrite Z.div_small by (unfold is_byte in Hb; lia). apply Z.lxor_0_r.
Qed.

Lemma crc_loop_bits buf c : Forall is_byte buf -> crc_loop buf c = Some (crc_bits buf c).
Proof.
  intros Hb. revert c. induction Hb as [|b buf Hb _ IH]; intros c; cbn [crc_loop crc_bits fold_left]; [done|].
  rewrite table_steps by apply byte_range. cbn [mbind option_bind]. rewrite IH. unfold crc_bits. do 2 f_equal.
  unfold crc_byte. by rewrite index_byte, (eight_steps (Z.lxor c b)), shiftr_byte.
Qed.

Lemma crc_byte_u32 c b : is_u32 c -> is_byte b -> is_u32 (crc_byte c b).
Proof. intros. apply (iter_u32 8), xor_u32; [done | by apply byte_u32]. Qed.

Lemma crc_bits_cons b buf c : crc_bits (b :: buf) c = crc_bits buf (crc_byte c b).
Proof. done. Qed.

Lemma crc_bits_u32 buf c : Forall is_byte buf -> is_u32 c -> is_u32 (crc_bits buf c).
Proof.
  intros Hb. revert c. induction Hb as [|b buf Hb _ IH]; intros c Hc; [done|].
  rewrite crc_bits_cons. by apply IH, crc_byte_u32.
Qed.

Lemma tab_crc32_bits buf : Forall is_byte buf -> tab_crc32 buf = Some (Z.lxor (crc_bits buf 0) 0xffffffff).
Proof. intros. unfold tab_crc32. rewrite crc_loop_bits by done. done. Qed.

Lemma tab_crc32_range buf crc : Forall is_byte buf -> tab_crc32 buf = Some crc -> is_u32 crc.
Proof.
  intros Hb. rewrite tab_crc32_bits by done. intros [= <-].
  apply xor_u32; [|by compute]. by apply crc_bits_u32; [|by compute].
Qed.

(** *** What follows keeps a difference *)

Lemma crc_bits_inj buf a b : Forall is_byte buf -> is_u32 a -> is_u32 b -> crc_bits buf a = crc_bits buf b -> a = b.
Proof.
  intros Hb. revert a b. induction Hb as [|x buf Hx _ IH]; intros a b Ha Hc; [done|].
  rewrite !crc_bits_cons. intros H%IH; [|by apply crc_byte_u32..].
  apply (iter_inj 8) in H; [|apply xor_u32; [done | by apply byte_u32]..].
  apply (f_equal (fun c => Z.lxor c x)) in H. by rewrite !Z.lxor_assoc, Z.lxor_nilpotent, !Z.lxor_0_r in H.
Qed.

(** The number that the bytes are, the lowest first. *)
Fixpoint le_bytes (w : list Z) : Z :=
  match w with [] => 0 | b :: w => Z.lxor b (Z.shiftl (le_bytes w) 8) end.

Lemma le_bytes_bound w : Forall is_byte w -> 0 <= le_bytes w < 2 ^ (8 * zlen w).
Proof.
  induction 1 as [|b w Hb _ IH]; cbn [le_bytes length]; [cbn; lia|].
  assert (H0 : 0 <= Z.lxor b (Z.shiftl (le_bytes w) 8)).
  { apply Z.lxor_nonneg. split; intros _; [apply Z.shiftl_nonneg | unfold is_byte in Hb]; lia. }
  split; [done|]. rewrite Z.shiftl_mul_pow2 by lia.
  assert (Hx : Z.lxor b (le_bytes w * 2 ^ 8) = b + le_bytes w * 2 ^ 8).
  { symmetry. apply Z.add_nocarry_lxor. apply Z.bits_inj'. intros i Hi. rewrite Z.land_spec, Z.bits_0, <- Z.shiftl_mul_pow2, Z.shiftl_spec by lia.
    destruct (Z.ltb_spec i 8); [by rewrite (Z.testbit_neg_r _ (i - 8)), andb_false_r by lia|].
    rewrite <- (Z.mod_small b (2 ^ 8)) by (unfold is_byte in Hb; lia). by rewrite Z.mod_pow2_bits_high by lia. }
  rewrite Hx. replace (8 * Z.of_nat (S (length w))) with (8 + 8 * zlen w) by lia. rewrite Z.pow_add_r by lia. unfold is_byte in Hb. nia.
Qed.

Lemma le_bytes_inj w w' : Forall is_byte w -> Forall is_byte w' -> length w = length w' -> le_bytes w = le_bytes w' -> w = w'.
Proof.
  assert (Hcut : forall b r, is_byte b -> Z.land (Z.lxor b (Z.shiftl r 8)) 0xff = b /\ Z.shiftr (Z.lxor b (Z.shiftl r 8)) 8 = r).
  { intros b r Hb. split.
    - apply Z.bits_inj'. intros i Hi. change 0xff with (Z.ones 8). rewrite Z.land_spec, Z.lxor_spec, Z.testbit_ones_nonneg, Z.shiftl_spec by lia.
      destruct (Z.ltb_spec i 8).
      + rewrite (Z.testbit_neg_r _ (i - 8)), xorb_false_r, andb_true_r by lia. done.
      + rewrite andb_false_r. symmetry. rewrite <- (Z.mod_small b (2 ^ 8)) by (unfold is_byte in Hb; lia). apply Z.mod_pow2_bits_high. lia.
    - rewrite Z.lxor_comm, shiftr_byte by done. rewrite Z.shiftr_shiftl_l by lia. apply Z.shiftl_0_r. }
  intros Hw. revert w'. induction Hw as [|b w Hb _ IH]; intros [|b' w'] Hw' Hlen H; try done. cbn in H, Hlen. inversion Hw' as [|? ? Hb' Hw'']. subst.
  destruct (Hcut b (le_bytes w) Hb) as [H1 H2]. destruct (Hcut b' (le_bytes w') Hb') as [H1' H2']. rewrite H in H1, H2.
  f_equal; [congruence|]. apply IH; [done | lia | congruence].
Qed.

(** The state after some bytes is that of a register which has taken them at once. *)
Lemma crc_bits_word w c : crc_bits w c = Nat.iter (8 * length w) crc_bit (Z.lxor c (le_bytes w)).
Proof.
  revert c. induction w as [|b w IH]; intros c.
  - cbn. by rewrite Z.lxor_0_r.
  - rewrite crc_bits_cons, IH. unfold crc_byte. cbn [le_bytes].
    replace (8 * length (b :: w))%nat with (8 * length w + 8)%nat by (cbn [length]; lia).
    rewrite Nat.iter_add. f_equal. rewrite <- Z.lxor_assoc, (iter_xor 8 (Z.lxor c b)). f_equal. symmetry. apply (iter_even 8).
Qed.

Lemma crc_bits_app a b c : crc_bits (a ++ b) c = crc_bits b (crc_bits a c).
Proof. apply fold_left_app. Qed.

Lemma crc_bits_zeros n : crc_bits (replicate n 0) 0 = 0.
Proof. induction n as [|n IH]; [done|]. exact IH. Qed.

(** The register begins with nothing in it, so zeros in front of a packet's bytes do not
    change the sum; that of zlib, which this one is taken from, begins with all ones. *)
Lemma leading_zeros_unseen n buf : Forall is_byte buf -> tab_crc32 (replicate n 0 ++ buf) = tab_crc32 buf.
Proof.
  intros Hb. assert (Forall is_byte (replicate n 0)) by (apply Forall_replicate; unfold is_byte; lia).
  rewrite !tab_crc32_bits by (try apply Forall_app; done). by rewrite crc_bits_app, crc_bits_zeros.
Qed.

Lemma bursts_differ p w w' s : Forall is_byte p -> Forall is_byte w -> Forall is_byte w' -> Forall is_byte s ->
  length w = length w' -> (length w <= 4)%nat -> tab_crc32 (p ++ w ++ s) = tab_crc32 (p ++ w' ++ s) -> w = w'.
Proof.
  intros Hp Hw Hw' Hs Hlen H4. rewrite !tab_crc32_bits by (rewrite !Forall_app; split_and!; done). intros [= H].
  apply (f_equal (fun c => Z.lxor c 0xffffffff)) in H. rewrite !Z.lxor_assoc, Z.lxor_nilpotent, !Z.lxor_0_r, !crc_bits_app in H.
  assert (H0 : is_u32 (crc_bits p 0)) by (apply crc_bits_u32; [done | by compute]).
  assert (Hle : forall v, Forall is_byte v -> length v = length w -> is_u32 (le_bytes v)).
  { intros v Hv Hl. pose proof (le_bytes_bound v Hv) as Hb. unfold is_u32. rewrite Hl in Hb.
    pose proof (Z.pow_le_mono_r 2 (8 * zlen w) 32 ltac:(lia) ltac:(lia)). lia. }
  apply crc_bits_inj in H; [|done | by apply crc_bits_u32..]. rewrite (crc_bits_word w), (crc_bits_word w'), <- Hlen in H.
  apply iter_inj in H; [|apply xor_u32; [done | by apply Hle]..].
  apply le_bytes_inj; [done | done | done|].
  apply (f_equal (Z.lxor (crc_bits p 0))) in H. by rewrite <- !Z.lxor_assoc, Z.lxor_nilpotent, !Z.lxor_0_l in H.
Qed.

(** C36. The sum that the table gives is the remainder that dividing the bytes, bit by bit,
    by the polynomial 0xedb88320 leaves, inverted; so two packets of one length that
    differ, and only within four consecutive bytes, never have the same sum. *)
Theorem tab_crc32_sees_bursts :
  (forall buf, Forall is_byte buf -> tab_crc32 buf = Some (Z.lxor (crc_bits buf 0) 0xffffffff)) /\
  (forall p w w' s, Forall is_byte p -> Forall is_byte w -> Forall is_byte w' -> Forall is_byte s ->
    length w = length w' -> (length w <= 4)%nat -> w <> w' -> tab_crc32 (p ++ w ++ s) <> tab_crc32 (p ++ w' ++ s)).
Proof.
  split; [exact tab_crc32_bits|]. intros p w w' s Hp Hw Hw' Hs Hlen H4 Hne H. by apply Hne, (bursts_differ p w w' s).
Qed.

Lemma tab_crc32_sees_bursts_witness : tab_crc32 [1; 2; 3] = Some 0x5502a6f0 /\ tab_crc32 ([7] ++ [1; 2] ++ [3]) <> tab_crc32 ([7] ++ [2; 1] ++ [3]).
Proof.
  split; [rewrite (proj1 tab_crc32_sees_bursts); [vm_compute; reflexivity | repeat constructor; unfold is_byte; lia]|].
  apply (proj2 tab_crc32_sees_bursts); [repeat constructor; unfold is_byte; lia..|reflexivity | cbn; lia | discriminate].
Defined.
