(* ===== verification/Net.v ===== *)
(** * Sockets (src/libsrc/gtsocket/src/gtsocket.c, src/libsrc/common/commonlib.c)

    A socket of this process: the bytes it has sent, what is to arrive on it, and what the
    kernel answers. *)

From S2P Require Import Prelude Update.

Definition ETIMEDOUT : Z := 110.
Definition EHOSTUNREACH : Z := 113.

(** What a [read] finds: some bytes, an error, or the end of the connection. *)
Inductive arrival := Arrive (b : Z) (bs : list Z) | Fails (errno : Z) | Shut.

(** [so_wire] is all that was sent; of [so_writes] a positive number is how many bytes the
    next [write] takes at most and another one its error; when it is empty all is taken.
    On [so_in] nothing more arrives when it is empty. *)
Record sock := { so_wire : list Z; so_writes : list Z; so_in : list arrival }.
#[export] Instance sock_settable : Settable sock := {| rebuild := fun s => Build_sock (so_wire s) (so_writes s) (so_in s) |}.

(** ** Writing *)

Definition push_out (bs : list Z) (s : sock) : sock := s <| so_wire ::= fun w => w ++ bs |>.

(** The loop of both functions that write; [writted] is what the last [write] returned,
    which they return, and [fails] what they return for an error. *)
Fixpoint net_write_loop (fails : Z -> Z) (ws bs : list Z) (writted : option Z) (s : sock) : option Z * sock :=
  match bs with
  | [] => (writted, s <| so_writes := ws |>)
  | _ =>
      match ws with
      | [] => (Some (zlen bs), (push_out bs s) <| so_writes := ([] : list Z) |>)
      | w :: ws =>
          if w <=? 0 then
            if - w =? EINTR then net_write_loop fails ws bs (Some 0) s else (Some (fails (- w)), s <| so_writes := ws |>)
          else
            let n := Z.to_nat (Z.min w (zlen bs)) in
            net_write_loop fails ws (drop n bs) (Some (Z.of_nat n)) (push_out (take n bs) s)
      end
  end.

(** To begin with, [writted] of [fd_write_buf] has no value. *)
Definition fd_write_buf (bs : list Z) : M sock Z := fun s =>
  match net_write_loop (fun err => if err =? EPIPE then - EPIPE else 0 - err) (so_writes s) bs None s with
  | (Some r, s) => Ret r s
  | (None, _) => Undef
  end.

Definition net_write_buf (bs : list Z) : M sock Z := fun s =>
  match net_write_loop (fun err => if err =? EPIPE then - EPIPE else if 0 <? err then - err else -1) (so_writes s) bs (Some 0) s with
  | (Some r, s) => Ret r s
  | (None, _) => Undef
  end.

(** ** Reading *)

(** The errors of [read] but [EINTR]; [got] says whether bytes were read before. *)
Definition read_error (got : list Z) (err : Z) : Z :=
  if err =? ETIMEDOUT then 0 - ETIMEDOUT
  else if err =? EHOSTUNREACH then 0 - EHOSTUNREACH
  else if err =? EAGAIN then if (0 <? length got)%nat then zlen got else - EAGAIN
  else if 0 <? err then - err else -1.

(** The returned value, the bytes that were put into the buffer, and what is still to
    arrive; [None] when it waits. *)
Fixpoint net_read_loop (st : list arrival) (left : nat) (got : list Z) : option (Z * list Z * list arrival) :=
  match left with
  | O => Some (zlen got, got, st)
  | _ =>
      match st with
      | [] => None
      | Shut :: _ => Some (-140, got, st)
      | Fails err :: st => if err =? EINTR then net_read_loop st left got else Some (read_error got err, got, st)
      | Arrive b bs :: st =>
          let l := b :: bs in
          match drop left l with
          | [] => net_read_loop st (left - length l) (got ++ l)
          | c :: rest => Some (Z.of_nat (length got + left), got ++ take left l, Arrive c rest :: st)
          end
      end
  end.

Definition net_read_buf (len : Z) : M sock (Z * list Z) := fun s =>
  if len <=? 0 then Ret (0, []) s else
  match net_read_loop (so_in s) (Z.to_nat len) [] with
  | None => Blocked (s <| so_in := ([] : list arrival) |>)
  | Some (r, data, st) => Ret (r, data) (s <| so_in := st |>)
  end.

(** ** Lemmas *)

(** A stream with these bytes, interrupted at most by signals. *)
Fixpoint carries (st : list arrival) (bs : list Z) : Prop :=
  match st with
  | [] => bs = []
  | Arrive b l :: st => exists bs', bs = (b :: l) ++ bs' /\ carries st bs'
  | Fails err :: st => err = EINTR /\ carries st bs
  | Shut :: _ => False
  end.

Lemma read_carries st n a b got : carries st (a ++ b) -> length a = n -> exists st',
  net_read_loop st n got = Some (zlen (got ++ a), got ++ a, st') /\ carries st' b.
Proof.
  revert n a got. induction st as [|[c l|err|] st IH]; intros n a got Hc Hn; cbn [carries] in Hc.
  - apply app_nil in Hc as [-> ->]. subst n. exists []. cbn. rewrite app_nil_r. done.
  - destruct Hc as (bs' & Heq & Hc). destruct n as [|n].
    { destruct a; [|done]. exists (Arrive c l :: st). cbn. rewrite app_nil_r. split; [done|]. cbn in Heq. by exists bs'. }
    cbn [net_read_loop]. destruct (drop (S n) (c :: l)) as [|d rest] eqn:Hd.
    + assert (Hl : (length (c :: l) <= S n)%nat).
      { apply (f_equal length) in Hd. rewrite length_drop in Hd. cbn [length] in *. lia. }
      assert (Ha : a = (c :: l) ++ drop (length (c :: l)) a).
      { apply (f_equal (take (length (c :: l)))) in Heq as Ht. rewrite take_app_length, take_app_le in Ht by lia.
        rewrite <- Ht at 1. symmetry. apply take_drop. }
      rewrite Ha in Heq. rewrite <- app_assoc in Heq. apply app_inv_head in Heq.
      destruct (IH (S n - length (c :: l))%nat (drop (length (c :: l)) a) (got ++ c :: l)) as (st' & Hr & Hc');
        [by rewrite Heq | rewrite length_drop; lia|].
      exists st'. rewrite Hr, <- app_assoc, <- Ha. done.
    + assert (Hl : (S n < length (c :: l))%nat).
      { apply (f_equal length) in Hd. rewrite length_drop in Hd. cbn [length] in *. lia. }
      assert (Ha : a = take (S n) (c :: l)).
      { apply (f_equal (take (S n))) in Heq. rewrite take_app_le, (take_app_le (c :: l)), take_ge in Heq by lia. done. }
      exists (Arrive d rest :: st). rewrite <- Ha. split; [f_equal; f_equal; f_equal; rewrite length_app; lia|].
      exists bs'. split; [|done]. rewrite <- Hd. apply (app_inv_head a). rewrite Heq, Ha, app_assoc, take_drop. done.
  - destruct Hc as [-> Hc]. destruct n as [|n].
    { destruct a; [|done]. exists (Fails EINTR :: st). cbn. rewrite app_nil_r. done. }
    cbn [net_read_loop]. rewrite Z.eqb_refl. by apply IH.
  - done.
Qed.

(** How much is still to arrive, and that reading takes of it. *)
Definition arrival_size (a : arrival) : nat := match a with Arrive _ bs => S (S (length bs)) | _ => 1 end.
Definition stream_size (st : list arrival) : nat := list_sum (arrival_size <$> st).

Lemma stream_size_cons a st : stream_size (a :: st) = (arrival_size a + stream_size st)%nat.
Proof. done. Qed.

Lemma net_read_loop_shrinks st n got r data st' :
  net_read_loop st n got = Some (r, data, st') -> (stream_size st' <= stream_size st)%nat /\
    (0 < r -> (0 < n)%nat -> (stream_size st' < stream_size st)%nat) /\ (length data <= length got + n)%nat.
Proof.
  revert n got. induction st as [|[b bs|err|] st IH]; intros [|n] got; cbn [net_read_loop]; try (intros [= <- <- <-]; split_and!; (lia || done || idtac)).
  - destruct (drop (S n) (b :: bs)) as [|c rest] eqn:Hd.
    + intros (H1 & H2 & H3)%IH. apply (f_equal length) in Hd. rewrite length_drop in Hd. rewrite length_app in H3.
      rewrite stream_size_cons. cbn [arrival_size length] in *. split_and!; lia.
    + intros [= <- <- <-]. apply (f_equal length) in Hd. rewrite length_drop in Hd. cbn [length] in Hd.
      rewrite !stream_size_cons. cbn [arrival_size]. rewrite length_app. cbn [length]. rewrite length_take. split_and!; lia.
  - destruct (err =? EINTR).
    + intros (H1 & H2 & H3)%IH. rewrite stream_size_cons. cbn [arrival_size]. split_and!; lia.
    + intros [= <- <- <-]. rewrite stream_size_cons. cbn [arrival_size]. split_and!; lia.
Qed.

(** A [write] that takes something each time, and one that is interrupted. *)
Definition takes (w : Z) : Prop := 0 < w \/ w = - EINTR.

Lemma net_write_loop_takes fails ws bs r s : Forall takes ws -> bs <> [] \/ is_Some r ->
  (forall x, r = Some x -> 0 <= x) -> exists x s', net_write_loop fails ws bs r s = (Some x, s') /\ 0 <= x /\
    so_wire s' = so_wire s ++ bs /\ so_in s' = so_in s /\ Forall takes (so_writes s').
Proof.
  intros Hws. revert bs r s. induction Hws as [|w ws Hw Hws IH]; intros bs r s Hb Hr.
  - destruct bs as [|b bs].
    + destruct Hb as [?|[x ->]]; [done|]. eexists _, _. split; [done|]. split; [by apply Hr|]. cbn. by rewrite app_nil_r.
    + eexists _, _. split; [done|]. split; [lia|]. cbn. done.
  - destruct bs as [|b bs].
    + destruct Hb as [?|[x ->]]; [done|]. eexists _, _. split; [done|]. split; [by apply Hr|]. cbn. rewrite app_nil_r. split_and!; [done..|by constructor].
    + cbn [net_write_loop]. destruct (Z.leb_spec w 0).
      * destruct Hw as [?| ->]; [lia|]. rewrite Z.opp_involutive, Z.eqb_refl. apply IH; [by left | by intros ? [= <-]].
      * set (n := Z.to_nat (Z.min w (zlen (b :: bs)))).
        destruct (IH (drop n (b :: bs)) (Some (Z.of_nat n)) (push_out (take n (b :: bs)) s)) as (x & s' & Hrun & Hx & H1 & H2 & H3);
          [right; by eexists | intros ? [= <-]; lia|].
        exists x, s'. split; [done|]. split; [done|]. cbn in H1, H2. rewrite H1, <- app_assoc, take_drop. done.
Qed.

(** What [fd_write_buf] and [net_write_buf] return is the length of the last piece that was
    written, not of all. *)
Lemma last_piece_returned : exists k k', fd_write_buf [1; 2; 3; 4; 5] (Build_sock [] [3] []) = Ret 2 k /\
  net_write_buf [1; 2; 3; 4; 5] (Build_sock [] [3] []) = Ret 2 k' /\ so_wire k = [1; 2; 3; 4; 5] /\ so_wire k' = [1; 2; 3; 4; 5].
Proof. eexists _, _. split_and!; reflexivity. Qed.
