(* ===== verification/GtCom.v ===== *)
(** * Packets of commands (src/libsrc/gtcomapi_ssl/gt_com_api.c)

    A message travels between marks, with its length, a check word of the head, and the
    check sum of its bytes; the library is the one that is built without SSL.  Both calls
    work in the memory they are given, which is modelled byte by byte: an access outside
    it has no defined behaviour. *)

From S2P Require Import Prelude Update Memory Crc32 Net.

Definition GT_COM_VERSION : Z := 2.
Definition GT_CMD_NO_AUTH : Z := 0.
Definition GT_CMD_NO_ENCRYPT : Z := 0.

Definition GT_SYNC_HEAD0 : Z := 0x40.
Definition GT_SYNC_HEAD1 : Z := 0x55.
Definition GT_SYNC_HEAD2 : Z := 0xaa.
Definition GT_SYNC_HEAD3 : Z := 0x55.
Definition GT_PKT_TAIL : Z := 0x66886623.
Definition EBUF_ADDON : Z := 512.
Definition TMPBUF_LEN : Z := 1024.

(** [struct gt_pkt_head]: 4 marks, and at 4 the length (2), at 6 the version, at 7 and 8
    the two types, at 9 and 10 reserved fields, at 12 the check word; the message is behind
    it. *)
Definition SIZEOF_GT_PKT_HEAD : Z := 16.

(** ** Numbers in memory *)

Definition byte_at (v k : Z) : Z := Z.land (Z.shiftr v k) 0xff.
Definition __put_unaligned_le16 (v : Z) : list Z := [byte_at v 0; byte_at v 8].
Definition __put_unaligned_le32 (v : Z) : list Z := __put_unaligned_le16 v ++ __put_unaligned_le16 (Z.shiftr v 16).
Definition __get_unaligned_le32 (p : list Z) : option Z :=
  match p with
  | [a; b; c; d] => Some (Z.lor (Z.lor (Z.lor a (Z.shiftl b 8)) (Z.shiftl c 16)) (Z.shiftl d 24))
  | _ => None
  end.
Definition get_unaligned (m : list Z) (off : Z) : option Z := p ← mem_read m off 4; __get_unaligned_le32 p.
(** A [WORD]. *)
Definition u16 (z : Z) : Z := z mod 2 ^ 16.
Definition get_word (m : list Z) (off : Z) : option Z :=
  p ← mem_read m off 2; match p with [a; b] => Some (u16 (a + b * 256)) | _ => None end.

(** ** Sending *)

Record tx_st := { tx_mem : list Z; tx_sock : sock }.
#[export] Instance tx_settable : Settable tx_st := {| rebuild := fun s => Build_tx_st (tx_mem s) (tx_sock s) |}.

Definition tx_get {A} (f : list Z -> option A) : M tx_st A := s ← get_st; access (f (tx_mem s)).
Definition tx_put (off : Z) (bs : list Z) : M tx_st () :=
  s ← get_st; m ← access (mem_write (tx_mem s) off bs); put_st (s <| tx_mem := m |>).

Definition tx_write (bs : list Z) : M tx_st Z := fun s =>
  match net_write_buf bs (tx_sock s) with
  | Ret r k => Ret r (s <| tx_sock := k |>)
  | Blocked k => Blocked (s <| tx_sock := k |>)
  | Exited c k => Exited c (s <| tx_sock := k |>)
  | Undef => Undef
  end.

(** The fields of the head.  Each is put by a store of four bytes, which the next store
    then cuts. *)
Definition put_head (addon msg_type encrypt_type : Z) : M tx_st () :=
  tx_put 4 (__put_unaligned_le32 addon) ;; tx_put 4 (__put_unaligned_le16 addon) ;;
  tx_put 0 [GT_SYNC_HEAD0] ;; tx_put 1 [GT_SYNC_HEAD1] ;; tx_put 2 [GT_SYNC_HEAD2] ;; tx_put 3 [GT_SYNC_HEAD3] ;;
  tx_put 6 (__put_unaligned_le32 GT_COM_VERSION) ;;
  tx_put 7 (__put_unaligned_le32 msg_type) ;;
  tx_put 8 (__put_unaligned_le32 encrypt_type) ;;
  tx_put 9 (__put_unaligned_le32 0) ;;
  tx_put 10 (__put_unaligned_le32 0) ;;
  a ← tx_get (fun m => get_unaligned m 4); b ← tx_get (fun m => get_unaligned m 8);
  tx_put 12 (__put_unaligned_le32 (Z.lxor a b)).

Definition gt_cmd_pkt_send (fd msg_len msg_type encrypt_type : Z) : M tx_st Z :=
  if fd <? 0 then mret (- EINVAL) else
  addon ← (if Z.rem msg_len 4 =? 0 then mret 0 else
    let addon := 4 - Z.rem msg_len 4 in
    tx_put (SIZEOF_GT_PKT_HEAD + msg_len) (replicate (Z.to_nat addon) 0) ;; mret addon);
  let send_msglen := msg_len + addon in
  if negb (msg_type =? GT_CMD_NO_AUTH) then mret (- EINVAL) else
  put_head (u16 (send_msglen + SIZEOF_GT_PKT_HEAD - 4 - 2 + 4)) msg_type encrypt_type ;;
  msg ← tx_get (fun m => mem_read m SIZEOF_GT_PKT_HEAD send_msglen);
  crcval ← access (tab_crc32 msg);
  tx_put (SIZEOF_GT_PKT_HEAD + send_msglen) (__put_unaligned_le32 crcval) ;;
  tx_put (SIZEOF_GT_PKT_HEAD + send_msglen + 4) (__put_unaligned_le32 GT_PKT_TAIL) ;;
  packet ← tx_get (fun m => mem_read m 0 (send_msglen + 4 + 4 + SIZEOF_GT_PKT_HEAD));
  ret ← tx_write packet;
  mret (if 0 <=? ret then 0 else ret).

(** ** Receiving *)

(** [rx_recv] is the caller's memory; a long packet is read into [rx_heap], which the
    packets after it then use too. *)
Record rx_st := { rx_recv : list Z; rx_heap : option (list Z); rx_sock : sock }.
#[export] Instance rx_settable : Settable rx_st := {| rebuild := fun s => Build_rx_st (rx_recv s) (rx_heap s) (rx_sock s) |}.

Section Receive.
(** [posix_memalign]: memory of that size, with whatever it holds, or none. *)
Variable memalign : Z -> option (list Z).

(** Where the message goes. *)
Definition rx_mem (s : rx_st) : list Z := default (rx_recv s) (rx_heap s).
Definition set_rx_mem (m : list Z) (s : rx_st) : rx_st :=
  match rx_heap s with Some _ => s <| rx_heap := Some m |> | None => s <| rx_recv := m |> end.

(** [net_read_buf] of [n] bytes, put at [off]. *)
Definition rx_read (get : rx_st -> list Z) (set : list Z -> rx_st -> rx_st) (off n : Z) : M rx_st Z := fun s =>
  match net_read_buf n (rx_sock s) with
  | Ret (r, data) k => (m ← access (mem_write (get s) off data); modify (fun s : rx_st => set m (s <| rx_sock := k |>)) ;; mret r) s
  | Blocked k => Blocked (s <| rx_sock := k |>)
  | Exited c k => Exited c (s <| rx_sock := k |>)
  | Undef => Undef
  end.

Definition head_read : Z -> Z -> M rx_st Z := rx_read rx_recv (fun m s => s <| rx_recv := m |>).
Definition msg_read : Z -> Z -> M rx_st Z := rx_read rx_mem set_rx_mem.
Definition head_get {A} (f : list Z -> option A) : M rx_st A := s ← get_st; access (f (rx_recv s)).
Definition msg_get {A} (f : list Z -> option A) : M rx_st A := s ← get_st; access (f (rx_mem s)).

(** The value for an end of the call, [None] for [goto getheader]. *)
Abbreviation step := (option Z).

(** [judge_exit], and on with [k] if it does not exit. *)
Definition judge_exit (r : Z) (k : M rx_st step) : M rx_st step :=
  if r <=? 0 then mret (Some (if r =? 0 then -140 else r)) else k.

Definition sync_byte (off mark : Z) (k : M rx_st step) : M rx_st step :=
  ret ← head_read off 1;
  judge_exit ret (
    b ← head_get (fun m => geti m off);
    if negb (b =? mark) then mret None else k).

Definition read_head (k : M rx_st step) : M rx_st step :=
  sync_byte 0 GT_SYNC_HEAD0 (sync_byte 1 GT_SYNC_HEAD1 (sync_byte 2 GT_SYNC_HEAD2 (sync_byte 3 GT_SYNC_HEAD3 (
    ret ← head_read 4 (SIZEOF_GT_PKT_HEAD - 4);
    judge_exit ret (if negb (ret =? SIZEOF_GT_PKT_HEAD - 4) then mret None else k))))).

(** The memory for a long packet begins with a copy of the head. *)
Definition make_room (pkt_len : Z) (k : M rx_st step) : M rx_st step :=
  if u32 (pkt_len + SIZEOF_GT_PKT_HEAD + EBUF_ADDON) <=? TMPBUF_LEN then k else
  match memalign (u32 (pkt_len + SIZEOF_GT_PKT_HEAD + EBUF_ADDON)) with
  | None => mret None
  | Some s2 =>
      head ← msg_get (fun m => mem_read m 0 SIZEOF_GT_PKT_HEAD);
      s2 ← access (mem_write s2 0 head);
      modify (fun s : rx_st => s <| rx_heap := Some s2 |>) ;; k
  end.

(** The received message goes to the caller. *)
Definition hand_over (pkt_len : Z) : M rx_st step :=
  msg_type ← head_get (fun m => geti m 7);
  if msg_type =? GT_CMD_NO_AUTH then
    s ← get_st;
    match rx_heap s with
    | None => mret (Some 0)
    | Some m =>
        data ← access (mem_read m 0 (SIZEOF_GT_PKT_HEAD + pkt_len + 4 + 4));
        m ← access (mem_write (rx_recv s) 0 data);
        put_st (s <| rx_recv := m |>) ;; mret (Some 0)
    end
  else mret (Some (-4)).

Definition read_msg (pkt_len : Z) : M rx_st step :=
  let pd := SIZEOF_GT_PKT_HEAD in
  ret ← msg_read pd pkt_len;
  judge_exit ret (
    ret ← msg_read (pd + pkt_len) 4;
    judge_exit ret (
      ret ← msg_read (pd + pkt_len + 4) 4;
      judge_exit ret (
        tail ← msg_get (fun m => get_unaligned m (pd + pkt_len + 4));
        if negb (tail =? GT_PKT_TAIL) then mret None else
        crcval ← msg_get (fun m => msg ← mem_read m pd pkt_len; tab_crc32 msg);
        reccrc ← msg_get (fun m => get_unaligned m (pd + pkt_len));
        if negb (crcval =? reccrc) then mret (Some (-3)) else hand_over pkt_len))).

(** From one [getheader] to the next. *)
Definition recv_once (buf_len : Z) : M rx_st step :=
  read_head (
    len ← head_get (fun m => get_word m 4);
    let pkt_len := i32 (len - SIZEOF_GT_PKT_HEAD + 4 + 2 - 4) in
    if buf_len <? i32 (pkt_len + SIZEOF_GT_PKT_HEAD + 20) then mret None else
    a ← head_get (fun m => get_unaligned m 4); b ← head_get (fun m => get_unaligned m 8);
    x ← head_get (fun m => get_unaligned m 12);
    if negb (Z.lxor a b =? x) then mret None else
    make_room pkt_len (read_msg pkt_len)).

Fixpoint recv_loop (fuel : nat) (buf_len : Z) : M rx_st Z :=
  match fuel with
  | O => blocked
  | S fuel => r ← recv_once buf_len; match r with Some r => mret r | None => recv_loop fuel buf_len end
  end.

(** [gt_cmd_pkt_recv_env] with null pointers for the two types, which is [gt_cmd_pkt_recv].
    Each round takes something of what has arrived. *)
Definition gt_cmd_pkt_recv (fd buf_len : Z) : M rx_st Z :=
  if fd <? 0 then mret (- EINVAL) else
  modify (fun s : rx_st => s <| rx_heap := (None : option (list Z)) |>) ;;
  s ← get_st; recv_loop (S (stream_size (so_in (rx_sock s)))) buf_len.
End Receive.
