(* ===== verification/GtComThms.v ===== *)
(** * What is sent is received

    A packet that [gt_cmd_pkt_send] makes is taken from the stream by [gt_cmd_pkt_recv], in
    whatever pieces it arrives; and no bytes that arrive make the receiver leave its
    memory. *)

From S2P Require Import Prelude Update Wp Memory Crc32 Net GtCom.

(** ** Memory in parts *)

Lemma mem_write_mid (a b c bs : list Z) off : zlen a = off -> length b = length bs ->
  mem_write (a ++ b ++ c) off bs = Some (a ++ bs ++ c).
Proof.
  intros Ha Hb. unfold mem_write. rewrite !length_app. zcase.
  f_equal. f_equal; [rewrite take_app_le, take_ge by lia; done|]. f_equal.
  rewrite drop_app_ge, drop_app_ge by lia. replace (_ - _ - _)%nat with 0%nat by lia. done.
Qed.

Lemma mem_write_end (a b bs : list Z) off : zlen a = off -> length b = length bs -> mem_write (a ++ b) off bs = Some (a ++ bs).
Proof. intros Ha Hb. pose proof (mem_write_mid a b [] bs off Ha Hb) as H. by rewrite !app_nil_r in H. Qed.

Lemma mem_read_mid (a b c : list Z) off n : zlen a = off -> zlen b = n -> mem_read (a ++ b ++ c) off n = Some b.
Proof.
  intros Ha Hb. unfold mem_read. rewrite !length_app. zcase. f_equal.
  rewrite drop_app_ge by lia. replace (Z.to_nat off - length a)%nat with 0%nat by lia. rewrite drop_0, take_app_le, take_ge by lia. done.
Qed.

(** A store inside the first part. *)
Lemma mem_write_app_l a c off bs m : mem_write a off bs = Some m -> mem_write (a ++ c) off bs = Some (m ++ c).
Proof.
  unfold mem_write. rewrite length_app. zcase. intros [= <-].
  rewrite take_app_le, drop_app_le, <- !app_assoc by lia. done.
Qed.

Lemma mem_read_app_l a c off n bs : mem_read a off n = Some bs -> mem_read (a ++ c) off n = Some bs.
Proof.
  unfold mem_read. rewrite length_app. zcase. intros [= <-].
  rewrite drop_app_le, take_app_le by (rewrite ?length_drop; lia). done.
Qed.

Lemma get_unaligned_app_l a c off v : get_unaligned a off = Some v -> get_unaligned (a ++ c) off = Some v.
Proof. unfold get_unaligned. intros H. inv_opt H. by rewrite (mem_read_app_l _ _ _ _ _ H0). Qed.

Lemma byte_at_range v k : 0 <= byte_at v k < 256.
Proof. apply byte_range. Qed.

(** A number of 32 bits is read back from its bytes. *)
Lemma le32_read v : is_u32 v -> __get_unaligned_le32 (__put_unaligned_le32 v) = Some v.
Proof.
  intros Hv. cbn. f_equal. unfold byte_at. change 0xff with (Z.ones 8). apply Z.bits_inj'. intros i Hi.
  rewrite !Z.lor_spec, !Z.shiftl_spec, !Z.land_spec by lia.
  destruct (Z.ltb_spec i 8); [|destruct (Z.ltb_spec i 16); [|destruct (Z.ltb_spec i 24); [|destruct (Z.ltb_spec i 32)]]].
  all: rewrite ?(Z.testbit_neg_r (Z.ones 8)), ?(Z.testbit_neg_r _ (i - 8)), ?(Z.testbit_neg_r _ (i - 16)), ?(Z.testbit_neg_r _ (i - 24)) by lia.
  all: repeat match goal with
    | |- context [Z.testbit (Z.ones 8) ?j] => rewrite (Z.testbit_ones_nonneg 8 j) by lia; destruct (Z.ltb_spec j 8); try lia end.
  all: rewrite ?andb_true_r, ?andb_false_r, ?orb_false_r, ?orb_false_l, ?Z.shiftr_spec by lia; try (f_equal; lia).
  symmetry. by apply u32_bits.
Qed.

Lemma get_unaligned_mid (a c : list Z) off v : zlen a = off -> is_u32 v -> get_unaligned (a ++ __put_unaligned_le32 v ++ c) off = Some v.
Proof. intros. unfold get_unaligned. rewrite (mem_read_mid a (__put_unaligned_le32 v)) by done. by apply le32_read. Qed.

(** ** Packets *)

(** The head of a packet with [n] bytes of message, and the whole packet. *)
Definition pkt_head_of (n : Z) : list Z :=
  [GT_SYNC_HEAD0; GT_SYNC_HEAD1; GT_SYNC_HEAD2; GT_SYNC_HEAD3] ++ __put_unaligned_le16 (n + 14) ++
  [GT_COM_VERSION; GT_CMD_NO_AUTH; GT_CMD_NO_ENCRYPT; 0; 0; 0] ++ __put_unaligned_le32 (n + 14 + GT_COM_VERSION * 2 ^ 16).
Definition packet (msg : list Z) (crc : Z) : list Z :=
  pkt_head_of (zlen msg) ++ msg ++ __put_unaligned_le32 crc ++ __put_unaligned_le32 GT_PKT_TAIL.

(** A message is filled up with zeros to a number of whole words. *)
Definition padded (msg : list Z) : list Z := msg ++ replicate (Z.to_nat (- zlen msg mod 4)) 0.

Lemma le16_value v : 0 <= v < 2 ^ 16 -> byte_at v 0 + byte_at v 8 * 256 = v.
Proof.
  intros Hv. unfold byte_at. change 0xff with (Z.ones 8). rewrite !Z.land_ones, Z.shiftr_0_r, Z.shiftr_div_pow2 by lia.
  rewrite (Z.mod_small (v / 2 ^ 8)) by (split; [apply Z.div_pos | apply Z.div_lt_upper_bound]; lia).
  pose proof (Z.div_mod v (2 ^ 8) ltac:(lia)). lia.
Qed.

(** The word of the length and the version. *)
Lemma length_word v : 0 <= v < 2 ^ 16 ->
  __get_unaligned_le32 [byte_at v 0; byte_at v 8; 2; 0] = Some (v + GT_COM_VERSION * 2 ^ 16).
Proof.
  intros Hv. rewrite <- (le32_read (v + GT_COM_VERSION * 2 ^ 16)) by (unfold is_u32, GT_COM_VERSION; lia). f_equal.
  unfold __put_unaligned_le32, __put_unaligned_le16. cbn [app]. unfold byte_at, GT_COM_VERSION. change 0xff with (Z.ones 8).
  rewrite !Z.land_ones, !Z.shiftr_0_r, !Z.shiftr_div_pow2 by lia. rewrite Z.div_div by lia.
  change (2 ^ 16 * 2 ^ 8) with (2 ^ 24). change (2 * 2 ^ 16) with 131072.
  Z.div_mod_to_equations. f_equal; [lia|]. f_equal; [lia|]. f_equal; [lia|]. f_equal; lia.
Qed.

Lemma pkt_head_cons n : pkt_head_of n = [0x40; 0x55; 0xaa; 0x55; byte_at (n + 14) 0; byte_at (n + 14) 8; 2; 0; 0; 0; 0; 0] ++
  __put_unaligned_le32 (n + 14 + GT_COM_VERSION * 2 ^ 16).
Proof. done. Qed.

Lemma tx_put_l h t off bs h' k : mem_write h off bs = Some h' ->
  tx_put off bs (Build_tx_st (h ++ t) k) = Ret () (Build_tx_st (h' ++ t) k).
Proof. intros H. apply (mem_write_app_l h t) in H. cbv [tx_put mbind M_bind get_st]. cbn [tx_mem]. by rewrite H. Qed.

Lemma tx_get_some {A} (f : list Z -> option A) m k x : f m = Some x -> tx_get f (Build_tx_st m k) = Ret x (Build_tx_st m k).
Proof. intros H. cbv [tx_get mbind M_bind get_st]. cbn [tx_mem]. by rewrite H. Qed.

Lemma put_head_run n h t k : length h = 16%nat -> 0 <= n -> n + 14 < 2 ^ 16 ->
  put_head (n + 14) GT_CMD_NO_AUTH GT_CMD_NO_ENCRYPT (Build_tx_st (h ++ t) k) = Ret () (Build_tx_st (pkt_head_of n ++ t) k).
Proof.
  intros Hh Hn Hn'. do 16 (destruct h as [|? h]; [done|]). destruct h; [|done]. clear Hh.
  pose proof (length_word (n + 14) ltac:(lia)) as Hw. rewrite pkt_head_cons.
  unfold put_head. change (__put_unaligned_le32 (n + 14)) with ([byte_at (n + 14) 0; byte_at (n + 14) 8] ++ __put_unaligned_le16 (Z.shiftr (n + 14) 16)).
  change (__put_unaligned_le16 (n + 14)) with [byte_at (n + 14) 0; byte_at (n + 14) 8].
  change (__put_unaligned_le32 GT_COM_VERSION) with [2; 0; 0; 0]. change (__put_unaligned_le32 0) with [0; 0; 0; 0].
  change (__put_unaligned_le32 GT_CMD_NO_AUTH) with [0; 0; 0; 0]. change (__put_unaligned_le32 GT_CMD_NO_ENCRYPT) with [0; 0; 0; 0].
  generalize dependent (byte_at (n + 14) 0). generalize dependent (byte_at (n + 14) 8). intros a1 a0 Hw.
  change (__put_unaligned_le16 (Z.shiftr (n + 14) 16)) with [byte_at (Z.shiftr (n + 14) 16) 0; byte_at (Z.shiftr (n + 14) 16) 8].
  generalize (byte_at (Z.shiftr (n + 14) 16) 0) (byte_at (Z.shiftr (n + 14) 16) 8). intros a2 a3.
  do 11 (erewrite bind_ret; [|apply tx_put_l; reflexivity]).
  erewrite bind_ret; [|apply tx_get_some, get_unaligned_app_l; exact Hw].
  erewrite bind_ret; [|apply tx_get_some, get_unaligned_app_l; reflexivity].
  rewrite Z.lxor_0_r. erewrite tx_put_l by reflexivity. done.
Qed.

Lemma tx_put_mid a b c off bs k : zlen a = off -> length b = length bs ->
  tx_put off bs (Build_tx_st (a ++ b ++ c) k) = Ret () (Build_tx_st (a ++ bs ++ c) k).
Proof. intros Ha Hb. cbv [tx_put mbind M_bind get_st]. cbn [tx_mem]. by rewrite (mem_write_mid a b c bs). Qed.

Lemma pkt_head_length n : length (pkt_head_of n) = 16%nat.
Proof. done. Qed.

Lemma le32_length v : length (__put_unaligned_le32 v) = 4%nat.
Proof. done. Qed.

Lemma pad_length n : 0 <= n -> 0 <= - n mod 4 < 4 /\ (n + - n mod 4) mod 4 = 0 /\
  (if Z.rem n 4 =? 0 then - n mod 4 = 0 else - n mod 4 = 4 - Z.rem n 4).
Proof. intros Hn. rewrite Z.rem_mod_nonneg by lia. zcase; Z.div_mod_to_equations; lia. Qed.

Lemma padded_length msg : zlen (padded msg) = zlen msg + - zlen msg mod 4.
Proof. unfold padded. rewrite length_app, length_replicate. pose proof (pad_length (zlen msg)). lia. Qed.

Lemma padded_bytes msg : Forall is_byte msg -> Forall is_byte (padded msg).
Proof. intros. apply Forall_app. split; [done|]. apply Forall_replicate. unfold is_byte. lia. Qed.

(** A list of at least [n] elements begins with [n]. *)
Lemma split_at (l : list Z) n : 0 <= n <= zlen l -> exists a b, l = a ++ b /\ zlen a = n.
Proof. intros. exists (take (Z.to_nat n) l), (drop (Z.to_nat n) l). rewrite take_drop, length_take. split; [done | lia]. Qed.

Lemma fill_up fd msg h t k : 0 <= fd -> length h = 16%nat -> - zlen msg mod 4 <= zlen t -> exists t',
  zlen t = zlen t' + - zlen msg mod 4 /\
  (if Z.rem (zlen msg) 4 =? 0 then mret 0 else
    let addon := 4 - Z.rem (zlen msg) 4 in
    tx_put (SIZEOF_GT_PKT_HEAD + zlen msg) (replicate (Z.to_nat addon) 0) ;; mret addon) (Build_tx_st (h ++ msg ++ t) k)
  = Ret (- zlen msg mod 4) (Build_tx_st (h ++ padded msg ++ t') k).
Proof.
  intros Hfd Hh Ht. pose proof (pad_length (zlen msg) ltac:(lia)) as (Hr & _ & Hp). destruct (Z.rem (zlen msg) 4 =? 0).
  - exists t. unfold padded. rewrite Hp. cbn [Z.to_nat replicate]. rewrite app_nil_r. split; [lia | done].
  - destruct (split_at t (- zlen msg mod 4) ltac:(lia)) as (a & t' & -> & Ha). exists t'. rewrite length_app. split; [lia|].
    cbv zeta. rewrite <- Hp, app_assoc, (bind_ret _ _ _ () (Build_tx_st ((h ++ msg) ++ replicate (Z.to_nat (- zlen msg mod 4)) 0 ++ t') k));
      [unfold padded; by rewrite <- !app_assoc|].
    apply tx_put_mid; [rewrite length_app; unfold SIZEOF_GT_PKT_HEAD; lia | rewrite length_replicate; lia].
Qed.

Lemma send_run fd msg h t k : 0 <= fd -> Forall is_byte msg -> length h = 16%nat -> zlen (padded msg) + 14 < 2 ^ 16 ->
  zlen (padded msg) + 8 <= zlen msg + zlen t -> Forall takes (so_writes k) ->
  exists crc t' k', tab_crc32 (padded msg) = Some crc /\
    gt_cmd_pkt_send fd (zlen msg) GT_CMD_NO_AUTH GT_CMD_NO_ENCRYPT (Build_tx_st (h ++ msg ++ t) k) =
      Ret 0 (Build_tx_st (packet (padded msg) crc ++ t') k') /\
    so_wire k' = so_wire k ++ packet (padded msg) crc.
Proof.
  intros Hfd Hb Hh Hmax Ht Hw. pose proof (padded_length msg) as Hpl. pose proof (pad_length (zlen msg) ltac:(lia)) as (Hr & _).
  destruct (fill_up fd msg h t k Hfd Hh ltac:(lia)) as (t1 & Ht1 & Hfill).
  set (crc := Z.lxor (crc_bits (padded msg) 0) 0xffffffff). pose proof (tab_crc32_bits _ (padded_bytes _ Hb)) as Hcrc. fold crc in Hcrc.
  destruct (split_at t1 4 ltac:(lia)) as (c4 & t2 & -> & Hc4). rewrite length_app in Ht1. destruct (split_at t2 4 ltac:(lia)) as (e4 & t' & -> & He4). rewrite length_app in Ht1.
  set (k1 := snd (net_write_loop (fun err => if err =? EPIPE then - EPIPE else if 0 <? err then - err else -1) (so_writes k) (packet (padded msg) crc) (Some 0) k)).
  exists crc, t', k1. split; [done|]. unfold gt_cmd_pkt_send. rewrite (proj2 (Z.ltb_ge _ _)) by lia.
  rewrite (bind_ret _ _ _ _ _ Hfill). rewrite <- Hpl. cbv zeta. cbn [negb GT_CMD_NO_AUTH Z.eqb].
  assert (Hu : u16 (zlen (padded msg) + SIZEOF_GT_PKT_HEAD - 4 - 2 + 4) = zlen (padded msg) + 14).
  { unfold u16, SIZEOF_GT_PKT_HEAD. rewrite Z.mod_small by lia. lia. }
  rewrite Hu, (bind_ret _ _ _ _ _ (put_head_run (zlen (padded msg)) h _ k Hh ltac:(lia) ltac:(lia))).
  erewrite bind_ret; [|apply tx_get_some, mem_read_mid; [by rewrite pkt_head_length | done]].
  rewrite Hcrc. cbn [access]. erewrite (bind_ret (mret crc)) by done.
  erewrite bind_ret; [|rewrite (app_assoc (pkt_head_of _)); apply tx_put_mid; [rewrite length_app, pkt_head_length; unfold SIZEOF_GT_PKT_HEAD; lia | rewrite le32_length; lia]].
  erewrite bind_ret; [|rewrite (app_assoc (_ ++ padded msg)); apply tx_put_mid; [rewrite !length_app, pkt_head_length, le32_length; unfold SIZEOF_GT_PKT_HEAD; lia | rewrite le32_length; lia]].
  assert (Hmem : ((pkt_head_of (zlen (padded msg)) ++ padded msg) ++ __put_unaligned_le32 crc) ++ __put_unaligned_le32 GT_PKT_TAIL ++ t'
    = packet (padded msg) crc ++ t') by (unfold packet; by rewrite <- !app_assoc).
  rewrite Hmem. erewrite bind_ret; [|apply tx_get_some, (mem_read_mid [] (packet (padded msg) crc)); [done|]].
  2:{ unfold packet. rewrite !length_app, pkt_head_length, !le32_length. unfold SIZEOF_GT_PKT_HEAD. lia. }
  destruct (net_write_loop_takes (fun err => if err =? EPIPE then - EPIPE else if 0 <? err then - err else -1) (so_writes k) (packet (padded msg) crc) (Some 0) k Hw)
    as (x & s' & Hrun & Hx & Hwire & _); [left; done | by intros ? [= <-]|].
  unfold k1. rewrite Hrun. cbn [snd]. split; [|done].
  rewrite (bind_ret _ _ _ x (Build_tx_st (packet (padded msg) crc ++ t') s')).
  - rewrite (proj2 (Z.leb_le _ _)) by done. done.
  - unfold tx_write, net_write_buf. cbn [tx_sock]. rewrite Hrun. done.
Qed.

(** ** Reading from a stream with the bytes of a packet *)

Section Receiver.
Context (memalign : Z -> option (list Z)).
Implicit Types (R t : list Z) (H : option (list Z)) (K : sock).

Lemma rx_read_run get set off n bs rest R H K m : carries (so_in K) (bs ++ rest) -> zlen bs = n -> 0 < n ->
  mem_write (get (Build_rx_st R H K)) off bs = Some m -> exists K',
  rx_read get set off n (Build_rx_st R H K) = Ret n (set m (Build_rx_st R H K')) /\ carries (so_in K') rest /\
  (stream_size (so_in K') < stream_size (so_in K))%nat.
Proof.
  intros Hc Hn Hpos Hm. destruct (read_carries (so_in K) (length bs) bs rest [] Hc eq_refl) as (st' & Hr & Hc'). cbn in Hr.
  pose proof (net_read_loop_shrinks _ _ _ _ _ _ Hr) as (_ & Hs & _).
  exists (K <| so_in := st' |>). split; [|split; [done | apply Hs; lia]].
  unfold rx_read, net_read_buf. cbn [rx_sock]. rewrite (proj2 (Z.leb_gt _ _)) by lia.
  replace (Z.to_nat n) with (length bs) by lia. rewrite Hr, (bind_access _ _ _ m Hm). subst n. done.
Qed.

Lemma sync_run off mark k R R' H K rest : carries (so_in K) (mark :: rest) -> mem_write R off [mark] = Some R' ->
  exists K', carries (so_in K') rest /\ sync_byte off mark k (Build_rx_st R H K) = k (Build_rx_st R' H K').
Proof.
  intros Hc Hm. destruct (rx_read_run rx_recv (fun m s => s <| rx_recv := m |>) off 1 [mark] rest R H K R' Hc eq_refl ltac:(lia) Hm) as (K' & Hrun & Hc' & _).
  exists K'. split; [done|]. unfold sync_byte, head_read. rewrite (bind_ret _ _ _ _ _ Hrun). unfold judge_exit. cbn [Z.leb Z.compare].
  apply mem_write_inv in Hm as (_ & _ & _ & Hg & _). specialize (Hg 0 ltac:(cbn; lia)). rewrite Z.add_0_r in Hg.
  rewrite (bind_ret _ _ _ mark (Build_rx_st R' H K')); [by rewrite Z.eqb_refl|].
  cbv [head_get mbind M_bind get_st]. cbn. by rewrite Hg.
Qed.

Lemma read_head_run k h t H K hd rest : length h = 16%nat -> length hd = 12%nat ->
  carries (so_in K) ([GT_SYNC_HEAD0; GT_SYNC_HEAD1; GT_SYNC_HEAD2; GT_SYNC_HEAD3] ++ hd ++ rest) ->
  exists K', carries (so_in K') rest /\
    read_head k (Build_rx_st (h ++ t) H K) = k (Build_rx_st (([GT_SYNC_HEAD0; GT_SYNC_HEAD1; GT_SYNC_HEAD2; GT_SYNC_HEAD3] ++ hd) ++ t) H K').
Proof.
  intros Hh Hhd Hc. do 16 (destruct h as [|? h]; [done|]). destruct h; [|done].
  unfold read_head.
  edestruct sync_run as (K1 & Hc1 & ->); [exact Hc | apply mem_write_app_l; reflexivity|].
  edestruct sync_run as (K2 & Hc2 & ->); [exact Hc1 | apply mem_write_app_l; reflexivity|].
  edestruct sync_run as (K3 & Hc3 & ->); [exact Hc2 | apply mem_write_app_l; reflexivity|].
  edestruct sync_run as (K4 & Hc4 & ->); [exact Hc3 | apply mem_write_app_l; reflexivity|].
  destruct (rx_read_run rx_recv (fun m s => s <| rx_recv := m |>) 4 12 hd rest
    (([GT_SYNC_HEAD0; GT_SYNC_HEAD1; GT_SYNC_HEAD2; GT_SYNC_HEAD3] ++ [z3; z4; z5; z6; z7; z8; z9; z10; z11; z12; z13; z14]) ++ t) H K4
    (([GT_SYNC_HEAD0; GT_SYNC_HEAD1; GT_SYNC_HEAD2; GT_SYNC_HEAD3] ++ hd) ++ t)) as (K5 & Hrun & Hc5 & _);
    [exact Hc4 | lia | lia | cbn [rx_recv]; apply mem_write_app_l, mem_write_end; [done | cbn [length]; lia]|].
  exists K5. split; [exact Hc5|]. unfold head_read, SIZEOF_GT_PKT_HEAD. rewrite (bind_ret _ _ _ _ _ Hrun). done.
Qed.

Lemma head_get_some {A} (f : list Z -> option A) R H K x : f R = Some x -> head_get f (Build_rx_st R H K) = Ret x (Build_rx_st R H K).
Proof. intros Hf. cbv [head_get mbind M_bind get_st]. cbn. by rewrite Hf. Qed.

Lemma msg_get_some {A} (f : list Z -> option A) R H K x : f (default R H) = Some x -> msg_get f (Build_rx_st R H K) = Ret x (Build_rx_st R H K).
Proof. intros Hf. cbv [msg_get mbind M_bind get_st]. unfold rx_mem. cbn [rx_recv rx_heap]. by rewrite Hf. Qed.

(** A message's memory is the caller's, or, for a long one, on the heap. *)
Definition st_of (heap : bool) R (m : list Z) K : rx_st := if heap then Build_rx_st R (Some m) K else Build_rx_st m None K.

Lemma msg_read_run heap R m off n bs rest K m' : carries (so_in K) (bs ++ rest) -> zlen bs = n -> 0 < n ->
  mem_write m off bs = Some m' -> exists K', msg_read off n (st_of heap R m K) = Ret n (st_of heap R m' K') /\ carries (so_in K') rest.
Proof.
  intros Hc Hn Hpos Hm. destruct heap.
  - destruct (rx_read_run rx_mem set_rx_mem off n bs rest R (Some m) K m' Hc Hn Hpos Hm) as (K' & Hrun & Hc' & _).
    exists K'. split; [exact Hrun | done].
  - destruct (rx_read_run rx_mem set_rx_mem off n bs rest m None K m' Hc Hn Hpos Hm) as (K' & Hrun & Hc' & _).
    exists K'. split; [exact Hrun | done].
Qed.

Lemma st_get {A} (f : list Z -> option A) heap R m K x : f m = Some x -> msg_get f (st_of heap R m K) = Ret x (st_of heap R m K).
Proof. intros Hf. destruct heap; by apply msg_get_some. Qed.

Lemma read_msg_run heap R a t K msg crc rest :
  zlen a = 16 -> Forall is_byte msg -> tab_crc32 msg = Some crc -> 0 < zlen msg -> zlen msg + 8 <= zlen t ->
  carries (so_in K) (msg ++ __put_unaligned_le32 crc ++ __put_unaligned_le32 GT_PKT_TAIL ++ rest) -> exists t' K',
  carries (so_in K') rest /\ zlen t = zlen msg + 8 + zlen t' /\ read_msg (zlen msg) (st_of heap R (a ++ t) K) = hand_over (zlen msg)
    (st_of heap R (a ++ msg ++ __put_unaligned_le32 crc ++ __put_unaligned_le32 GT_PKT_TAIL ++ t') K').
Proof.
  intros Ha Hb Hcrc Hpos Ht Hc. destruct (split_at t (zlen msg) ltac:(lia)) as (b1 & t1 & -> & Hb1). rewrite length_app in Ht.
  destruct (split_at t1 4 ltac:(lia)) as (b2 & t2 & -> & Hb2). rewrite length_app in Ht. destruct (split_at t2 4 ltac:(lia)) as (b3 & t' & -> & Hb3).
  destruct (msg_read_run heap R (a ++ b1 ++ b2 ++ b3 ++ t') 16 (zlen msg) msg _ K (a ++ msg ++ b2 ++ b3 ++ t') Hc eq_refl Hpos
    ltac:(apply mem_write_mid; lia)) as (K1 & Hr1 & Hc1).
  destruct (msg_read_run heap R (a ++ msg ++ b2 ++ b3 ++ t') (16 + zlen msg) 4 (__put_unaligned_le32 crc) _ K1 ((a ++ msg) ++ __put_unaligned_le32 crc ++ b3 ++ t') Hc1 eq_refl ltac:(lia)
    ltac:(rewrite app_assoc; apply mem_write_mid; [rewrite length_app; lia | rewrite le32_length; lia])) as (K2 & Hr2 & Hc2).
  destruct (msg_read_run heap R ((a ++ msg) ++ __put_unaligned_le32 crc ++ b3 ++ t') (16 + zlen msg + 4) 4 (__put_unaligned_le32 GT_PKT_TAIL) rest K2
    (((a ++ msg) ++ __put_unaligned_le32 crc) ++ __put_unaligned_le32 GT_PKT_TAIL ++ t') Hc2 eq_refl ltac:(lia)
    ltac:(rewrite (app_assoc (a ++ msg)); apply mem_write_mid; [rewrite !length_app, le32_length; lia | rewrite le32_length; lia])) as (K3 & Hr3 & Hc3).
  exists t', K3. split; [done|]. split; [rewrite !length_app; lia|]. unfold read_msg, SIZEOF_GT_PKT_HEAD. cbv zeta.
  rewrite (bind_ret _ _ _ _ _ Hr1). unfold judge_exit at 1. rewrite (proj2 (Z.leb_gt _ _)) by lia.
  rewrite (bind_ret _ _ _ _ _ Hr2). unfold judge_exit at 1. cbn [Z.leb Z.compare].
  rewrite (bind_ret _ _ _ _ _ Hr3). unfold judge_exit at 1. cbn [Z.leb Z.compare].
  erewrite bind_ret; [|apply st_get, get_unaligned_mid; [rewrite !length_app, le32_length; lia | by compute]].
  rewrite Z.eqb_refl. cbn [negb]. rewrite <- !app_assoc.
  erewrite bind_ret; [|apply st_get; rewrite (mem_read_mid a msg) by lia; exact Hcrc].
  erewrite bind_ret; [|apply st_get; rewrite app_assoc; apply get_unaligned_mid; [rewrite length_app; lia | by apply (tab_crc32_range msg)]].
  rewrite Z.eqb_refl. done.
Qed.

(** The message goes to the caller from where it was read. *)
Lemma hand_over_run heap R t msg crc t' K : let hd := pkt_head_of (zlen msg) in
  (heap = true -> R = hd ++ t /\ zlen msg + 24 <= zlen R) -> exists t2 H2,
  hand_over (zlen msg) (st_of heap R (packet msg crc ++ t') K) = Ret (Some 0) (Build_rx_st (packet msg crc ++ t2) H2 K) /\
  (if heap then zlen R = zlen msg + 24 + zlen t2 else t2 = t').
Proof.
  intros hd HR. assert (Hl : zlen (packet msg crc) = 16 + zlen msg + 4 + 4).
  { unfold packet. rewrite !length_app, pkt_head_length, !le32_length. lia. }
  unfold hand_over. destruct heap; cbn [st_of].
  - destruct (HR eq_refl) as [-> Hlen]. erewrite bind_ret; [|apply head_get_some; reflexivity].
    rewrite Z.eqb_refl.
    erewrite bind_ret; [|reflexivity]. cbn [rx_heap].
    erewrite bind_access; [|apply (mem_read_mid []); [done | unfold SIZEOF_GT_PKT_HEAD; lia]].
    destruct (split_at (hd ++ t) (zlen (packet msg crc)) ltac:(lia)) as (a & t2 & Hat & Ha).
    erewrite bind_access; [|cbn [rx_recv]; rewrite Hat; apply (mem_write_mid [] a t2); [done | lia]].
    exists t2, (Some (packet msg crc ++ t')). split; [done|]. rewrite Hat, length_app. lia.
  - erewrite bind_ret; [|apply head_get_some; reflexivity]. exists t', None. by split.
Qed.

Lemma make_room_run n k hd t K : 0 <= n -> n < 2 ^ 16 -> length hd = 16%nat -> (forall z, 0 <= z -> exists m, memalign z = Some m /\ zlen m = z) ->
  n + 8 <= zlen t -> exists heap t',
  make_room memalign n k (Build_rx_st (hd ++ t) None K) = k (st_of heap (hd ++ t) (hd ++ t') K) /\
  n + 8 <= zlen t' /\ (heap = false -> t' = t).
Proof.
  intros Hn Hn' Hhd Halign Ht. unfold make_room, SIZEOF_GT_PKT_HEAD, EBUF_ADDON. rewrite u32_small by lia.
  destruct (Z.leb_spec (n + 16 + 512) TMPBUF_LEN); [by exists false, t|].
  destruct (Halign (n + 16 + 512) ltac:(lia)) as (m & -> & Hm). destruct (split_at m 16 ltac:(lia)) as (a & t' & -> & Ha). rewrite length_app in Hm.
  exists true, t'. split; [|split; [lia | done]].
  erewrite bind_ret; [|apply msg_get_some, (mem_read_mid [] hd t); [done | lia]].
  erewrite bind_access; [|apply (mem_write_mid [] a t' hd); [done | lia]]. done.
Qed.

Lemma head_fields n : 0 <= n -> n + 14 < 2 ^ 16 ->
  get_word (pkt_head_of n) 4 = Some (n + 14) /\ get_unaligned (pkt_head_of n) 4 = Some (n + 14 + GT_COM_VERSION * 2 ^ 16) /\
  get_unaligned (pkt_head_of n) 8 = Some 0 /\ get_unaligned (pkt_head_of n) 12 = Some (n + 14 + GT_COM_VERSION * 2 ^ 16).
Proof.
  intros Hn Hn'. rewrite pkt_head_cons. split; [|split; [|split]].
  - change (Some (u16 (byte_at (n + 14) 0 + byte_at (n + 14) 8 * 256)) = Some (n + 14)). unfold u16. by rewrite le16_value, Z.mod_small by lia.
  - exact (length_word (n + 14) ltac:(lia)).
  - done.
  - apply (get_unaligned_mid [0x40; 0x55; 0xaa; 0x55; byte_at (n + 14) 0; byte_at (n + 14) 8; 2; 0; 0; 0; 0; 0] []); [done|].
    unfold is_u32, GT_COM_VERSION. lia.
Qed.

Lemma get_word_app_l a c off v : get_word a off = Some v -> get_word (a ++ c) off = Some v.
Proof. unfold get_word. intros H. inv_opt H. by rewrite (mem_read_app_l _ _ _ _ _ H0). Qed.

(** One packet at the front of the stream. *)
Lemma recv_once_run buf_len R K msg crc rest : Forall is_byte msg -> tab_crc32 msg = Some crc -> 0 < zlen msg -> zlen msg + 14 < 2 ^ 16 ->
  (forall z, 0 <= z -> exists m, memalign z = Some m /\ zlen m = z) -> zlen msg + 36 <= buf_len <= zlen R ->
  carries (so_in K) (packet msg crc ++ rest) -> exists t H K',
  recv_once memalign buf_len (Build_rx_st R None K) = Ret (Some 0) (Build_rx_st (packet msg crc ++ t) H K') /\
  zlen R = zlen msg + 24 + zlen t /\ carries (so_in K') rest.
Proof.
  intros Hb Hcrc Hpos Hmax Halign Hlen Hc. destruct (split_at R 16 ltac:(lia)) as (h & t & -> & Hh). rewrite length_app in Hlen.
  unfold packet in Hc. rewrite <- !app_assoc in Hc. set (hd := pkt_head_of (zlen msg)) in Hc.
  unfold recv_once. match goal with |- context [read_head ?k _] =>
    destruct (read_head_run k h t None K (drop 4 hd) (msg ++ __put_unaligned_le32 crc ++ __put_unaligned_le32 GT_PKT_TAIL ++ rest))
    as (K1 & Hc1 & Hrun); [lia | done | exact Hc|] end.
  change ([GT_SYNC_HEAD0; GT_SYNC_HEAD1; GT_SYNC_HEAD2; GT_SYNC_HEAD3] ++ drop 4 hd) with hd in Hrun.
  rewrite Hrun. clear Hrun. destruct (head_fields (zlen msg) ltac:(lia) Hmax) as (F1 & F2 & F3 & F4). fold hd in F1, F2, F3, F4.
  erewrite bind_ret; [|apply head_get_some, get_word_app_l; exact F1]. cbv zeta. unfold SIZEOF_GT_PKT_HEAD.
  replace (zlen msg + 14 - 16 + 4 + 2 - 4) with (zlen msg) by lia. rewrite (i32_small (zlen msg)), i32_small by lia.
  rewrite (proj2 (Z.ltb_ge _ _)) by lia.
  erewrite bind_ret; [|apply head_get_some, get_unaligned_app_l; exact F2]. erewrite bind_ret; [|apply head_get_some, get_unaligned_app_l; exact F3].
  erewrite bind_ret; [|apply head_get_some, get_unaligned_app_l; exact F4]. rewrite Z.lxor_0_r, Z.eqb_refl. cbn [negb].
  destruct (make_room_run (zlen msg) (read_msg (zlen msg)) hd t K1 ltac:(lia) ltac:(lia) eq_refl Halign ltac:(lia)) as (heap & t1 & Hroom & Ht1 & Hsame).
  rewrite Hroom. destruct (read_msg_run heap (hd ++ t) hd t1 K1 msg crc rest eq_refl Hb Hcrc Hpos Ht1 Hc1) as (t2 & K2 & Hc2 & Ht2 & Hread). rewrite Hread.
  assert (Hm : hd ++ msg ++ __put_unaligned_le32 crc ++ __put_unaligned_le32 GT_PKT_TAIL ++ t2 = packet msg crc ++ t2) by (unfold packet; by rewrite <- !app_assoc).
  rewrite Hm. destruct (hand_over_run heap (hd ++ t) t msg crc t2 K2) as (t3 & H3 & Hhand & Hl3).
  { intros _. split; [done|]. rewrite length_app. change (length hd) with 16%nat. lia. }
  exists t3, H3, K2. split; [exact Hhand|]. split; [|done]. rewrite length_app in Hl3 |- *. change (length hd) with 16%nat in Hl3.
  destruct heap; [lia|]. rewrite Hsame in Ht2 by done. subst t3. lia.
Qed.

(** A byte that no packet begins with is passed over. *)
Lemma recv_once_junk buf_len R K b rest : b <> GT_SYNC_HEAD0 -> 0 < zlen R -> carries (so_in K) (b :: rest) -> exists R' K',
  recv_once memalign buf_len (Build_rx_st R None K) = Ret None (Build_rx_st R' None K') /\ length R' = length R /\ carries (so_in K') rest.
Proof.
  intros Hb HR Hc. destruct R as [|r R]; [cbn [length] in HR; lia|].
  destruct (rx_read_run rx_recv (fun m s => s <| rx_recv := m |>) 0 1 [b] rest (r :: R) None K (b :: R) Hc eq_refl ltac:(lia)
    (mem_write_mid [] [r] R [b] 0 eq_refl eq_refl)) as (K' & Hrun & Hc' & _).
  exists (b :: R), K'. split; [|done]. unfold recv_once, read_head, sync_byte, head_read. rewrite (bind_ret _ _ _ _ _ Hrun). unfold judge_exit. cbn [Z.leb Z.compare].
  erewrite bind_ret; [|apply head_get_some; reflexivity]. by rewrite (proj2 (Z.eqb_neq _ _)).
Qed.

Lemma carries_size st bs : carries st bs -> (length bs <= stream_size st)%nat.
Proof.
  revert bs. induction st as [|[b l|e|] st IH]; intros bs; cbn [carries]; [by intros ->| | |done].
  - intros (bs' & -> & Hc). apply IH in Hc. rewrite stream_size_cons, length_app. cbn [arrival_size length]. lia.
  - intros [_ Hc]. apply IH in Hc. rewrite stream_size_cons. lia.
Qed.

Lemma recv_loop_run buf_len R K junk msg crc rest fuel : Forall is_byte msg -> tab_crc32 msg = Some crc -> 0 < zlen msg -> zlen msg + 14 < 2 ^ 16 ->
  (forall z, 0 <= z -> exists m, memalign z = Some m /\ zlen m = z) -> zlen msg + 36 <= buf_len <= zlen R ->
  Forall (fun b => b <> GT_SYNC_HEAD0) junk -> (length junk < fuel)%nat ->
  carries (so_in K) (junk ++ packet msg crc ++ rest) -> exists t H K',
  recv_loop memalign fuel buf_len (Build_rx_st R None K) = Ret 0 (Build_rx_st (packet msg crc ++ t) H K') /\
  zlen R = zlen msg + 24 + zlen t /\ carries (so_in K') rest.
Proof.
  intros Hb Hcrc Hpos Hmax Halign Hlen Hjunk. revert R K fuel Hlen. induction Hjunk as [|b junk Hne _ IH]; intros R K fuel Hlen Hfuel Hc.
  - destruct fuel as [|fuel]; [lia|]. destruct (recv_once_run buf_len R K msg crc rest Hb Hcrc Hpos Hmax Halign Hlen Hc) as (t & H & K' & Hrun & Hl & Hc').
    exists t, H, K'. cbn [recv_loop]. by rewrite (bind_ret _ _ _ _ _ Hrun).
  - cbn [length] in Hfuel. destruct fuel as [|fuel]; [lia|]. destruct (recv_once_junk buf_len R K b _ Hne ltac:(lia) Hc) as (R' & K' & Hrun & Hl & Hc').
    destruct (IH R' K' fuel ltac:(lia) ltac:(lia) Hc') as (t & H & K2 & Hrun2 & Hl2 & Hc2). exists t, H, K2.
    cbn [recv_loop]. rewrite (bind_ret _ _ _ _ _ Hrun). split; [done|]. split; [lia | done].
Qed.
End Receiver.

(** C20. A message that is sent is received: the sender's call puts one packet on the wire,
    also when the kernel takes it in pieces; and wherever this packet arrives, in pieces
    of any sizes, with reads that signals interrupt, and after any bytes that are no
    start mark, the receiver's call returns 0 with the message, filled up to whole words
    with zeros, behind the head in the caller's memory, and has taken nothing that came
    after the packet.  The memory for long packets is there, and the message is not
    empty. *)
Theorem packet_is_received memalign fd fd' buf_len msg h t k R H K junk rest :
  0 <= fd -> 0 <= fd' -> Forall is_byte msg -> 0 < zlen msg -> zlen (padded msg) + 14 < 2 ^ 16 ->
  length h = 16%nat -> zlen (padded msg) + 8 <= zlen msg + zlen t -> Forall takes (so_writes k) ->
  (forall z, 0 <= z -> exists m, memalign z = Some m /\ zlen m = z) -> zlen (padded msg) + 36 <= buf_len <= zlen R ->
  Forall (fun b => b <> GT_SYNC_HEAD0) junk ->
  exists s pkt, gt_cmd_pkt_send fd (zlen msg) GT_CMD_NO_AUTH GT_CMD_NO_ENCRYPT (Build_tx_st (h ++ msg ++ t) k) = Ret 0 s /\
    so_wire (tx_sock s) = so_wire k ++ pkt /\
    (carries (so_in K) (junk ++ pkt ++ rest) -> exists s',
       gt_cmd_pkt_recv memalign fd' buf_len (Build_rx_st R H K) = Ret 0 s' /\
       mem_read (rx_recv s') SIZEOF_GT_PKT_HEAD (zlen (padded msg)) = Some (padded msg) /\
       length (rx_recv s') = length R /\ carries (so_in (rx_sock s')) rest).
Proof.
  intros Hfd Hfd' Hb Hpos Hmax Hh Ht Hw Halign Hlen Hjunk.
  destruct (send_run fd msg h t k Hfd Hb Hh Hmax Ht Hw) as (crc & t' & k' & Hcrc & Hsend & Hwire).
  eexists _, (packet (padded msg) crc). split; [exact Hsend|]. split; [exact Hwire|]. intros Hc.
  pose proof (carries_size _ _ Hc) as Hsize. rewrite length_app in Hsize. pose proof (padded_length msg) as Hpl. pose proof (pad_length (zlen msg)) as Hpad.
  destruct (recv_loop_run memalign buf_len R K junk (padded msg) crc rest (S (stream_size (so_in K))) (padded_bytes _ Hb) Hcrc) as (t2 & H2 & K2 & Hrun & Hl & Hc2);
    [lia | lia | done | done | done | lia | done|].
  exists (Build_rx_st (packet (padded msg) crc ++ t2) H2 K2). split; [|split; [|split; [|exact Hc2]]].
  - unfold gt_cmd_pkt_recv. rewrite (proj2 (Z.ltb_ge _ _)) by lia. erewrite bind_ret; [|reflexivity]. erewrite bind_ret; [|reflexivity]. exact Hrun.
  - cbn [rx_recv]. unfold packet. rewrite <- !app_assoc. by apply mem_read_mid.
  - cbn [rx_recv]. unfold packet. rewrite !length_app, pkt_head_length, !le32_length. lia.
Qed.

(** ** Concrete packets *)

Definition example_memalign (z : Z) : option (list Z) := if z <? 0 then None else Some (replicate (Z.to_nat z) 0).

Lemma example_memalign_size z m : example_memalign z = Some m -> zlen m = z.
Proof. unfold example_memalign. zcase. intros [= <-]. rewrite length_replicate. lia. Qed.

Lemma example_memalign_gives z : 0 <= z -> exists m, example_memalign z = Some m /\ zlen m = z.
Proof. intros Hz. unfold example_memalign. rewrite (proj2 (Z.ltb_ge _ _)) by done. eexists. split; [done|]. rewrite length_replicate. lia. Qed.

(** The message 1, 64, 3 in three pieces out of the sender, and on its way behind two bytes
    of something else in five pieces, with a signal between them. *)
Definition example_packet : list Z :=
  [64; 85; 170; 85; 18; 0; 2; 0; 0; 0; 0; 0; 18; 0; 2; 0; 1; 64; 3; 0; 153; 70; 244; 28; 35; 102; 136; 102].
Definition example_stream : list arrival :=
  [Arrive 7 [8; 64; 85]; Arrive 170 []; Fails EINTR; Arrive 85 [18; 0; 2; 0; 0; 0; 0; 0; 18; 0; 2; 0; 1; 64]; Arrive 3 [0; 153]; Arrive 70 [244; 28; 35; 102; 136; 102; 99]].

Lemma packet_is_received_witness : exists s s',
  gt_cmd_pkt_send 4 3 GT_CMD_NO_AUTH GT_CMD_NO_ENCRYPT (Build_tx_st (replicate 16 9 ++ [1; 64; 3] ++ replicate 12 7) (Build_sock [] [5; - EINTR; 3] [])) = Ret 0 s /\
  so_wire (tx_sock s) = example_packet /\
  gt_cmd_pkt_recv example_memalign 5 64 (Build_rx_st (replicate 64 5) None (Build_sock [] [] example_stream)) = Ret 0 s' /\
  mem_read (rx_recv s') 16 4 = Some [1; 64; 3; 0] /\ carries (so_in (rx_sock s')) [99].
Proof.
  destruct (packet_is_received example_memalign 4 5 64 [1; 64; 3] (replicate 16 9) (replicate 12 7) (Build_sock [] [5; - EINTR; 3] [])
    (replicate 64 5) None (Build_sock [] [] example_stream) [7; 8] [99]) as (s & pkt & Hsend & Hwire & Hrecv).
  - lia.
  - lia.
  - repeat constructor; lia.
  - reflexivity.
  - reflexivity.
  - reflexivity.
  - vm_compute. discriminate.
  - repeat constructor; unfold takes; (left; lia) || (right; reflexivity).
  - exact example_memalign_gives.
  - split; vm_compute; discriminate.
  - repeat constructor; discriminate.
  - assert (Hpkt : pkt = example_packet).
    { vm_compute in Hsend. injection Hsend as <-. cbn [tx_sock so_wire app] in Hwire. by rewrite <- Hwire. }
    rewrite Hpkt in Hwire, Hrecv. destruct Hrecv as (s' & Hrun & Hread & _ & Hrest).
    { cbn [so_in carries example_stream]. repeat first [split; [reflexivity|] | eexists; split; [reflexivity|]]. reflexivity. }
    exists s, s'. split; [exact Hsend|]. split; [exact Hwire|]. split; [exact Hrun|]. split; [exact Hread | exact Hrest].
Defined.

(** Behind a stray start mark the same packet is lost: the byte that shows that the mark was
    none is not looked at as the first of a packet, and the call goes on waiting. *)
Lemma stray_mark_loses_packet : exists s,
  gt_cmd_pkt_recv example_memalign 5 64 (Build_rx_st (replicate 64 5) None (Build_sock [] [] [Arrive GT_SYNC_HEAD0 example_packet])) = Blocked s.
Proof. eexists. vm_compute. reflexivity. Qed.

(** A packet without a message is sent, and looks like the end of the connection. *)
Definition example_empty : list Z := [85; 170; 85; 14; 0; 2; 0; 0; 0; 0; 0; 14; 0; 2; 0; 255; 255; 255; 255; 35; 102; 136; 102].

Lemma empty_message_looks_shut :
  match gt_cmd_pkt_send 4 0 GT_CMD_NO_AUTH GT_CMD_NO_ENCRYPT (Build_tx_st (replicate 24 9) (Build_sock [] [] [])) with
  | Ret r s => r = 0 /\ so_wire (tx_sock s) = GT_SYNC_HEAD0 :: example_empty
  | _ => False
  end /\
  match gt_cmd_pkt_recv example_memalign 5 64 (Build_rx_st (replicate 64 5) None (Build_sock [] [] [Arrive GT_SYNC_HEAD0 example_empty])) with
  | Ret r _ => r = -140
  | _ => False
  end.
Proof. vm_compute. by split. Qed.
