(* ===== verification/GtComSafe.v ===== *)
(** * Whatever arrives, the receiver keeps to its memory

    The receiving call with any bytes, errors and ends of the connection: it leaves no
    memory, waits only when nothing more arrives, and a message it gives out is whole. *)

From S2P Require Import Prelude Update Wp Memory Crc32 Net GtCom GtComThms.

(** The table has an entry for whatever the sum is. *)
Lemma crc_loop_total buf c : is_Some (crc_loop buf c).
Proof.
  revert c. induction buf as [|b buf IH]; intros c; [by eexists|]. cbn [crc_loop].
  destruct (geti_is_Some crc_table (Z.land (Z.lxor (i32 c) b) 0xff)) as [t ->]; [|apply IH].
  change 0xff with (Z.ones 8). rewrite Z.land_ones by lia. change (zlen crc_table) with (2 ^ 8). apply Z.mod_pos_bound. lia.
Qed.

Lemma tab_crc32_total buf : is_Some (tab_crc32 buf).
Proof. unfold tab_crc32. destruct (crc_loop_total buf (Z.lxor 0xffffffff 0xffffffff)) as [c ->]. by eexists. Qed.

Lemma get_unaligned_total m off : 0 <= off -> off + 4 <= zlen m -> is_Some (get_unaligned m off).
Proof.
  intros Ho Hl. unfold get_unaligned. destruct (mem_read_Some m off 4) as (p & -> & Hp); [lia..|].
  do 4 (destruct p as [|? p]; [cbn in Hp; lia|]). destruct p; [by eexists | cbn in Hp; lia].
Qed.

Lemma get_word_total m off : 0 <= off -> off + 2 <= zlen m -> exists v, get_word m off = Some v /\ 0 <= v < 2 ^ 16.
Proof.
  intros Ho Hl. unfold get_word. destruct (mem_read_Some m off 2) as (p & -> & Hp); [lia..|].
  do 2 (destruct p as [|? p]; [cbn in Hp; lia|]). destruct p; [|cbn in Hp; lia]. eexists. split; [done|]. apply Z.mod_pos_bound. lia.
Qed.

Section Safe.
Context (memalign : Z -> option (list Z)) (N buf_len : Z).
Context (Halign : forall z m, memalign z = Some m -> zlen m = z) (HN : 16 <= N) (Hbuf : buf_len <= N).

Definition left_in (s : rx_st) : nat := stream_size (so_in (rx_sock s)).
(** The memories have their sizes, and less than [n] is still to arrive. *)
Definition sane (n : nat) (s : rx_st) : Prop :=
  zlen (rx_recv s) = N /\ match rx_heap s with Some m => TMPBUF_LEN < zlen m | None => True end /\ (left_in s < n)%nat.

(** There is a message of at least one byte behind the head, with its sum and the mark of
    the end behind it. *)
Definition intact (m : list Z) : Prop := exists msg crc, msg <> [] /\ mem_read m SIZEOF_GT_PKT_HEAD (zlen msg) = Some msg /\
  tab_crc32 msg = Some crc /\ get_unaligned m (SIZEOF_GT_PKT_HEAD + zlen msg) = Some crc /\
  get_unaligned m (SIZEOF_GT_PKT_HEAD + zlen msg + 4) = Some GT_PKT_TAIL.

(** What a round may end with: a message, an error, or less that is to arrive. *)
Definition round_ends (n : nat) (r : option Z) (s : rx_st) : Prop :=
  match r with
  | None => sane n s
  | Some r => zlen (rx_recv s) = N /\ (r = 0 -> intact (rx_recv s))
  end.
Definition drained (s : rx_st) : Prop := so_in (rx_sock s) = [].

Lemma wp_rx_read get set off n (Q : Z -> rx_st -> Prop) s : 0 <= off -> off + Z.max 0 n <= zlen (get s) ->
  (forall r m k, length m = length (get s) -> (stream_size (so_in k) <= left_in s)%nat ->
    (0 < r -> 0 < n /\ (stream_size (so_in k) < left_in s)%nat) -> Q r (set m (s <| rx_sock := k |>))) ->
  wp (rx_read get set off n) Q drained s.
Proof.
  intros Ho Hl HQ. unfold wp, rx_read, net_read_buf. destruct (Z.leb_spec n 0) as [Hn | Hn].
  - destruct (mem_write_Some (get s) off []) as [m Hm]; [done | cbn; lia|]. rewrite (bind_access _ _ _ m Hm).
    apply mem_write_inv in Hm as (_ & _ & Hm & _). cbn. apply HQ; [done | unfold left_in; lia | lia].
  - destruct (net_read_loop (so_in (rx_sock s)) (Z.to_nat n) []) as [[[r data] st]|] eqn:Hr; [|done].
    apply net_read_loop_shrinks in Hr as (H1 & H2 & H3). cbn [length] in H3.
    destruct (mem_write_Some (get s) off data) as [m Hm]; [done | lia|]. rewrite (bind_access _ _ _ m Hm).
    apply mem_write_inv in Hm as (_ & _ & Hm & _). cbn. apply HQ; [done | exact H1|]. intros Hpos. split; [done|]. apply H2; lia.
Qed.

Lemma wp_judge_exit n r k (s : rx_st) : zlen (rx_recv s) = N -> (0 < r -> wp k (round_ends n) drained s) ->
  wp (judge_exit r k) (round_ends n) drained s.
Proof.
  intros Hs Hk. unfold judge_exit. destruct (Z.leb_spec r 0) as [Hr | Hr]; [|by apply Hk].
  apply wp_ret. split; [done|]. intros Hz. destruct (Z.eqb_spec r 0); lia.
Qed.

(** A read of the head: [n] is more than what is to arrive after it. *)
Lemma wp_head_read n (m : nat) off len k (s : rx_st) : 0 <= off -> 0 <= len -> off + len <= 16 -> sane m s -> (m <= S n)%nat ->
  (forall r s', 0 < r -> sane n s' -> wp (k r) (round_ends n) drained s') ->
  wp (ret ← head_read off len; judge_exit ret (k ret)) (round_ends n) drained s.
Proof.
  intros Ho Hlen Hl (HR & Hheap & Hleft) Hm Hk. apply wp_bind, wp_rx_read; [done | lia|]. intros r R' sk HR' Hle Hlt.
  apply wp_judge_exit; [cbn; lia|]. intros Hr. apply Hk; [done|]. split; [cbn; lia|]. split; [exact Hheap|]. unfold left_in in *. cbn. lia.
Qed.

Lemma wp_head_get {A} (f : list Z -> option A) k n (s : rx_st) : is_Some (f (rx_recv s)) ->
  (forall x, f (rx_recv s) = Some x -> wp (k x) (round_ends n) drained s) -> wp (x ← head_get f; k x) (round_ends n) drained s.
Proof. intros [x Hx] Hk. apply wp_bind, wp_bind, wp_get. by apply (wp_access _ x), Hk. Qed.

Lemma wp_msg_get {A} (f : list Z -> option A) k n (s : rx_st) : is_Some (f (rx_mem s)) ->
  (forall x, f (rx_mem s) = Some x -> wp (k x) (round_ends n) drained s) -> wp (x ← msg_get f; k x) (round_ends n) drained s.
Proof. intros [x Hx] Hk. apply wp_bind, wp_bind, wp_get. by apply (wp_access _ x), Hk. Qed.

Lemma wp_sync (n m : nat) off mark k (s : rx_st) : 0 <= off -> off + 1 <= 16 -> sane m s -> (m <= S n)%nat ->
  (forall s', sane n s' -> wp k (round_ends n) drained s') -> wp (sync_byte off mark k) (round_ends n) drained s.
Proof.
  intros Ho Hl Hs Hm Hk. unfold sync_byte. apply (wp_head_read n m off 1 (fun _ => _)); [lia | lia | lia | done | done|]. intros r s' _ Hs'.
  apply wp_head_get; [apply geti_is_Some; rewrite (proj1 Hs'); lia|]. intros b _. destruct (negb (b =? mark)); [by apply wp_ret | by apply Hk].
Qed.

Lemma wp_read_head (n : nat) k (s : rx_st) : sane (S n) s -> (forall s', sane n s' -> wp k (round_ends n) drained s') ->
  wp (read_head k) (round_ends n) drained s.
Proof.
  intros Hs Hk. unfold read_head. apply (wp_sync n (S n)); [lia | lia | done | lia|]. intros s1 H1.
  apply (wp_sync n n); [lia | lia | done | lia|]. intros s2 H2. apply (wp_sync n n); [lia | lia | done | lia|]. intros s3 H3.
  apply (wp_sync n n); [lia | lia | done | lia|]. intros s4 H4. unfold SIZEOF_GT_PKT_HEAD.
  apply (wp_head_read n n 4 (16 - 4) (fun ret => if negb (ret =? 16 - 4) then mret None else k)); [lia | lia | lia | done | lia|].
  intros r s5 _ H5. destruct (negb (r =? 16 - 4)); [by apply wp_ret | by apply Hk].
Qed.

(** The message's memory, [c] bytes of it. *)
Definition roomy (n : nat) (c : Z) (s : rx_st) : Prop := sane n s /\ zlen (rx_mem s) = c.

Lemma wp_msg_read (n : nat) c off len k (s : rx_st) : 0 <= off -> off + Z.max 0 len <= c -> roomy n c s ->
  (forall s', 0 < len -> roomy n c s' -> wp k (round_ends n) drained s') ->
  wp (ret ← msg_read off len; judge_exit ret k) (round_ends n) drained s.
Proof.
  intros Ho Hl [(HR & Hheap & Hleft) Hc] Hk. apply wp_bind, wp_rx_read; [done | lia|]. intros r m sk Hm Hle Hlt.
  assert (Hs : 0 < r -> roomy n c (set_rx_mem m (s <| rx_sock := sk |>))).
  { intros Hr. unfold left_in in *. destruct s as [R H K]. unfold roomy, sane, set_rx_mem, rx_mem in *. cbn [rx_recv rx_heap rx_sock default] in *.
    destruct (Hlt Hr) as [_ Hsm]. destruct H as [h|]; cbn in *; (split; [split; [|split]|]).
    all: try done; try (unfold left_in; cbn; lia). all: cbn; lia. }
  apply wp_judge_exit.
  - destruct s as [R [h|] K]; [exact HR|]. cbn in *. lia.
  - intros Hr. apply Hk; [by apply Hlt | by apply Hs].
Qed.

Lemma mem_read_app a c off n : off + n <= zlen a -> mem_read (a ++ c) off n = mem_read a off n.
Proof.
  intros Hl. unfold mem_read. rewrite length_app. destruct (Z.leb_spec 0 off), (Z.leb_spec 0 n); cbn [andb]; try done.
  rewrite !(proj2 (Z.leb_le _ _)) by lia. by rewrite drop_app_le, take_app_le by (rewrite ?length_drop; lia).
Qed.

Lemma get_unaligned_app a c off : off + 4 <= zlen a -> get_unaligned (a ++ c) off = get_unaligned a off.
Proof. intros. unfold get_unaligned. by rewrite mem_read_app. Qed.

(** Copied with what is behind it, the message is still there. *)
Lemma intact_copy m data c msg crc : zlen data = SIZEOF_GT_PKT_HEAD + zlen msg + 4 + 4 -> mem_read m 0 (zlen data) = Some data ->
  mem_read m SIZEOF_GT_PKT_HEAD (zlen msg) = Some msg -> msg <> [] -> tab_crc32 msg = Some crc ->
  get_unaligned m (SIZEOF_GT_PKT_HEAD + zlen msg) = Some crc -> get_unaligned m (SIZEOF_GT_PKT_HEAD + zlen msg + 4) = Some GT_PKT_TAIL ->
  intact (data ++ c).
Proof.
  intros Hd Hr Hm Hne Hcrc Hu Ht. assert (Hsplit : m = data ++ drop (length data) m).
  { unfold mem_read in Hr. revert Hr. zcase. rewrite drop_0, Nat2Z.id. intros [= Hr]. rewrite <- (take_drop (length data) m) at 1. by rewrite Hr. }
  rewrite Hsplit in Hm, Hu, Ht. rewrite mem_read_app in Hm by lia. rewrite get_unaligned_app in Hu, Ht by lia.
  exists msg, crc. rewrite mem_read_app, !get_unaligned_app by lia. done.
Qed.

Lemma wp_hand_over (n : nat) c len msg crc (s : rx_st) : roomy n c s -> SIZEOF_GT_PKT_HEAD + len + 8 <= c -> SIZEOF_GT_PKT_HEAD + len + 8 <= N -> 0 < len ->
  mem_read (rx_mem s) SIZEOF_GT_PKT_HEAD len = Some msg -> tab_crc32 msg = Some crc -> get_unaligned (rx_mem s) (SIZEOF_GT_PKT_HEAD + len) = Some crc ->
  get_unaligned (rx_mem s) (SIZEOF_GT_PKT_HEAD + len + 4) = Some GT_PKT_TAIL -> wp (hand_over len) (round_ends n) drained s.
Proof.
  intros [(HR & Hheap & Hleft) Hc] Hlen HlenN Hpos Hm Hcrc Hu Ht. unfold hand_over, SIZEOF_GT_PKT_HEAD in *.
  apply wp_head_get; [apply geti_is_Some; lia|]. intros ty _. destruct (ty =? GT_CMD_NO_AUTH); [|by apply wp_ret].
  apply wp_bind, wp_get. pose proof (mem_read_inv _ _ _ _ Hm) as (_ & _ & _ & Hml & _). subst len.
  assert (Hne : msg <> []) by (intros ->; cbn in Hpos; lia). unfold rx_mem in *. destruct s as [R [h|] K]; cbn [rx_heap rx_recv default] in *; unfold id in *.
  - destruct (mem_read_Some h 0 (16 + zlen msg + 4 + 4)) as (data & Hd & Hdl); [lia..|]. apply wp_bind, (wp_access _ data _ _ _ Hd).
    destruct (split_at R (zlen data) ltac:(lia)) as (a & t & -> & Ha).
    apply wp_bind. eapply (wp_access _ (data ++ t)); [apply (mem_write_mid [] a t data); [done | lia]|].
    apply wp_bind, wp_modify, wp_ret. rewrite length_app in HR. split; [cbn; rewrite length_app; lia|]. intros _.
    eapply (intact_copy h); try done. by rewrite Hdl.
  - apply wp_ret. split; [exact HR|]. intros _. by exists msg, crc.
Qed.

Lemma wp_read_msg (n : nat) c len (s : rx_st) : roomy n c s -> SIZEOF_GT_PKT_HEAD <= c -> SIZEOF_GT_PKT_HEAD + len + 8 <= c -> SIZEOF_GT_PKT_HEAD + len + 8 <= N ->
  wp (read_msg len) (round_ends n) drained s.
Proof.
  intros Hs Hc0 Hc HlenN. unfold read_msg, SIZEOF_GT_PKT_HEAD in *. cbv zeta.
  apply (wp_msg_read n c); [lia | lia | done|]. intros s1 Hpos H1. apply (wp_msg_read n c); [lia | lia | done|]. intros s2 _ H2.
  apply (wp_msg_read n c); [lia | lia | done|]. intros s3 _ H3. pose proof H3 as [Hs3 Hc3].
  apply wp_msg_get; [apply get_unaligned_total; lia|]. intros tl Htl. destruct (Z.eqb_spec tl GT_PKT_TAIL) as [-> |]; cbn [negb]; [|by apply wp_ret].
  destruct (mem_read_Some (rx_mem s3) 16 len) as (msg & Hm & _); [lia..|]. destruct (tab_crc32_total msg) as [crc Hcrc].
  apply wp_msg_get; [rewrite Hm; cbn; by eexists|]. intros x Hx. rewrite Hm in Hx. cbn in Hx. assert (x = crc) as -> by congruence.
  apply wp_msg_get; [apply get_unaligned_total; lia|]. intros y Hy. destruct (Z.eqb_spec crc y) as [<- |]; cbn [negb]; [|apply wp_ret; by split; [apply Hs3|]].
  apply (wp_hand_over n c len msg crc); unfold SIZEOF_GT_PKT_HEAD; done || lia.
Qed.

(** Room for a message whose length the check of the caller's memory let through. *)
Lemma wp_make_room (n : nat) len (s : rx_st) : -16 <= len < 2 ^ 16 -> len + 36 <= N -> sane n s ->
  wp (make_room memalign len (read_msg len)) (round_ends n) drained s.
Proof.
  intros Hlen HlenN Hs. pose proof Hs as (HR & Hheap & Hleft). unfold make_room, SIZEOF_GT_PKT_HEAD, EBUF_ADDON in *.
  rewrite u32_small by lia. destruct (Z.leb_spec (len + 16 + 512) TMPBUF_LEN) as [Hle | Hgt].
  - apply (wp_read_msg n (zlen (rx_mem s))); [by split | | | unfold SIZEOF_GT_PKT_HEAD; lia];
      unfold SIZEOF_GT_PKT_HEAD, TMPBUF_LEN, rx_mem in *; destruct (rx_heap s); cbn [default]; unfold id; lia.
  - destruct (memalign (len + 16 + 512)) as [m|] eqn:Hm; [|by apply wp_ret]. apply Halign in Hm.
    assert (H16 : 16 <= zlen (rx_mem s)) by (unfold rx_mem, TMPBUF_LEN in *; destruct (rx_heap s); cbn [default]; unfold id; lia).
    destruct (mem_read_Some (rx_mem s) 0 16) as (hd & Hhd & Hl); [lia..|]. apply wp_msg_get; [by rewrite Hhd|]. intros x Hx. assert (x = hd) as -> by congruence.
    destruct (mem_write_Some m 0 hd) as [m2 Hm2]; [lia | lia|]. apply wp_bind, (wp_access _ m2 _ _ _ Hm2), wp_bind, wp_modify.
    apply mem_write_inv in Hm2 as (_ & _ & Hm2 & _). apply (wp_read_msg n (zlen m2)); [|unfold SIZEOF_GT_PKT_HEAD; lia..].
    split; [|done]. split; [exact HR|]. split; [cbn; lia | exact Hleft].
Qed.

Lemma wp_recv_once (n : nat) (s : rx_st) : sane (S n) s -> wp (recv_once memalign buf_len) (round_ends n) drained s.
Proof.
  intros Hs. unfold recv_once. apply wp_read_head; [done|]. intros s1 H1. pose proof H1 as (HR & _).
  destruct (get_word_total (rx_recv s1) 4) as (w & Hw & Hr); [lia..|]. apply wp_head_get; [by eexists|]. intros x Hx. assert (x = w) as -> by congruence. clear Hx.
  cbv zeta. unfold SIZEOF_GT_PKT_HEAD. rewrite (i32_small (w - 16 + 4 + 2 - 4)), i32_small by lia. set (len := w - 16 + 4 + 2 - 4).
  destruct (Z.ltb_spec buf_len (len + 16 + 20)); [by apply wp_ret|]. do 3 (apply wp_head_get; [apply get_unaligned_total; lia|]; intros ? _).
  destruct (negb _); [by apply wp_ret|]. apply wp_make_room; [unfold len; lia | lia | done].
Qed.

Lemma wp_recv_loop (n : nat) (s : rx_st) : sane n s ->
  wp (recv_loop memalign n buf_len) (fun r s' => zlen (rx_recv s') = N /\ (r = 0 -> intact (rx_recv s'))) drained s.
Proof.
  revert s. induction n as [|n IH]; intros s Hs; [destruct Hs as (_ & _ & Hl); lia|]. cbn [recv_loop].
  apply wp_bind. eapply wp_mono; [by apply (wp_recv_once n)|]. intros [r|] s' Hr; [by apply wp_ret | by apply IH].
Qed.
End Safe.

(** C21. Whatever arrives - bytes in any pieces, errors, the end of the connection -, the
    receiver's call does nothing undefined in a memory that has room for a head and for
    as much as it was told: it reads and writes inside it, and inside the memory it asks
    for, which it may get or not; it returns, or waits when all that arrives has been
    taken; and when it returns 0 the caller's memory has a message with the sum of its
    bytes and the mark of the end behind it. *)
Theorem receiver_is_safe memalign fd buf_len s : 0 <= fd ->
  (forall z m, memalign z = Some m -> zlen m = z) -> 16 <= zlen (rx_recv s) -> buf_len <= zlen (rx_recv s) ->
  wp (gt_cmd_pkt_recv memalign fd buf_len)
    (fun r s' => length (rx_recv s') = length (rx_recv s) /\ (r = 0 -> intact (rx_recv s'))) (fun s' => so_in (rx_sock s') = []) s.
Proof.
  intros Hfd Halign H16 Hbuf. unfold gt_cmd_pkt_recv. rewrite (proj2 (Z.ltb_ge _ _)) by lia. apply wp_bind, wp_modify, wp_bind, wp_get.
  eapply wp_mono; [apply (wp_recv_loop memalign (zlen (rx_recv s)) buf_len Halign H16 Hbuf)|].
  - split; [done|]. split; [exact I | unfold left_in; cbn; lia].
  - intros r s' [Hl Hi]. split; [lia | exact Hi].
Qed.

(** Pieces of a packet and what is none, with an error at the end. *)
Lemma receiver_is_safe_witness : exists s,
  gt_cmd_pkt_recv example_memalign 5 64 (Build_rx_st (replicate 64 5) None (Build_sock [] [] [Arrive 64 [64; 85]; Arrive 64 [85; 170; 85; 255]; Fails EPIPE])) = Ret (- EPIPE) s /\
  length (rx_recv s) = 64%nat.
Proof.
  pose proof (receiver_is_safe example_memalign 5 64 (Build_rx_st (replicate 64 5) None (Build_sock [] [] [Arrive 64 [64; 85]; Arrive 64 [85; 170; 85; 255]; Fails EPIPE]))
    ltac:(lia) example_memalign_size ltac:(vm_compute; discriminate) ltac:(vm_compute; discriminate)) as Hsafe.
  eexists. split; [vm_compute; reflexivity|]. refine (proj1 (wp_returned _ _ _ _ _ _ Hsafe _)). vm_compute. reflexivity.
Defined.
