(* ===== verification/Shm.v ===== *)
(** * Shared segments and their mutex (libsrc/gtipcs/mshm.c)

    A segment is found by its key; its first page holds the descriptor
    [MEM_CORE], the rest is the user's.  The mutex of a segment is the only
    semaphore of the set that has the segment's key.  [os] is what the kernel
    keeps: the segments, the semaphore sets, and for each process the value by
    which its [SEM_UNDO] operations would be undone if it ended. *)

From stdpp Require Import gmap.
From S2P Require Import Prelude Sem.

Definition MSHM_MAGIC : Z := 0x5500aa00.
Definition EEXIST : Z := 17.

Record MEM_CORE := {
  magic : Z; tsize : Z; usize : Z; mkey : Z; memid : Z; semid : Z; uoffset : Z; name : list Z
}.

(** [s_core] is [None] until a creator has filled the descriptor. *)
Record segment := { s_size : Z; s_core : option MEM_CORE; s_user : list Z }.

Record os := {
  segs : gmap Z segment;
  sets : gmap Z (list Z);
  adj : gmap (Z * Z) Z;
  os_errno : Z
}.

Definition set_segs (v : gmap Z segment) (s : os) : os :=
  {| segs := v; sets := sets s; adj := adj s; os_errno := os_errno s |}.
Definition set_sets (v : gmap Z (list Z)) (s : os) : os :=
  {| segs := segs s; sets := v; adj := adj s; os_errno := os_errno s |}.
Definition set_adj (v : gmap (Z * Z) Z) (s : os) : os :=
  {| segs := segs s; sets := sets s; adj := v; os_errno := os_errno s |}.
Definition set_errno (v : Z) (s : os) : os :=
  {| segs := segs s; sets := sets s; adj := adj s; os_errno := v |}.

(** The page size, and the errno with which a system call fails for a reason of
    the kernel's own. *)
Record shm_env := { pagesize : Z; shmget_err : option Z; shmat_err : option Z; semget_err : option Z }.

(** [SETVAL] also clears the adjustments of every process for that semaphore. *)
Definition sem_setval (key v : Z) (s : os) : os :=
  match sets s !! key with
  | Some sems =>
      set_adj (filter (fun p => snd (fst p) <> key) (adj s))
        (set_sets (<[key := snd (SemSetVal sems 0 v)]> (sets s)) s)
  | None => s
  end.

Definition noname : list Z := [78; 79; 78; 65; 77; 69].

(** The offset of [name] in the descriptor; [sprintf] writes the name and a NUL
    there, past its 64 bytes if it is longer. *)
Definition NAME_OFFSET : Z := 28.

(** [shmget]: a new segment is zero. *)
Definition seg_open (ps mkey tsize : Z) (s : os) : os :=
  match segs s !! mkey with
  | Some _ => set_errno EEXIST s
  | None =>
      set_segs (<[mkey := {| s_size := tsize; s_core := None;
                             s_user := replicate (Z.to_nat (tsize - ps)) 0 |}]> (segs s)) s
  end.

(** [SemCreate] of one semaphore. *)
Definition sem_create (key : Z) (s : os) : os :=
  match sets s !! key with
  | None => set_sets (<[key := [0]]> (sets s)) s
  | Some _ => s
  end.

Definition set_core (mkey : Z) (mc : MEM_CORE) (seg : segment) (s : os) : os :=
  set_segs (<[mkey := {| s_size := s_size seg; s_core := Some mc; s_user := s_user seg |}]> (segs s)) s.

Definition MShmCoreCreate (env : shm_env) (nm : option (list Z)) (mkey usersize : Z)
    : M os (option MEM_CORE) :=
  if (usersize <=? 0) || (mkey <? 0) then modify (set_errno EINVAL);; mret None else
  let ps := pagesize env in
  let tsize := (Z.quot (usersize - 1) ps + 1 + 1) * ps in
  match shmget_err env with
  | Some e => modify (set_errno e);; mret None
  | None =>
      modify (seg_open ps mkey tsize);;
      match shmat_err env with
      | Some e => modify (set_errno e);; mret None
      | None =>
          match semget_err env with
          | Some e => modify (set_errno e);; mret None
          | None =>
              modify (sem_create mkey);;
              modify (sem_setval mkey 1);;
              let nm := default noname nm in
              if ps <=? NAME_OFFSET + zlen nm then undef else
              let mc := {| magic := MSHM_MAGIC; tsize := tsize; usize := usersize; mkey := mkey;
                           memid := mkey; semid := mkey; uoffset := ps; name := nm |} in
              s ← get_st;
              seg ← access (segs s !! mkey);
              modify (set_core mkey mc seg);;
              mret (Some mc)
          end
      end
  end.

Definition MShmCoreAttach (env : shm_env) (mkey : Z) : M os (option MEM_CORE) :=
  if mkey <? 0 then modify (set_errno EINVAL);; mret None else
  s ← get_st;
  match segs s !! mkey with
  | None => modify (set_errno ENOENT);; mret None
  | Some seg =>
      match shmat_err env with
      | Some e => modify (set_errno e);; mret None
      | None =>
          let uoff := match s_core seg with Some mc => uoffset mc | None => 0 end in
          if negb (uoff =? pagesize env) then modify (set_errno EAGAIN);; mret None
          else mret (s_core seg)
      end
  end.

Definition MShmCoreDetach (mc : option MEM_CORE) : Z :=
  match mc with None => - EINVAL | Some _ => 0 end.

(** One [semop] with [SEM_UNDO] by process [pid] on the only semaphore of [key]. *)
Definition semop_undo (pid key op : Z) (s : os) : option (Z * os) :=
  match sets s !! key with
  | None => Some (EINVAL, s)
  | Some sems =>
      match semop sems 0 op false with
      | SemDone sems' =>
          Some (0, set_adj (<[(pid, key) := default 0 (adj s !! (pid, key)) - op]> (adj s))
                     (set_sets (<[key := sems']> (sets s)) s))
      | SemFail e => Some (e, s)
      | SemSleep => None
      end
  end.

(** The retry loop of [MShmLock] and [MShmUnLock]; [intr] are the errnos of the
    attempts that fail before one reaches the set. *)
Fixpoint semop_retry (intr : list Z) (pid key op : Z) (s : os) : outcome os Z :=
  match intr with
  | e :: intr' =>
      let rc := - e in
      if rc =? - EINTR then semop_retry intr' pid key op s else Ret rc s
  | [] =>
      match semop_undo pid key op s with
      | Some (e, s') => Ret (- e) s'
      | None => Blocked s
      end
  end.

Definition MShmLock (intr : list Z) (pid : Z) (mc : option MEM_CORE) : M os Z :=
  match mc with
  | None => modify (set_errno EINVAL);; mret (-1)
  | Some mc =>
      if negb (magic mc =? MSHM_MAGIC) then exit_with 1
      else semop_retry intr pid (semid mc) (-1)
  end.

Definition MShmUnLock (intr : list Z) (pid : Z) (mc : option MEM_CORE) : M os Z :=
  match mc with
  | None => modify (set_errno EINVAL);; mret (-1)
  | Some mc =>
      if negb (magic mc =? MSHM_MAGIC) then exit_with 1
      else semop_retry intr pid (semid mc) 1
  end.

(** The kernel undoes the operations of a process that ends, on the set [key]. *)
Definition proc_exit (pid key : Z) (s : os) : os :=
  match sets s !! key, adj s !! (pid, key) with
  | Some (v :: rest), Some a =>
      set_adj (delete (pid, key) (adj s))
        (set_sets (<[key := Z.max 0 (v + a) :: rest]> (sets s)) s)
  | _, _ => s
  end.

(** ** Creating and attaching *)

Definition env_ok (env : shm_env) : Prop :=
  0 < pagesize env /\ shmget_err env = None /\ shmat_err env = None /\ semget_err env = None.

(** No existing semaphore set is empty. *)
Definition sets_ok (s : os) : Prop := forall key sems, sets s !! key = Some sems -> 0 < zlen sems.

(** Segment [key] is set up: a valid descriptor, a free mutex, nothing to undo. *)
Definition seg_ready (s : os) (key : Z) (mc : MEM_CORE) : Prop :=
  magic mc = MSHM_MAGIC /\ semid mc = key /\
  (exists seg, segs s !! key = Some seg /\ s_core seg = Some mc) /\
  (exists rest, sets s !! key = Some (1 :: rest)) /\
  forall pid, adj s !! (pid, key) = None.

Section Segments.
Implicit Types (s : os) (env : shm_env) (key size : Z).

Lemma seg_open_spec ps key T s :
  let s' := seg_open ps key T s in
  sets s' = sets s /\ adj s' = adj s /\
  (forall k, k <> key -> segs s' !! k = segs s !! k) /\
  segs s' !! key = Some (default {| s_size := T; s_core := None;
    s_user := replicate (Z.to_nat (T - ps)) 0 |} (segs s !! key)).
Proof.
  unfold seg_open. destruct (segs s !! key) eqn:He; cbn; split_and!; try done.
  - intros. by rewrite lookup_insert_ne.
  - by rewrite lookup_insert_eq.
Qed.

Lemma sem_setup_spec key s :
  sets_ok s ->
  let s' := sem_setval key 1 (sem_create key s) in
  segs s' = segs s /\ (exists rest, sets s' !! key = Some (1 :: rest)) /\
  (forall pid, adj s' !! (pid, key) = None) /\
  (forall k, k <> key -> sets s' !! k = sets s !! k) /\ sets_ok s'.
Proof.
  intros Hok. cbn zeta.
  assert (Hc : exists v rest, sets (sem_create key s) !! key = Some (v :: rest) /\
    segs (sem_create key s) = segs s /\ sets_ok (sem_create key s) /\
    (forall k, k <> key -> sets (sem_create key s) !! k = sets s !! k)).
  { unfold sem_create. destruct (sets s !! key) as [sems|] eqn:Hs.
    - pose proof (Hok _ _ Hs). destruct sems as [|v rest]; [cbn in *; lia|].
      exists v, rest. by split_and!.
    - exists 0, []. cbn. rewrite lookup_insert_eq. split_and!; try done.
      + intros k sems. cbn. destruct (decide (k = key)) as [->|].
        * rewrite lookup_insert_eq. by intros [= <-].
        * rewrite lookup_insert_ne by done. apply Hok.
      + intros. by rewrite lookup_insert_ne. }
  destruct Hc as (v & rest & Hs & Hseg & Hok' & Hne).
  unfold sem_setval. rewrite Hs. cbn. split_and!; try done.
  - exists rest. by rewrite lookup_insert_eq.
  - intros pid. apply map_lookup_filter_None. right. cbn. intros ? _ Hn. by apply Hn.
  - intros. rewrite lookup_insert_ne by done. auto.
  - intros k sems. cbn. destruct (decide (k = key)) as [->|].
    + rewrite lookup_insert_eq. by intros [= <-].
    + rewrite lookup_insert_ne by done. apply Hok'.
Qed.

Lemma Create_run env nm key size s :
  env_ok env -> 0 <= key -> 0 < size -> NAME_OFFSET + zlen (default noname nm) < pagesize env ->
  sets_ok s ->
  exists mc s', MShmCoreCreate env nm key size s = Ret (Some mc) s' /\
    seg_ready s' key mc /\ sets_ok s' /\ uoffset mc = pagesize env /\ usize mc = size /\
    tsize mc = (Z.quot (size - 1) (pagesize env) + 1 + 1) * pagesize env /\
    (forall k, k <> key -> segs s' !! k = segs s !! k /\ sets s' !! k = sets s !! k) /\
    segs s' !! key = Some match segs s !! key with
      | None => {| s_size := tsize mc; s_core := Some mc;
                   s_user := replicate (Z.to_nat (tsize mc - pagesize env)) 0 |}
      | Some old => {| s_size := s_size old; s_core := Some mc; s_user := s_user old |}
      end.
Proof.
  intros (Hps & He1 & He2 & He3) Hk Hsz Hnm Hok.
  unfold MShmCoreCreate. destruct (Z.leb_spec size 0), (Z.ltb_spec key 0); try lia. cbn [orb].
  rewrite He1, He2, He3. set (T := (_ + 1 + 1) * pagesize env).
  do 3 (erewrite bind_ret; [|reflexivity]).
  destruct (seg_open_spec (pagesize env) key T s) as (Es & Ea & Hne & Hseg).
  set (s1 := seg_open _ _ _ _) in *.
  assert (Hok1 : sets_ok s1) by (unfold sets_ok; by rewrite Es).
  destruct (sem_setup_spec key s1 Hok1) as (Es2 & [rest Hr] & Had & Hne2 & Hok2).
  set (s2 := sem_setval _ _ _) in *.
  destruct (Z.leb_spec (pagesize env) (NAME_OFFSET + zlen (default noname nm))); [lia|].
  erewrite bind_ret; [|reflexivity]. rewrite Es2, Hseg.
  do 2 (erewrite bind_ret; [|reflexivity]).
  set (seg := default _ (segs s !! key)). set (mc := {| magic := _ |}).
  assert (Hnew : segs (set_core key mc seg s2) !! key =
    Some {| s_size := s_size seg; s_core := Some mc; s_user := s_user seg |})
    by apply lookup_insert_eq.
  exists mc, (set_core key mc seg s2). split_and!; try done.
  - split_and!; [done|done|by eexists|by exists rest|done].
  - intros k Hk'. cbn. rewrite lookup_insert_ne, Es2 by done. split; [auto|].
    rewrite Hne2, Es by done. done.
  - rewrite Hnew. unfold seg. by destruct (segs s !! key).
Qed.
End Segments.

(** Creating a segment and attaching to it by key give the same descriptor;
    the user's part is at least as large as asked and, in a new segment, zero;
    the mutex is free; other segments are as before.  A key no creator has used
    does not attach. *)
Theorem Create_then_Attach env nm key size s :
  env_ok env -> 0 <= key -> 0 < size -> NAME_OFFSET + zlen (default noname nm) < pagesize env ->
  sets_ok s -> segs s !! key = None ->
  (exists s0, MShmCoreAttach env key s = Ret None s0 /\ os_errno s0 = ENOENT) /\
  exists mc s' user, MShmCoreCreate env nm key size s = Ret (Some mc) s' /\
    MShmCoreAttach env key s' = Ret (Some mc) s' /\ MShmCoreDetach (Some mc) = 0 /\
    segs s' !! key = Some {| s_size := tsize mc; s_core := Some mc; s_user := user |} /\
    size <= zlen user /\ zlen user = tsize mc - uoffset mc /\ Forall (fun b => b = 0) user /\
    seg_ready s' key mc /\ (forall k, k <> key -> segs s' !! k = segs s !! k).
Proof.
  intros Henv Hk Hsz Hnm Hok Hnone. split.
  { unfold MShmCoreAttach. destruct (Z.ltb_spec key 0); [lia|].
    erewrite bind_ret; [|reflexivity]. rewrite Hnone. by eexists. }
  destruct (Create_run env nm key size s Henv Hk Hsz Hnm Hok)
    as (mc & s' & Hret & Hready & _ & Hoff & Hus & Hts & Hne & Hseg).
  rewrite Hnone in Hseg. pose proof Henv as (Hps & _ & He & _).
  pose proof (Z.quot_rem' (size - 1) (pagesize env)) as Hq.
  pose proof (Z.rem_bound_pos (size - 1) (pagesize env) ltac:(lia) Hps).
  assert (Hlen : size <= tsize mc - uoffset mc) by (rewrite Hts, Hoff; nia).
  eexists mc, s', _. split; [done|]. split_and!; try done.
  - unfold MShmCoreAttach. destruct (Z.ltb_spec key 0); [lia|].
    erewrite bind_ret; [|reflexivity]. rewrite Hseg, He. cbn [s_core]. by rewrite Hoff, Z.eqb_refl.
  - rewrite length_replicate, <- Hoff. lia.
  - rewrite length_replicate, <- Hoff. lia.
  - by apply Forall_replicate.
  - intros k Hk'. by apply Hne.
Qed.

Definition env0 : shm_env :=
  {| pagesize := 4096; shmget_err := None; shmat_err := None; semget_err := None |}.
Definition os0 : os := {| segs := ∅; sets := ∅; adj := ∅; os_errno := 0 |}.

Lemma sets_ok0 : sets_ok os0.
Proof. done. Qed.

Lemma Create_then_Attach_witness :
  exists mc s', MShmCoreCreate env0 None 5 100 os0 = Ret (Some mc) s' /\
    MShmCoreAttach env0 5 s' = Ret (Some mc) s'.
Proof.
  destruct (Create_then_Attach env0 None 5 100 os0) as (_ & mc & s' & u & H1 & H2 & _);
    [by split_and!|lia|lia|done|apply sets_ok0|done|].
  exists mc, s'. split; [exact H1|exact H2].
Defined.

(** ** Mutual exclusion *)

(** What processes do to the mutex of one segment: take it, release it once
    taken, or end. *)
Inductive lock_step (mc : MEM_CORE) (holds : Z -> bool) : os -> (Z -> bool) -> os -> Prop :=
| step_lock intr pid s s' :
    Forall (fun e => 0 < e) intr -> holds pid = false -> MShmLock intr pid (Some mc) s = Ret 0 s' ->
    lock_step mc holds s (fun q => (q =? pid) || holds q) s'
| step_unlock intr pid s s' :
    Forall (fun e => 0 < e) intr -> holds pid = true -> MShmUnLock intr pid (Some mc) s = Ret 0 s' ->
    lock_step mc holds s (fun q => negb (q =? pid) && holds q) s'
| step_exit pid s :
    lock_step mc holds s (fun q => negb (q =? pid) && holds q) (proc_exit pid (semid mc) s).

Inductive lock_reach (mc : MEM_CORE) (s0 : os) : (Z -> bool) -> os -> Prop :=
| reach_start : lock_reach mc s0 (fun _ => false) s0
| reach_step holds s holds' s' :
    lock_reach mc s0 holds s -> lock_step mc holds s holds' s' -> lock_reach mc s0 holds' s'.

(** The mutex is free and nobody has anything to undo, or one process holds it. *)
Definition lock_inv (key : Z) (holds : Z -> bool) (s : os) : Prop :=
  exists rest v, sets s !! key = Some (v :: rest) /\
    ((v = 1 /\ forall q, holds q = false /\ default 0 (adj s !! (q, key)) = 0) \/
     (v = 0 /\ exists p, holds p = true /\ default 0 (adj s !! (p, key)) = 1 /\
        forall q, q <> p -> holds q = false /\ default 0 (adj s !! (q, key)) = 0)).

Section Exclusion.
Implicit Types (s : os) (mc : MEM_CORE) (pid key : Z).

Lemma semop_undo_lock pid key s rest v :
  sets s !! key = Some (v :: rest) -> 0 <= v <= 1 ->
  semop_undo pid key (-1) s =
    if v =? 1 then Some (0, set_adj (<[(pid, key) := default 0 (adj s !! (pid, key)) + 1]> (adj s))
                              (set_sets (<[key := 0 :: rest]> (sets s)) s))
    else None.
Proof.
  intros Hs Hv. unfold semop_undo. rewrite Hs. unfold semop. cbn.
  destruct (Z.eqb_spec v 1) as [->|].
  - cbn. by do 4 f_equal.
  - assert (v = 0) as -> by lia. done.
Qed.

Lemma semop_undo_unlock pid key s rest v :
  sets s !! key = Some (v :: rest) -> 0 <= v <= 1 ->
  semop_undo pid key 1 s =
    Some (0, set_adj (<[(pid, key) := default 0 (adj s !! (pid, key)) - 1]> (adj s))
               (set_sets (<[key := v + 1 :: rest]> (sets s)) s)).
Proof.
  intros Hs Hv. unfold semop_undo. rewrite Hs. unfold semop.
  change (geti (v :: rest) 0) with (Some v). cbn iota beta.
  rewrite (proj2 (Z.ltb_ge SEMVMX (v + 1))) by (unfold SEMVMX; lia).
  rewrite (proj2 (Z.ltb_ge (v + 1) 0)) by lia. done.
Qed.

Lemma semop_retry_done intr pid key op s s' :
  semop_retry intr pid key op s = Ret 0 s' -> Forall (fun e => 0 < e) intr ->
  semop_undo pid key op s = Some (0, s').
Proof.
  intros H Hi. induction Hi as [|e intr He Hi IH]; cbn in H.
  - destruct (semop_undo _ _ _ _) as [[e s1]|]; [|done]. injection H as H1 <-.
    by assert (e = 0) as -> by lia.
  - destruct (- e =? - EINTR); [by apply IH|]. injection H as H1 _. lia.
Qed.

Lemma semop_retry_intr k pid key op s :
  semop_retry (replicate k EINTR) pid key op s = semop_retry [] pid key op s.
Proof. induction k as [|k IH]; [done|]. exact IH. Qed.

(** The adjustments after one entry changed. *)
Lemma adj_insert_ne (m : gmap (Z * Z) Z) p q key x :
  q <> p -> default 0 (<[(p, key) := x]> m !! (q, key)) = default 0 (m !! (q, key)).
Proof. intros. rewrite lookup_insert_ne; congruence. Qed.

Lemma lock_inv_lock key holds s p s' :
  lock_inv key holds s -> holds p = false -> semop_undo p key (-1) s = Some (0, s') ->
  lock_inv key (fun q => (q =? p) || holds q) s'.
Proof.
  intros (rest & v & Hs & Hv) Hp Hop.
  rewrite (semop_undo_lock _ _ _ _ _ Hs) in Hop by (destruct Hv as [[-> _]|[-> _]]; lia).
  destruct Hv as [[-> Hall]|[-> _]]; [|done]. injection Hop as <-.
  exists rest, 0. cbn. rewrite lookup_insert_eq. split; [done|]. right. split; [done|].
  exists p. rewrite Z.eqb_refl, lookup_insert_eq. destruct (Hall p) as [_ ->].
  split_and!; [done|done|]. intros q Hq. rewrite (proj2 (Z.eqb_neq _ _) Hq), adj_insert_ne by done.
  apply Hall.
Qed.

Lemma lock_inv_unlock key holds s p s' :
  lock_inv key holds s -> holds p = true -> semop_undo p key 1 s = Some (0, s') ->
  lock_inv key (fun q => negb (q =? p) && holds q) s'.
Proof.
  intros (rest & v & Hs & Hv) Hp Hop.
  rewrite (semop_undo_unlock _ _ _ _ _ Hs) in Hop by (destruct Hv as [[-> _]|[-> _]]; lia).
  destruct Hv as [[-> Hall]|(-> & p' & Hp' & Ha & Hall)].
  { destruct (Hall p). congruence. }
  assert (p' = p) as ->.
  { destruct (decide (p = p')); [done|]. destruct (Hall p); congruence. }
  injection Hop as <-. exists rest, 1. cbn. rewrite lookup_insert_eq. split; [done|]. left.
  split; [done|]. intros q. destruct (Z.eqb_spec q p) as [->|Hq].
  - by rewrite lookup_insert_eq, Ha.
  - rewrite adj_insert_ne by done. by apply Hall.
Qed.

Lemma lock_inv_exit key holds s p :
  lock_inv key holds s -> lock_inv key (fun q => negb (q =? p) && holds q) (proc_exit p key s).
Proof.
  intros (rest & v & Hs & Hv). unfold proc_exit. rewrite Hs.
  assert (Hd : forall q x, default 0 (delete (p, key) (adj s) !! (q, key)) = x ->
    x = if q =? p then 0 else default 0 (adj s !! (q, key))).
  { intros q x <-. destruct (Z.eqb_spec q p) as [->|]; [by rewrite lookup_delete_eq|].
    rewrite lookup_delete_ne; congruence. }
  destruct Hv as [[-> Hall]|(-> & p' & Hp' & Ha & Hall)].
  - exists rest, 1. destruct (Hall p) as [Hf Ha]. destruct (adj s !! (p, key)) as [a|].
    + cbn in Ha |- *. rewrite Ha, lookup_insert_eq. split; [done|]. left. split; [done|].
      intros q. rewrite (Hd q _ eq_refl). destruct (Z.eqb_spec q p); [done|]. apply Hall.
    + split; [done|]. left. split; [done|]. intros q. destruct (Z.eqb_spec q p) as [->|]; [|apply Hall].
      split; [done|]. apply Hall.
  - destruct (decide (p = p')) as [<-|Hne].
    + destruct (adj s !! (p, key)) as [a|]; [|done]. cbn in Ha. subst a.
      exists rest, 1. cbn. rewrite lookup_insert_eq. split; [done|]. left. split; [done|].
      intros q. rewrite (Hd q _ eq_refl). destruct (Z.eqb_spec q p); [done|]. by apply Hall.
    + destruct (Hall p Hne) as [Hf Hap].
      destruct (adj s !! (p, key)) as [a|].
      * cbn in Hap. subst a. exists rest, 0. cbn. rewrite lookup_insert_eq. split; [done|]. right.
        split; [done|]. exists p'. rewrite (Hd p' _ eq_refl), (proj2 (Z.eqb_neq p' p)) by done.
        split_and!; [by rewrite Hp'|done|]. intros q Hq. rewrite (Hd q _ eq_refl).
        destruct (Z.eqb_spec q p); [done|]. by apply Hall.
      * exists rest, 0. split; [done|]. right. split; [done|]. exists p'.
        rewrite (proj2 (Z.eqb_neq p' p)) by done. split_and!; [by rewrite Hp'|done|].
        intros q Hq. destruct (Hall q Hq) as [-> ?]. by rewrite andb_false_r.
Qed.

Lemma lock_inv_ready s key mc : seg_ready s key mc -> lock_inv key (fun _ => false) s.
Proof.
  intros (_ & _ & _ & [rest Hs] & Had). exists rest, 1. split; [done|]. left. split; [done|].
  intros q. by rewrite Had.
Qed.

Lemma lock_reach_inv mc s0 holds s :
  magic mc = MSHM_MAGIC -> lock_inv (semid mc) (fun _ => false) s0 ->
  lock_reach mc s0 holds s -> lock_inv (semid mc) holds s.
Proof.
  intros Hm H0. induction 1 as [|holds s holds' s' _ IH Hstep]; [done|].
  destruct Hstep as [intr pid s s' Hi Hh Hret|intr pid s s' Hi Hh Hret|pid s].
  - unfold MShmLock in Hret. rewrite Hm in Hret. cbn in Hret.
    eapply lock_inv_lock; [exact IH|done|by eapply semop_retry_done].
  - unfold MShmUnLock in Hret. rewrite Hm in Hret. cbn in Hret.
    eapply lock_inv_unlock; [exact IH|done|by eapply semop_retry_done].
  - by apply lock_inv_exit.
Qed.
End Exclusion.

(** C37. The mutex of a segment that was just created: in every state that
    processes reach by taking it, releasing it and dying, at most one holds it;
    when one does, another caller sleeps, and when none does, a call succeeds
    however often it is interrupted. *)
Theorem Lock_excludes key mc s0 holds s :
  seg_ready s0 key mc -> lock_reach mc s0 holds s ->
  (forall p q, holds p = true -> holds q = true -> p = q) /\
  (forall p q k, holds p = true ->
     MShmLock (replicate k EINTR) q (Some mc) s = Blocked s) /\
  ((forall p, holds p = false) -> forall p k, exists s',
     MShmLock (replicate k EINTR) p (Some mc) s = Ret 0 s').
Proof.
  intros Hready Hreach. pose proof Hready as (Hm & Hid & _).
  assert (Hinv : lock_inv key holds s).
  { rewrite <- Hid. eapply lock_reach_inv; [done| |exact Hreach].
    rewrite Hid. by eapply lock_inv_ready. }
  destruct Hinv as (rest & v & Hs & Hv).
  unfold MShmLock. rewrite Hm, Hid. cbn [negb Z.eqb].
  split_and!.
  - intros p q Hp Hq. destruct Hv as [[_ Hall]|(_ & p' & _ & _ & Hall)].
    + destruct (Hall p). congruence.
    + destruct (decide (p = p')) as [->|Hne]; [|destruct (Hall p Hne); congruence].
      destruct (decide (q = p')) as [->|Hne]; [done|destruct (Hall q Hne); congruence].
  - intros p q k Hp. change (MSHM_MAGIC =? MSHM_MAGIC) with true. cbn [negb].
    rewrite semop_retry_intr. cbn. rewrite (semop_undo_lock _ _ _ _ _ Hs) by (destruct Hv as [[-> _]|[-> _]]; lia).
    destruct Hv as [[_ Hall]|[-> _]]; [destruct (Hall p); congruence|done].
  - intros Hfree p k. change (MSHM_MAGIC =? MSHM_MAGIC) with true. cbn [negb].
    rewrite semop_retry_intr. cbn. rewrite (semop_undo_lock _ _ _ _ _ Hs) by (destruct Hv as [[-> _]|[-> _]]; lia).
    destruct Hv as [[-> _]|(_ & p' & Hp' & _)]; [eauto|]. by rewrite Hfree in Hp'.
Qed.

Lemma Lock_excludes_first {s key mc} (Hr : seg_ready s key mc) p :
  exists s', MShmLock [] p (Some mc) s = Ret 0 s' /\ (sets_ok s -> sets_ok s').
Proof.
  destruct Hr as (Hm & Hid & _ & [rest Hs] & Had). unfold MShmLock. rewrite Hm, Hid.
  change (MSHM_MAGIC =? MSHM_MAGIC) with true. cbn.
  rewrite (semop_undo_lock _ _ _ _ _ Hs) by lia. eexists; split; [reflexivity|].
  intros Hok k sems. cbn. destruct (decide (k = key)) as [->|].
  - rewrite lookup_insert_eq. by intros [= <-].
  - rewrite lookup_insert_ne by done. apply Hok.
Qed.

(** A created segment, and its state after process 7 has taken the mutex. *)
Definition seg0 : MEM_CORE * os :=
  match MShmCoreCreate env0 None 5 100 os0 with
  | Ret (Some mc) s => (mc, s)
  | _ => ({| magic := 0; tsize := 0; usize := 0; mkey := 0; memid := 0; semid := 0; uoffset := 0;
             name := [] |}, os0)
  end.

Lemma seg0_ready : seg_ready (snd seg0) 5 (fst seg0).
Proof.
  destruct (Create_run env0 None 5 100 os0) as (mc & s & H & Hr & _);
    [by split_and!|lia|lia|done|apply sets_ok0|].
  unfold seg0. by rewrite H.
Qed.

Lemma Lock_excludes_witness :
  exists s', MShmLock [] 7 (Some (fst seg0)) (snd seg0) = Ret 0 s' /\
    MShmLock [] 8 (Some (fst seg0)) s' = Blocked s'.
Proof.
  destruct (Lock_excludes 5 (fst seg0) (snd seg0) (fun _ => false) (snd seg0) seg0_ready
    (reach_start _ _)) as (_ & _ & H).
  destruct (H ltac:(done) 7 0%nat) as [s' Hs']. exists s'. split; [exact Hs'|].
  destruct (Lock_excludes 5 (fst seg0) (snd seg0) (fun q => (q =? 7) || false) s' seg0_ready)
    as (_ & Hb & _).
  - eapply reach_step; [apply reach_start|]. by eapply (step_lock _ _ []).
  - by apply (Hb 7 8 0%nat).
Defined.

(** C38. Creating the segment again while a process holds the mutex breaks the
    exclusion: the mutex becomes free, and a second process takes it while the
    first has not released it. *)
Theorem Recreate_breaks_lock env nm key size mc s p q s1 :
  seg_ready s key mc -> sets_ok s -> env_ok env -> 0 <= key -> 0 < size ->
  NAME_OFFSET + zlen (default noname nm) < pagesize env -> sets_ok s1 ->
  MShmLock [] p (Some mc) s = Ret 0 s1 -> q <> p ->
  exists mc2 s2 s3, MShmCoreCreate env nm key size s1 = Ret (Some mc2) s2 /\
    MShmLock [] q (Some mc2) s2 = Ret 0 s3.
Proof.
  intros Hready Hok Henv Hk Hsz Hnm Hok1 Hl Hpq.
  destruct (Create_run env nm key size s1 Henv Hk Hsz Hnm Hok1) as (mc2 & s2 & Hret & Hr2 & _).
  exists mc2, s2. destruct Hr2 as (Hm & Hid & _ & [rest Hs] & Had).
  eexists. split; [exact Hret|]. unfold MShmLock. rewrite Hm, Hid.
  change (MSHM_MAGIC =? MSHM_MAGIC) with true. cbn.
  rewrite (semop_undo_lock _ _ _ _ _ Hs) by lia. reflexivity.
Qed.

Lemma Recreate_breaks_lock_witness :
  exists s1 mc2 s2 s3, MShmLock [] 7 (Some (fst seg0)) (snd seg0) = Ret 0 s1 /\
    MShmCoreCreate env0 None 5 100 s1 = Ret (Some mc2) s2 /\
    MShmLock [] 8 (Some mc2) s2 = Ret 0 s3.
Proof.
  assert (Hok : sets_ok (snd seg0)).
  { destruct (Create_run env0 None 5 100 os0) as (mc & s & H & _ & Hk & _);
      [by split_and!|lia|lia|done|apply sets_ok0|]. unfold seg0. by rewrite H. }
  destruct (Lock_excludes_first seg0_ready 7) as (s1 & H1 & Hk1).
  destruct (Recreate_breaks_lock env0 None 5 100 (fst seg0) (snd seg0) 7 8 s1 seg0_ready Hok)
    as (mc2 & s2 & s3 & H2 & H3); [by split_and!|lia|lia|done|by apply Hk1|exact H1|lia|].
  exists s1, mc2, s2, s3. split; [exact H1|]. split; [exact H2|exact H3].
Defined.
