(* ===== verification/RtPool.v ===== *)
(** * The element pool of the recorder (src/mp_hdmodule_m/rtpool.c)

    A pool owns [total_size] elements.  Those not handed out are on one of two
    linked lists: [free], a stack, and [active], a queue of elements filled for
    the writer thread.  The heap maps the address of an element to its contents;
    the address 0 is the null pointer.  [locked] is the state of the pool's
    mutex, which a thread takes once (the default kind: taking it again sleeps
    for ever).  A head pointer that may be null is a [bool], true when it is
    not. *)

From stdpp Require Import gmap.
From S2P Require Import Prelude.

Record ele := { ele_type : Z; next : Z; element : list Z }.

Record pool_head := {
  total_size : Z; count : Z; plen : Z; poolv : option (list Z); free : Z; active : Z; locked : bool
}.

Record rt := { hd : pool_head; heap : gmap Z ele }.

Definition GET_ALL_ELE_TYPE : Z := u32 (-1).

Definition set_free (v : Z) (h : pool_head) : pool_head :=
  {| total_size := total_size h; count := count h; plen := plen h; poolv := poolv h; free := v;
     active := active h; locked := locked h |}.
Definition set_active (v : Z) (h : pool_head) : pool_head :=
  {| total_size := total_size h; count := count h; plen := plen h; poolv := poolv h; free := free h;
     active := v; locked := locked h |}.
Definition set_count (v : Z) (h : pool_head) : pool_head :=
  {| total_size := total_size h; count := v; plen := plen h; poolv := poolv h; free := free h;
     active := active h; locked := locked h |}.
Definition set_poolv (v : option (list Z)) (h : pool_head) : pool_head :=
  {| total_size := total_size h; count := count h; plen := plen h; poolv := v; free := free h;
     active := active h; locked := locked h |}.
Definition set_locked (v : bool) (h : pool_head) : pool_head :=
  {| total_size := total_size h; count := count h; plen := plen h; poolv := poolv h; free := free h;
     active := active h; locked := v |}.

Definition set_next (v : Z) (e : ele) : ele :=
  {| ele_type := ele_type e; next := v; element := element e |}.
Definition set_type (v : Z) (e : ele) : ele :=
  {| ele_type := v; next := next e; element := element e |}.

Definition on_hd (f : pool_head -> pool_head) (s : rt) : rt := {| hd := f (hd s); heap := heap s |}.

Definition mutex_lock : M rt () := fun s =>
  if locked (hd s) then Blocked s else Ret () (on_hd (set_locked true) s).
Definition mutex_unlock : M rt () := modify (on_hd (set_locked false)).

Definition get_ele (a : Z) : M rt ele := fun s =>
  match heap s !! a with Some e => Ret e s | None => Undef end.

Definition upd_ele (a : Z) (f : ele -> ele) : M rt () := fun s =>
  match heap s !! a with
  | Some e => Ret () {| hd := hd s; heap := <[a := f e]> (heap s) |}
  | None => Undef
  end.

(** [initrtpool] pushes the pool's elements on the free list. *)
Fixpoint push_free (pool : list Z) : M rt () :=
  match pool with
  | [] => mret ()
  | cur :: pool =>
      (if cur =? 0 then mret ()
       else h ← gets hd;
            upd_ele cur (set_next (free h));;
            modify (on_hd (set_free cur)));;
      push_free pool
  end.

Definition initrtpool (head : bool) : M rt Z :=
  if negb head then mret (-1) else
  mutex_lock;;
  h ← gets hd;
  match poolv h with
  | None => mret (-1)
  | Some pool =>
      modify (on_hd (set_active 0));;
      modify (on_hd (set_free 0));;
      push_free (take (Z.to_nat (total_size h)) pool);;
      modify (on_hd (set_count 0));;
      mutex_unlock;;
      mret 0
  end.

(** What the allocations of [mkrtpool] give: [sem_init] succeeds, the pointer
    array is allocated, and the address of each element or a failure. *)
Record mk_env := { sem_ok : bool; array_ok : bool; addrs : list (option Z) }.

Definition zero_ele (plen : Z) : ele :=
  {| ele_type := 0; next := 0; element := replicate (Z.to_nat plen) 0 |}.

Definition SIZEOF_POOL_ELE : Z := 12.

(** The allocation loop: the elements allocated, or [None] after a failure, when
    those allocated before are released again.  An element has
    [4 * (mem_len / 4)] bytes, of which [memset] clears [mem_len]. *)
Fixpoint mk_loop (addrs : list (option Z)) (n : nat) (plen oldele : Z) (made : list Z) {struct n}
    : M rt (option (list Z * Z)) :=
  match n with
  | O => mret (Some (made, oldele))
  | S n =>
      match addrs with
      | Some a :: addrs =>
          if negb ((SIZEOF_POOL_ELE - 4 + plen) mod 4 =? 0) then undef else
          modify (fun s => {| hd := hd s; heap := <[a := zero_ele plen]> (heap s) |});;
          h ← gets hd;
          (if free h =? 0 then modify (on_hd (set_free a)) else upd_ele oldele (set_next a));;
          mk_loop addrs n plen a (made ++ [a])
      | _ =>
          modify (fun s => {| hd := hd s; heap := foldr delete (heap s) made |});;
          modify (on_hd (set_poolv None));;
          mret None
      end
  end.

Definition mkrtpool (env : mk_env) (plen num : Z) : M rt Z :=
  modify (fun s => {| hd := {| total_size := num; count := 0; plen := plen; poolv := None;
                               free := 0; active := 0; locked := false |};
                      heap := heap s |});;
  if negb (sem_ok env) then mret (-1) else
  if negb (array_ok env) then mret (-1) else
  r ← mk_loop (addrs env) (Z.to_nat num) plen 0 [];
  match r with
  | None => mret (-1)
  | Some (pool, newele) =>
      (if 0 <? num then upd_ele newele (set_next 0) else undef);;
      modify (on_hd (set_poolv (Some pool)));;
      initrtpool true;;
      mret 0
  end.

Definition get_free_eleroom (head : bool) : M rt Z :=
  if negb head then mret 0 else
  mutex_lock;;
  h ← gets hd;
  pret ← (if free h =? 0 then mret 0
          else
            e ← get_ele (free h);
            modify (on_hd (set_free (next e)));;
            upd_ele (free h) (set_next 0);;
            upd_ele (free h) (set_type 0);;
            mret (free h));
  mutex_unlock;;
  mret pret.

(** The search for the end of the active list; the result is whether [a] was
    put there within [n] rounds. *)
Fixpoint put_loop (n : nat) (cur a : Z) : M rt bool :=
  match n with
  | O => mret false
  | S n =>
      h ← gets hd;
      if active h =? 0 then
        modify (on_hd (set_active a));;
        upd_ele a (set_next 0);;
        modify (on_hd (set_count 1));;
        mret true
      else
        c ← get_ele cur;
        if next c =? 0 then
          upd_ele cur (set_next a);;
          upd_ele a (set_next 0);;
          modify (on_hd (fun h => set_count (count h + 1) h));;
          mret true
        else put_loop n (next c) a
  end.

Definition put_active_ele (head : bool) (a : Z) : M rt Z :=
  if negb head then mret (-1) else
  if a =? 0 then mret (-1) else
  mutex_lock;;
  h ← gets hd;
  ok ← put_loop (Z.to_nat (total_size h)) (active h) a;
  mutex_unlock;;
  mret (if ok : bool then 0 else -1).

Definition dec_count (h : pool_head) : pool_head :=
  if 0 <? count h then set_count (count h - 1) h else h.

(** The search of an element of [type] after the first. *)
Fixpoint type_loop (n : nat) (prev type : Z) : M rt Z :=
  match n with
  | O => mret 0
  | S n =>
      p ← get_ele prev;
      let cur := next p in
      if cur =? 0 then mret 0 else
      c ← get_ele cur;
      if ele_type c =? type then
        upd_ele prev (set_next (next c));;
        modify (on_hd dec_count);;
        mret cur
      else type_loop n cur type
  end.

Definition get_active_type_ele (head : bool) (type : Z) : M rt Z :=
  if negb head then mret 0 else
  mutex_lock;;
  h ← gets hd;
  pret ← (if active h =? 0 then mret 0
          else
            e ← get_ele (active h);
            if (type =? GET_ALL_ELE_TYPE) || (ele_type e =? type) then
              modify (on_hd (set_active (next e)));;
              modify (on_hd dec_count);;
              mret (active h)
            else type_loop (Z.to_nat (total_size h)) (active h) type);
  mutex_unlock;;
  mret pret.

Definition get_active_ele (head : bool) : M rt Z := get_active_type_ele head GET_ALL_ELE_TYPE.

Fixpoint num_loop (n : nat) (cur num : Z) : M rt Z :=
  match n with
  | O => mret num
  | S n =>
      if cur =? 0 then mret num else
      c ← get_ele cur;
      num_loop n (next c) (num + 1)
  end.

Definition get_pool_active_num (head : bool) : M rt Z :=
  if negb head then mret (-1) else
  mutex_lock;;
  h ← gets hd;
  num ← num_loop (Z.to_nat (total_size h)) (active h) 0;
  mutex_unlock;;
  mret num.

Definition get_pool_free_num (head : bool) : M rt Z :=
  if negb head then mret (-1) else
  mutex_lock;;
  h ← gets hd;
  num ← num_loop (Z.to_nat (total_size h)) (free h) 0;
  mutex_unlock;;
  mret num.

Definition free_ele (head : bool) (a : Z) : M rt Z :=
  if negb head then mret (-1) else
  if a =? 0 then mret (-1) else
  mutex_lock;;
  h ← gets hd;
  upd_ele a (set_next (free h));;
  upd_ele a (set_type 0);;
  modify (on_hd (set_free a));;
  mutex_unlock;;
  mret 0.

Definition set_ele_type (a type : Z) : M rt () := upd_ele a (set_type type).

Fixpoint drop_loop (n : nat) (type ret : Z) : M rt Z :=
  match n with
  | O => mret ret
  | S n =>
      cur ← get_active_type_ele true type;
      if cur =? 0 then mret ret else
      rc ← free_ele true cur;
      drop_loop n type (if rc =? 0 then ret + 1 else ret)
  end.

Definition drop_ele_type (head : bool) (type num : Z) : M rt Z :=
  if negb head then mret (-1) else drop_loop (Z.to_nat num) type 0.
