(* ===== verification/RtPoolSpec.v ===== *)
(** * Correctness of the element pool

    The pool's elements are split into the active queue, the free stack and the
    elements handed out; an element is its address and its type.  Every call moves
    elements between the three parts as the abstract operations of this file say,
    so no element is lost, duplicated or on two lists. *)

From stdpp Require Import gmap.
From S2P Require Import Prelude RtPool.

Definition elem : Type := Z * Z.

(** The list of [l] from the pointer [p] to the pointer [q]. *)
Fixpoint lseg (h : gmap Z ele) (p : Z) (l : list elem) (q : Z) : Prop :=
  match l with
  | [] => p = q
  | x :: l => p = fst x /\ exists e, h !! fst x = Some e /\ lseg h (next e) l q
  end.

Definition has_type (h : gmap Z ele) (x : elem) : Prop :=
  fst x <> 0 /\ exists e, h !! fst x = Some e /\ ele_type e = snd x.

(** Distinct elements, each where and of the type the list says. *)
Definition elems_ok (h : gmap Z ele) (l : list elem) : Prop :=
  NoDup l.*1 /\ Forall (has_type h) l.

#[export] Instance elems_ok_perm h : Proper ((≡ₚ) ==> iff) (elems_ok h).
Proof. intros l1 l2 H. unfold elems_ok. by rewrite H. Qed.

(** [held]: the mutex is taken, by the call that is running. *)
Record lrep (held : bool) (s : rt) (act fre out : list elem) : Prop := {
  rp_lock : locked (hd s) = held;
  rp_active : lseg (heap s) (active (hd s)) act 0;
  rp_free : lseg (heap s) (free (hd s)) fre 0;
  rp_count : count (hd s) = zlen act;
  rp_total : total_size (hd s) = zlen (act ++ fre ++ out);
  rp_all : elems_ok (heap s) (act ++ fre ++ out)
}.

(** Between two calls. *)
Abbreviation rt_rep := (lrep false).

Lemma lrep_held b b' s act fre out :
  lrep b s act fre out -> lrep b' (on_hd (set_locked b') s) act fre out.
Proof. intros [? ? ? ? ? ?]. by split. Qed.

(** The first element that [get_active_type_ele] accepts, and the others. *)
Fixpoint take_first (type : Z) (l : list elem) : option (elem * list elem) :=
  match l with
  | [] => None
  | x :: l =>
      if (type =? GET_ALL_ELE_TYPE) || (snd x =? type) then Some (x, l)
      else '(y, l') ← take_first type l; Some (y, x :: l')
  end.

(** Lengths of appended lists. *)
Ltac len_tac := repeat (progress (rewrite ?length_app in *; cbn [length app] in *)); lia.

(** Membership in appended lists. *)
Ltac in_tac := rewrite ?elem_of_app, ?list.elem_of_cons; auto 10.

Section Lists.
Implicit Types (h : gmap Z ele) (l : list elem) (x : elem) (s : rt) (a p q : Z).

Lemma lseg_app h p l1 l2 q :
  lseg h p (l1 ++ l2) q <-> exists r, lseg h p l1 r /\ lseg h r l2 q.
Proof.
  revert p. induction l1 as [|x l1 IH]; intros p; cbn.
  - split; [eauto|]. by intros (r & -> & ?).
  - split.
    + intros (-> & e & He & (r & ? & ?)%IH). eauto 10.
    + intros (r & (-> & e & He & ?) & ?). split; [done|]. exists e. split; [done|]. apply IH. eauto.
Qed.

Lemma lseg_insert h p l q a e :
  a ∉ l.*1 -> lseg (<[a := e]> h) p l q <-> lseg h p l q.
Proof.
  revert p. induction l as [|x l IH]; intros p Ha; cbn; [done|].
  rewrite fmap_cons, not_elem_of_cons in Ha. destruct Ha as [Hx Ha].
  rewrite lookup_insert_ne by done. by setoid_rewrite IH.
Qed.

Lemma has_type_insert h x a e :
  has_type h x -> (fst x = a -> ele_type e = snd x) -> has_type (<[a := e]> h) x.
Proof.
  intros [Hx (e0 & He & Ht)] Ha. split; [done|]. destruct (decide (fst x = a)) as [<-|].
  - rewrite lookup_insert_eq. eauto.
  - rewrite lookup_insert_ne by done. eauto.
Qed.

Lemma elems_ok_cons h x l :
  elems_ok h (x :: l) <-> (fst x ∉ l.*1) /\ has_type h x /\ elems_ok h l.
Proof. unfold elems_ok. rewrite fmap_cons, list.NoDup_cons, list.Forall_cons. tauto. Qed.

Lemma elems_ok_get h l x :
  elems_ok h l -> x ∈ l -> fst x <> 0 /\ exists e, h !! fst x = Some e /\ ele_type e = snd x.
Proof. intros [_ H] Hx. rewrite list.Forall_forall in H. by apply H. Qed.

(** The contents of an element not in [l] do not matter to [l]. *)
Lemma elems_ok_insert_ne h l a e : a ∉ l.*1 -> elems_ok h l -> elems_ok (<[a := e]> h) l.
Proof.
  intros Ha [Hn Ht]. split; [done|]. rewrite list.Forall_forall in Ht |- *. intros x Hx.
  apply has_type_insert; [by apply Ht|]. intros <-. exfalso. apply Ha. by apply list_elem_of_fmap_2.
Qed.

Lemma elems_ok_retype h x l e t :
  elems_ok h (x :: l) -> ele_type e = t -> elems_ok (<[fst x := e]> h) ((fst x, t) :: l).
Proof.
  rewrite !elems_ok_cons. intros (Hx & [H0 _] & Hl) He. cbn. split_and!; [done| |by apply elems_ok_insert_ne].
  split; [done|]. exists e. cbn. by rewrite lookup_insert_eq.
Qed.

(** A change of [next] alone. *)
Lemma elems_ok_relink h l a e e' :
  elems_ok h l -> h !! a = Some e -> ele_type e' = ele_type e -> elems_ok (<[a := e']> h) l.
Proof.
  intros [Hn Ht] He Hty. split; [done|]. rewrite list.Forall_forall in Ht |- *. intros x Hx.
  apply has_type_insert; [by apply Ht|]. intros <-.
  destruct (Ht x Hx) as (_ & e0 & He0 & Ht0). congruence.
Qed.

(** Linking [x] after the last element [y]. *)
Lemma lseg_snoc h p l y x e ex :
  lseg h p (l ++ [y]) 0 -> fst x ∉ l.*1 -> fst y ∉ l.*1 -> fst x <> fst y -> h !! fst y = Some e ->
  lseg (<[fst x := set_next 0 ex]> (<[fst y := set_next (fst x) e]> h)) p (l ++ [y; x]) 0.
Proof.
  intros (r & H1 & -> & _)%lseg_app Hx Hy Hne He. apply lseg_app. exists (fst y). split.
  - by rewrite !lseg_insert.
  - cbn. split; [done|]. rewrite lookup_insert_ne, lookup_insert_eq by done.
    eexists; split; [done|]. cbn. split; [done|]. rewrite lookup_insert_eq. by eexists.
Qed.
End Lists.

(** ** The calls *)

(** [n - 1] of a positive count. *)
Lemma dec_count_pos h : 0 < count h -> dec_count h = set_count (count h - 1) h.
Proof. intros. unfold dec_count. by rewrite (proj2 (Z.ltb_lt _ _)). Qed.

Section Calls.
Implicit Types (act fre out l : list elem) (x : elem) (s : rt) (a : Z).

Lemma lock_run h m :
  locked h = false ->
  mutex_lock {| hd := h; heap := m |} = Ret () {| hd := set_locked true h; heap := m |}.
Proof. intros H. unfold mutex_lock. cbn. by rewrite H. Qed.

Lemma get_free_spec s act x fre out :
  rt_rep s act (x :: fre) out ->
  exists s', get_free_eleroom true s = Ret (fst x) s' /\ rt_rep s' act fre ((fst x, 0) :: out).
Proof.
  intros [Hl Ha Hf Hc Ht Hall]. destruct s as [h m]. cbn in *.
  destruct Hf as (Hfx & e & He & Hf).
  rewrite <- Permutation_middle in Hall.
  pose proof Hall as Hall'. apply elems_ok_cons in Hall' as (Hx & [Hx0 _] & _).
  rewrite !fmap_app, !not_elem_of_app in Hx.
  unfold get_free_eleroom. cbn [negb]. rewrite (bind_ret _ _ _ _ _ (lock_run _ _ Hl)).
  erewrite bind_ret; [|reflexivity]. cbn [hd on_hd free set_locked]. rewrite Hfx, (proj2 (Z.eqb_neq _ _) Hx0).
  erewrite bind_ret.
  2: { erewrite bind_ret; [|unfold get_ele; cbn; rewrite He; reflexivity].
       erewrite bind_ret; [|reflexivity].
       erewrite bind_ret; [|unfold upd_ele; cbn; rewrite He; reflexivity].
       erewrite bind_ret; [|unfold upd_ele; cbn; rewrite lookup_insert_eq; reflexivity]. reflexivity. }
  eexists. split; [reflexivity|]. rewrite insert_insert_eq.
  split; cbn; try done.
  - apply lseg_insert; tauto.
  - apply lseg_insert; tauto.
  - rewrite Ht. len_tac.
  - rewrite app_assoc, <- Permutation_middle, <- app_assoc. by eapply elems_ok_retype.
Qed.

Lemma free_spec s act x fre out :
  rt_rep s act fre (x :: out) ->
  exists s', free_ele true (fst x) s = Ret 0 s' /\ rt_rep s' act ((fst x, 0) :: fre) out.
Proof.
  intros [Hl Ha Hf Hc Ht Hall]. destruct s as [h m]. cbn in *.
  rewrite app_assoc, <- Permutation_middle, <- app_assoc in Hall.
  pose proof Hall as Hall'. apply elems_ok_cons in Hall' as (Hx & (Hx0 & e & He & _) & _).
  rewrite !fmap_app, !not_elem_of_app in Hx.
  unfold free_ele. rewrite (proj2 (Z.eqb_neq _ _) Hx0). cbn [negb].
  rewrite (bind_ret _ _ _ _ _ (lock_run _ _ Hl)). erewrite bind_ret; [|reflexivity].
  erewrite bind_ret; [|unfold upd_ele; cbn; rewrite He; reflexivity].
  erewrite bind_ret; [|unfold upd_ele; cbn; rewrite lookup_insert_eq; reflexivity].
  eexists. split; [reflexivity|]. rewrite insert_insert_eq.
  split; cbn; try done.
  - apply lseg_insert; tauto.
  - split; [done|]. eexists. rewrite lookup_insert_eq. split; [done|]. apply lseg_insert; tauto.
  - rewrite Ht. len_tac.
  - rewrite <- Permutation_middle. by eapply elems_ok_retype.
Qed.

(** Putting [x] on an empty active list. *)
Lemma put_loop_nil b n cur s x fre out :
  lrep b s [] fre (x :: out) ->
  exists s', put_loop (S n) cur (fst x) s = Ret true s' /\ lrep b s' [x] fre out.
Proof.
  intros [Hl Ha Hf Hc Ht Hall]. destruct s as [h m]. cbn in *.
  rewrite <- Permutation_middle in Hall.
  pose proof Hall as Hall'. apply elems_ok_cons in Hall' as (Hx & (Hx0 & e & He & Hte) & _).
  rewrite !fmap_app, !not_elem_of_app in Hx.
  erewrite bind_ret; [|reflexivity]. cbn [hd]. rewrite Ha. cbn [Z.eqb].
  erewrite bind_ret; [|reflexivity].
  erewrite bind_ret; [|unfold upd_ele; cbn; rewrite He; reflexivity].
  eexists. split; [reflexivity|]. split; cbn; try done.
  - split; [done|]. rewrite lookup_insert_eq. by eexists.
  - apply lseg_insert; tauto.
  - rewrite Ht. len_tac.
  - by eapply elems_ok_relink.
Qed.

(** The search for the end, from the element after [l1]. *)
Lemma put_loop_spec b n l1 l2 cur s act x fre out :
  lrep b s act fre (x :: out) -> act = l1 ++ l2 -> l2 <> [] -> lseg (heap s) cur l2 0 ->
  (length l2 <= n)%nat ->
  exists s', put_loop n cur (fst x) s = Ret true s' /\ lrep b s' (act ++ [x]) fre out.
Proof.
  intros Hrep Hact. revert n l1 cur Hact. induction l2 as [|y l2 IH]; intros n l1 cur Hact Hne Hseg Hn; [done|].
  destruct n as [|n]; [cbn in Hn; lia|]. destruct Hseg as (-> & e & He & Hseg).
  pose proof Hrep as [Hl Ha Hf Hc Ht Hall].
  assert (Hact0 : active (hd s) <> 0).
  { subst act. destruct l1 as [|z l1]; cbn in Ha; destruct Ha as [-> _];
      (eapply elems_ok_get; [exact Hall|]; in_tac). }
  cbn [put_loop]. erewrite bind_ret; [|reflexivity]. rewrite (proj2 (Z.eqb_neq _ _) Hact0).
  erewrite bind_ret; [|unfold get_ele; rewrite He; reflexivity].
  destruct l2 as [|z l2].
  - cbn in Hseg. rewrite Hseg, Z.eqb_refl. subst act. destruct s as [h m]. cbn in *.
    assert (Hp : (l1 ++ [y]) ++ fre ++ x :: out ≡ₚ x :: y :: l1 ++ fre ++ out).
    { rewrite <- app_assoc. cbn. rewrite <- !Permutation_middle. first [done|apply perm_swap]. }
    rewrite Hp in Hall. pose proof Hall as Hall'.
    apply elems_ok_cons in Hall' as (Hx & (Hx0 & ex & Hex & Htx) & (Hy & _ & _)%elems_ok_cons).
    rewrite fmap_cons, list.not_elem_of_cons, !fmap_app, !not_elem_of_app in Hx.
    rewrite !fmap_app, !not_elem_of_app in Hy.
    assert (Hyx : fst y <> fst x) by (destruct Hx as [Hx' _]; congruence).
    erewrite bind_ret; [|unfold upd_ele; cbn; rewrite He; reflexivity].
    erewrite bind_ret; [|unfold upd_ele; cbn; rewrite lookup_insert_ne, Hex by done; reflexivity].
    erewrite bind_ret; [|reflexivity]. eexists. split; [reflexivity|]. split; cbn.
    + done.
    + rewrite <- app_assoc. apply lseg_snoc; tauto.
    + rewrite !lseg_insert; tauto.
    + rewrite Hc. len_tac.
    + rewrite Ht. len_tac.
    + assert (Hp2 : ((l1 ++ [y]) ++ [x]) ++ fre ++ out ≡ₚ x :: y :: l1 ++ fre ++ out).
      { rewrite <- !app_assoc. cbn. rewrite <- !Permutation_middle. first [done|apply perm_swap]. }
      rewrite Hp2. eapply elems_ok_relink; [eapply elems_ok_relink; [exact Hall|exact He|done]| |].
      * rewrite lookup_insert_ne by done. exact Hex.
      * done.
  - destruct Hseg as (Hz & ez & Hez & Hseg).
    assert (Hz0 : fst z <> 0) by (eapply elems_ok_get; [exact Hall|]; rewrite Hact; in_tac).
    rewrite Hz, (proj2 (Z.eqb_neq _ _) Hz0).
    apply (IH n (l1 ++ [y])); [by rewrite <- app_assoc|done|cbn; eauto|cbn in Hn |- *; lia].
Qed.

Lemma put_spec s act x fre out :
  rt_rep s act fre (x :: out) ->
  exists s', put_active_ele true (fst x) s = Ret 0 s' /\ rt_rep s' (act ++ [x]) fre out.
Proof.
  intros Hrep. pose proof (lrep_held _ true _ _ _ _ Hrep) as Hheld.
  pose proof Hrep as [Hl Ha Hf Hc Ht Hall]. destruct s as [h m]. cbn in *.
  assert (Hx0 : fst x <> 0) by (eapply elems_ok_get; [exact Hall|]; in_tac).
  assert (Hlk : exists s', put_loop (Z.to_nat (total_size h)) (active h) (fst x)
    (on_hd (set_locked true) {| hd := h; heap := m |}) = Ret true s' /\ lrep true s' (act ++ [x]) fre out).
  { rewrite Ht. destruct act as [|y act].
    - replace (Z.to_nat _) with (S (length (fre ++ out))) by len_tac. by eapply put_loop_nil.
    - eapply (put_loop_spec _ _ []); [exact Hheld|done|done|exact Ha|len_tac]. }
  destruct Hlk as (s' & Hput & Hrep').
  unfold put_active_ele. rewrite (proj2 (Z.eqb_neq _ _) Hx0). cbn [negb].
  rewrite (bind_ret _ _ _ _ _ (lock_run _ _ Hl)). erewrite bind_ret; [|reflexivity].
  rewrite (bind_ret _ _ _ _ _ Hput). erewrite bind_ret; [|reflexivity].
  eexists. split; [reflexivity|]. by eapply lrep_held.
Qed.
Lemma lrep_perm_out b s act fre out out' :
  out ≡ₚ out' -> lrep b s act fre out -> lrep b s act fre out'.
Proof. intros Hp [? ? ? ? ? ?]. split; try done; by rewrite <- Hp. Qed.

(** Unlinking [x], the element after [y]. *)
Lemma unlink_spec b s l1 y x l2 fre out ey ex :
  lrep b s (l1 ++ y :: x :: l2) fre out ->
  heap s !! fst y = Some ey -> heap s !! fst x = Some ex ->
  lrep b {| hd := dec_count (hd s); heap := <[fst y := set_next (next ex) ey]> (heap s) |}
    (l1 ++ y :: l2) fre (x :: out).
Proof.
  intros [Hl Ha Hf Hc Ht Hall] Hey Hex. destruct s as [h m]. cbn in *.
  assert (Hp : (l1 ++ y :: x :: l2) ++ fre ++ out ≡ₚ y :: x :: l1 ++ l2 ++ fre ++ out).
  { rewrite <- app_assoc. cbn. rewrite <- !Permutation_middle. first [done|apply perm_swap]. }
  assert (Hp2 : (l1 ++ y :: l2) ++ fre ++ x :: out ≡ₚ y :: x :: l1 ++ l2 ++ fre ++ out).
  { rewrite <- app_assoc. cbn. rewrite <- !Permutation_middle. first [done|apply perm_swap]. }
  rewrite Hp in Hall. pose proof Hall as Hall'. apply elems_ok_cons in Hall' as (Hy & _ & _).
  rewrite fmap_cons, list.not_elem_of_cons, !fmap_app, !not_elem_of_app in Hy.
  rewrite dec_count_pos by len_tac.
  split; cbn; try done.
  - apply lseg_app in Ha as (r & H1 & -> & ey' & He & Hx & ex' & He' & H2).
    assert (ex' = ex) as -> by congruence. apply lseg_app. exists (fst y). split.
    + apply lseg_insert; tauto.
    + cbn. split; [done|]. rewrite lookup_insert_eq. eexists; split; [done|].
      cbn. apply lseg_insert; tauto.
  - apply lseg_insert; tauto.
  - rewrite Hc. len_tac.
  - rewrite Ht. len_tac.
  - rewrite Hp2. by eapply elems_ok_relink.
Qed.

Lemma type_loop_spec b n l1 y l2 type s fre out :
  lrep b s (l1 ++ y :: l2) fre out -> type <> GET_ALL_ELE_TYPE -> (length l2 <= n)%nat ->
  exists s', match take_first type l2 with
  | None => type_loop n (fst y) type s = Ret 0 s' /\ s' = s
  | Some (x, l2') => type_loop n (fst y) type s = Ret (fst x) s' /\
                     lrep b s' (l1 ++ y :: l2') fre (x :: out)
  end.
Proof.
  intros Hrep Hty. revert n l1 y Hrep. induction l2 as [|x l2 IH]; intros n l1 y Hrep Hn.
  - exists s. cbn. split; [|done]. destruct n as [|n]; [done|]. cbn [type_loop].
    pose proof (rp_active _ _ _ _ _ Hrep) as (r & _ & _ & ey & Hey & Hnil)%lseg_app. cbn in Hnil.
    erewrite bind_ret; [|unfold get_ele; rewrite Hey; reflexivity]. by rewrite Hnil.
  - destruct n as [|n]; [cbn in Hn; lia|]. cbn [type_loop take_first].
    pose proof (rp_active _ _ _ _ _ Hrep) as (r & _ & _ & ey & Hey & Hx & ex & Hex & _)%lseg_app.
    assert (Hin : x ∈ (l1 ++ y :: x :: l2) ++ fre ++ out) by in_tac.
    destruct (elems_ok_get _ _ _ (rp_all _ _ _ _ _ Hrep) Hin) as (Hx0 & ex' & Hex' & Htx).
    assert (ex' = ex) as -> by congruence.
    erewrite bind_ret; [|unfold get_ele; rewrite Hey; reflexivity].
    rewrite Hx, (proj2 (Z.eqb_neq _ _) Hx0).
    erewrite bind_ret; [|unfold get_ele; rewrite Hex; reflexivity].
    rewrite Htx, (proj2 (Z.eqb_neq _ _) Hty). cbn [orb].
    destruct (snd x =? type).
    + eexists. split.
      * erewrite bind_ret; [|unfold upd_ele; rewrite Hey; reflexivity]. reflexivity.
      * by apply (unlink_spec b s l1 y x l2 fre out ey ex).
    + destruct (IH n (l1 ++ [y]) x) as (s' & Hs'); [by rewrite <- app_assoc|cbn in Hn; lia|].
      exists s'. destruct (take_first type l2) as [[z l2']|]; cbn.
      * destruct Hs' as [H1 H2]. split; [done|]. by rewrite <- app_assoc in H2.
      * done.
Qed.

Lemma get_type_spec s act fre out type :
  rt_rep s act fre out ->
  exists s', match take_first type act with
  | None => get_active_type_ele true type s = Ret 0 s' /\ rt_rep s' act fre out
  | Some (x, act') => get_active_type_ele true type s = Ret (fst x) s' /\
                      rt_rep s' act' fre (x :: out)
  end.
Proof.
  intros Hrep. pose proof (lrep_held _ true _ _ _ _ Hrep) as Hheld.
  pose proof Hrep as [Hl Ha Hf Hc Ht Hall]. destruct s as [h m]. cbn in *.
  unfold get_active_type_ele. cbn [negb].
  rewrite (bind_ret _ _ _ _ _ (lock_run _ _ Hl)). erewrite bind_ret; [|reflexivity]. cbn [hd].
  change (active (set_locked true h)) with (active h). change (total_size (set_locked true h)) with (total_size h).
  destruct act as [|y act].
  { cbn in Ha. rewrite Ha. eexists. split; [reflexivity|]. by eapply lrep_held. }
  destruct Ha as (Hay & ey & Hey & Ha). destruct (elems_ok_get _ _ y Hall) as (Hy0 & ey' & Hey' & Hty); [in_tac|].
  assert (ey' = ey) as -> by congruence.
  rewrite Hay, (proj2 (Z.eqb_neq _ _) Hy0). cbn [take_first]. rewrite <- Hty.
  destruct ((type =? GET_ALL_ELE_TYPE) || (ele_type ey =? type)) eqn:Hm.
  - eexists. split.
    + erewrite bind_ret.
      2: { erewrite bind_ret; [|unfold get_ele; cbn; rewrite Hey; reflexivity]. rewrite Hm.
           do 2 (erewrite bind_ret; [|reflexivity]). reflexivity. }
      reflexivity.
    + unfold on_hd. cbn. rewrite dec_count_pos by (cbn; len_tac).
      split; cbn; try done.
      * len_tac.
      * rewrite Ht. len_tac.
      * rewrite app_assoc, <- Permutation_middle, <- app_assoc. exact Hall.
  - apply orb_false_iff in Hm as [Hall' Hm]. apply Z.eqb_neq in Hall'.
    destruct (type_loop_spec true (Z.to_nat (total_size h)) [] y act type _ fre out Hheld Hall')
      as (s' & Hs'); [rewrite Ht; len_tac|].
    destruct (take_first type act) as [[x act']|]; destruct Hs' as [H1 H2].
    + eexists. split; [|eapply lrep_held; exact H2].
      erewrite bind_ret; [|erewrite bind_ret; [|unfold get_ele; cbn; rewrite Hey; reflexivity];
        rewrite (proj2 (Z.eqb_neq _ _) Hall'), Hm; exact H1]. reflexivity.
    + subst s'. eexists. split; [|eapply lrep_held; exact Hheld].
      erewrite bind_ret; [|erewrite bind_ret; [|unfold get_ele; cbn; rewrite Hey; reflexivity];
        rewrite (proj2 (Z.eqb_neq _ _) Hall'), Hm; exact H1]. reflexivity.
Qed.
End Calls.
