(* ===== verification/RtPoolThms.v ===== *)
(** * The promises of the element pool

    Runs of calls by owners of elements, the removal by type, the counts, and
    the construction of a pool. *)

From stdpp Require Import gmap.
From S2P Require Import Prelude RtPool RtPoolSpec.

(** ** Runs *)

Inductive rt_op :=
| OpTake
| OpPut (a : Z)
| OpGet (type : Z)
| OpFree (a : Z)
| OpSetType (a type : Z)
| OpDrop (type num : Z)
| OpActiveNum
| OpFreeNum.

Definition call (op : rt_op) : M rt Z :=
  match op with
  | OpTake => get_free_eleroom true
  | OpPut a => put_active_ele true a
  | OpGet type => get_active_type_ele true type
  | OpFree a => free_ele true a
  | OpSetType a type => set_ele_type a type;; mret 0
  | OpDrop type num => drop_ele_type true type num
  | OpActiveNum => get_pool_active_num true
  | OpFreeNum => get_pool_free_num true
  end.

Fixpoint calls (ops : list rt_op) : M rt (list Z) :=
  match ops with
  | [] => mret []
  | op :: ops => r ← call op; rs ← calls ops; mret (r :: rs)
  end.

(** The active queue, the free stack and the elements handed out. *)
Record parts := { p_act : list elem; p_free : list elem; p_out : list elem }.

Fixpoint extract (a : Z) (l : list elem) : option (elem * list elem) :=
  match l with
  | [] => None
  | x :: l => if fst x =? a then Some (x, l) else '(y, l') ← extract a l; Some (y, x :: l')
  end.

(** Move the first [n] elements of [type] from the queue to the stack. *)
Fixpoint drop_first (n : nat) (type : Z) (act fre : list elem) : Z * list elem * list elem :=
  match n with
  | O => (0, act, fre)
  | S n =>
      match take_first type act with
      | None => (0, act, fre)
      | Some (x, act') =>
          let '(k, a, f) := drop_first n type act' ((fst x, 0) :: fre) in (k + 1, a, f)
      end
  end.

(** What a call does to the parts; [None] when the caller does not own the
    element it passes. *)
Definition spec (op : rt_op) (p : parts) : option (Z * parts) :=
  let 'Build_parts act fre out := p in
  match op with
  | OpTake =>
      match fre with
      | [] => Some (0, p)
      | x :: fre => Some (fst x, Build_parts act fre ((fst x, 0) :: out))
      end
  | OpPut a => '(x, out) ← extract a out; Some (0, Build_parts (act ++ [x]) fre out)
  | OpGet type =>
      match take_first type act with
      | None => Some (0, p)
      | Some (x, act) => Some (fst x, Build_parts act fre (x :: out))
      end
  | OpFree a => '(x, out) ← extract a out; Some (0, Build_parts act ((fst x, 0) :: fre) out)
  | OpSetType a type => '(x, out) ← extract a out; Some (0, Build_parts act fre ((a, type) :: out))
  | OpDrop type num =>
      let '(k, a, f) := drop_first (Z.to_nat num) type act fre in Some (k, Build_parts a f out)
  | OpActiveNum => Some (zlen act, p)
  | OpFreeNum => Some (zlen fre, p)
  end.

Fixpoint specs (ops : list rt_op) (p : parts) : option (list Z * parts) :=
  match ops with
  | [] => Some ([], p)
  | op :: ops => '(r, p) ← spec op p; '(rs, p) ← specs ops p; Some (r :: rs, p)
  end.

Definition rep (s : rt) (p : parts) : Prop := rt_rep s (p_act p) (p_free p) (p_out p).

Definition owned (p : parts) : list Z := (p_act p ++ p_free p ++ p_out p).*1.

(** Permutations of appended lists that differ by the place of one element. *)
Ltac own_tac :=
  repeat first [rewrite fmap_app | rewrite fmap_cons]; cbn [app fst snd];
  rewrite <- ?app_assoc; cbn [app]; rewrite <- ?Permutation_middle; done.

Section Runs.
Implicit Types (s : rt) (p : parts) (l act fre out : list elem) (x : elem).

Lemma extract_perm a l x l' : extract a l = Some (x, l') -> fst x = a /\ l ≡ₚ x :: l'.
Proof.
  revert l'. induction l as [|y l IH]; intros l' H; cbn in H; [done|].
  destruct (Z.eqb_spec (fst y) a).
  - by injection H as -> ->.
  - apply bind_Some in H as ([z l1] & H & [= -> <-]). apply IH in H as [Ha Hp].
    split; [done|]. rewrite Hp. apply perm_swap.
Qed.

Lemma take_first_Some type l x l' :
  take_first type l = Some (x, l') ->
  exists l1 l2, l = l1 ++ x :: l2 /\ l' = l1 ++ l2 /\
    (type = GET_ALL_ELE_TYPE \/ snd x = type) /\
    Forall (fun y => type <> GET_ALL_ELE_TYPE /\ snd y <> type) l1.
Proof.
  revert l'. induction l as [|y l IH]; intros l' H; cbn in H; [done|].
  destruct (Z.eqb_spec type GET_ALL_ELE_TYPE); cbn [orb] in H.
  - injection H as -> <-. exists [], l. by split_and!; [..|left|].
  - destruct (Z.eqb_spec (snd y) type).
    + injection H as -> <-. exists [], l. by split_and!; [..|right|].
    + apply bind_Some in H as ([z l1] & H & [= -> <-]).
      apply IH in H as (l2 & l3 & -> & -> & Hx & Hall). exists (y :: l2), l3.
      split_and!; try done. by constructor.
Qed.

Lemma take_first_None type l :
  take_first type l = None -> Forall (fun y => type <> GET_ALL_ELE_TYPE /\ snd y <> type) l.
Proof.
  induction l as [|y l IH]; intros H; cbn in H; [done|].
  destruct (Z.eqb_spec type GET_ALL_ELE_TYPE); [done|].
  destruct (Z.eqb_spec (snd y) type); [done|]. cbn [orb] in H.
  constructor; [done|]. apply IH. destruct (take_first type l) as [[? ?]|]; [done|done].
Qed.

Lemma drop_spec n type s act fre out r :
  rt_rep s act fre out ->
  let '(k, a, f) := drop_first n type act fre in
  exists s', drop_loop n type r s = Ret (r + k) s' /\ rt_rep s' a f out.
Proof.
  revert s act fre r. induction n as [|n IH]; intros s act fre r Hrep; cbn [drop_first drop_loop].
  { exists s. rewrite Z.add_0_r. done. }
  destruct (get_type_spec s act fre out type Hrep) as (s1 & H1).
  destruct (take_first type act) as [[x act']|] eqn:Ht.
  - destruct H1 as [Hg Hrep1].
    assert (Hx0 : fst x <> 0) by (eapply elems_ok_get; [apply Hrep1|]; in_tac).
    destruct (free_spec s1 act' x fre out Hrep1) as (s2 & Hf & Hrep2).
    specialize (IH s2 act' ((fst x, 0) :: fre) (r + 1) Hrep2).
    destruct (drop_first n type act' _) as [[k a] f]. destruct IH as (s3 & Hd & Hrep3).
    exists s3. split; [|done]. rewrite (bind_ret _ _ _ _ _ Hg), (proj2 (Z.eqb_neq _ _) Hx0).
    rewrite (bind_ret _ _ _ _ _ Hf). cbn [Z.eqb]. rewrite Hd. f_equal. lia.
  - destruct H1 as [Hg Hrep1]. exists s1. split; [|done].
    rewrite (bind_ret _ _ _ _ _ Hg). cbn [Z.eqb]. rewrite Z.add_0_r. done.
Qed.

Lemma num_loop_spec h m l (c : Z) n k :
  lseg m c l 0 -> Forall (has_type m) l -> (length l <= n)%nat ->
  num_loop n c k {| hd := h; heap := m |} = Ret (k + zlen l) {| hd := h; heap := m |}.
Proof.
  revert c n k. induction l as [|x l IH]; intros c n k Hseg Hty Hn.
  - cbn in Hseg. subst c. rewrite Z.add_0_r. by destruct n.
  - destruct n as [|n]; [cbn in Hn; lia|]. destruct Hseg as (-> & e & He & Hseg).
    apply list.Forall_cons in Hty as [[Hx0 _] Hty]. cbn [num_loop].
    rewrite (proj2 (Z.eqb_neq _ _) Hx0).
    erewrite bind_ret; [|unfold get_ele; cbn; rewrite He; reflexivity].
    rewrite IH by (try done; cbn in Hn; lia). f_equal. cbn [length]. lia.
Qed.

Lemma set_type_spec s act fre x t out :
  rt_rep s act fre (x :: out) ->
  exists s', set_ele_type (fst x) t s = Ret () s' /\ rt_rep s' act fre ((fst x, t) :: out).
Proof.
  intros [Hl Ha Hf Hc Ht Hall]. destruct s as [h m]. cbn in *.
  rewrite app_assoc, <- Permutation_middle, <- app_assoc in Hall.
  pose proof Hall as Hall'. apply elems_ok_cons in Hall' as (Hx & (Hx0 & e & He & Hte) & _).
  rewrite !fmap_app, !not_elem_of_app in Hx.
  unfold set_ele_type, upd_ele. cbn. rewrite He. eexists. split; [reflexivity|].
  split; cbn; try done.
  - apply lseg_insert; tauto.
  - apply lseg_insert; tauto.
  - rewrite Ht. len_tac.
  - rewrite app_assoc, <- Permutation_middle, <- app_assoc. by eapply elems_ok_retype.
Qed.

(** A count of one of the two lists. *)
Lemma count_run s act fre out (which : pool_head -> Z) l :
  rt_rep s act fre out -> lseg (heap s) (which (hd s)) l 0 -> Forall (has_type (heap s)) l ->
  (length l <= Z.to_nat (total_size (hd s)))%nat ->
  (forall b h, which (set_locked b h) = which h) ->
  (mutex_lock;; h ← gets hd; num ← num_loop (Z.to_nat (total_size h)) (which h) 0;
   mutex_unlock;; mret num) s = Ret (zlen l) s.
Proof.
  intros [Hl Ha Hf Hc Ht Hall] Hseg Hty Hn Hw. destruct s as [h m]. cbn in *.
  rewrite (bind_ret _ _ _ _ _ (lock_run _ _ Hl)). erewrite bind_ret; [|reflexivity]. cbn [hd].
  rewrite Hw. erewrite bind_ret; [|by apply num_loop_spec]. cbn. do 2 f_equal.
  destruct h; cbn in *. by subst.
Qed.

Lemma get_free_empty s act out :
  rt_rep s act [] out -> exists s', get_free_eleroom true s = Ret 0 s' /\ rt_rep s' act [] out.
Proof.
  intros Hrep. pose proof (lrep_held _ true _ _ _ _ Hrep) as Hheld.
  destruct Hrep as [Hl Ha Hf Hc Ht Hall]. destruct s as [h m]. cbn in *.
  unfold get_free_eleroom. cbn [negb]. rewrite (bind_ret _ _ _ _ _ (lock_run _ _ Hl)).
  erewrite bind_ret; [|reflexivity]. cbn [hd free set_locked]. rewrite Hf.
  eexists. split; [reflexivity|]. by eapply lrep_held.
Qed.

Lemma drop_first_perm n type act fre :
  let '(k, a, f) := drop_first n type act fre in (a ++ f).*1 ≡ₚ (act ++ fre).*1.
Proof.
  revert act fre. induction n as [|n IH]; intros act fre; cbn; [done|].
  destruct (take_first type act) as [[x act']|] eqn:Ht; [|done].
  specialize (IH act' ((fst x, 0) :: fre)). destruct (drop_first n _ _ _) as [[k a] f].
  rewrite IH. apply take_first_Some in Ht as (l1 & l2 & -> & -> & _).
  rewrite !fmap_app. cbn. own_tac.
Qed.

Lemma call_spec op s p r p' :
  rep s p -> spec op p = Some (r, p') ->
  exists s', call op s = Ret r s' /\ rep s' p' /\ owned p' ≡ₚ owned p.
Proof.
  destruct p as [act fre out]. unfold rep, owned. intros Hrep H. cbn [p_act p_free p_out] in *.
  destruct op as [|a|type|a|a t|type num| |]; cbn in H |- *.
  - destruct fre as [|x fre]; injection H as <- <-; cbn.
    + destruct (get_free_empty s act out Hrep) as (s' & ? & ?). eauto.
    + destruct (get_free_spec s act x fre out Hrep) as (s' & ? & ?). exists s'.
      split_and!; [done|done|]. own_tac.
  - apply bind_Some in H as ([x out'] & Hx & [= <- <-]). apply extract_perm in Hx as [<- Hp].
    apply (lrep_perm_out _ _ _ _ _ _ Hp) in Hrep.
    destruct (put_spec s act x fre out' Hrep) as (s' & ? & ?). exists s'. cbn.
    split_and!; [done|done|]. rewrite Hp. own_tac.
  - destruct (get_type_spec s act fre out type Hrep) as (s' & Hs').
    destruct (take_first type act) as [[x act']|] eqn:Ht; injection H as <- <-;
      destruct Hs' as [? ?]; exists s'; cbn; split_and!; try done.
    apply take_first_Some in Ht as (l1 & l2 & -> & -> & _).
    own_tac.
  - apply bind_Some in H as ([x out'] & Hx & [= <- <-]). apply extract_perm in Hx as [<- Hp].
    apply (lrep_perm_out _ _ _ _ _ _ Hp) in Hrep.
    destruct (free_spec s act x fre out' Hrep) as (s' & ? & ?). exists s'. cbn.
    split_and!; [done|done|]. rewrite Hp. own_tac.
  - apply bind_Some in H as ([x out'] & Hx & [= <- <-]). apply extract_perm in Hx as [<- Hp].
    apply (lrep_perm_out _ _ _ _ _ _ Hp) in Hrep.
    destruct (set_type_spec s act fre x t out' Hrep) as (s' & Hr & ?). exists s'. cbn.
    rewrite (bind_ret _ _ _ _ _ Hr). split_and!; [done|done|].
    rewrite Hp. own_tac.
  - pose proof (drop_spec (Z.to_nat num) type s act fre out 0 Hrep) as Hd.
    pose proof (drop_first_perm (Z.to_nat num) type act fre) as Hp.
    destruct (drop_first _ _ _ _) as [[k a] f]. injection H as <- <-. destruct Hd as (s' & ? & ?).
    exists s'. cbn. split_and!; [done|done|]. rewrite !app_assoc, !fmap_app in *. by rewrite Hp.
  - injection H as <- <-. exists s. split_and!; try done. pose proof Hrep as [Hl Ha Hf Hc Ht [_ Hall]].
    eapply (count_run s act fre out active act); try done; [|rewrite Ht; len_tac].
    by apply Forall_app in Hall as [? _].
  - injection H as <- <-. exists s. split_and!; try done. pose proof Hrep as [Hl Ha Hf Hc Ht [_ Hall]].
    eapply (count_run s act fre out free fre); try done; [|rewrite Ht; len_tac].
    apply Forall_app in Hall as [_ Hall]. by apply Forall_app in Hall as [? _].
Qed.
End Runs.

Lemma calls_spec ops s p rs p' :
  rep s p -> specs ops p = Some (rs, p') ->
  exists s', calls ops s = Ret rs s' /\ rep s' p' /\ owned p' ≡ₚ owned p.
Proof.
  revert s p rs. induction ops as [|op ops IH]; intros s p rs Hrep H; cbn in H |- *.
  - injection H as <- <-. eauto.
  - apply bind_Some in H as ([r p1] & H1 & H). apply bind_Some in H as ([rs1 p2] & H2 & [= <- <-]).
    destruct (call_spec op s p r p1 Hrep H1) as (s1 & Hc1 & Hrep1 & Hp1).
    destruct (IH s1 p1 rs1 Hrep1 H2) as (s2 & Hc2 & Hrep2 & Hp2).
    exists s2. rewrite (bind_ret _ _ _ _ _ Hc1), (bind_ret _ _ _ _ _ Hc2).
    split_and!; [done|done|]. by rewrite Hp2.
Qed.

(** C16. Any sequence of calls in which every element passed to the pool is owned
    by its caller: each call returns, with the mutex released and no access
    outside the heap, the result that the queue, the stack and the handed-out
    elements give; and the pool's elements stay the same, none lost and none on
    two lists. *)
Theorem pool_calls_refine ops s p rs p' :
  rep s p -> specs ops p = Some (rs, p') ->
  exists s', calls ops s = Ret rs s' /\ rep s' p' /\ owned p' ≡ₚ owned p /\ NoDup (owned p').
Proof.
  intros Hrep H. destruct (calls_spec ops s p rs p' Hrep H) as (s' & Hc & Hrep' & Hp).
  exists s'. split_and!; [done|done|done|]. apply (rp_all _ _ _ _ _ Hrep').
Qed.

(** A pool of three elements, all free. *)
Definition rt3 : rt :=
  {| hd := {| total_size := 3; count := 0; plen := 4; poolv := Some [16; 32; 48]; free := 48;
              active := 0; locked := false |};
     heap := <[16 := set_next 0 (zero_ele 4)]> (<[32 := set_next 16 (zero_ele 4)]>
               (<[48 := set_next 32 (zero_ele 4)]> ∅)) |}.

Definition parts3 : parts := {| p_act := []; p_free := [(48, 0); (32, 0); (16, 0)]; p_out := [] |}.

Lemma rt3_rep : rep rt3 parts3.
Proof.
  split; try done.
  - cbn. repeat (split; [done|]; eexists; split; [reflexivity|]). done.
  - split; [apply (bool_decide_unpack _); by vm_compute|].
    repeat constructor; cbn; try done; by eexists.
Qed.

Lemma pool_calls_refine_witness :
  exists s', calls [OpTake; OpSetType 48 1; OpPut 48; OpTake; OpPut 32; OpGet GET_ALL_ELE_TYPE;
                    OpActiveNum; OpFree 48; OpFreeNum; OpDrop 0 5; OpFreeNum] rt3 =
    Ret [48; 0; 0; 32; 0; 48; 1; 0; 2; 1; 3] s'.
Proof.
  destruct (pool_calls_refine
    [OpTake; OpSetType 48 1; OpPut 48; OpTake; OpPut 32; OpGet GET_ALL_ELE_TYPE; OpActiveNum;
     OpFree 48; OpFreeNum; OpDrop 0 5; OpFreeNum] rt3 parts3
    [48; 0; 0; 32; 0; 48; 1; 0; 2; 1; 3]
    {| p_act := []; p_free := [(32, 0); (48, 0); (16, 0)]; p_out := [] |} rt3_rep)
    as (s' & H & _); [reflexivity|].
  exists s'. exact H.
Defined.

(** Taking by type gives the oldest active element of that type (any type for
    [GET_ALL_ELE_TYPE]) and leaves the others in their order; with none it
    returns null and the pool is as before. *)
Theorem get_active_type_first s act fre out type :
  rt_rep s act fre out ->
  (exists l1 x l2 s', act = l1 ++ x :: l2 /\
     (type = GET_ALL_ELE_TYPE \/ snd x = type) /\
     Forall (fun y => type <> GET_ALL_ELE_TYPE /\ snd y <> type) l1 /\
     get_active_type_ele true type s = Ret (fst x) s' /\ rt_rep s' (l1 ++ l2) fre (x :: out)) \/
  (Forall (fun y => type <> GET_ALL_ELE_TYPE /\ snd y <> type) act /\
   exists s', get_active_type_ele true type s = Ret 0 s' /\ rt_rep s' act fre out).
Proof.
  intros Hrep. destruct (get_type_spec s act fre out type Hrep) as (s' & Hs').
  destruct (take_first type act) as [[x act']|] eqn:Ht; destruct Hs' as [H1 H2].
  - apply take_first_Some in Ht as (l1 & l2 & -> & -> & ? & ?). left. by exists l1, x, l2, s'.
  - right. split; [by apply take_first_None|eauto].
Qed.

Lemma get_active_type_first_witness :
  exists s s', get_active_type_ele true 7 s = Ret 0 s' /\ rt_rep s' [] (p_free parts3) [].
Proof.
  destruct (get_active_type_first rt3 [] (p_free parts3) [] 7 rt3_rep) as [H|[_ (s' & H1 & H2)]].
  - exfalso. destruct H as ([|? ?] & x & l2 & s' & [=] & _).
  - exists rt3, s'. split; [exact H1|exact H2].
Defined.

Lemma filter_none {A} (P : A -> Prop) `{forall x, Decision (P x)} (l : list A) :
  Forall (fun x => ~ P x) l -> filter P l = [].
Proof.
  induction 1 as [|x l Hx _ IH]; [done|]. rewrite filter_cons. by destruct (decide (P x)).
Qed.

Lemma drop_first_filter n type act fre :
  type <> GET_ALL_ELE_TYPE ->
  let '(k, a, f) := drop_first n type act fre in
  let typed := fun x : elem => snd x = type in
  k = Z.min (Z.of_nat n) (zlen (filter typed act)) /\
  filter (fun x => snd x <> type) a = filter (fun x => snd x <> type) act /\
  zlen (filter typed a) = zlen (filter typed act) - k /\ zlen f = zlen fre + k.
Proof.
  intros Hty. revert act fre. induction n as [|n IH]; intros act fre; cbn [drop_first].
  { cbn. split_and!; lia || done. }
  destruct (take_first type act) as [[x act']|] eqn:Ht.
  - specialize (IH act' ((fst x, 0) :: fre)). destruct (drop_first n _ _ _) as [[k a] f].
    destruct IH as (Hk & Hf & Ha & Hfr). apply take_first_Some in Ht as (l1 & l2 & -> & -> & Hx & Hl1).
    destruct Hx as [Hx|Hx]; [done|]. cbn in *.
    rewrite ?list.filter_app, ?filter_cons in *.
    destruct (decide (snd x = type)); [|done]. destruct (decide (snd x <> type)); [done|].
    rewrite !length_app in *. cbn [length]. split_and!; [lia|done|lia|lia].
  - apply take_first_None in Ht. cbn. rewrite (filter_none _ act).
    + cbn. split_and!; lia || done.
    + revert Ht. apply Forall_impl. tauto.
Qed.

(** Dropping [num] elements of a type removes the oldest ones of that type
    from the queue, as many as there are up to [num], returns their number, and
    makes as many elements free; the elements of other types stay in order. *)
Theorem drop_ele_type_drops s act fre out type num :
  rt_rep s act fre out -> type <> GET_ALL_ELE_TYPE -> 0 <= num ->
  exists k s' act' fre', drop_ele_type true type num s = Ret k s' /\ rt_rep s' act' fre' out /\
    k = Z.min num (zlen (filter (fun x : elem => snd x = type) act)) /\
    filter (fun x : elem => snd x <> type) act' = filter (fun x : elem => snd x <> type) act /\
    zlen fre' = zlen fre + k /\ zlen act' = zlen act - k.
Proof.
  intros Hrep Hty Hnum. pose proof (drop_spec (Z.to_nat num) type s act fre out 0 Hrep) as Hd.
  pose proof (drop_first_filter (Z.to_nat num) type act fre Hty) as Hf.
  pose proof (drop_first_perm (Z.to_nat num) type act fre) as Hp.
  destruct (drop_first _ _ _ _) as [[k a] f]. destruct Hd as (s' & Hret & Hrep').
  destruct Hf as (Hk & Hfil & _ & Hfr).
  apply Permutation_length in Hp. rewrite !length_fmap, !length_app in Hp.
  exists k, s', a, f. split_and!; [done|done| |done|done|lia]. rewrite Hk. lia.
Qed.

Lemma drop_ele_type_drops_witness :
  exists k s' act' fre', drop_ele_type true 0 2 rt3 = Ret k s' /\ rt_rep s' act' fre' [] /\ k = 0.
Proof.
  destruct (drop_ele_type_drops rt3 [] (p_free parts3) [] 0 2 rt3_rep) as (k & s' & a & f & H1 & H2 & H3 & _);
    [done|lia|].
  exists k, s', a, f. split; [exact H1|]. split; [exact H2|]. rewrite H3. reflexivity.
Defined.

(** ** Construction *)

Lemma last_default {A} (l : list A) (d d' x : A) : List.last (x :: l) d = List.last (x :: l) d'.
Proof. revert x. induction l as [|y l IH]; intros x; [done|]. apply (IH y). Qed.

Lemma last_shift {A} (l : list A) (a d : A) : List.last (a :: l) d = List.last l a.
Proof. destruct l as [|x l]; [done|]. exact (last_default l d a x). Qed.

Section Construction.
Implicit Types (m : gmap Z ele) (h : pool_head) (l made : list Z) (a : Z).

(** Every address of [l] holds an element of type 0. *)
Definition allocated m l : Prop := Forall (fun a => exists e, m !! a = Some e /\ ele_type e = 0) l.

Lemma allocated_insert m l a e : allocated m l -> ele_type e = 0 -> allocated (<[a := e]> m) l.
Proof.
  unfold allocated. rewrite !list.Forall_forall. intros H He x Hx. destruct (decide (x = a)) as [->|].
  - rewrite lookup_insert_eq. eauto.
  - rewrite lookup_insert_ne by done. auto.
Qed.

Lemma allocated_get m l a : allocated m l -> a ∈ l -> exists e, m !! a = Some e /\ ele_type e = 0.
Proof. unfold allocated. rewrite list.Forall_forall. auto. Qed.

Lemma mk_loop_spec l tail k plen made oldele h m :
  (SIZEOF_POOL_ELE - 4 + plen) mod 4 = 0 -> Forall (fun a => a <> 0) l -> allocated m made ->
  (made = [] -> free h = 0) -> (made <> [] -> oldele ∈ made) ->
  exists f m', mk_loop ((Some <$> l) ++ tail) (length l + k) plen oldele made {| hd := h; heap := m |} =
      mk_loop tail k plen (List.last l oldele) (made ++ l) {| hd := set_free f h; heap := m' |} /\
    allocated m' (made ++ l).
Proof.
  intros Hp. revert made oldele h m. induction l as [|a l IH]; intros made oldele h m Hl Hm H0 Hold.
  - exists (free h), m. rewrite !app_nil_r. split; [destruct h; reflexivity|exact Hm].
  - apply list.Forall_cons in Hl as [Ha Hl]. cbn [length fmap list_fmap app mk_loop Nat.add].
    rewrite Hp, Z.eqb_refl. cbn [negb]. erewrite bind_ret; [|reflexivity].
    erewrite bind_ret; [|reflexivity]. cbn [hd heap].
    set (m1 := <[a := zero_ele plen]> m).
    assert (Hm1 : allocated m1 (made ++ [a])).
    { apply Forall_app. split; [by apply allocated_insert|]. constructor; [|constructor].
      unfold m1. rewrite lookup_insert_eq. eexists; split; [reflexivity|done]. }
    destruct (Z.eqb_spec (free h) 0) as [Hf|Hf].
    + erewrite bind_ret; [|reflexivity]. cbn [hd heap on_hd].
      destruct (IH (made ++ [a]) a (set_free a h) m1) as (f & m' & Hr & Hm'); [done|exact Hm1|by destruct made|in_tac|].
      exists f, m'. rewrite <- app_assoc in Hr, Hm'. split; [|done].
      unfold on_hd. cbn [hd heap]. by rewrite Hr, (last_shift l a oldele).
    + assert (Hne : made <> []) by (intros ->; by apply Hf, H0).
      destruct (allocated_get m1 made oldele) as (e & He & Hte);
        [by apply allocated_insert|by apply Hold|].
      erewrite bind_ret; [|unfold upd_ele; cbn [heap]; rewrite He; reflexivity]. cbn [hd heap].
      destruct (IH (made ++ [a]) a h (<[oldele := set_next a e]> m1)) as (f & m' & Hr & Hm');
        [done|eapply (allocated_insert _ _ _ (set_next a e)); [exact Hm1|done]|by destruct made|in_tac|].
      exists f, m'. rewrite <- app_assoc in Hr, Hm'. split; [|done].
      by rewrite Hr, (last_shift l a oldele).
Qed.

Lemma foldr_delete_None m l a : a ∈ l -> foldr delete m l !! a = None.
Proof.
  induction l as [|b l IH]; intros Ha; [by apply not_elem_of_nil in Ha|]. cbn.
  destruct (decide (a = b)) as [->|]; [apply lookup_delete_eq|].
  rewrite lookup_delete_ne by done. apply IH. by apply elem_of_cons in Ha as [|].
Qed.

Lemma push_free_spec l fre h m :
  Forall (fun a => a <> 0) l -> allocated m l -> NoDup (l ++ fre.*1) ->
  lseg m (free h) fre 0 -> Forall (has_type m) fre ->
  exists f m', push_free l {| hd := h; heap := m |} = Ret () {| hd := set_free f h; heap := m' |} /\
    let fre' := ((fun a => (a, 0)) <$> rev l) ++ fre in
    lseg m' f fre' 0 /\ Forall (has_type m') fre'.
Proof.
  revert fre h m. induction l as [|a l IH]; intros fre h m Hl Hm Hn Hseg Hty.
  - exists (free h), m. split; [destruct h; reflexivity|done].
  - apply list.Forall_cons in Hl as [Ha Hl]. apply list.Forall_cons in Hm as [(e & He & Hte) Hm].
    cbn in Hn. apply list.NoDup_cons in Hn as [Hna Hn]. rewrite not_elem_of_app in Hna.
    cbn [push_free]. rewrite (proj2 (Z.eqb_neq _ _) Ha).
    erewrite bind_ret; [|erewrite bind_ret; [|reflexivity];
      erewrite bind_ret; [|unfold upd_ele; cbn; rewrite He; reflexivity]; reflexivity].
    set (m1 := <[a := set_next (free h) e]> m).
    destruct (IH ((a, 0) :: fre) (set_free a h) m1) as (f & m' & Hr & Hseg' & Hty').
    + done.
    + by apply allocated_insert.
    + rewrite fmap_cons. by rewrite <- Permutation_middle, list.NoDup_cons, not_elem_of_app.
    + cbn. split; [done|]. unfold m1. rewrite lookup_insert_eq. eexists; split; [reflexivity|].
      cbn. apply lseg_insert; [tauto|done].
    + constructor.
      * split; [done|]. cbn. unfold m1. rewrite lookup_insert_eq. by eexists.
      * rewrite list.Forall_forall in Hty |- *. intros x Hx. apply has_type_insert; [by apply Hty|].
        intros <-. exfalso. apply (proj2 Hna). by apply list_elem_of_fmap_2.
    + exists f, m'. split; [exact Hr|]. cbn [rev]. rewrite fmap_app, <- app_assoc. done.
Qed.
End Construction.

Lemma init_spec h m l :
  locked h = false -> poolv h = Some l -> total_size h = zlen l ->
  Forall (fun a => a <> 0) l -> allocated m l -> NoDup l ->
  exists s', initrtpool true {| hd := h; heap := m |} = Ret 0 s' /\
    rep s' {| p_act := []; p_free := (fun a => (a, 0)) <$> rev l; p_out := [] |}.
Proof.
  intros Hl Hp Ht Hnz Hm Hn. unfold initrtpool. cbn [negb].
  rewrite (bind_ret _ _ _ _ _ (lock_run _ _ Hl)). erewrite bind_ret; [|reflexivity].
  cbn [hd poolv set_locked]. rewrite Hp. do 2 (erewrite bind_ret; [|reflexivity]).
  change (total_size (set_locked true h)) with (total_size h).
  rewrite Ht, Nat2Z.id, firstn_all. unfold on_hd. cbn [hd heap].
  set (h1 := set_free 0 _).
  destruct (push_free_spec l [] h1 m) as (f & m' & Hpush & Hseg & Hty);
    [done|done|by rewrite app_nil_r|done|constructor|].
  rewrite app_nil_r in Hseg, Hty. rewrite (bind_ret _ _ _ _ _ Hpush).
  eexists. split; [reflexivity|]. unfold rep. cbn [p_act p_free p_out].
  split; cbn; try done.
  - by rewrite app_nil_r, length_fmap, length_rev.
  - rewrite app_nil_r. split; [|done]. rewrite <- list_fmap_compose. cbn.
    rewrite list_fmap_id. by rewrite <- (Permutation_rev l).
Qed.

(** Making a pool of [num] elements whose allocations all succeed gives a
    pool with those elements free and none active; when an allocation fails the
    call returns -1, the pool array is not kept, and the elements it had made are
    released. *)
Theorem mkrtpool_makes l plen s :
  l <> [] -> NoDup l -> Forall (fun a => a <> 0) l -> (SIZEOF_POOL_ELE - 4 + plen) mod 4 = 0 ->
  (exists s', mkrtpool {| sem_ok := true; array_ok := true; addrs := Some <$> l |} plen (zlen l) s =
      Ret 0 s' /\ rep s' {| p_act := []; p_free := (fun a => (a, 0)) <$> rev l; p_out := [] |}) /\
  (forall num, zlen l < num -> exists s',
     mkrtpool {| sem_ok := true; array_ok := true; addrs := Some <$> l |} plen num s = Ret (-1) s' /\
     poolv (hd s') = None /\ Forall (fun a => heap s' !! a = None) l).
Proof.
  intros Hne Hn Hl Hp. set (h0 n := {| total_size := n; count := 0; plen := plen; poolv := None;
    free := 0; active := 0; locked := false |}).
  split.
  - unfold mkrtpool. cbn [sem_ok array_ok addrs negb]. erewrite bind_ret; [|reflexivity].
    fold (h0 (zlen l)). rewrite Nat2Z.id.
    destruct (mk_loop_spec l [] 0 plen [] 0 (h0 (zlen l)) (heap s) Hp Hl) as (f & m & Hr & Hm);
      [constructor|done|done|].
    rewrite app_nil_r, Nat.add_0_r in Hr. rewrite (bind_ret _ _ _ _ _ Hr). cbn [app] in Hm |- *.
    destruct (Z.ltb_spec 0 (zlen l)); [|destruct l; [done|cbn in *; lia]].
    assert (Hlast : List.last l 0 ∈ l).
    { destruct l as [|a l]; [done|]. clear. revert a. induction l as [|b l IH]; intros a; [left|].
      right. apply IH. }
    destruct (allocated_get m l _ Hm Hlast) as (e & He & Hte).
    erewrite bind_ret; [|unfold upd_ele; cbn; rewrite He; reflexivity]. erewrite bind_ret; [|reflexivity].
    destruct (init_spec (set_poolv (Some l) (set_free f (h0 (zlen l))))
      (<[List.last l 0 := set_next 0 e]> m) l) as (s' & Hi & Hrep);
      [done|done|done|done|by apply allocated_insert|done|].
    erewrite bind_ret; [|exact Hi]. eauto.
  - intros num Hnum. unfold mkrtpool. cbn [sem_ok array_ok addrs negb]. erewrite bind_ret; [|reflexivity].
    fold (h0 num).
    destruct (mk_loop_spec l [] (Z.to_nat (num - zlen l)) plen [] 0 (h0 num) (heap s) Hp Hl)
      as (f & m & Hr & Hm); [constructor|done|done|].
    rewrite app_nil_r in Hr. replace (length l + _)%nat with (Z.to_nat num) in Hr by lia.
    destruct (Z.to_nat (num - zlen l)) as [|k] eqn:Hk; [lia|].
    rewrite (bind_ret _ _ _ _ _ Hr). eexists. split; [reflexivity|]. cbn. split; [done|].
    rewrite list.Forall_forall. intros a Ha. by apply foldr_delete_None.
Qed.

Lemma mkrtpool_makes_witness :
  exists s', mkrtpool {| sem_ok := true; array_ok := true; addrs := [Some 16; Some 32] |} 4 2
      {| hd := hd rt3; heap := ∅ |} = Ret 0 s' /\
    rep s' {| p_act := []; p_free := [(32, 0); (16, 0)]; p_out := [] |}.
Proof.
  destruct (mkrtpool_makes [16; 32] 4 {| hd := hd rt3; heap := ∅ |}) as [(s' & H1 & H2) _];
    [done|apply (bool_decide_unpack _); by vm_compute|by repeat constructor|done|].
  exists s'. split; [exact H1|exact H2].
Defined.

(** A call on a pool whose array was not allocated returns with the mutex taken. *)
Lemma initrtpool_keeps_mutex s :
  locked (hd s) = false -> poolv (hd s) = None ->
  exists s', initrtpool true s = Ret (-1) s' /\ locked (hd s') = true /\
    get_free_eleroom true s' = Blocked s'.
Proof.
  intros Hl Hp. destruct s as [h m]. unfold initrtpool. cbn [negb] in *. cbn in Hl, Hp.
  rewrite (bind_ret _ _ _ _ _ (lock_run _ _ Hl)). erewrite bind_ret; [|reflexivity].
  cbn [hd poolv set_locked]. rewrite Hp. eexists. split; [reflexivity|]. done.
Qed.

