(* ===== verification/ShmPool.v ===== *)
(** * The shared frame pool (libsrc/gtipcs/mshmpool.c)

    A producer process writes encoded frames into a ring of [SHPOOL_MAX_ELE]
    element headers; the payload of an element is a run of 512-byte blocks of a
    circular area of the shared segment.  Up to [SHPOOL_MAX_USERS] readers each
    have a cursor in the ring and a counting semaphore.  This file holds the data
    and the operations; [ShmPoolInv] has the well-formedness invariant and the
    specification.

    The shared header is [SHPOOL_HEAD], the payload area [eledata], the readers'
    semaphore set [sems]; [mlock] is the value of the segment's mutex semaphore
    (1 free, 0 held), [newmaxsem], [oldmaxsem] and [places] are the file's static
    variables of the calling process.  A process's handle is [MSHM_POOL]; its
    [mc] and [ph] pointers are modelled by whether they are null. *)

From S2P Require Import Prelude Update Memory Sem.

Definition SHPOOL_BLOCK_SIZE : Z := 512.
Definition SHPOOL_MAX_USERS : Z := 8.
Definition SHPOOL_MAX_ELE : Z := 5000.
Definition MSHM_POOL_NORMAL_USR : Z := 0.

Record SHPOOL_ELE := { e_num : Z; e_userflag : Z; datalen : Z; blocks : Z; bblock : Z; eblock : Z }.

(** [name] and [info] are the bytes up to the terminating NUL. *)
Record SHPOOL_USR := {
  valid : Z; curele : Z; upid : Z; stime : Z; u_name : list Z; u_type : Z; u_info : list Z
}.
#[export] Instance SHPOOL_USR_settable : Settable SHPOOL_USR :=
  {| rebuild := fun r => Build_SHPOOL_USR (valid r) (curele r) (upid r) (stime r) (u_name r)
      (u_type r) (u_info r) |}.

Record SHPOOL_HEAD := {
  maxsem : Z;
  h_num : Z;
  tblocks : Z;
  fblocks : Z;
  fbstart : Z;
  boffset : Z;
  count : Z;
  head : Z;
  tail : Z;
  semkey : Z;
  semid : Z;
  last_usr_no : Z;
  send_bytes : Z;
  pinfo : list Z;
  eles : list SHPOOL_ELE;
  users : list SHPOOL_USR
}.
#[export] Instance SHPOOL_HEAD_settable : Settable SHPOOL_HEAD :=
  {| rebuild := fun r => Build_SHPOOL_HEAD (maxsem r) (h_num r) (tblocks r) (fblocks r)
      (fbstart r) (boffset r) (count r) (head r) (tail r) (semkey r) (semid r) (last_usr_no
      r) (send_bytes r) (pinfo r) (eles r) (users r) |}.

Definition set_maxsem (v : Z) (ph : SHPOOL_HEAD) : SHPOOL_HEAD :=
  Eval cbv beta delta [alter_field] in ph <| maxsem := v |>.
Definition set_h_num (v : Z) (ph : SHPOOL_HEAD) : SHPOOL_HEAD :=
  Eval cbv beta delta [alter_field] in ph <| h_num := v |>.
Definition set_tblocks (v : Z) (ph : SHPOOL_HEAD) : SHPOOL_HEAD :=
  Eval cbv beta delta [alter_field] in ph <| tblocks := v |>.
Definition set_fblocks (v : Z) (ph : SHPOOL_HEAD) : SHPOOL_HEAD :=
  Eval cbv beta delta [alter_field] in ph <| fblocks := v |>.
Definition set_fbstart (v : Z) (ph : SHPOOL_HEAD) : SHPOOL_HEAD :=
  Eval cbv beta delta [alter_field] in ph <| fbstart := v |>.
Definition set_boffset (v : Z) (ph : SHPOOL_HEAD) : SHPOOL_HEAD :=
  Eval cbv beta delta [alter_field] in ph <| boffset := v |>.
Definition set_count (v : Z) (ph : SHPOOL_HEAD) : SHPOOL_HEAD :=
  Eval cbv beta delta [alter_field] in ph <| count := v |>.
Definition set_head (v : Z) (ph : SHPOOL_HEAD) : SHPOOL_HEAD :=
  Eval cbv beta delta [alter_field] in ph <| head := v |>.
Definition set_tail (v : Z) (ph : SHPOOL_HEAD) : SHPOOL_HEAD :=
  Eval cbv beta delta [alter_field] in ph <| tail := v |>.
Definition set_semkey (v : Z) (ph : SHPOOL_HEAD) : SHPOOL_HEAD :=
  Eval cbv beta delta [alter_field] in ph <| semkey := v |>.
Definition set_semid (v : Z) (ph : SHPOOL_HEAD) : SHPOOL_HEAD :=
  Eval cbv beta delta [alter_field] in ph <| semid := v |>.
Definition set_last_usr_no (v : Z) (ph : SHPOOL_HEAD) : SHPOOL_HEAD :=
  Eval cbv beta delta [alter_field] in ph <| last_usr_no := v |>.
Definition set_send_bytes (v : Z) (ph : SHPOOL_HEAD) : SHPOOL_HEAD :=
  Eval cbv beta delta [alter_field] in ph <| send_bytes := v |>.
Definition set_pinfo (v : list Z) (ph : SHPOOL_HEAD) : SHPOOL_HEAD :=
  Eval cbv beta delta [alter_field] in ph <| pinfo := v |>.
Definition set_eles (v : list SHPOOL_ELE) (ph : SHPOOL_HEAD) : SHPOOL_HEAD :=
  Eval cbv beta delta [alter_field] in ph <| eles := v |>.
Definition set_users (v : list SHPOOL_USR) (ph : SHPOOL_HEAD) : SHPOOL_HEAD :=
  Eval cbv beta delta [alter_field] in ph <| users := v |>.

Definition set_valid (v : Z) (u : SHPOOL_USR) : SHPOOL_USR :=
  Eval cbv beta delta [alter_field] in u <| valid := v |>.
Definition set_curele (v : Z) (u : SHPOOL_USR) : SHPOOL_USR :=
  Eval cbv beta delta [alter_field] in u <| curele := v |>.
Definition set_upid (v : Z) (u : SHPOOL_USR) : SHPOOL_USR :=
  Eval cbv beta delta [alter_field] in u <| upid := v |>.
Definition set_stime (v : Z) (u : SHPOOL_USR) : SHPOOL_USR :=
  Eval cbv beta delta [alter_field] in u <| stime := v |>.
Definition set_u_name (v : list Z) (u : SHPOOL_USR) : SHPOOL_USR :=
  Eval cbv beta delta [alter_field] in u <| u_name := v |>.
Definition set_u_type (v : Z) (u : SHPOOL_USR) : SHPOOL_USR :=
  Eval cbv beta delta [alter_field] in u <| u_type := v |>.
Definition set_u_info (v : list Z) (u : SHPOOL_USR) : SHPOOL_USR :=
  Eval cbv beta delta [alter_field] in u <| u_info := v |>.

Record MSHM_POOL := { p_userflag : Z; userno : Z; mc : bool; php : bool }.

Record world := {
  ph : SHPOOL_HEAD;
  eledata : list Z;
  sems : list Z;
  mlock : Z;
  newmaxsem : Z;
  oldmaxsem : Z;
  places : Z
}.
#[export] Instance world_settable : Settable world :=
  {| rebuild := fun r => Build_world (ph r) (eledata r) (sems r) (mlock r) (newmaxsem r)
      (oldmaxsem r) (places r) |}.

Definition set_ph (v : SHPOOL_HEAD) (w : world) : world :=
  Eval cbv beta delta [alter_field] in w <| ph := v |>.
Definition set_eledata (v : list Z) (w : world) : world :=
  Eval cbv beta delta [alter_field] in w <| eledata := v |>.
Definition set_sems (v : list Z) (w : world) : world :=
  Eval cbv beta delta [alter_field] in w <| sems := v |>.
Definition set_mlock (v : Z) (w : world) : world :=
  Eval cbv beta delta [alter_field] in w <| mlock := v |>.
Definition set_newmaxsem (v : Z) (w : world) : world :=
  Eval cbv beta delta [alter_field] in w <| newmaxsem := v |>.
Definition set_oldmaxsem (v : Z) (w : world) : world :=
  Eval cbv beta delta [alter_field] in w <| oldmaxsem := v |>.
Definition set_places (v : Z) (w : world) : world :=
  Eval cbv beta delta [alter_field] in w <| places := v |>.

(** ** Ring of element headers *)

Definition NewerEle (cur : Z) : Z :=
  let cur := cur + 1 in if SHPOOL_MAX_ELE <=? cur then 0 else cur.

Definition OlderEle (cur : Z) : Z :=
  let cur := cur - 1 in if cur <? 0 then SHPOOL_MAX_ELE - 1 else cur.

Definition MShmDistanceEle (ph : SHPOOL_HEAD) (a b : Z) : Z :=
  let head := head ph in
  if a =? b then 0 else
  let distb := if head <=? b then b - head else SHPOOL_MAX_ELE - b + head in
  let dista := if head <=? a then a - head else SHPOOL_MAX_ELE - a + head in
  distb - dista.

(** ** Readers *)

(** One reader of [SemAddAll]: raise its semaphore, drop it when it lags. *)
Definition sem_add_user (i : Z) (u : SHPOOL_USR) (maxsem : Z) (sems : list Z)
    : SHPOOL_USR * list Z :=
  if valid u =? 0 then (u, sems) else
  let '(rc, sems) := SemAdd [] sems i in
  let SemVal := SemGetVal sems i in
  let u := if maxsem <? SemVal then set_valid 0 u else u in
  let u := if (rc <? 0) && (rc =? - ERANGE) then set_valid 0 u else u in
  (u, sems).

Fixpoint sem_add_users (i : Z) (us : list SHPOOL_USR) (maxsem : Z) (sems : list Z)
    : list SHPOOL_USR * list Z :=
  match us with
  | [] => ([], sems)
  | u :: us =>
      let '(u, sems) := sem_add_user i u maxsem sems in
      let '(us, sems) := sem_add_users (i + 1) us maxsem sems in
      (u :: us, sems)
  end.

Definition SemAddAll (w : world) : world :=
  let max := if newmaxsem w =? -1 then oldmaxsem w else newmaxsem w in
  let h := set_maxsem max (ph w) in
  let '(us, sems) := sem_add_users 0 (users h) max (sems w) in
  set_sems sems (set_ph (set_users us h) w).

(** The first reader slot not in use among the indices [idx]. *)
Fixpoint first_free (us : list SHPOOL_USR) (idx : list Z) : option Z :=
  match idx with
  | [] => None
  | i :: idx =>
      match geti us i with
      | Some u => if valid u =? 0 then Some i else first_free us idx
      | None => None
      end
  end.

Definition GetAFreeUsrNo (h : SHPOOL_HEAD) : Z * SHPOOL_HEAD :=
  let h := if last_usr_no h <? 0 then set_last_usr_no 0 h else h in
  let last := last_usr_no h in
  match first_free (users h) (seqZ (last + 1) (SHPOOL_MAX_USERS - (last + 1))) with
  | Some i => (i, set_last_usr_no i h)
  | None =>
      match first_free (users h) (seqZ 0 (last + 1)) with
      | Some i => (i, set_last_usr_no i h)
      | None => (- EBUSY, h)
      end
  end.

Definition alter_user (f : SHPOOL_USR -> SHPOOL_USR) (i : Z) (h : SHPOOL_HEAD) : SHPOOL_HEAD :=
  set_users (alter f (Z.to_nat i) (users h)) h.

(** [strncpy(usr->name, name, 31)] and the NUL at index 31. *)
Definition MShmPoolSetUserName (p : MSHM_POOL) (userno : Z) (name : list Z) (h : SHPOOL_HEAD)
    : Z * SHPOOL_HEAD :=
  if (userno <? 0) || (SHPOOL_MAX_USERS <=? userno) then (- EINVAL, h)
  else if negb (php p) then (- EINVAL, h)
  else (0, alter_user (set_u_name (take 31 name)) userno h).

Definition MShmPoolGetUsrInfo (p : MSHM_POOL) (userno : Z) (h : SHPOOL_HEAD)
    : Z * option (list Z) :=
  if (userno <? 0) || (SHPOOL_MAX_USERS <=? userno) then (- EINVAL, None)
  else if negb (php p) then (- EINVAL, None)
  else (128, u_info <$> geti (users h) userno).

Definition GetUsrValid (p : MSHM_POOL) (h : SHPOOL_HEAD) : option Z :=
  if negb (p_userflag p =? MSHM_POOL_NORMAL_USR) then Some (- EINVAL)
  else if negb (php p) then Some (- EINVAL)
  else valid <$> geti (users h) (userno p).

Definition MShmPoolGetTotalUser (h : SHPOOL_HEAD) : Z :=
  foldl (fun total u => if valid u =? 0 then total else total + 1) 0 (users h).

(** The return value is 0 on both paths of the loop. *)
Fixpoint del_usr_by_pid (pid : Z) (us : list SHPOOL_USR) : list SHPOOL_USR :=
  match us with
  | [] => []
  | u :: us => if upid u =? pid then set_valid 0 u :: us else u :: del_usr_by_pid pid us
  end.

Definition MShmPoolDelUsrByPid (p : MSHM_POOL) (pid : Z) (h : SHPOOL_HEAD) : Z * SHPOOL_HEAD :=
  if negb (php p) then (- EINVAL, h)
  else (0, set_users (del_usr_by_pid pid (users h)) h).

(** ** Blocks of the payload area *)

Definition cleared_ele (e : SHPOOL_ELE) : SHPOOL_ELE :=
  {| e_num := e_num e; e_userflag := e_userflag e; datalen := 0; blocks := 0;
     bblock := bblock e; eblock := eblock e |}.

(** Release the oldest element; [None] when [head] is outside the ring. *)
Definition FreeHeadEle (h : SHPOOL_HEAD) : option (Z * SHPOOL_HEAD) :=
  ele ← geti (eles h) (head h);
  eles' ← seti (eles h) (head h) (cleared_ele ele);
  let h := set_fblocks (fblocks h + blocks ele) h in
  let h := set_count (count h - 1) h in
  let h := set_eles eles' h in
  Some (blocks ele, set_head (NewerEle (head h)) h).

(** [FreeBlocks]: the loop with the local [freecnt]; [fuel] bounds the elements
    it can release. *)
Fixpoint FreeBlocks_loop (fuel : nat) (freecnt needfree : Z) (h : SHPOOL_HEAD)
    : option (Z * SHPOOL_HEAD) :=
  match fuel with
  | O => None
  | S fuel =>
      if freecnt <? needfree then
        if 0 <? count h then
          '(n, h) ← FreeHeadEle h;
          FreeBlocks_loop fuel (freecnt + n) needfree h
        else Some (- ENOMEM, h)
      else Some (freecnt, h)
  end.

Definition FreeBlocks (needfree : Z) (h : SHPOOL_HEAD) : option (Z * SHPOOL_HEAD) :=
  FreeBlocks_loop (S (Z.to_nat (count h))) (fblocks h) needfree h.

Definition MShmPoolReqBlocks (need : Z) (h : SHPOOL_HEAD) : option (Z * SHPOOL_HEAD) :=
  '(ret, h) ← (if need <? fblocks h then Some (1, h) else FreeBlocks (need * 2) h);
  if 0 <? ret then
    Some (fbstart h, set_fbstart (Z.rem (fbstart h + need) (tblocks h)) h)
  else Some (- ENOMEM, h).

Definition InsertData2Ele (ele : SHPOOL_ELE) (buf : list Z) (h : SHPOOL_HEAD) (eledata : list Z)
    : option (SHPOOL_ELE * SHPOOL_HEAD * list Z) :=
  let len := zlen buf in
  let startblock := bblock ele in
  let tailbytes := (tblocks h - startblock) * SHPOOL_BLOCK_SIZE in
  eledata' ←
    (if len <=? tailbytes
     then mem_write eledata (startblock * SHPOOL_BLOCK_SIZE) buf
     else m ← mem_write eledata (startblock * SHPOOL_BLOCK_SIZE) (take (Z.to_nat tailbytes) buf);
          mem_write m 0 (drop (Z.to_nat tailbytes) buf));
  let ele' := {| e_num := e_num ele; e_userflag := e_userflag ele; datalen := len;
                 blocks := blocks ele; bblock := bblock ele; eblock := eblock ele |} in
  let h := set_count (count h + 1) h in
  let h := set_fblocks (fblocks h - blocks ele) h in
  Some (ele', set_send_bytes (u32 (send_bytes h + len)) h, eledata').

(** What [SaveEle2Buf] hands to its caller on success. *)
Record packet := { pk_data : list Z; pk_seq : Z; pk_flag : Z }.

Definition SaveEle2Buf (buflen eleno : Z) (h : SHPOOL_HEAD) (eledata : list Z)
    : option (Z * option packet) :=
  ele ← geti (eles h) eleno;
  let startblock := bblock ele in
  let tailbytes := (tblocks h - startblock) * SHPOOL_BLOCK_SIZE in
  let elelen := datalen ele in
  if buflen <? elelen then Some (- ENOMEM, None) else
  data ←
    (if elelen <=? tailbytes
     then mem_read eledata (startblock * SHPOOL_BLOCK_SIZE) elelen
     else b1 ← mem_read eledata (startblock * SHPOOL_BLOCK_SIZE) tailbytes;
          b2 ← mem_read eledata 0 (elelen - tailbytes);
          Some (b1 ++ b2));
  Some (elelen, Some {| pk_data := data; pk_seq := e_num ele; pk_flag := e_userflag ele |}).

(** ** Exported functions *)

(** [MShmLock] and [MShmUnLock] of the segment's mutex (file [Shm]): the first
    sleeps while it is held. *)
Definition lock : M world Z := fun w =>
  if 0 <? mlock w then Ret 0 (set_mlock (mlock w - 1) w) else Blocked w.

Definition unlock : M world () := modify (fun w => set_mlock (mlock w + 1) w).

Definition set_user (f : SHPOOL_USR -> SHPOOL_USR) (i : Z) : M world () := fun w =>
  match geti (users (ph w)) i with
  | Some _ => Ret () (set_ph (alter_user f i (ph w)) w)
  | None => Undef
  end.

Definition get_user (i : Z) : M world SHPOOL_USR := fun w =>
  match geti (users (ph w)) i with Some u => Ret u w | None => Undef end.

Definition sem_req (i : Z) : M world Z := fun w =>
  match SemReq [] (sems w) i with
  | Some (rc, s) => Ret rc (set_sems s w)
  | None => Blocked w
  end.

Definition sem_set (i v : Z) : M world () := fun w =>
  Ret () (set_sems (snd (SemSetVal (sems w) i v)) w).

Definition save_ele (buflen eleno : Z) : M world (Z * option packet) := fun w =>
  match SaveEle2Buf buflen eleno (ph w) (eledata w) with
  | Some r => Ret r w
  | None => Undef
  end.

(** Fill the element at [tail] with [data], in the [needblock] blocks that start
    at [fstartb], and advance; a full ring loses its oldest element. *)
Definition put_tail (fstartb needblock flag : Z) (data : list Z) (h : SHPOOL_HEAD) (eledata : list Z)
    : option (SHPOOL_HEAD * list Z) :=
  let h := set_h_num (i32 (h_num h + 1)) h in
  let ele := {| e_num := h_num h; e_userflag := flag; datalen := 0; blocks := needblock;
                bblock := fstartb;
                eblock := if tblocks h <=? fstartb + needblock
                          then fstartb + needblock - 1 - tblocks h
                          else fstartb + needblock - 1 |} in
  '(ele, h, eledata) ← InsertData2Ele ele data h eledata;
  eles' ← seti (eles h) (tail h) ele;
  let h := set_eles eles' h in
  let h := set_tail (NewerEle (tail h)) h in
  h ← (if tail h =? head h then snd <$> FreeHeadEle h else Some h);
  Some (h, eledata).

(** The part of [MShmPoolAddResource] between the lock and the unlock. *)
Definition add_locked (buf : list Z) (buflen flag : Z) : M world Z := fun w =>
  let needblock := Z.quot (buflen - 1) SHPOOL_BLOCK_SIZE + 1 in
  match MShmPoolReqBlocks needblock (ph w) with
  | None => Undef
  | Some (fstartb, h) =>
      if fstartb <? 0 then Ret (- ENOMEM) (set_ph h w) else
      match
        data ← mem_read buf 0 buflen;
        put_tail fstartb needblock flag data h (eledata w)
      with
      | None => Undef
      | Some (h, eledata) => Ret 0 (set_eledata eledata (set_ph h w))
      end
  end.

Definition MShmPoolAddResource (p : MSHM_POOL) (buf : option (list Z)) (buflen flag : Z)
    : M world Z :=
  match buf with
  | None => mret (- EINVAL)
  | Some b =>
      if buflen <? 0 then mret (- EINVAL) else
      lock;;
      retval ← add_locked b buflen flag;
      (if retval =? 0 then modify SemAddAll else mret ());;
      unlock;;
      mret retval
  end.

Definition GetFrameFlag (p : MSHM_POOL) : M world Z :=
  usr ← get_user (userno p);
  w ← get_st;
  ele ← access (geti (eles (ph w)) (curele usr));
  mret (e_userflag ele).

(** The producer has created the pool anew and this reader's cursor is ahead. *)
Definition pool_restarted (usr : SHPOOL_USR) (h : SHPOOL_HEAD) : bool :=
  (head h =? 0) && (Z.abs (MShmDistanceEle h (head h) (tail h)) <? 5) && (tail h <=? curele usr).

Definition MShmPoolGetResource (p : MSHM_POOL) (buflen : Z) : M world (Z * option packet) :=
  if buflen <? 0 then mret (- EINVAL, None) else
  if negb (mc p) then mret (- EINVAL, None) else
  rc ← sem_req (userno p);
  if rc <? 0 then mret (rc, None) else
  lock;;
  usr ← get_user (userno p);
  h ← gets ph;
  (if pool_restarted usr h
   then set_user (set_curele (tail h - 1)) (userno p);; sem_set (userno p) 0
   else mret ());;
  usr ← get_user (userno p);
  let cur := curele usr in
  r ← save_ele buflen cur;
  (if 0 <=? fst r then set_user (set_curele (NewerEle cur)) (userno p) else mret ());;
  unlock;;
  mret r.

(** The wait loop of [MShmPoolGetPacket]: the cursor to read at, or the errno of
    the semaphore call.  With [asleep] the caller is inside [SemReq], where a
    reader that found the pool empty stays until the producer raises its
    semaphore. *)
Fixpoint get_packet_wait (fuel : nat) (asleep : bool) (p : MSHM_POOL) (cur : Z) : M world (Z + Z) :=
  match fuel with
  | O => undef
  | S fuel =>
      h ← gets ph;
      if asleep || (tail h =? head h) || (cur =? tail h) then
        rc ← sem_req (userno p);
        if rc <? 0 then mret (inr rc) else
        sem_set (userno p) 0;;
        usr ← get_user (userno p);
        h ← gets ph;
        (if pool_restarted usr h
         then lock;; set_user (set_curele (tail h - 1)) (userno p);; unlock;;
              sem_set (userno p) 0
         else mret ());;
        usr ← get_user (userno p);
        get_packet_wait fuel false p (curele usr)
      else mret (inl cur)
  end.

(** [asleep = false] is a call; [asleep = true] resumes a call that was
    [Blocked].  The semaphore is 0 after the first pass of the loop, so a second
    pass sleeps: two rounds of fuel never run out. *)
Definition MShmPoolGetPacket (asleep : bool) (p : MSHM_POOL) (buflen : Z)
    : M world (Z * option packet) :=
  if buflen <? 0 then mret (- EINVAL, None) else
  usr ← get_user (userno p);
  if negb (mc p) then mret (- EINVAL, None) else
  c ← get_packet_wait 3 asleep p (curele usr);
  match c with
  | inr rc => mret (rc, None)
  | inl cur =>
      lock;;
      r ← save_ele buflen cur;
      (if 0 <=? fst r then set_user (set_curele (NewerEle cur)) (userno p) else mret ());;
      unlock;;
      mret r
  end.

(** The local [mc] and [ph] of this function are null when it tests them. *)
Definition MShmPoolSetMaxNum (p : MSHM_POOL) (num : Z) : M world Z :=
  let mc := false in
  let ph := false in
  if negb mc || negb ph then mret (- EINVAL) else
  lock;;
  w ← get_st;
  put_st (set_oldmaxsem num (set_ph (set_maxsem num (ShmPool.ph w)) w));;
  unlock;;
  mret 0.

Definition MSHmPoolSetMaxNum_t (num : Z) : M world () := modify (set_newmaxsem num).

(** The cursor moves [n] elements at most and stops at the end of the ring. *)
Fixpoint mv_older (n : nat) (head temp moved : Z) : Z * Z :=
  match n with
  | O => (temp, moved)
  | S n =>
      let temp := OlderEle temp in
      let moved := moved + 1 in
      if temp =? head then (temp, moved) else mv_older n head temp moved
  end.

Fixpoint mv_newer (n : nat) (tail temp moved : Z) : Z * Z :=
  match n with
  | O => (temp, moved)
  | S n =>
      let temp := NewerEle temp in
      let moved := moved + 1 in
      if temp =? tail then (temp, moved) else mv_newer n tail temp moved
  end.

(** The common part of [MShmPoolMvUsrPlace] and [MShmPoolMvNewPlace]. *)
Definition mv_cursor (p : MSHM_POOL) (place : Z) : M world Z :=
  usr ← get_user (userno p);
  h ← gets ph;
  if place <? 0 then
    let '(temp, moved) := mv_older (Z.to_nat (- place)) (head h) (curele usr) 0 in
    set_user (set_curele temp) (userno p);; mret moved
  else if 0 <? place then
    let '(temp, moved) := mv_newer (Z.to_nat place) (tail h) (curele usr) 0 in
    set_user (set_curele temp) (userno p);; mret moved
  else mret 0.

Definition MShmPoolMvUsrPlace (p : MSHM_POOL) (place : Z) : M world Z :=
  (if mc p then lock else mret (-1));;
  if negb (mc p) || negb (php p) then mret (- EINVAL) else
  moved ← mv_cursor p place;
  unlock;;
  modify (set_places moved);;
  mret moved.

Definition MShmPoolMvNewPlace (p : MSHM_POOL) (place : Z) : M world Z :=
  if negb (mc p) || negb (php p) then mret (- EINVAL) else mv_cursor p place.

(** What [MShmCoreAttach] finds at a key: an errno, or a segment whose
    descriptor gives the offset of the user area. *)
Inductive core_attach :=
| NoCore (errno : Z)
| Core (uoffset : Z).

Definition MSHmPoolAttach (c : core_attach) (pkey : Z) (p : MSHM_POOL) (h : SHPOOL_HEAD)
    : Z * MSHM_POOL :=
  if pkey <? 0 then (- EINVAL, p) else
  match c with
  | NoCore e => (- e, p)
  | Core uoffset =>
      if uoffset <=? 0 then (- EPERM, p)
      else
        let p := {| p_userflag := p_userflag p; userno := userno p; mc := true; php := true |} in
        if boffset h <=? 0 then (- EPERM, p)
        else (0, {| p_userflag := 2; userno := userno p; mc := true; php := true |})
  end.

(** The new reader of slot [userno]: it starts at the newest position. *)
Definition new_user (tail ctype pid now : Z) (u : SHPOOL_USR) : SHPOOL_USR :=
  {| valid := 1; curele := tail; upid := pid; stime := now; u_name := u_name u;
     u_type := ctype; u_info := u_info u |}.

Definition normal_user : list Z := [110; 111; 114; 109; 97; 108; 32; 117; 115; 101; 114].

Definition MShmPoolReq (c : core_attach) (pkey : Z) (name : option (list Z)) (ctype pid now : Z)
    (p : MSHM_POOL) : M world (Z * MSHM_POOL) :=
  h ← gets ph;
  let '(retval, p) := MSHmPoolAttach c pkey p h in
  if retval <? 0 then mret (retval, p) else
  lock;;
  h ← gets ph;
  let '(no, h) := GetAFreeUsrNo h in
  modify (set_ph h);;
  if no <? 0 then
    unlock;;
    mret (no, {| p_userflag := p_userflag p; userno := userno p; mc := false; php := false |})
  else
    let p := {| p_userflag := p_userflag p; userno := no; mc := mc p; php := php p |} in
    sem_set no 0;;
    set_user (new_user (tail h) ctype pid now) no;;
    modify (fun w => set_ph (snd (MShmPoolSetUserName p no (default normal_user name) (ph w))) w);;
    unlock;;
    mret (0, {| p_userflag := 0; userno := no; mc := mc p; php := php p |}).

Definition MShmPoolReqFree (p : MSHM_POOL) : M world (Z * MSHM_POOL) :=
  if negb (php p) then mret (- EINVAL, p) else
  if SHPOOL_MAX_USERS <=? userno p then mret (- EINVAL, p) else
  (if p_userflag p =? MSHM_POOL_NORMAL_USR
   then lock;; set_user (set_valid 0) (userno p);; unlock
   else mret ());;
  mret (0, if mc p
           then {| p_userflag := p_userflag p; userno := userno p; mc := false; php := php p |}
           else p).

Definition MShmPoolReActiveUsr (p : MSHM_POOL) : M world Z :=
  if negb (mc p) then mret (- EINVAL) else
  if negb (p_userflag p =? MSHM_POOL_NORMAL_USR) then mret (- EINVAL) else
  if SHPOOL_MAX_USERS <=? userno p then mret (- EINVAL) else
  usr ← get_user (userno p);
  if valid usr =? 0 then lock;; set_user (set_valid 1) (userno p);; unlock;; mret 1
  else mret 0.

(** ** Creation *)

(** [sizeof(SHPOOL_HEAD)] with 4-byte [int], [long] and [time_t]. *)
Definition SIZEOF_SHPOOL_HEAD : Z := 122004.

Definition zero_shpool_ele : SHPOOL_ELE :=
  {| e_num := 0; e_userflag := 0; datalen := 0; blocks := 0; bblock := 0; eblock := 0 |}.

Definition zero_usr : SHPOOL_USR :=
  {| valid := 0; curele := 0; upid := 0; stime := 0; u_name := []; u_type := 0; u_info := [] |}.

(** The system calls of [MShmPoolCreate]: the page size, the errno of
    [MShmCoreCreate] if it fails, and how [semget] answers. *)
Inductive sem_get := SemNew | SemExists | SemNone.
Record create_env := { pagesize : Z; core_errno : option Z; sem_answer : sem_get; core_key : Z }.

(** The bytes the pool asks for: the pages of its header and of its payload. *)
Definition realsize (ps bytes : Z) : Z :=
  ((Z.quot (SIZEOF_SHPOOL_HEAD - 1) ps + 1) + (Z.quot (bytes + 1) ps + 1)) * ps.

Definition MShmPoolCreate (env : create_env) (pkey bytes : Z) (p : MSHM_POOL)
    : M world (Z * MSHM_POOL) :=
  if (pkey <? 0) || (bytes <=? 0) then mret (- EINVAL, p) else
  match core_errno env with
  | Some e => mret (- e, p)
  | None =>
      let p := {| p_userflag := p_userflag p; userno := 0; mc := true; php := true |} in
      lock;;
      let ps := pagesize env in
      w ← get_st;
      let h := set_boffset ((Z.quot (SIZEOF_SHPOOL_HEAD - 1) ps + 1) * ps) (ph w) in
      let h := set_maxsem 100 h in
      let h := set_h_num 0 h in
      let h := set_tblocks (Z.quot ((Z.quot (bytes - 1) ps + 1) * ps) SHPOOL_BLOCK_SIZE) h in
      let h := set_fbstart 0 (set_fblocks (tblocks h) h) in
      let h := set_tail 0 (set_head 0 (set_count 0 h)) in
      let h := set_last_usr_no (-1) h in
      let h := set_semkey (Z.lor (core_key env) 1342177280) h in
      put_st (set_oldmaxsem 100 (set_ph h w));;
      match sem_answer env with
      | SemNone =>
          modify (fun w => set_ph (set_semid (-1) (ph w)) w);;
          unlock;;
          mret (- ENAVAIL, p)
      | ans =>
          (if ans is SemNew
           then modify (fun w => set_sems (replicate (Z.to_nat SHPOOL_MAX_USERS) 0)
                                   (set_ph (set_pinfo (replicate 512 0) (ph w)) w))
           else mret ());;
          modify (fun w => set_ph (set_semid (semkey (ph w)) (ph w)) w);;
          modify (fun w => set_sems (Nat.iter (Z.to_nat SHPOOL_MAX_USERS)
                                       (fun s => snd (SemSetVal s 0 0)) (sems w)) w);;
          modify (fun w => set_ph (set_eles (replicate (Z.to_nat SHPOOL_MAX_ELE) zero_shpool_ele) (ph w)) w);;
          w ← get_st;
          data ← access (mem_set (eledata w) 0 0 (SHPOOL_BLOCK_SIZE * tblocks (ph w)));
          put_st (set_ph (set_send_bytes 0 (ph w)) (set_eledata data w));;
          unlock;;
          mret (0, {| p_userflag := 1; userno := 0; mc := true; php := true |})
      end
  end.
