(* ===== verification/ShmPoolInv.v ===== *)
(** * Specification of the shared frame pool

    The abstract pool is the list of its frames, oldest first.  [pool_wf] says
    how a header and a payload area represent such a list: the live element
    headers are the run of [count] slots that starts at [head]; their blocks lie
    one after the other around the payload area and end where the free blocks
    start, so no two of them overlap and none overlaps the free part; and the
    bytes of each run are the frame's.  [pool_push] is what adding a frame does
    to the list, evictions included. *)

From S2P Require Import Prelude Memory Sem ShmPool.

Record frame := { f_num : Z; f_flag : Z; f_data : list Z }.

Definition nblocks (len : Z) : Z := Z.quot (len - 1) SHPOOL_BLOCK_SIZE + 1.
Definition frame_blocks (f : frame) : Z := nblocks (zlen (f_data f)).

Fixpoint total (q : list frame) : Z :=
  match q with [] => 0 | f :: q => frame_blocks f + total q end.

(** Drop the oldest frames until [need] blocks are free, of which [fb] are now. *)
Fixpoint evict (need fb : Z) (q : list frame) : option (list frame) :=
  if fb <? need then
    match q with
    | [] => None
    | f :: q => evict need (fb + frame_blocks f) q
    end
  else Some q.

(** Add a frame to a pool of [T] blocks; [None] when the room cannot be made. *)
Definition pool_push (T : Z) (f : frame) (q : list frame) : option (list frame) :=
  let need := frame_blocks f in
  let fb := T - total q in
  q ← (if need <? fb then Some q else evict (need * 2) fb q);
  let q := q ++ [f] in
  Some (if zlen q =? SHPOOL_MAX_ELE then drop 1 q else q).

(** ** Representation *)

Fixpoint chain (T s : Z) (es : list SHPOOL_ELE) (fin : Z) : Prop :=
  match es with
  | [] => s = fin
  | e :: es => bblock e = s /\ chain T ((s + blocks e) mod T) es fin
  end.

Fixpoint blocks_of (es : list SHPOOL_ELE) : Z :=
  match es with [] => 0 | e :: es => blocks e + blocks_of es end.

Record ele_holds (T : Z) (data : list Z) (e : SHPOOL_ELE) (f : frame) : Prop := {
  eh_num : e_num e = f_num f;
  eh_flag : e_userflag e = f_flag f;
  eh_len : datalen e = zlen (f_data f);
  eh_blocks : blocks e = frame_blocks f;
  eh_data : circ_holds (T * SHPOOL_BLOCK_SIZE) data (bblock e * SHPOOL_BLOCK_SIZE) (f_data f)
}.

(** [es] are the live headers, [q] the frames they describe. *)
Record pool_wf (h : SHPOOL_HEAD) (data : list Z) (es : list SHPOOL_ELE) (q : list frame) : Prop := {
  wf_T : 0 < tblocks h;
  wf_size : tblocks h * SHPOOL_BLOCK_SIZE <= zlen data;
  wf_eles : zlen (eles h) = SHPOOL_MAX_ELE;
  wf_head : 0 <= head h < SHPOOL_MAX_ELE;
  wf_count : 0 <= count h <= SHPOOL_MAX_ELE;
  wf_tail : tail h = (head h + count h) mod SHPOOL_MAX_ELE;
  wf_es : zlen es = count h;
  wf_live : circ_holds SHPOOL_MAX_ELE (eles h) (head h) es;
  wf_fbstart : 0 <= fbstart h < tblocks h;
  wf_chain : chain (tblocks h) ((fbstart h + fblocks h) mod tblocks h) es (fbstart h);
  wf_fblocks : 0 <= fblocks h;
  wf_total : fblocks h + blocks_of es = tblocks h;
  wf_frames : Forall2 (ele_holds (tblocks h) data) es q
}.

(** Between two calls there is a free slot in the ring and a free block. *)
Definition pool_rep (h : SHPOOL_HEAD) (data : list Z) (q : list frame) : Prop :=
  (exists es, pool_wf h data es q) /\ count h < SHPOOL_MAX_ELE /\ 0 < fblocks h.

Section Facts.
Implicit Types (h : SHPOOL_HEAD) (data : list Z) (es : list SHPOOL_ELE) (q : list frame).

Lemma max_ele_pos : 0 < SHPOOL_MAX_ELE.
Proof. done. Qed.

Lemma nblocks_pos len : 0 <= len -> 1 <= nblocks len.
Proof.
  intros. unfold nblocks, SHPOOL_BLOCK_SIZE.
  destruct (decide (len = 0)) as [->|]; [done|].
  pose proof (Z.quot_pos (len - 1) 512). lia.
Qed.

Lemma nblocks_bound len : 0 <= len -> len <= nblocks len * SHPOOL_BLOCK_SIZE.
Proof.
  intros. unfold nblocks, SHPOOL_BLOCK_SIZE.
  destruct (decide (len = 0)) as [->|]; [done|].
  pose proof (Z.quot_rem' (len - 1) 512). pose proof (Z.rem_bound_pos (len - 1) 512). lia.
Qed.

Lemma frame_blocks_pos f : 1 <= frame_blocks f.
Proof. apply nblocks_pos. lia. Qed.

Lemma total_nonneg q : 0 <= total q.
Proof. induction q as [|f q IH]; cbn; [lia|]. pose proof (frame_blocks_pos f). lia. Qed.

Lemma NewerEle_mod cur : 0 <= cur < SHPOOL_MAX_ELE -> NewerEle cur = (cur + 1) mod SHPOOL_MAX_ELE.
Proof.
  intros. unfold NewerEle. cbn zeta. rewrite mod_wrap by (unfold SHPOOL_MAX_ELE in *; lia).
  unfold SHPOOL_MAX_ELE in *. zcase.
Qed.

Lemma OlderEle_mod cur : 0 <= cur < SHPOOL_MAX_ELE -> OlderEle cur = (cur - 1) mod SHPOOL_MAX_ELE.
Proof.
  intros. unfold OlderEle, SHPOOL_MAX_ELE in *. cbn zeta. zcase.
  - assert (cur = 0) as -> by lia. done.
  - rewrite Z.mod_small; lia.
Qed.

Lemma Newer_Older cur : 0 <= cur < SHPOOL_MAX_ELE -> NewerEle (OlderEle cur) = cur.
Proof. intros. unfold OlderEle, SHPOOL_MAX_ELE in *. zcase; unfold NewerEle, SHPOOL_MAX_ELE; zcase. Qed.

Lemma Older_Newer cur : 0 <= cur < SHPOOL_MAX_ELE -> OlderEle (NewerEle cur) = cur.
Proof. intros. unfold NewerEle, SHPOOL_MAX_ELE in *. zcase; unfold OlderEle, SHPOOL_MAX_ELE; zcase. Qed.

Lemma ring_full i c :
  0 <= i < SHPOOL_MAX_ELE -> 0 < c <= SHPOOL_MAX_ELE ->
  ((i + c) mod SHPOOL_MAX_ELE =? i) = (c =? SHPOOL_MAX_ELE).
Proof.
  intros. apply eq_bool_prop_intro. rewrite !Is_true_true, !Z.eqb_eq.
  rewrite mod_wrap by lia. zcase.
Qed.

Lemma blocks_of_total T data es q :
  Forall2 (ele_holds T data) es q -> blocks_of es = total q.
Proof. induction 1 as [|e f es q He _ IH]; cbn; [done|]. rewrite (eh_blocks _ _ _ _ He). lia. Qed.

Lemma chain_snoc T s es fin e :
  chain T s es fin -> bblock e = fin ->
  chain T s (es ++ [e]) ((fin + blocks e) mod T).
Proof.
  revert s. induction es as [|e' es IH]; intros s; cbn; [by intros -> ->|].
  intros [? ?] ?. eauto.
Qed.

(** The blocks of the live elements, counted from the first free one, lie
    above the free blocks and do not wrap past them. *)
Lemma chain_disjoint T fb es q data fin off :
  0 < T -> 0 <= off -> off + total q <= T ->
  Forall2 (ele_holds T data) es q -> chain T ((fb + off) mod T) es fin ->
  Forall (fun e => off <= (bblock e - fb) mod T /\ (bblock e - fb) mod T + blocks e <= T) es.
Proof.
  intros HT Hoff Hsum HF Hc. revert off Hoff Hsum Hc.
  induction HF as [|e f es q He HF IH]; intros off Hoff Hsum Hc; constructor.
  - destruct Hc as [-> _]. cbn in Hsum. rewrite (eh_blocks _ _ _ _ He).
    pose proof (frame_blocks_pos f). pose proof (total_nonneg q).
    rewrite Zminus_mod_idemp_l. replace (fb + off - fb) with off by lia.
    rewrite Z.mod_small; lia.
  - destruct Hc as [_ Hc]. cbn in Hsum. rewrite (eh_blocks _ _ _ _ He) in Hc.
    rewrite Z.add_mod_idemp_l, <- Z.add_assoc in Hc by lia.
    pose proof (frame_blocks_pos f).
    pose proof (IH (off + frame_blocks f) ltac:(lia) ltac:(lia) Hc) as Hes.
    revert Hes. apply Forall_impl. cbn. lia.
Qed.

Lemma ele_holds_frame T data data' fb len e f :
  0 < T -> ele_holds T data e f ->
  circ_frame (T * SHPOOL_BLOCK_SIZE) data data' (fb * SHPOOL_BLOCK_SIZE) len ->
  len <= (bblock e - fb) mod T * SHPOOL_BLOCK_SIZE -> (bblock e - fb) mod T + blocks e <= T ->
  ele_holds T data' e f.
Proof.
  intros HT [Hn Hf Hl Hb Hd] Hfr Hlen Hfit.
  pose proof (nblocks_bound (zlen (f_data f))).
  split; try done. unfold SHPOOL_BLOCK_SIZE, frame_blocks in *.
  eapply circ_holds_frame; [lia|done|done|..];
    rewrite <- Z.mul_sub_distr_r, Z.mul_mod_distr_r by lia; lia.
Qed.
End Facts.

(** ** The operations on blocks *)

(** [h'] differs from [h] only in what releasing elements changes. *)
Definition same_meta (h h' : SHPOOL_HEAD) : Prop :=
  h' = set_eles (eles h') (set_fblocks (fblocks h') (set_count (count h') (set_head (head h') h))).

(** [h'] is [h] after a frame was added: the tail has moved by one. *)
Definition added_meta (h h' : SHPOOL_HEAD) : Prop :=
  tail h' = NewerEle (tail h) /\ users h' = users h /\ tblocks h' = tblocks h /\
  h_num h' = i32 (h_num h + 1) /\ last_usr_no h' = last_usr_no h.

Lemma added_meta_same h h1 h2 : added_meta h h1 -> same_meta h1 h2 -> added_meta h h2.
Proof. unfold added_meta. intros H ->. by destruct h1, h2. Qed.

Lemma same_meta_added h h1 h2 : same_meta h h1 -> added_meta h1 h2 -> added_meta h h2.
Proof. unfold added_meta. intros -> H. by destruct h, h1. Qed.

Section Blocks.
Implicit Types (h : SHPOOL_HEAD) (data : list Z) (es : list SHPOOL_ELE) (q : list frame).

Lemma same_meta_refl h : same_meta h h.
Proof. by destruct h. Qed.

Lemma same_meta_trans h1 h2 h3 : same_meta h1 h2 -> same_meta h2 h3 -> same_meta h1 h3.
Proof. unfold same_meta. destruct h1, h2, h3; cbn. intros [=] [=]. by subst. Qed.

Lemma FreeHeadEle_spec h data e es f q :
  pool_wf h data (e :: es) (f :: q) ->
  exists h', FreeHeadEle h = Some (frame_blocks f, h') /\ pool_wf h' data es q /\
    fblocks h' = fblocks h + frame_blocks f /\ count h' = count h - 1 /\ same_meta h h'.
Proof.
  intros [HT Hsize Heles Hhead Hcount Htail Hes Hlive Hfb Hchain Hfbl Htot HF].
  apply Forall2_cons_1 in HF as [He HF]. cbn in Hes.
  assert (Hg : geti (eles h) (head h) = Some e) by (by eapply circ_holds_head).
  unfold FreeHeadEle. rewrite Hg. cbn.
  rewrite seti_Some by lia. cbn.
  eexists; split; [by rewrite (eh_blocks _ _ _ _ He)|].
  split_and!; try done.
  pose proof (eh_blocks _ _ _ _ He). pose proof (frame_blocks_pos f).
  destruct Hchain as [Hbb Hchain]. cbn in Htot.
  split; cbn; try done; try lia.
  - by rewrite length_insert.
  - rewrite NewerEle_mod by done. apply Z.mod_pos_bound. unfold SHPOOL_MAX_ELE; lia.
  - rewrite NewerEle_mod, Htail by done. rewrite Z.add_mod_idemp_l by (unfold SHPOOL_MAX_ELE; lia).
    f_equal. lia.
  - rewrite NewerEle_mod by done.
    eapply (circ_holds_cons max_ele_pos); [done|lia|done|].
    apply seti_Some. lia.
  - rewrite Z.add_mod_idemp_l in Hchain by lia.
    rewrite <- Z.add_assoc in Hchain. congruence.
Qed.

Lemma FreeBlocks_loop_spec fuel need h data es q :
  pool_wf h data es q -> (length q < fuel)%nat ->
  exists rc h', FreeBlocks_loop fuel (fblocks h) need h = Some (rc, h') /\ same_meta h h' /\
    match evict need (fblocks h) q with
    | Some q' => (exists es', pool_wf h' data es' q') /\ rc = fblocks h' /\ need <= rc /\
                 count h' <= count h
    | None => rc = - ENOMEM /\ pool_wf h' data [] []
    end.
Proof.
  revert fuel h es. induction q as [|f q IH]; intros fuel h es Hwf Hfuel;
    (destruct fuel as [|fuel]; [cbn in Hfuel; lia|]).
  - pose proof (wf_frames _ _ _ _ Hwf) as HF. apply Forall2_nil_inv_r in HF as ->.
    pose proof (wf_es _ _ _ _ Hwf) as Hc. cbn in Hc. cbn.
    destruct (Z.ltb_spec (fblocks h) need).
    + rewrite <- Hc. cbn. eauto 10 using same_meta_refl.
    + exists (fblocks h), h. split_and!; eauto using same_meta_refl; lia.
  - pose proof (wf_frames _ _ _ _ Hwf) as HF.
    apply Forall2_cons_inv_r in HF as (e & es' & _ & _ & ->).
    pose proof (wf_es _ _ _ _ Hwf) as Hc. cbn [length] in Hc. cbn [FreeBlocks_loop evict].
    destruct (Z.ltb_spec (fblocks h) need).
    + destruct (Z.ltb_spec 0 (count h)); [|lia].
      apply FreeHeadEle_spec in Hwf as (h1 & -> & Hwf & Hfb & Hcnt & Hs). cbn.
      rewrite <- Hfb. cbn in Hfuel.
      destruct (IH fuel h1 es' Hwf ltac:(lia)) as (rc & h' & -> & Hs' & Hm).
      exists rc, h'. split_and!; [done|by eapply same_meta_trans|].
      destruct (evict need (fblocks h1) q); [|done].
      destruct Hm as (? & ? & ? & ?). split_and!; eauto; lia.
    + exists (fblocks h), h. split_and!; eauto using same_meta_refl; lia.
Qed.

Lemma wf_total_q h data es q : pool_wf h data es q -> fblocks h = tblocks h - total q.
Proof.
  intros Hwf. pose proof (wf_total _ _ _ _ Hwf).
  rewrite (blocks_of_total _ _ _ _ (wf_frames _ _ _ _ Hwf)) in *. lia.
Qed.

Lemma MShmPoolReqBlocks_spec need h data es q :
  pool_wf h data es q -> 0 < need ->
  exists rc h', MShmPoolReqBlocks need h = Some (rc, h') /\
    match (if need <? tblocks h - total q then Some q
           else evict (need * 2) (tblocks h - total q) q) with
    | Some q' => rc = fbstart h /\ exists h1 es', same_meta h h1 /\ pool_wf h1 data es' q' /\
                   need < fblocks h1 /\ count h1 <= count h /\
                   h' = set_fbstart ((fbstart h + need) mod tblocks h) h1
    | None => rc = - ENOMEM /\ same_meta h h' /\ pool_wf h' data [] []
    end.
Proof.
  intros Hwf Hneed. rewrite <- (wf_total_q _ _ _ _ Hwf).
  pose proof (wf_T _ _ _ _ Hwf). pose proof (wf_fbstart _ _ _ _ Hwf).
  unfold MShmPoolReqBlocks. destruct (Z.ltb_spec need (fblocks h)).
  - cbn. eexists _, _; split; [done|]. split; [done|].
    exists h, es. rewrite Z.rem_mod_nonneg by lia.
    split_and!; eauto using same_meta_refl; lia.
  - pose proof (Forall2_length (wf_frames _ _ _ _ Hwf)).
    pose proof (wf_es _ _ _ _ Hwf).
    destruct (FreeBlocks_loop_spec (S (Z.to_nat (count h))) (need * 2) h data es q Hwf)
      as (rc & h1 & Hl & Hs & Hm); [lia|].
    unfold FreeBlocks. rewrite Hl. cbn.
    destruct (evict (need * 2) (fblocks h) q) as [q'|].
    + destruct Hm as ([es' Hwf'] & -> & ? & ?). destruct (Z.ltb_spec 0 (fblocks h1)); [|lia].
      eexists _, _; split; [done|].
      assert (fbstart h1 = fbstart h /\ tblocks h1 = tblocks h) as [-> ->].
      { rewrite Hs. by destruct h, h1. }
      split; [done|]. exists h1, es'. rewrite Z.rem_mod_nonneg by lia.
      split_and!; eauto; lia.
    + destruct Hm as [-> Hwf']. eexists _, _; split; [reflexivity|]. eauto.
Qed.

Lemma InsertData2Ele_spec ele buf h data :
  0 < tblocks h -> tblocks h * SHPOOL_BLOCK_SIZE <= zlen data ->
  0 <= bblock ele < tblocks h -> zlen buf <= tblocks h * SHPOOL_BLOCK_SIZE ->
  exists data',
    InsertData2Ele ele buf h data =
      Some ({| e_num := e_num ele; e_userflag := e_userflag ele; datalen := zlen buf;
               blocks := blocks ele; bblock := bblock ele; eblock := eblock ele |},
            set_send_bytes (u32 (send_bytes h + zlen buf))
              (set_fblocks (fblocks h - blocks ele) (set_count (count h + 1) h)), data') /\
    circ_holds (tblocks h * SHPOOL_BLOCK_SIZE) data' (bblock ele * SHPOOL_BLOCK_SIZE) buf /\
    circ_frame (tblocks h * SHPOOL_BLOCK_SIZE) data data' (bblock ele * SHPOOL_BLOCK_SIZE) (zlen buf).
Proof.
  intros HT Hsize Hb Hlen.
  destruct (circ_write_ok (N := tblocks h * SHPOOL_BLOCK_SIZE) ltac:(unfold SHPOOL_BLOCK_SIZE; lia)
              data (bblock ele * SHPOOL_BLOCK_SIZE) buf) as (data' & Hw & Hh & Hf);
    [unfold SHPOOL_BLOCK_SIZE in *; lia..|].
  rewrite <- Z.mul_sub_distr_r in Hw.
  unfold InsertData2Ele. cbn. rewrite Hw. cbn. eauto.
Qed.

Lemma put_tail_spec h data es q flag buf :
  let f := {| f_num := i32 (h_num h + 1); f_flag := flag; f_data := buf |} in
  let q' := q ++ [f] in
  pool_wf h data es q -> frame_blocks f < fblocks h -> count h < SHPOOL_MAX_ELE ->
  exists h' data',
    put_tail (fbstart h) (frame_blocks f) flag buf
      (set_fbstart ((fbstart h + frame_blocks f) mod tblocks h) h) data = Some (h', data') /\
    pool_rep h' data' (if zlen q' =? SHPOOL_MAX_ELE then drop 1 q' else q') /\
    added_meta h h'.
Proof.
  intros f q' Hwf Hneed Hcnt. pose proof (frame_blocks_pos f) as Hpos.
  pose proof (nblocks_bound (zlen buf) ltac:(lia)) as Hnb.
  change (nblocks (zlen buf)) with (frame_blocks f) in Hnb.
  pose proof (wf_total_q _ _ _ _ Hwf) as Hfree. pose proof (total_nonneg q).
  pose proof Hwf as [HT Hsize Heles Hhead Hcount Htail Hes Hlive Hfb Hchain Hfbl Htot HF].
  unfold put_tail. cbn.
  set (ele0 := {| e_num := _ |}).
  set (h0 := set_h_num _ _).
  destruct (InsertData2Ele_spec ele0 buf h0 data) as (data' & -> & Hh & Hf);
    [done|done|done|cbn; unfold SHPOOL_BLOCK_SIZE in *; lia|]. cbn.
  rewrite seti_Some by (rewrite Htail, Heles; apply Z.mod_pos_bound, max_ele_pos). cbn.
  set (ele := {| e_num := _ |}).
  set (h1 := set_tail _ _).
  assert (Hwf1 : pool_wf h1 data' (es ++ [ele]) q').
  { assert (Htot' : blocks_of (es ++ [ele]) = blocks_of es + frame_blocks f).
    { clear -es. induction es as [|e es IH]; cbn; [lia|]. rewrite IH. lia. }
    split; cbn; try done; try lia.
    - destruct Hf as [-> _]. done.
    - by rewrite length_insert.
    - rewrite NewerEle_mod, Htail by (rewrite Htail; apply Z.mod_pos_bound, max_ele_pos).
      rewrite Z.add_mod_idemp_l by done. f_equal. lia.
    - rewrite length_app. cbn. lia.
    - eapply circ_holds_snoc; [done|lia|].
      rewrite Hes, <- Htail. apply seti_Some.
      rewrite Htail, Heles. apply Z.mod_pos_bound, max_ele_pos.
    - apply Z.mod_pos_bound. lia.
    - rewrite Z.add_mod_idemp_l by lia.
      replace (fbstart h + frame_blocks f + (fblocks h - frame_blocks f))
        with (fbstart h + fblocks h) by lia.
      apply chain_snoc; done.
    - apply Forall2_app; [|constructor; [|constructor]].
      + pose proof (chain_disjoint (tblocks h) (fbstart h) es q data (fbstart h) (fblocks h)
          HT Hfbl ltac:(lia) HF Hchain) as Hd.
        clear -HT HF Hf Hd Hnb Hneed.
        induction HF as [|e f' es q He HF IH]; constructor.
        * apply Forall_cons_1 in Hd as [Hd _].
          eapply ele_holds_frame; [done|exact He|exact Hf|..]; cbn;
            unfold SHPOOL_BLOCK_SIZE in *; lia.
        * apply IH. by apply Forall_cons_1 in Hd as [_ Hd].
      + by split. }
  assert (Hq' : zlen q' = count h + 1).
  { pose proof (wf_es _ _ _ _ Hwf1) as H1.
    by rewrite (Forall2_length (wf_frames _ _ _ _ Hwf1)) in H1. }
  pose proof (wf_tail _ _ _ _ Hwf1) as Htail1. cbn in Htail1.
  rewrite Htail1, ring_full by lia. rewrite Hq'.
  destruct (Z.eqb_spec (count h + 1) SHPOOL_MAX_ELE) as [Hfull|Hnot].
  - destruct (es ++ [ele]) as [|e1 es1] eqn:Heq; [by destruct es|].
    destruct q' as [|f1 q1] eqn:Heq'; [by destruct q|].
    apply FreeHeadEle_spec in Hwf1 as (h2 & -> & Hwf2 & Hfb2 & Hc2 & Hm2). cbn.
    cbn in Hfb2, Hc2. pose proof (frame_blocks_pos f1).
    eexists _, _; split; [done|]. split; [split_and!; [eauto|lia..]|].
    eapply added_meta_same; [|exact Hm2]. by destruct h.
  - cbn. eexists _, _; split; [done|]. split; [split_and!; [eauto|cbn; lia..]|].
    by destruct h.
Qed.
End Blocks.
