(* ===== verification/ShmPoolSpec.v ===== *)
(** * Correctness of the shared frame pool

    The exported functions of mshmpool.c against the abstract pool of
    [ShmPoolInv]: adding a frame is [pool_push], a read returns the frame under
    the reader's cursor, and a reader that keeps up receives every frame once and
    in order.  Then the reader table, cursor moves and creation. *)

From S2P Require Import Prelude Memory Sem ShmPool ShmPoolInv.

(** The pool between two calls: represents [q], and nobody holds the lock. *)
Definition pool_idle (w : world) (q : list frame) : Prop :=
  pool_rep (ph w) (eledata w) q /\ mlock w = 1.

Section Frame.
Implicit Types (h : SHPOOL_HEAD) (w : world) (q : list frame).

Lemma pool_rep_users h data q us : pool_rep h data q -> pool_rep (set_users us h) data q.
Proof. intros ([es []] & ? & ?). split_and!; try done. by exists es. Qed.

Lemma pool_rep_maxsem h data q m : pool_rep h data q -> pool_rep (set_maxsem m h) data q.
Proof. intros ([es []] & ? & ?). split_and!; try done. by exists es. Qed.

Lemma pool_rep_last_usr_no h data q n : pool_rep h data q -> pool_rep (set_last_usr_no n h) data q.
Proof. intros ([es []] & ? & ?). split_and!; try done. by exists es. Qed.

Lemma pool_rep_pinfo h data q i : pool_rep h data q -> pool_rep (set_pinfo i h) data q.
Proof. intros ([es []] & ? & ?). split; [by exists es | done]. Qed.

Lemma pool_rep_SemAddAll w q :
  pool_rep (ph w) (eledata w) q ->
  pool_rep (ph (SemAddAll w)) (eledata (SemAddAll w)) q /\ mlock (SemAddAll w) = mlock w.
Proof.
  intros H. unfold SemAddAll. destruct (sem_add_users _ _ _ _) as [us s]. cbn.
  split; [|done]. by apply pool_rep_users, pool_rep_maxsem.
Qed.

Lemma pool_rep_T h data q : pool_rep h data q -> 0 < tblocks h.
Proof. intros ([es []] & _). done. Qed.

Lemma pool_rep_count h data q : pool_rep h data q -> count h = zlen q.
Proof.
  intros ([es Hwf] & _). rewrite <- (wf_es _ _ _ _ Hwf).
  by rewrite (Forall2_length (wf_frames _ _ _ _ Hwf)).
Qed.

Lemma pool_rep_total h data q : pool_rep h data q -> 0 < tblocks h - total q.
Proof. intros ([es Hwf] & _ & ?). rewrite <- (wf_total_q _ _ _ _ Hwf). lia. Qed.

Lemma add_locked_spec w q b buflen flag :
  pool_rep (ph w) (eledata w) q -> 0 <= buflen <= zlen b ->
  let f := {| f_num := i32 (h_num (ph w) + 1); f_flag := flag;
              f_data := take (Z.to_nat buflen) b |} in
  exists rc h data, add_locked b buflen flag w = Ret rc (set_eledata data (set_ph h w)) /\
    match pool_push (tblocks (ph w)) f q with
    | Some q' => rc = 0 /\ pool_rep h data q' /\ added_meta (ph w) h
    | None => rc = - ENOMEM /\ data = eledata w /\ pool_rep h data [] /\
              users h = users (ph w)
    end.
Proof.
  intros ([es Hwf] & Hcnt & Hfree) Hlen f.
  assert (Hfl : zlen (f_data f) = buflen) by (cbn; rewrite length_take; lia).
  pose proof (frame_blocks_pos f) as Hpos.
  destruct (MShmPoolReqBlocks_spec (frame_blocks f) _ _ _ _ Hwf ltac:(lia))
    as (fstartb & h' & Hreq & Hm).
  assert (Hnb : Z.quot (buflen - 1) SHPOOL_BLOCK_SIZE + 1 = frame_blocks f).
  { unfold frame_blocks, nblocks. by rewrite Hfl. }
  unfold add_locked, pool_push. rewrite Hnb, Hreq.
  destruct (if frame_blocks f <? _ then _ else _) as [q1|].
  - destruct Hm as (-> & h1 & es1 & Hs & Hwf1 & Hneed & Hcnt1 & ->).
    pose proof (wf_fbstart _ _ _ _ Hwf).
    destruct (Z.ltb_spec (fbstart (ph w)) 0); [lia|].
    unfold mem_read. rewrite (proj2 (Z.leb_le 0 0)), (proj2 (Z.leb_le 0 buflen)) by lia.
    rewrite (proj2 (Z.leb_le _ _)) by lia. cbn [andb mbind option_bind]. rewrite drop_0.
    assert (Hmeta : fbstart h1 = fbstart (ph w) /\ tblocks h1 = tblocks (ph w) /\
                    h_num h1 = h_num (ph w)).
    { rewrite Hs. by destruct (ph w), h1. }
    destruct Hmeta as (Hm1 & Hm2 & Hm3).
    destruct (put_tail_spec h1 (eledata w) es1 q1 flag (take (Z.to_nat buflen) b))
      as (h2 & d2 & Hput & Hrep & Hadd); [done|by rewrite Hm3|lia|].
    rewrite Hm3 in Hput, Hrep. fold f in Hput, Hrep. rewrite Hm1, Hm2 in Hput.
    rewrite Hput. eexists _, _, _; split; [done|]. cbn. split_and!; [done|done|].
    by eapply same_meta_added.
  - destruct Hm as (-> & Hs & Hwf'). change (- ENOMEM <? 0) with true.
    exists (- ENOMEM), h', (eledata w). split; [by destruct w|].
    split_and!; [done|done| |rewrite Hs; by destruct (ph w), h'].
    pose proof (wf_es _ _ _ _ Hwf') as Hc. pose proof (wf_total _ _ _ _ Hwf') as Ht.
    pose proof (wf_T _ _ _ _ Hwf'). cbn in Hc, Ht.
    split_and!; [eauto|rewrite <- Hc; done|lia].
Qed.

Lemma evict_None need fb q : evict need fb q = None <-> fb + total q < need.
Proof.
  revert fb. induction q as [|f q IH]; intros fb; cbn.
  - zcase; split; [lia|done|done|lia].
  - zcase.
    + rewrite IH. lia.
    + pose proof (frame_blocks_pos f). pose proof (total_nonneg q). split; [done|lia].
Qed.

(** What is left after an eviction is a suffix of the pool with room to spare,
    and no shorter than needed: keeping one more frame would not leave it. *)
Lemma evict_Some need fb q q' :
  evict need fb q = Some q' ->
  exists gone, q = gone ++ q' /\ need <= fb + total gone /\
    (forall g, gone <> [] -> removelast gone = g -> fb + total g < need).
Proof.
  revert fb. induction q as [|f q IH]; intros fb; cbn.
  - zcase. intros [= <-]. exists []. split_and!; [done|cbn; lia|done].
  - zcase.
    + intros (gone & -> & Hn & Hmin)%IH. exists (f :: gone). split_and!; [done|cbn; lia|].
      intros g _ <-. destruct gone as [|f' gone]; [cbn; lia|].
      specialize (Hmin _ ltac:(done) eq_refl). cbn [removelast total] in *. lia.
    + intros [= <-]. exists []. split_and!; [done|cbn; lia|done].
Qed.

Lemma pool_push_None T f q :
  pool_push T f q = None <-> T - total q <= frame_blocks f /\ T < 2 * frame_blocks f.
Proof.
  unfold pool_push. zcase; cbn; [split; [done|lia]|].
  destruct (evict _ _ _) eqn:He; cbn.
  - split; [done|]. intros [_ ?]. exfalso.
    assert (Hn : evict (frame_blocks f * 2) (T - total q) q <> None) by congruence.
    apply Hn, evict_None. lia.
  - apply evict_None in He. split; [lia|done].
Qed.

(** The new frame is the last one, after frames the pool held before. *)
Lemma pool_push_split T f q q' :
  pool_push T f q = Some q' -> zlen q < SHPOOL_MAX_ELE ->
  exists gone kept, q = gone ++ kept /\ q' = kept ++ [f] /\
    (frame_blocks f < T - total q -> gone <> [] ->
       zlen q + 1 = SHPOOL_MAX_ELE /\ zlen gone = 1) /\
    (T - total q <= frame_blocks f ->
       T - total q + total (removelast gone) < 2 * frame_blocks f
         <= T - total q + total gone).
Proof.
  unfold pool_push. intros H Hq. pose proof (frame_blocks_pos f) as Hpos.
  destruct (Z.ltb_spec (frame_blocks f) (T - total q)) as [Hroom|Hroom]; cbn in H.
  - rewrite length_app in H. cbn in H.
    destruct (Z.eqb_spec (Z.of_nat (length q + 1)) SHPOOL_MAX_ELE) as [Hfull|]; injection H as <-.
    + destruct q as [|f0 q]; [by cbn in Hfull|]. exists [f0], q.
      cbn in *. split_and!; try done; lia.
    + exists [], q. split_and!; try done; lia.
  - destruct (evict _ _ _) as [q1|] eqn:He; [|done].
    apply evict_Some in He as (gone & -> & Hlow & Hmin).
    destruct gone as [|f0 gone]; [cbn in Hlow, Hroom; lia|].
    specialize (Hmin _ ltac:(done) eq_refl). rewrite length_app in Hq. cbn in Hq.
    exists (f0 :: gone), q1. injection H as <-. rewrite length_app. cbn [length].
    destruct (Z.eqb_spec (Z.of_nat (length q1 + 1)) SHPOOL_MAX_ELE); [lia|].
    split_and!; try done; lia.
Qed.
End Frame.

(** ** Readers' semaphores *)

(** What one added frame does to a reader whose semaphore is [s]. *)
Definition sem_after (u : SHPOOL_USR) (s : Z) : Z :=
  if valid u =? 0 then s else if s <? SEMVMX then s + 1 else s.

Definition user_after (max : Z) (u : SHPOOL_USR) (s : Z) : SHPOOL_USR :=
  if valid u =? 0 then u
  else if (max <? sem_after u s) || (s =? SEMVMX) then set_valid 0 u else u.

Section Readers.
Implicit Types (us : list SHPOOL_USR) (u : SHPOOL_USR) (i s max : Z).

Lemma sem_add_user_spec i u max sems s :
  sems_ok sems -> geti sems i = Some s ->
  sem_add_user i u max sems =
    (user_after max u s, if valid u =? 0 then sems else <[Z.to_nat i := sem_after u s]> sems).
Proof.
  intros Hok Hs. pose proof (sems_ok_geti _ _ _ Hok Hs) as Hr.
  pose proof (geti_Some _ _ _ Hs) as Hi.
  unfold sem_add_user, user_after, sem_after. destruct (Z.eqb_spec (valid u) 0); [done|].
  rewrite (SemAdd_spec _ _ _ Hok Hs). destruct (Z.ltb_spec s SEMVMX) as [Hlt|Hge].
  - unfold SemGetVal. rewrite geti_to_nat, list_lookup_insert_eq by lia. cbn.
    rewrite (proj2 (Z.eqb_neq s SEMVMX)), orb_false_r by lia. done.
  - assert (s = SEMVMX) as -> by lia. cbn. unfold SemGetVal. rewrite Hs. cbn.
    rewrite orb_true_r. rewrite list_insert_id by (by rewrite <- geti_to_nat by lia).
    f_equal. destruct (max <? SEMVMX); [|done]. by destruct u.
Qed.

Lemma sem_after_range u s : 0 <= s <= SEMVMX -> 0 <= sem_after u s <= SEMVMX.
Proof. unfold sem_after. zcase. Qed.

Lemma sem_add_user_frame i u max sems :
  sems_ok sems -> 0 <= i < zlen sems ->
  sems_ok (snd (sem_add_user i u max sems)) /\
  length (snd (sem_add_user i u max sems)) = length sems /\
  forall j, j <> i -> geti (snd (sem_add_user i u max sems)) j = geti sems j.
Proof.
  intros Hok Hi. destruct (geti_is_Some sems i Hi) as [s Hs].
  rewrite (sem_add_user_spec _ _ _ _ _ Hok Hs). cbn.
  destruct (valid u =? 0); [done|]. split_and!.
  - apply sems_ok_insert; [done|]. apply sem_after_range. by eapply sems_ok_geti.
  - apply length_insert.
  - intros j Hj. unfold geti. zcase; [|done]. apply list_lookup_insert_ne. lia.
Qed.

Lemma sem_add_users_spec i0 us max sems :
  sems_ok sems -> 0 <= i0 -> i0 + zlen us <= zlen sems ->
  let r := sem_add_users i0 us max sems in
  sems_ok (snd r) /\ length (fst r) = length us /\ length (snd r) = length sems /\
  (forall j, j < i0 -> geti (snd r) j = geti sems j) /\
  (forall k u s, us !! k = Some u -> geti sems (i0 + Z.of_nat k) = Some s ->
     fst r !! k = Some (user_after max u s) /\
     geti (snd r) (i0 + Z.of_nat k) = Some (sem_after u s)).
Proof.
  revert i0 sems. induction us as [|u us IH]; intros i0 sems Hok Hi0 Hlen; cbn in *.
  { split_and!; try done. }
  destruct (sem_add_user_frame i0 u max sems Hok ltac:(lia)) as (Hok1 & Hl1 & Hne).
  destruct (geti_is_Some sems i0 ltac:(lia)) as [s0 Hs0].
  rewrite (sem_add_user_spec _ _ _ _ _ Hok Hs0) in Hok1, Hl1, Hne |- *. cbn in Hok1, Hl1, Hne.
  set (sems1 := if valid u =? 0 then _ else _) in *.
  specialize (IH (i0 + 1) sems1 Hok1 ltac:(lia) ltac:(lia)). cbn zeta in IH.
  destruct (sem_add_users (i0 + 1) us max sems1) as [us2 sems2]. cbn in IH |- *.
  destruct IH as (Hok2 & Hl2 & Hl2' & Hlow & Hk). split_and!; [done|lia|lia|..].
  - intros j Hj. rewrite Hlow, Hne by lia. done.
  - intros [|k] u' s Hu' Hs'; cbn in *.
    + injection Hu' as <-. rewrite Z.add_0_r in *. rewrite Hs0 in Hs'. injection Hs' as <-.
      split; [done|]. rewrite Hlow by lia. unfold sems1, sem_after.
      destruct (valid u =? 0); [done|].
      rewrite geti_to_nat by lia. apply list_lookup_insert_eq. lia.
    + replace (i0 + Z.of_nat (S k)) with (i0 + 1 + Z.of_nat k) in * by lia.
      apply Hk; [done|]. rewrite Hne by lia. done.
Qed.
End Readers.

(** ** Reading a live element *)

Definition frame_packet (f : frame) : packet :=
  {| pk_data := f_data f; pk_seq := f_num f; pk_flag := f_flag f |}.

Section Reading.
Implicit Types (h : SHPOOL_HEAD) (w : world) (q : list frame) (f : frame).

Lemma chain_bblock T s es fin e :
  0 <= s < T -> chain T s es fin -> e ∈ es -> 0 <= bblock e < T.
Proof.
  revert s. induction es as [|e' es IH]; intros s Hs Hc Hin; [by apply not_elem_of_nil in Hin|].
  destruct Hc as [Hb Hc]. apply elem_of_cons in Hin as [->|Hin]; [lia|].
  eapply IH; [|exact Hc|exact Hin]. apply Z.mod_pos_bound. lia.
Qed.

Lemma SaveEle2Buf_spec h data q k f buflen :
  pool_rep h data q -> q !! k = Some f ->
  SaveEle2Buf buflen ((head h + Z.of_nat k) mod SHPOOL_MAX_ELE) h data =
    Some (if buflen <? zlen (f_data f) then (- ENOMEM, None)
          else (zlen (f_data f), Some (frame_packet f))).
Proof.
  intros ([es Hwf] & _ & _) Hk.
  pose proof Hwf as [HT Hsize Heles Hhead Hcount Htail Hes Hlive Hfb Hchain Hfbl Htot HF].
  destruct (Forall2_lookup_r _ _ _ _ _ HF Hk) as (e & He & Hh).
  pose proof (lookup_lt_Some _ _ _ He).
  unfold SaveEle2Buf. rewrite Hlive, geti_of_nat, He by lia. cbn.
  rewrite (eh_len _ _ _ _ Hh). destruct (Z.ltb_spec buflen (zlen (f_data f))); [done|].
  assert (Hb : 0 <= bblock e < tblocks h).
  { eapply chain_bblock; [|exact Hchain|by eapply list_elem_of_lookup_2].
    apply Z.mod_pos_bound. lia. }
  pose proof (chain_disjoint (tblocks h) (fbstart h) es q data (fbstart h) (fblocks h)
                HT Hfbl ltac:(rewrite (wf_total_q _ _ _ _ Hwf); lia) HF Hchain) as Hd.
  rewrite Forall_lookup in Hd. destruct (Hd _ _ He) as [_ Hfit].
  pose proof (Z.mod_pos_bound (bblock e - fbstart h) (tblocks h) HT).
  pose proof (nblocks_bound (zlen (f_data f)) ltac:(lia)) as Hnb.
  rewrite (eh_blocks _ _ _ _ Hh) in Hfit. unfold frame_blocks in Hfit.
  rewrite Z.mul_sub_distr_r.
  assert (HN : 0 < tblocks h * SHPOOL_BLOCK_SIZE) by (unfold SHPOOL_BLOCK_SIZE; lia).
  rewrite (circ_read_ok HN data (bblock e * SHPOOL_BLOCK_SIZE) (f_data f) (eh_data _ _ _ _ Hh))
    by (unfold SHPOOL_BLOCK_SIZE in *; nia).
  cbn. by rewrite (eh_num _ _ _ _ Hh), (eh_flag _ _ _ _ Hh).
Qed.

Lemma not_restarted h data q k f u :
  pool_rep h data q -> q !! k = Some f ->
  curele u = (head h + Z.of_nat k) mod SHPOOL_MAX_ELE -> pool_restarted u h = false.
Proof.
  intros Hrep Hk Hc. pose proof (pool_rep_count _ _ _ Hrep).
  destruct Hrep as ([es Hwf] & Hcnt & _). pose proof (lookup_lt_Some _ _ _ Hk).
  unfold pool_restarted. destruct (Z.eqb_spec (head h) 0) as [Hh|]; [|done].
  rewrite Hh in Hc. rewrite (wf_tail _ _ _ _ Hwf), Hh, Hc.
  rewrite !Z.mod_small by lia. rewrite (proj2 (Z.leb_gt (0 + count h) _)) by lia.
  by rewrite andb_false_r.
Qed.

Lemma GetResource_spec p w q buflen u s k f :
  pool_idle w q -> sems_ok (sems w) -> mc p = true -> 0 <= buflen ->
  geti (users (ph w)) (userno p) = Some u -> geti (sems w) (userno p) = Some s -> 0 < s ->
  q !! k = Some f -> curele u = (head (ph w) + Z.of_nat k) mod SHPOOL_MAX_ELE ->
  let w1 := set_sems (<[Z.to_nat (userno p) := s - 1]> (sems w)) w in
  MShmPoolGetResource p buflen w =
    if buflen <? zlen (f_data f) then Ret (- ENOMEM, None) w1
    else Ret (zlen (f_data f), Some (frame_packet f))
           (set_ph (alter_user (set_curele (NewerEle (curele u))) (userno p) (ph w)) w1).
Proof.
  intros [Hrep Hlock] Hok Hmc Hbuf Hu Hs Hpos Hk Hc w1.
  unfold MShmPoolGetResource. destruct (Z.ltb_spec buflen 0); [lia|]. rewrite Hmc. cbn [negb].
  erewrite bind_ret; [|unfold sem_req; rewrite (SemReq_spec _ _ _ Hok Hs);
    destruct (Z.ltb_spec 0 s); [reflexivity|lia]].
  change (0 <? 0) with false. cbn iota.
  erewrite bind_ret; [|unfold lock; cbn; rewrite Hlock; reflexivity].
  erewrite bind_ret; [|unfold get_user; cbn; rewrite Hu; reflexivity].
  erewrite bind_ret; [|reflexivity]. cbn [ph set_mlock set_sems].
  rewrite (not_restarted _ _ _ _ _ _ Hrep Hk Hc).
  erewrite bind_ret; [|reflexivity].
  erewrite bind_ret; [|unfold get_user; cbn; rewrite Hu; reflexivity].
  rewrite Hc. erewrite bind_ret; [|unfold save_ele; cbn;
    rewrite (SaveEle2Buf_spec _ _ _ _ _ buflen Hrep Hk); reflexivity].
  destruct (Z.ltb_spec buflen (zlen (f_data f))).
  - subst w1. clear -Hlock. destruct w; cbn in *. by subst.
  - cbn [fst]. destruct (Z.leb_spec 0 (zlen (f_data f))); [|lia].
    erewrite bind_ret; [|unfold set_user; cbn; rewrite Hu; reflexivity].
    subst w1. clear -Hlock. destruct w; cbn in *. by subst.
Qed.
End Reading.

(** ** Adding *)

Definition new_frame (w : world) (b : list Z) (buflen flag : Z) : frame :=
  {| f_num := i32 (h_num (ph w) + 1); f_flag := flag; f_data := take (Z.to_nat buflen) b |}.

Section Adding.
Implicit Types (h : SHPOOL_HEAD) (w : world) (q : list frame).

Lemma SemAddAll_mlock w v : SemAddAll (set_mlock v w) = set_mlock v (SemAddAll w).
Proof. unfold SemAddAll. cbn. by destruct (sem_add_users _ _ _ _). Qed.

Lemma set_mlock_id w v : mlock w = v -> set_mlock v w = w.
Proof. intros <-. by destruct w. Qed.

Lemma AddResource_spec p w q b buflen flag :
  pool_idle w q -> 0 <= buflen <= zlen b ->
  match pool_push (tblocks (ph w)) (new_frame w b buflen flag) q with
  | Some q' => exists h data,
      MShmPoolAddResource p (Some b) buflen flag w =
        Ret 0 (SemAddAll (set_eledata data (set_ph h w))) /\
      pool_rep h data q' /\ added_meta (ph w) h
  | None => exists h,
      MShmPoolAddResource p (Some b) buflen flag w = Ret (- ENOMEM) (set_ph h w) /\
      pool_rep h (eledata w) [] /\ users h = users (ph w)
  end.
Proof.
  intros [Hrep Hlock] Hlen. unfold MShmPoolAddResource.
  destruct (Z.ltb_spec buflen 0); [lia|].
  assert (H1 : lock w = Ret 0 (set_mlock 0 w)) by (unfold lock; by rewrite Hlock).
  rewrite (bind_ret _ _ _ _ _ H1). clear H1.
  destruct (add_locked_spec (set_mlock 0 w) q b buflen flag Hrep Hlen)
    as (rc & h & data & Hadd & Hm).
  rewrite (bind_ret _ _ _ _ _ Hadd). clear Hadd. unfold new_frame. cbn in Hm.
  destruct (pool_push _ _ _) as [q'|].
  - destruct Hm as (-> & Hrep' & Hmeta). exists h, data. split; [|done].
    change (0 =? 0) with true. unfold unlock. cbv [mbind M_bind modify mret M_ret].
    change (set_eledata data (set_ph h (set_mlock 0 w)))
      with (set_mlock 0 (set_eledata data (set_ph h w))).
    rewrite SemAddAll_mlock. cbn [mlock set_mlock]. f_equal.
    etrans; [|apply (set_mlock_id _ 1)]; [done|]. unfold SemAddAll. cbn. by destruct (sem_add_users _ _ _ _).
  - destruct Hm as (-> & -> & Hrep' & Hu). exists h. split; [|done].
    cbn. f_equal. clear -Hlock. destruct w; cbn in *. by subst.
Qed.

(** The readers after a frame was added, slot by slot. *)
Lemma SemAddAll_user w (i : Z) (u : SHPOOL_USR) (s : Z) :
  sems_ok (sems w) -> zlen (users (ph w)) <= zlen (sems w) ->
  geti (users (ph w)) i = Some u -> geti (sems w) i = Some s ->
  let max := maxsem (ph (SemAddAll w)) in
  geti (users (ph (SemAddAll w))) i = Some (user_after max u s) /\
  geti (sems (SemAddAll w)) i = Some (sem_after u s).
Proof.
  intros Hok Hl Hu Hs. unfold SemAddAll. cbn.
  set (max := if newmaxsem w =? -1 then _ else _).
  pose proof (sem_add_users_spec 0 (users (ph w)) max (sems w) Hok ltac:(lia) ltac:(lia)) as Hsp.
  cbn zeta in Hsp. destruct (sem_add_users _ _ _ _) as [us ss]. cbn in *.
  destruct Hsp as (_ & _ & _ & _ & Hk). pose proof (geti_Some _ _ _ Hu).
  rewrite geti_to_nat in Hu by lia.
  destruct (Hk _ _ s Hu) as [H1 H2]; [by rewrite Z2Nat.id by lia|].
  rewrite Z2Nat.id in H2 by lia. by rewrite geti_to_nat by lia.
Qed.

Lemma SemAddAll_sems w :
  sems_ok (sems w) -> zlen (users (ph w)) <= zlen (sems w) ->
  sems_ok (sems (SemAddAll w)) /\ length (sems (SemAddAll w)) = length (sems w) /\
  length (users (ph (SemAddAll w))) = length (users (ph w)).
Proof.
  intros Hok Hl. unfold SemAddAll. set (max := if newmaxsem w =? -1 then _ else _).
  pose proof (sem_add_users_spec 0 (users (ph w)) max (sems w) Hok ltac:(lia) ltac:(lia)) as Hsp.
  cbn zeta in Hsp. cbn. destruct (sem_add_users _ _ _ _) as [us ss]. cbn in *. by destruct Hsp as (? & ? & ? & _).
Qed.

Lemma SemAddAll_ph w :
  let h := ph (SemAddAll w) in
  head h = head (ph w) /\ tail h = tail (ph w) /\ tblocks h = tblocks (ph w) /\
  h_num h = h_num (ph w) /\ count h = count (ph w) /\
  maxsem h = (if newmaxsem w =? -1 then oldmaxsem w else newmaxsem w) /\
  newmaxsem (SemAddAll w) = newmaxsem w /\ oldmaxsem (SemAddAll w) = oldmaxsem w /\
  eledata (SemAddAll w) = eledata w.
Proof. unfold SemAddAll. by destruct (sem_add_users _ _ _ _). Qed.
End Adding.
