(* ===== verification/ShmPoolThms.v ===== *)
(** * The promises of the shared frame pool

    What a producer and a reader may rely on: adding refines [pool_push] and
    evicts no more than it must, a reader that keeps up gets every frame once and
    in order, a slow one is dropped, the reader table hands out free slots, cursor
    moves stay within the live frames, and a created pool is empty. *)

From S2P Require Import Prelude Memory Sem ShmPool ShmPoolInv ShmPoolSpec.

(** ** A concrete pool *)

Definition empty_head (T : Z) : SHPOOL_HEAD :=
  {| maxsem := 100; h_num := 0; tblocks := T; fblocks := T; fbstart := 0; boffset := 126976;
     count := 0; head := 0; tail := 0; semkey := 0; semid := 0; last_usr_no := -1;
     send_bytes := 0; pinfo := []; eles := replicate 5000 zero_shpool_ele;
     users := replicate 8 zero_usr |}.

(** A pool of [T] blocks that was just created. *)
Definition empty_world (T : Z) : world :=
  {| ph := empty_head T; eledata := replicate (Z.to_nat (T * SHPOOL_BLOCK_SIZE)) 0;
     sems := replicate 8 0; mlock := 1; newmaxsem := -1; oldmaxsem := 100; places := 0 |}.

(** One with a reader in slot 0. *)
Definition reader_world (T : Z) : world :=
  set_ph (alter_user (new_user 0 0 77 0) 0 (empty_head T)) (empty_world T).

Lemma empty_rep h data :
  0 < tblocks h -> tblocks h * SHPOOL_BLOCK_SIZE <= zlen data -> zlen (eles h) = SHPOOL_MAX_ELE ->
  head h = 0 -> tail h = 0 -> count h = 0 -> fblocks h = tblocks h -> 0 <= fbstart h < tblocks h ->
  pool_rep h data [].
Proof.
  intros ? ? ? Hh Ht Hc Hf ?. split; [|rewrite Hc, Hf; done].
  exists []. split; try done; rewrite ?Hh, ?Ht, ?Hc, ?Hf; cbn; try done; try lia.
  - intros i Hi. cbn in Hi. lia.
  - rewrite Z.add_comm, <- Z.add_mod_idemp_l, Z_mod_same_full, Z.add_0_l by lia.
    apply Z.mod_small. lia.
Qed.

Lemma empty_world_idle T : 0 < T -> pool_idle (empty_world T) [].
Proof.
  intros. split; [|done]. apply empty_rep; cbn; try done; try lia.
  rewrite length_replicate. unfold SHPOOL_BLOCK_SIZE. lia.
Qed.

Lemma reader_world_idle T : 0 < T -> pool_idle (reader_world T) [].
Proof.
  intros. split; [|done]. apply pool_rep_users. by apply empty_world_idle.
Qed.

Lemma zero_sems_ok n : sems_ok (replicate n 0).
Proof. apply Forall_replicate. done. Qed.

#[export] Hint Resolve empty_world_idle reader_world_idle zero_sems_ok : cmem.

(** ** Adding frames *)

Section Producer.
Implicit Types (w : world) (q : list frame) (b : list Z).

(** C1. Adding a frame is [pool_push] on the frames the pool holds.  The call
    returns, with the lock released; on 0 the pool holds the new list, the
    frame's bytes, flag and the next number at its end; on [-ENOMEM] the pool is
    empty and no reader was touched. *)
Theorem AddResource_refines p w q b buflen flag :
  pool_idle w q -> sems_ok (sems w) -> zlen (users (ph w)) <= zlen (sems w) ->
  0 <= buflen <= zlen b ->
  exists rc w', MShmPoolAddResource p (Some b) buflen flag w = Ret rc w' /\
    match pool_push (tblocks (ph w)) (new_frame w b buflen flag) q with
    | Some q' => rc = 0 /\ pool_idle w' q' /\ sems_ok (sems w') /\
                 h_num (ph w') = i32 (h_num (ph w) + 1)
    | None => rc = - ENOMEM /\ pool_idle w' [] /\
              users (ph w') = users (ph w) /\ sems w' = sems w
    end.
Proof.
  intros Hidle Hok Hl Hlen.
  pose proof (AddResource_spec p w q b buflen flag Hidle Hlen) as H.
  destruct (pool_push _ _ _) as [q'|].
  - destruct H as (h & data & -> & Hrep & Ht & Hu & _ & Hn & _). eexists _, _; split; [done|].
    set (w1 := set_eledata data (set_ph h w)).
    destruct (pool_rep_SemAddAll w1 q' Hrep) as [Hr Hm].
    split_and!; [done|split; [done|rewrite Hm; apply Hidle]|..].
    + apply SemAddAll_sems; cbn; [done|by rewrite Hu].
    + destruct (SemAddAll_ph w1) as (_ & _ & _ & -> & _). done.
  - destruct H as (h & -> & Hrep & Hu). eexists _, _; split; [done|].
    split_and!; try done. split; [done|apply Hidle].
Qed.

Lemma AddResource_refines_witness :
  exists rc w', MShmPoolAddResource {| p_userflag := 1; userno := 0; mc := true; php := true |}
      (Some [7; 8; 9]) 2 5 (empty_world 4) = Ret rc w' /\ rc = 0 /\
      pool_idle w' [{| f_num := 1; f_flag := 5; f_data := [7; 8] |}].
Proof.
  destruct (AddResource_refines {| p_userflag := 1; userno := 0; mc := true; php := true |}
    (empty_world 4) [] [7; 8; 9] 2 5) as (rc & w' & H & Hm);
    [apply empty_world_idle; lia|apply zero_sems_ok|cbn; lia|cbn; lia|].
  exists rc, w'. split; [exact H|]. split; apply Hm.
Defined.

(** C30. The only frames the pool refuses are the large ones: those that do not
    fit in the free blocks and need more than half of all blocks (an eviction
    aims at twice the frame's blocks).  The refusal empties the pool. *)
Theorem AddResource_rejects p w q b buflen flag :
  pool_idle w q -> 0 <= buflen <= zlen b ->
  (exists w', MShmPoolAddResource p (Some b) buflen flag w = Ret (- ENOMEM) w' /\ pool_idle w' [])
  <-> tblocks (ph w) - total q <= nblocks buflen /\ tblocks (ph w) < 2 * nblocks buflen.
Proof.
  intros Hidle Hlen.
  assert (Hn : frame_blocks (new_frame w b buflen flag) = nblocks buflen).
  { unfold frame_blocks. f_equal. cbn. rewrite length_take. lia. }
  rewrite <- Hn, <- pool_push_None.
  pose proof (AddResource_spec p w q b buflen flag Hidle Hlen) as H.
  destruct (pool_push _ _ _) as [q'|].
  - destruct H as (h & data & -> & _). split; [by intros (w' & [=] & _)|done].
  - destruct H as (h & -> & Hrep & _). split; [done|]. intros _.
    eexists; split; [done|]. split; [done|apply Hidle].
Qed.

Lemma AddResource_rejects_witness :
  exists w', MShmPoolAddResource {| p_userflag := 1; userno := 0; mc := true; php := true |}
      (Some (replicate (Z.to_nat 2048) 1)) 2048 5 (empty_world 4) = Ret (- ENOMEM) w' /\
      pool_idle w' [].
Proof.
  refine (proj2 (AddResource_rejects {| p_userflag := 1; userno := 0; mc := true; php := true |}
    (empty_world 4) [] (replicate (Z.to_nat 2048) 1) 2048 5 _ _) _).
  - apply empty_world_idle; lia.
  - rewrite length_replicate. lia.
  - vm_compute. split; [discriminate|reflexivity].
Defined.

(** An accepted frame is the newest, after the frames it kept, which are the
    youngest of those the pool held.  With room for it nothing is lost, except
    the oldest frame of a ring that becomes full; without, the eviction stops as
    soon as twice its blocks are free. *)
Theorem AddResource_keeps p w q b buflen flag :
  let need := nblocks buflen in
  let free := tblocks (ph w) - total q in
  pool_idle w q -> 0 <= buflen <= zlen b -> ~ (free <= need /\ tblocks (ph w) < 2 * need) ->
  exists gone kept w', MShmPoolAddResource p (Some b) buflen flag w = Ret 0 w' /\
    q = gone ++ kept /\ pool_idle w' (kept ++ [new_frame w b buflen flag]) /\
    (need < free -> gone <> [] -> zlen q + 1 = SHPOOL_MAX_ELE /\ zlen gone = 1) /\
    (free <= need -> free + total (removelast gone) < 2 * need <= free + total gone).
Proof.
  intros need free Hidle Hlen Hfit.
  assert (Hn : frame_blocks (new_frame w b buflen flag) = need).
  { unfold frame_blocks. f_equal. cbn. rewrite length_take. lia. }
  pose proof (AddResource_spec p w q b buflen flag Hidle Hlen) as H.
  destruct (pool_push _ _ _) as [q'|] eqn:Hpush;
    [|exfalso; apply Hfit; rewrite <- Hn; by apply pool_push_None].
  destruct H as (h & data & Hret & Hrep & _).
  assert (Hq : zlen q < SHPOOL_MAX_ELE).
  { destruct Hidle as [Hr _]. pose proof (pool_rep_count _ _ _ Hr). by destruct Hr as (_ & ? & _); lia. }
  destruct (pool_push_split _ _ _ _ Hpush Hq) as (gone & kept & -> & -> & Hroom & Hevict).
  exists gone, kept, (SemAddAll (set_eledata data (set_ph h w))).
  rewrite <- Hn. split_and!; try done.
  destruct (pool_rep_SemAddAll (set_eledata data (set_ph h w)) _ Hrep) as [Hr Hm].
  split; [done|]. rewrite Hm. apply Hidle.
Qed.

Lemma AddResource_keeps_witness :
  exists gone kept w', MShmPoolAddResource {| p_userflag := 1; userno := 0; mc := true; php := true |}
      (Some [1; 2]) 2 5 (empty_world 4) = Ret 0 w' /\ [] = gone ++ kept /\
      pool_idle w' (kept ++ [new_frame (empty_world 4) [1; 2] 2 5]).
Proof.
  destruct (AddResource_keeps {| p_userflag := 1; userno := 0; mc := true; php := true |}
    (empty_world 4) [] [1; 2] 2 5) as (g & k & w' & H1 & H2 & H3 & _);
    [apply empty_world_idle; lia|cbn; lia|vm_compute; intros [H _]; by apply H|].
  exists g, k, w'. split; [exact H1|]. split; [exact H2|exact H3].
Defined.
End Producer.
