(* ===== verification/ShmPoolStream.v ===== *)
(** * Readers of the shared frame pool

    A reader that keeps up (its backlog stays within the limit, and no eviction
    reaches a frame it has not read) receives every frame exactly once and in
    order; a reader whose backlog passes the limit is dropped. *)

From S2P Require Import Prelude Memory Sem ShmPool ShmPoolInv ShmPoolSpec ShmPoolThms.

(** The backlog [SemAddAll] allows. *)
Definition limit (w : world) : Z := if newmaxsem w =? -1 then oldmaxsem w else newmaxsem w.

(** Reader [i] has read the pool's frames up to [unread]. *)
Definition reader_sync (w : world) (i : Z) (q unread : list frame) : Prop :=
  pool_idle w q /\ sems_ok (sems w) /\ zlen (users (ph w)) <= zlen (sems w) /\
  exists gone u, q = gone ++ unread /\ geti (users (ph w)) i = Some u /\ valid u <> 0 /\
    curele u = (tail (ph w) - zlen unread) mod SHPOOL_MAX_ELE /\
    geti (sems w) i = Some (zlen unread).

Section Step.
Implicit Types (w : world) (q : list frame) (f : frame).

Lemma pool_rep_tail h data q :
  pool_rep h data q ->
  tail h = (head h + zlen q) mod SHPOOL_MAX_ELE /\ 0 <= head h < SHPOOL_MAX_ELE /\
  zlen q < SHPOOL_MAX_ELE.
Proof.
  intros H. pose proof (pool_rep_count _ _ _ H) as <-. destruct H as ([es Hwf] & ? & _).
  split_and!; try apply Hwf; try lia; apply (wf_head _ _ _ _ Hwf).
Qed.

(** A cursor counted back from the tail is an index into the frames. *)
Lemma cursor_index h data gone unread :
  pool_rep h data (gone ++ unread) ->
  (tail h - zlen unread) mod SHPOOL_MAX_ELE = (head h + zlen gone) mod SHPOOL_MAX_ELE.
Proof.
  intros (-> & _ & _)%pool_rep_tail. rewrite Zminus_mod_idemp_l, length_app. f_equal. lia.
Qed.

Lemma suffix_kept {A} (gone unread g kept : list A) :
  gone ++ unread = g ++ kept -> (length unread <= length kept)%nat ->
  exists g', kept = g' ++ unread.
Proof.
  intros Heq Hl. pose proof (f_equal length Heq) as Hlen. rewrite !length_app in Hlen.
  exists (drop (length g) gone).
  rewrite <- drop_app_le, Heq, drop_app_length by lia. done.
Qed.

Lemma reader_sync_add p w i q unread b buflen flag q' :
  let f := new_frame w b buflen flag in
  reader_sync w i q unread -> 0 <= buflen <= zlen b ->
  pool_push (tblocks (ph w)) f q = Some q' ->
  zlen unread + 1 <= limit w -> (length unread + 1 <= length q')%nat ->
  exists w', MShmPoolAddResource p (Some b) buflen flag w = Ret 0 w' /\
    reader_sync w' i q' (unread ++ [f]) /\ limit w' = limit w /\
    tblocks (ph w') = tblocks (ph w) /\ h_num (ph w') = i32 (h_num (ph w) + 1).
Proof.
  intros f (Hidle & Hok & Hl & gone & u & -> & Hu & Hv & Hc & Hs) Hlen Hpush Hlim Hroom.
  pose proof (AddResource_spec p w _ b buflen flag Hidle Hlen) as H.
  fold f in H. rewrite Hpush in H. destruct H as (h & data & -> & Hrep & Hadd).
  destruct Hadd as (Ht & Hus & HT & Hn & _).
  set (w1 := set_eledata data (set_ph h w)) in *. exists (SemAddAll w1). split; [done|].
  destruct (pool_rep_tail _ _ _ (proj1 Hidle)) as (Htail & _ & Hq).
  assert (Hok1 : sems_ok (sems w1)) by done.
  assert (Hl1 : zlen (users (ph w1)) <= zlen (sems w1)) by (cbn; by rewrite Hus).
  destruct (SemAddAll_ph w1) as (_ & Etail & ET & En & _ & Emax & Enew & Eold & _).
  destruct (SemAddAll_sems w1 Hok1 Hl1) as (Hok2 & Els & Elu).
  destruct (pool_rep_SemAddAll w1 q' Hrep) as [Hrep2 Hm2].
  assert (Hu1 : geti (users (ph w1)) i = Some u) by (cbn; by rewrite Hus).
  destruct (SemAddAll_user w1 i u _ Hok1 Hl1 Hu1 Hs) as [Hu2 Hs2].
  rewrite length_app in Hq.
  assert (Hafter : sem_after u (zlen unread) = zlen unread + 1).
  { unfold sem_after, SEMVMX, SHPOOL_MAX_ELE in *. zcase. }
  assert (Huser : user_after (maxsem (ph (SemAddAll w1))) u (zlen unread) = u).
  { unfold user_after. rewrite Hafter, Emax. change (newmaxsem w1) with (newmaxsem w).
    change (oldmaxsem w1) with (oldmaxsem w). fold (limit w).
    unfold SEMVMX, SHPOOL_MAX_ELE in *. by zcase. }
  split_and!; [|unfold limit; by rewrite Enew, Eold|by rewrite ET|by rewrite En].
  split_and!; [split; [done|rewrite Hm2; apply Hidle]|done|lia|].
  destruct (pool_push_split _ _ _ _ Hpush ltac:(rewrite length_app; lia))
    as (g & kept & Hsplit & -> & _).
  destruct (suffix_kept _ _ _ _ Hsplit) as [g' ->];
    [rewrite !length_app in Hroom; cbn in Hroom; lia|].
  exists g', u. rewrite Huser in Hu2. rewrite Hafter in Hs2.
  split_and!; [by rewrite app_assoc|done|done| |rewrite Hs2, length_app; cbn; f_equal; lia].
  rewrite Hc, Etail, length_app. cbn [w1 ph set_eledata set_ph]. rewrite Ht.
  rewrite NewerEle_mod by (rewrite Htail; apply Z.mod_pos_bound, max_ele_pos).
  rewrite Zminus_mod_idemp_l. f_equal. cbn. lia.
Qed.

Lemma reader_sync_get p w q f unread buflen :
  reader_sync w (userno p) q (f :: unread) -> mc p = true -> zlen (f_data f) <= buflen ->
  exists w', MShmPoolGetResource p buflen w =
      Ret (zlen (f_data f), Some (frame_packet f)) w' /\
    reader_sync w' (userno p) q unread /\ limit w' = limit w /\
    tblocks (ph w') = tblocks (ph w) /\ h_num (ph w') = h_num (ph w).
Proof.
  intros (Hidle & Hok & Hl & gone & u & -> & Hu & Hv & Hc & Hs) Hmc Hb.
  assert (Hk : (gone ++ f :: unread) !! length gone = Some f) by by apply list_lookup_middle.
  pose proof (cursor_index _ _ _ _ (proj1 Hidle)) as Hcur. rewrite Hcur in Hc.
  rewrite (GetResource_spec p w _ buflen u _ _ f Hidle Hok Hmc ltac:(lia) Hu Hs
    ltac:(cbn; lia) Hk Hc).
  destruct (Z.ltb_spec buflen (zlen (f_data f))); [lia|].
  eexists; split; [done|].
  pose proof (geti_Some _ _ _ Hu) as Hi. pose proof (geti_Some _ _ _ Hs).
  pose proof (sems_ok_geti _ _ _ Hok Hs) as Hr. cbn [length] in Hr.
  split; [|done]. split_and!.
  - split; [|apply Hidle]. cbn. by apply pool_rep_users, Hidle.
  - cbn. apply sems_ok_insert; [done|]. lia.
  - cbn. by rewrite length_insert, length_alter.
  - exists (gone ++ [f]), (set_curele (NewerEle (curele u)) u). cbn.
    split_and!; [by rewrite <- app_assoc| |done| |].
    + rewrite geti_to_nat in Hu |- * by lia. rewrite list_lookup_alter_eq, Hu. done.
    + rewrite Hc, NewerEle_mod by (apply Z.mod_pos_bound, max_ele_pos).
      rewrite <- Hcur, Zplus_mod_idemp_l. f_equal. cbn. lia.
    + rewrite geti_to_nat by lia. rewrite list_lookup_insert_eq by lia. f_equal. cbn. lia.
Qed.
End Step.

(** ** Runs of a producer and a reader *)

Inductive pool_event := Add (b : list Z) (flag : Z) | Get (buflen : Z).

(** The calls of one run, and the packets the reader received. *)
Fixpoint run_events (pp pr : MSHM_POOL) (evs : list pool_event) : M world (list packet) :=
  match evs with
  | [] => mret []
  | Add b flag :: evs =>
      MShmPoolAddResource pp (Some b) (zlen b) flag;;
      run_events pp pr evs
  | Get n :: evs =>
      r ← MShmPoolGetResource pr n;
      out ← run_events pp pr evs;
      mret (option_list (snd r) ++ out)
  end.

(** What the run is meant to do: the pool's frames, those not read yet, and the
    number of the last frame. *)
Record stream := { st_pool : list frame; st_unread : list frame; st_num : Z }.

Definition next_frame (num : Z) (b : list Z) (flag : Z) : frame :=
  {| f_num := i32 (num + 1); f_flag := flag; f_data := b |}.

(** [None] when the reader does not keep up: the frame is refused, or takes the
    backlog over [max], or evicts an unread frame, or the reader asks an empty
    backlog or offers too small a buffer. *)
Fixpoint run_stream (T max : Z) (evs : list pool_event) (st : stream) : option (list packet * stream) :=
  match evs with
  | [] => Some ([], st)
  | Add b flag :: evs =>
      let f := next_frame (st_num st) b flag in
      q' ← pool_push T f (st_pool st);
      if (zlen (st_unread st) + 1 <=? max) && (zlen (st_unread st) + 1 <=? zlen q')
      then run_stream T max evs
             {| st_pool := q'; st_unread := st_unread st ++ [f]; st_num := f_num f |}
      else None
  | Get n :: evs =>
      match st_unread st with
      | f :: unread =>
          if zlen (f_data f) <=? n then
            '(out, st') ← run_stream T max evs
                {| st_pool := st_pool st; st_unread := unread; st_num := st_num st |};
            Some (frame_packet f :: out, st')
          else None
      | [] => None
      end
  end.

(** The frames a run adds, in order. *)
Fixpoint added (num : Z) (evs : list pool_event) : list frame :=
  match evs with
  | [] => []
  | Add b flag :: evs => next_frame num b flag :: added (i32 (num + 1)) evs
  | Get _ :: evs => added num evs
  end.

Lemma run_stream_exact T max evs st out st' :
  run_stream T max evs st = Some (out, st') ->
  out ++ (frame_packet <$> st_unread st') = frame_packet <$> st_unread st ++ added (st_num st) evs.
Proof.
  revert st out. induction evs as [|[b flag|n] evs IH]; intros st out H; cbn in H |- *.
  - injection H as <- <-. by rewrite app_nil_r.
  - inv_opt H. destruct (_ && _); [|done]. apply IH in H. rewrite H. cbn.
    by rewrite <- app_assoc.
  - destruct (st_unread st) as [|f unread]; [done|]. destruct (_ <=? _); [|done].
    apply bind_Some in H as ([out1 st1] & H & [= <- <-]). cbn. f_equal. by apply IH in H.
Qed.

Lemma run_stream_refines pp pr evs w st out st' :
  reader_sync w (userno pr) (st_pool st) (st_unread st) -> h_num (ph w) = st_num st ->
  mc pr = true -> run_stream (tblocks (ph w)) (limit w) evs st = Some (out, st') ->
  exists w', run_events pp pr evs w = Ret out w' /\
    reader_sync w' (userno pr) (st_pool st') (st_unread st').
Proof.
  revert w st out. induction evs as [|[b flag|n] evs IH]; intros w st out Hs Hn Hmc H; cbn in H |- *.
  - injection H as <- <-. eauto.
  - apply bind_Some in H as (q' & Hpush & H).
    destruct (_ && _) eqn:Hc; [|done]. apply andb_true_iff in Hc as [Hlim Hroom].
    apply Z.leb_le in Hlim, Hroom.
    assert (Hf : new_frame w b (zlen b) flag = next_frame (st_num st) b flag).
    { unfold new_frame, next_frame. by rewrite Hn, Nat2Z.id, firstn_all. }
    rewrite <- Hf in Hpush.
    destruct (reader_sync_add pp w _ _ _ b (zlen b) flag q' Hs ltac:(lia) Hpush Hlim ltac:(lia))
      as (w1 & Hret & Hs1 & El & ET & En).
    rewrite (bind_ret _ _ _ _ _ Hret). rewrite <- El, <- ET in H. rewrite Hf in Hs1.
    eapply (IH w1); [|..|exact H]; [done|by rewrite En, Hn|done].
  - destruct (st_unread st) as [|f unread] eqn:Hun; [done|].
    destruct (Z.leb_spec (zlen (f_data f)) n); [|done].
    apply bind_Some in H as ([out1 st1] & H & [= <- <-]).
    destruct (reader_sync_get pr w _ f unread n Hs Hmc ltac:(lia))
      as (w1 & Hret & Hs1 & El & ET & En).
    rewrite (bind_ret _ _ _ _ _ Hret). rewrite <- El, <- ET in H.
    edestruct (IH w1) as (w2 & Hret2 & Hs2); [|..|exact H|]; [done|by rewrite En|done|].
    rewrite (bind_ret _ _ _ _ _ Hret2). cbn. eauto.
Qed.

(** C2. Any run of additions and reads in which the reader keeps up: every call
    returns, and the packets received are the unread frames followed by the added
    ones, each once and in order, up to those still unread at the end. *)
Theorem reader_stream pp pr evs w st out st' :
  reader_sync w (userno pr) (st_pool st) (st_unread st) -> h_num (ph w) = st_num st ->
  mc pr = true -> run_stream (tblocks (ph w)) (limit w) evs st = Some (out, st') ->
  exists w', run_events pp pr evs w = Ret out w' /\
    reader_sync w' (userno pr) (st_pool st') (st_unread st') /\
    out ++ (frame_packet <$> st_unread st') =
      frame_packet <$> st_unread st ++ added (st_num st) evs.
Proof.
  intros Hs Hn Hmc H. destruct (run_stream_refines pp pr evs w st out st') as (w' & Hr & Hs'); try done.
  exists w'. split_and!; [done|done|]. by eapply run_stream_exact.
Qed.

Definition producer : MSHM_POOL := {| p_userflag := 1; userno := 0; mc := true; php := true |}.
Definition reader0 : MSHM_POOL := {| p_userflag := 0; userno := 0; mc := true; php := true |}.

Lemma reader_world_sync T : 0 < T -> reader_sync (reader_world T) 0 [] [].
Proof.
  intros. split_and!; [by apply reader_world_idle|apply zero_sems_ok|done|].
  by eexists [], _.
Qed.

Definition demo_events : list pool_event :=
  [Add [1; 2] 9; Add [3] 9; Get 10; Add (replicate 600 4) 8; Get 10; Add [5] 9; Get 1000; Get 3].

Lemma reader_stream_witness :
  exists w', run_events producer reader0 demo_events (reader_world 6) =
    Ret [{| pk_data := [1; 2]; pk_seq := 1; pk_flag := 9 |}; {| pk_data := [3]; pk_seq := 2; pk_flag := 9 |};
         {| pk_data := replicate 600 4; pk_seq := 3; pk_flag := 8 |};
         {| pk_data := [5]; pk_seq := 4; pk_flag := 9 |}] w'.
Proof.
  assert (Hrun : exists st', run_stream 6 100 demo_events
      {| st_pool := []; st_unread := []; st_num := 0 |} = Some
    ([{| pk_data := [1; 2]; pk_seq := 1; pk_flag := 9 |}; {| pk_data := [3]; pk_seq := 2; pk_flag := 9 |};
      {| pk_data := replicate 600 4; pk_seq := 3; pk_flag := 8 |};
      {| pk_data := [5]; pk_seq := 4; pk_flag := 9 |}], st'))
    by (eexists; vm_compute; reflexivity).
  destruct Hrun as [st' Hrun].
  destruct (reader_stream producer reader0 demo_events (reader_world 6)
    {| st_pool := []; st_unread := []; st_num := 0 |} _ st'
    (reader_world_sync 6 ltac:(lia)) eq_refl eq_refl Hrun) as (w' & H & _).
  exists w'. exact H.
Defined.

(** ** One read *)

(** C29. A read by a reader with a backlog never sleeps and returns with the lock
    released: the frame under its cursor, whole, and the cursor moves on; or
    [-ENOMEM] when the buffer is too small, and the cursor stays.  The semaphore
    goes down in both cases.  A reader without a backlog sleeps, and nothing has
    changed. *)
Theorem GetResource_returns p w q unread buflen :
  reader_sync w (userno p) q unread -> mc p = true -> 0 <= buflen ->
  match unread with
  | [] => MShmPoolGetResource p buflen w = Blocked w
  | f :: rest => exists w',
      MShmPoolGetResource p buflen w =
        Ret (if buflen <? zlen (f_data f) then (- ENOMEM, None)
             else (zlen (f_data f), Some (frame_packet f))) w' /\
      pool_idle w' q /\ geti (sems w') (userno p) = Some (zlen rest) /\
      exists u', geti (users (ph w')) (userno p) = Some u' /\
        curele u' = (tail (ph w') - (if buflen <? zlen (f_data f) then zlen unread else zlen rest))
                      mod SHPOOL_MAX_ELE
  end.
Proof.
  intros Hs Hmc Hb. destruct unread as [|f rest].
  - destruct Hs as (Hidle & Hok & Hl & gone & u & -> & Hu & Hv & Hc & Hs).
    unfold MShmPoolGetResource. destruct (Z.ltb_spec buflen 0); [lia|]. rewrite Hmc. cbn [negb].
    cbv [mbind M_bind]. unfold sem_req. by rewrite (SemReq_spec _ _ _ Hok Hs).
  - destruct (Z.ltb_spec buflen (zlen (f_data f))).
    + destruct Hs as (Hidle & Hok & Hl & gone & u & -> & Hu & Hv & Hc & Hs).
      pose proof (cursor_index _ _ _ _ (proj1 Hidle)) as Hcur.
      rewrite (GetResource_spec p w _ buflen u _ (length gone) f Hidle Hok Hmc Hb Hu Hs
        ltac:(cbn; lia)) by (first [by apply list_lookup_middle|by rewrite Hc]).
      rewrite (proj2 (Z.ltb_lt _ _)) by done. eexists; split; [done|]. split_and!; [done| |eauto].
      pose proof (geti_Some _ _ _ Hs). cbn [sems set_sems].
      rewrite geti_to_nat by lia. rewrite list_lookup_insert_eq by lia. f_equal. cbn. lia.
    + destruct (reader_sync_get p w q f rest buflen Hs Hmc ltac:(lia))
        as (w' & -> & (Hidle & _ & _ & gone & u & -> & Hu & _ & Hc & Hs') & _).
      exists w'. split_and!; try done. eauto.
Qed.

Lemma GetResource_returns_witness : exists w', 
  MShmPoolGetResource reader0 4 (reader_world 6) = Blocked w'.
Proof.
  exists (reader_world 6).
  apply (GetResource_returns reader0 (reader_world 6) [] [] 4
    (reader_world_sync 6 ltac:(lia)) eq_refl). lia.
Defined.

(** C31. Every accepted frame raises the semaphore of every valid reader, and a
    reader is dropped exactly when that takes its backlog over the limit (or the
    kernel refuses the increment); no cursor moves. *)
Theorem AddResource_readers p w q b buflen flag i u s w' :
  pool_idle w q -> sems_ok (sems w) -> zlen (users (ph w)) <= zlen (sems w) ->
  0 <= buflen <= zlen b -> geti (users (ph w)) i = Some u -> geti (sems w) i = Some s ->
  MShmPoolAddResource p (Some b) buflen flag w = Ret 0 w' ->
  exists u', geti (users (ph w')) i = Some u' /\ curele u' = curele u /\
    (valid u' <> 0 <-> valid u <> 0 /\ s + 1 <= limit w /\ s < SEMVMX) /\
    (valid u <> 0 -> s < SEMVMX -> geti (sems w') i = Some (s + 1)).
Proof.
  intros Hidle Hok Hl Hlen Hu Hs Hret.
  pose proof (AddResource_spec p w q b buflen flag Hidle Hlen) as H.
  destruct (pool_push _ _ _) as [q'|].
  2: { destruct H as (h & He & _). rewrite He in Hret. done. }
  destruct H as (h & data & He & _ & Hadd). rewrite He in Hret. injection Hret as <-.
  destruct Hadd as (_ & Hus & _). set (w1 := set_eledata data (set_ph h w)).
  destruct (SemAddAll_user w1 i u s) as [Hu2 Hs2]; try (cbn; by rewrite ?Hus).
  destruct (SemAddAll_ph w1) as (_ & _ & _ & _ & _ & Emax & _).
  change (maxsem _ = _) with (maxsem (ph (SemAddAll w1)) = limit w) in Emax. rewrite Emax in Hu2.
  pose proof (sems_ok_geti _ _ _ Hok Hs) as Hr.
  eexists; split; [exact Hu2|]. rewrite Hs2. unfold user_after, sem_after. split_and!.
  - destruct (valid u =? 0); [done|]. by destruct (_ || _).
  - destruct (Z.eqb_spec (valid u) 0); [lia|]. destruct (Z.ltb_spec s SEMVMX).
    + rewrite (proj2 (Z.eqb_neq s SEMVMX)), orb_false_r by lia.
      destruct (Z.ltb_spec (limit w) (s + 1)); cbn; lia.
    + rewrite (proj2 (Z.eqb_eq s SEMVMX)), orb_true_r by lia. cbn. lia.
  - intros Hv Hlt. by rewrite (proj2 (Z.eqb_neq _ _) Hv), (proj2 (Z.ltb_lt _ _) Hlt).
Qed.

Lemma AddResource_readers_witness :
  exists w' u', MShmPoolAddResource producer (Some [1; 2]) 2 9 (reader_world 6) = Ret 0 w' /\
    geti (users (ph w')) 0 = Some u' /\ valid u' <> 0.
Proof.
  destruct (AddResource_spec producer (reader_world 6) [] [1; 2] 2 9) as (h & data & Hret & _);
    [apply reader_world_idle; lia|cbn; lia|].
  destruct (AddResource_readers producer (reader_world 6) [] [1; 2] 2 9 0
    (new_user 0 0 77 0 zero_usr) 0 _ (reader_world_idle 6 ltac:(lia)) (zero_sems_ok 8)
    ltac:(done) ltac:(cbn; lia) eq_refl eq_refl Hret) as (u' & H1 & _ & H2 & _).
  eexists _, u'. split; [exact Hret|]. split; [exact H1|].
  apply H2. split; [done|]. vm_compute. split; [discriminate|reflexivity].
Defined.
