(* ===== verification/ShmPoolPacket.v ===== *)
(** * MShmPoolGetPacket

    The packet interface follows the cursor alone: a reader behind the tail reads
    without touching its semaphore, a reader at the tail sleeps on it until the
    producer adds a frame. *)

From S2P Require Import Prelude Memory Sem ShmPool ShmPoolInv ShmPoolSpec ShmPoolThms ShmPoolStream.

(** A reader slot with its semaphore. *)
Definition reader_slot (w : world) (i : Z) (u : SHPOOL_USR) (s : Z) : Prop :=
  sems_ok (sems w) /\ zlen (users (ph w)) <= zlen (sems w) /\
  geti (users (ph w)) i = Some u /\ geti (sems w) i = Some s.

Section Cursor.
Implicit Types (h : SHPOOL_HEAD) (w : world) (q : list frame) (f : frame).

Lemma cursor_live h data q k :
  pool_rep h data q -> 0 <= k < zlen q ->
  (head h + k) mod SHPOOL_MAX_ELE <> tail h /\ tail h <> head h.
Proof.
  intros (-> & ? & ?)%pool_rep_tail Hk. unfold SHPOOL_MAX_ELE in *.
  rewrite !mod_wrap by lia. zcase.
Qed.

(** The test of [pool_restarted] on a reader that has read everything. *)
Lemma restarted_at_tail h data q u :
  pool_rep h data q -> curele u = tail h ->
  pool_restarted u h = (head h =? 0) && (zlen q <? 5).
Proof.
  intros (Ht & ? & ?)%pool_rep_tail Hc. unfold pool_restarted.
  rewrite Hc, (proj2 (Z.leb_le _ _)), andb_true_r by lia.
  destruct (Z.eqb_spec (head h) 0) as [Hh|]; [|done]. cbn [andb].
  assert (Htail : tail h = zlen q) by (rewrite Ht, Hh; apply Z.mod_small; lia).
  unfold MShmDistanceEle. rewrite Htail, Hh.
  replace (Z.abs _) with (zlen q); [done|]. destruct (Z.eqb_spec 0 (zlen q)); [lia|].
  rewrite (proj2 (Z.leb_le 0 (zlen q))) by lia. cbn. lia.
Qed.

Lemma not_restarted_below h u : curele u < tail h -> pool_restarted u h = false.
Proof.
  intros. unfold pool_restarted. rewrite (proj2 (Z.leb_gt _ _)), andb_false_r by lia. done.
Qed.

(** What remains of a read once the frame to read is known. *)
Lemma read_packet p w q k f buflen u :
  pool_idle w q -> geti (users (ph w)) (userno p) = Some u -> q !! k = Some f ->
  (lock;;
   r ← save_ele buflen ((head (ph w) + Z.of_nat k) mod SHPOOL_MAX_ELE);
   (if 0 <=? fst r
    then set_user (set_curele (NewerEle ((head (ph w) + Z.of_nat k) mod SHPOOL_MAX_ELE))) (userno p)
    else mret ());;
   unlock;; mret r) w =
  if buflen <? zlen (f_data f) then Ret (- ENOMEM, None) w
  else Ret (zlen (f_data f), Some (frame_packet f))
         (set_ph (alter_user (set_curele (NewerEle ((head (ph w) + Z.of_nat k) mod SHPOOL_MAX_ELE)))
                    (userno p) (ph w)) w).
Proof.
  intros [Hrep Hlock] Hu Hk.
  assert (H1 : lock w = Ret 0 (set_mlock 0 w)) by (unfold lock; by rewrite Hlock).
  rewrite (bind_ret _ _ _ _ _ H1). clear H1.
  erewrite bind_ret; [|unfold save_ele; cbn;
    rewrite (SaveEle2Buf_spec _ _ _ _ _ buflen Hrep Hk); reflexivity].
  destruct (Z.ltb_spec buflen (zlen (f_data f))).
  - clear -Hlock. cbn. f_equal. destruct w; cbn in *. by subst.
  - cbn [fst]. destruct (Z.leb_spec 0 (zlen (f_data f))); [|lia].
    erewrite bind_ret; [|unfold set_user; cbn; rewrite Hu; reflexivity].
    clear -Hlock. cbn. f_equal. destruct w; cbn in *. by subst.
Qed.

Lemma wait_live fuel p w q k cur :
  pool_rep (ph w) (eledata w) q -> 0 <= k < zlen q ->
  cur = (head (ph w) + k) mod SHPOOL_MAX_ELE ->
  get_packet_wait (S fuel) false p cur w = Ret (inl cur) w.
Proof.
  intros Hrep Hk ->. destruct (cursor_live _ _ _ _ Hrep Hk) as [H1 H2].
  cbn [get_packet_wait]. erewrite bind_ret; [|reflexivity]. rewrite orb_false_l.
  by rewrite (proj2 (Z.eqb_neq _ _) H1), (proj2 (Z.eqb_neq _ _) H2).
Qed.

(** One round inside the wait loop: the semaphore was raised. *)
Lemma wait_round fuel asleep p w u s :
  reader_slot w (userno p) u s -> 0 < s ->
  asleep || (tail (ph w) =? head (ph w)) || (curele u =? tail (ph w)) = true ->
  pool_restarted u (ph w) = false ->
  get_packet_wait (S fuel) asleep p (curele u) w =
    get_packet_wait fuel false p (curele u) (set_sems (<[Z.to_nat (userno p) := 0]> (sems w)) w).
Proof.
  intros (Hok & Hl & Hu & Hs) Hpos Hgo Hnr. cbn [get_packet_wait].
  erewrite bind_ret; [|reflexivity]. rewrite Hgo.
  pose proof (geti_Some _ _ _ Hs) as Hi.
  erewrite bind_ret; [|unfold sem_req; rewrite (SemReq_spec _ _ _ Hok Hs);
    destruct (Z.ltb_spec 0 s); [reflexivity|lia]].
  change (0 <? 0) with false. cbn iota.
  erewrite bind_ret; [|unfold sem_set, SemSetVal; cbn; rewrite seti_Some
    by (rewrite length_insert; lia); reflexivity].
  cbn [snd]. rewrite list_insert_insert_eq.
  erewrite bind_ret; [|unfold get_user; cbn; rewrite Hu; reflexivity].
  erewrite bind_ret; [|reflexivity]. cbn [ph set_sems]. rewrite Hnr.
  erewrite bind_ret; [|reflexivity].
  erewrite bind_ret; [|unfold get_user; cbn; rewrite Hu; reflexivity]. done.
Qed.

Lemma wait_sleep fuel p w u :
  reader_slot w (userno p) u 0 -> curele u = tail (ph w) ->
  get_packet_wait (S fuel) false p (curele u) w = Blocked w.
Proof.
  intros (Hok & Hl & Hu & Hs) Hc. cbn [get_packet_wait].
  erewrite bind_ret; [|reflexivity]. rewrite Hc, Z.eqb_refl, orb_true_r.
  cbv [mbind M_bind]. unfold sem_req. by rewrite (SemReq_spec _ _ _ Hok Hs).
Qed.

Lemma GetPacket_unfold asleep p w u buflen :
  0 <= buflen -> mc p = true -> geti (users (ph w)) (userno p) = Some u ->
  MShmPoolGetPacket asleep p buflen w =
    (c ← get_packet_wait 3 asleep p (curele u);
     match c with
     | inr rc => mret (rc, None)
     | inl cur =>
         lock;;
         r ← save_ele buflen cur;
         (if 0 <=? fst r then set_user (set_curele (NewerEle cur)) (userno p) else mret ());;
         unlock;;
         mret r
     end) w.
Proof.
  intros Hb Hmc Hu. unfold MShmPoolGetPacket. destruct (Z.ltb_spec buflen 0); [lia|].
  erewrite bind_ret; [|unfold get_user; rewrite Hu; reflexivity]. by rewrite Hmc.
Qed.

Lemma slot_sem0 w i u s :
  reader_slot w i u s -> reader_slot (set_sems (<[Z.to_nat i := 0]> (sems w)) w) i u 0.
Proof.
  intros (Hok & Hl & Hu & Hs). pose proof (geti_Some _ _ _ Hs). split_and!; cbn; try done.
  - by apply sems_ok_insert.
  - by rewrite length_insert.
  - rewrite geti_to_nat by lia. apply list_lookup_insert_eq. lia.
Qed.

(** One round that takes the reader for one of an earlier pool. *)
Lemma wait_rewind fuel p w u s :
  reader_slot w (userno p) u s -> 0 < s -> mlock w = 1 -> curele u = tail (ph w) ->
  pool_restarted u (ph w) = true ->
  get_packet_wait (S fuel) false p (curele u) w =
    get_packet_wait fuel false p (tail (ph w) - 1)
      (set_sems (<[Z.to_nat (userno p) := 0]> (sems w))
         (set_ph (alter_user (set_curele (tail (ph w) - 1)) (userno p) (ph w)) w)).
Proof.
  intros (Hok & Hl & Hu & Hs) Hpos Hlock Hc Hr. cbn [get_packet_wait].
  erewrite bind_ret; [|reflexivity]. rewrite Hc, Z.eqb_refl, orb_true_r.
  pose proof (geti_Some _ _ _ Hs) as Hi. pose proof (geti_Some _ _ _ Hu).
  erewrite bind_ret; [|unfold sem_req; rewrite (SemReq_spec _ _ _ Hok Hs);
    destruct (Z.ltb_spec 0 s); [reflexivity|lia]].
  change (0 <? 0) with false. cbn iota.
  erewrite bind_ret; [|unfold sem_set, SemSetVal; cbn; rewrite seti_Some
    by (rewrite length_insert; lia); reflexivity].
  cbn [snd]. rewrite list_insert_insert_eq.
  erewrite bind_ret; [|unfold get_user; cbn; rewrite Hu; reflexivity].
  erewrite bind_ret; [|reflexivity]. cbn [ph set_sems]. rewrite Hr.
  erewrite bind_ret.
  2: { erewrite bind_ret; [|unfold lock; cbn; rewrite Hlock; reflexivity].
    erewrite bind_ret; [|unfold set_user; cbn; rewrite Hu; reflexivity].
    erewrite bind_ret; [|reflexivity].
    unfold sem_set, SemSetVal. cbn. rewrite seti_Some by (rewrite length_insert; lia).
    cbn [snd]. rewrite list_insert_insert_eq. reflexivity. }
  erewrite bind_ret; [|unfold get_user; cbn; rewrite geti_to_nat in Hu |- * by lia;
    rewrite list_lookup_alter_eq, Hu; reflexivity].
  cbn [curele set_curele]. f_equal. clear -Hlock. destruct w; cbn in *. by subst.
Qed.

(** The sleeper resumes after a frame was added. *)
Lemma GetPacket_woken p pp w q b n flag buflen w2 :
  reader_sync w (userno p) q [] -> mc p = true -> 1 <= limit w ->
  0 <= n <= zlen b -> n <= buflen ->
  MShmPoolAddResource pp (Some b) n flag w = Ret 0 w2 ->
  exists w3, MShmPoolGetPacket true p buflen w2 =
    Ret (n, Some (frame_packet (new_frame w b n flag))) w3.
Proof.
  intros Hsync Hmc Hlim Hn Hnb Hret.
  pose proof (AddResource_spec pp w q b n flag (proj1 Hsync) Hn) as H.
  destruct (pool_push _ _ _) as [q'|] eqn:Hpush.
  2: { destruct H as (h & He & _). rewrite He in Hret. done. }
  clear H. assert (Hlast : exists kept, q' = kept ++ [new_frame w b n flag]).
  { destruct Hsync as [[Hrep _] _]. apply pool_rep_tail in Hrep as (_ & _ & Hq).
    destruct (pool_push_split _ _ _ _ Hpush Hq) as (_ & kept & _ & -> & _). eauto. }
  destruct Hlast as [kept ->].
  destruct (reader_sync_add pp w _ q [] b n flag _ Hsync Hn Hpush) as (w2' & He & Hs2 & _);
    [cbn; lia|rewrite length_app; cbn; lia|].
  rewrite He in Hret. injection Hret as ->. cbn [app] in Hs2.
  destruct Hs2 as (Hidle2 & Hok & Hl & gone & u & Heq & Hu & Hv & Hc & Hs).
  apply app_inj_tail in Heq as [<- _].
  rewrite (cursor_index _ _ _ _ (proj1 Hidle2)) in Hc.
  assert (Hlk : (kept ++ [new_frame w b n flag]) !! length kept = Some (new_frame w b n flag))
    by by apply list_lookup_middle.
  set (w3 := set_sems (<[Z.to_nat (userno p) := 0]> (sems w2)) w2).
  assert (Hwait : get_packet_wait 3 true p (curele u) w2 = Ret (inl (curele u)) w3).
  { rewrite (wait_round 2 true p w2 u 1) by (first [by split_and!|done|
      eapply not_restarted; [apply Hidle2|exact Hlk|done]]).
    eapply (wait_live 1 p w3 _ (zlen kept) (curele u)); [apply Hidle2| |by rewrite Hc].
    rewrite length_app. cbn. lia. }
  rewrite (GetPacket_unfold _ _ _ u) by (done || lia).
  rewrite (bind_ret _ _ _ _ _ Hwait), Hc.
  pose proof (read_packet p w3 _ _ _ buflen u Hidle2 Hu Hlk) as Hread.
  assert (Hlen : zlen (f_data (new_frame w b n flag)) = n) by (cbn; rewrite length_take; lia).
  rewrite Hlen in Hread. eexists. etrans; [exact Hread|].
  destruct (Z.ltb_spec buflen n); [lia|]. done.
Qed.
End Cursor.

(** A call with the cursor on a live frame. *)
Lemma GetPacket_live p w q buflen u k f :
  pool_idle w q -> mc p = true -> 0 <= buflen ->
  geti (users (ph w)) (userno p) = Some u -> q !! k = Some f ->
  curele u = (head (ph w) + Z.of_nat k) mod SHPOOL_MAX_ELE ->
  MShmPoolGetPacket false p buflen w =
    if buflen <? zlen (f_data f) then Ret (- ENOMEM, None) w
    else Ret (zlen (f_data f), Some (frame_packet f))
           (set_ph (alter_user (set_curele (NewerEle (curele u))) (userno p) (ph w)) w).
Proof.
  intros Hidle Hmc Hb Hu Hk Hc. pose proof (lookup_lt_Some _ _ _ Hk).
  rewrite (GetPacket_unfold _ _ _ _ _ Hb Hmc Hu).
  rewrite (bind_ret _ _ _ _ _ (wait_live 2 p w q (Z.of_nat k) _ (proj1 Hidle) ltac:(lia) Hc)).
  rewrite Hc. by apply (read_packet p w q k f buflen u).
Qed.

(** C32. A reader whose cursor is on a live frame gets that frame at once, whole,
    and its cursor moves to the next; its semaphore is not used.  Only a buffer
    that is too small fails, and then nothing changes. *)
Theorem GetPacket_returns p w q buflen u k f :
  pool_idle w q -> mc p = true -> 0 <= buflen ->
  geti (users (ph w)) (userno p) = Some u -> q !! k = Some f ->
  curele u = (head (ph w) + Z.of_nat k) mod SHPOOL_MAX_ELE ->
  MShmPoolGetPacket false p buflen w =
    if buflen <? zlen (f_data f) then Ret (- ENOMEM, None) w
    else Ret (zlen (f_data f), Some (frame_packet f))
           (set_ph (alter_user (set_curele (NewerEle (curele u))) (userno p) (ph w)) w).
Proof. apply GetPacket_live. Qed.

(** C33. A reader that has read everything sleeps, its semaphore at 0 and the
    lock free; the next accepted frame wakes it, and that frame is what the call
    returns, if it fits the buffer.  This is so when the semaphore is 0 already, the head
    is not at the first element or there are 5 frames: the case excluded is the one of
    [GetPacket_repeats_last]. *)
Theorem GetPacket_wakes p w q buflen u s :
  pool_idle w q -> mc p = true -> 0 <= buflen -> reader_slot w (userno p) u s ->
  valid u <> 0 -> 1 <= limit w -> curele u = tail (ph w) -> s = 0 \/ head (ph w) <> 0 \/ 5 <= zlen q ->
  exists w1, MShmPoolGetPacket false p buflen w = Blocked w1 /\ pool_idle w1 q /\
    geti (sems w1) (userno p) = Some 0 /\
    forall pp b n flag w2, 0 <= n <= zlen b -> n <= buflen ->
      MShmPoolAddResource pp (Some b) n flag w1 = Ret 0 w2 ->
      exists w3, MShmPoolGetPacket true p buflen w2 =
        Ret (n, Some (frame_packet (new_frame w b n flag))) w3.
Proof.
  intros Hidle Hmc Hb Hslot Hv Hlim Hc Hcase.
  set (w1 := set_sems (<[Z.to_nat (userno p) := 0]> (sems w)) w).
  pose proof (slot_sem0 _ _ _ _ Hslot) as Hslot1. fold w1 in Hslot1.
  assert (Hidle1 : pool_idle w1 q) by done.
  exists w1. split_and!; [|done|apply Hslot1|].
  - rewrite (GetPacket_unfold _ _ _ u _ Hb Hmc) by apply Hslot.
    cbv [mbind M_bind]. destruct (decide (s = 0)) as [->|Hs].
    + rewrite (wait_sleep 2 p w u Hslot Hc). f_equal. unfold w1.
      destruct Hslot as (_ & _ & _ & Hs). pose proof (geti_Some _ _ _ Hs).
      rewrite geti_to_nat in Hs by lia. rewrite list_insert_id by done. by destruct w.
    + assert (0 < s) by (destruct Hslot as (Hok & _ & _ & Hs'); pose proof (sems_ok_geti _ _ _ Hok Hs'); lia).
      rewrite (wait_round 2 false p w u s Hslot) by
        (first [done|by rewrite Hc, Z.eqb_refl, orb_true_r|
          rewrite (restarted_at_tail _ _ _ _ (proj1 Hidle) Hc); zcase; lia]).
      fold w1. by rewrite (wait_sleep 1 p w1 u Hslot1 Hc).
  - intros pp b n flag w2 Hn Hnb Hret.
    apply (GetPacket_woken p pp w1 q b n flag buflen w2); try done.
    destruct (pool_rep_tail _ _ _ (proj1 Hidle)) as (Htail & _ & _).
    split_and!; try apply Hslot1; [done|]. exists q, u. rewrite app_nil_r.
    split_and!; try apply Hslot1; try done. cbn [length w1 ph set_sems].
    rewrite Hc, Z.sub_0_r, Z.mod_small; [done|]. rewrite Htail. apply Z.mod_pos_bound, max_ele_pos.
Qed.

(** A reader of a young pool that has read everything gets the last frame a
    second time when its semaphore is still raised: with the first element at 0
    and fewer than five frames, the call takes the reader for one of an earlier
    pool and moves its cursor back by one. *)
Theorem GetPacket_repeats_last p w q f buflen u s :
  pool_idle w (q ++ [f]) -> mc p = true -> zlen (f_data f) <= buflen ->
  reader_slot w (userno p) u s -> 0 < s -> curele u = tail (ph w) ->
  head (ph w) = 0 -> zlen q < 4 ->
  exists w', MShmPoolGetPacket false p buflen w =
      Ret (zlen (f_data f), Some (frame_packet f)) w' /\
    exists u', geti (users (ph w')) (userno p) = Some u' /\ curele u' = tail (ph w').
Proof.
  intros Hidle Hmc Hb Hslot Hs Hc Hh Hq.
  pose proof (pool_rep_tail _ _ _ (proj1 Hidle)) as (Htail & _ & Hmax).
  rewrite length_app in Htail, Hmax. cbn in Htail, Hmax.
  assert (Ht : tail (ph w) - 1 = (head (ph w) + zlen q) mod SHPOOL_MAX_ELE).
  { rewrite Htail, Hh, !Z.mod_small; unfold SHPOOL_MAX_ELE in *; lia. }
  pose proof Hslot as (_ & _ & Hu & _). pose proof (geti_Some _ _ _ Hu).
  rewrite (GetPacket_unfold _ _ _ u) by (done || lia).
  set (w1 := set_sems (<[Z.to_nat (userno p) := 0]> (sems w))
        (set_ph (alter_user (set_curele (tail (ph w) - 1)) (userno p) (ph w)) w)).
  assert (Hidle1 : pool_idle w1 (q ++ [f])) by (split; [by apply pool_rep_users, Hidle|apply Hidle]).
  assert (Hwait : get_packet_wait 3 false p (curele u) w = Ret (inl (tail (ph w) - 1)) w1).
  { rewrite (wait_rewind 2 p w u s) by (first [done|apply Hidle|
      rewrite (restarted_at_tail _ _ _ _ (proj1 Hidle) Hc), Hh, length_app;
      cbn [length]; apply Z.ltb_lt; lia]).
    eapply (wait_live 1 p w1 _ (zlen q)); [apply Hidle1| |exact Ht]. rewrite length_app. cbn. lia. }
  rewrite (bind_ret _ _ _ _ _ Hwait), Ht.
  assert (Hu1 : geti (users (ph w1)) (userno p) = Some (set_curele (tail (ph w) - 1) u)).
  { cbn. rewrite geti_to_nat in Hu |- * by lia. by rewrite list_lookup_alter_eq, Hu. }
  assert (Hlk : (q ++ [f]) !! length q = Some f) by by apply list_lookup_middle.
  pose proof (read_packet p w1 _ _ f buflen _ Hidle1 Hu1 Hlk) as Hread.
  destruct (Z.ltb_spec buflen (zlen (f_data f))); [lia|].
  eexists. split; [exact Hread|]. eexists; split.
  - cbn. rewrite geti_to_nat in Hu |- * by lia. by rewrite !list_lookup_alter_eq, Hu.
  - cbn. rewrite <- Ht, NewerEle_mod; [rewrite Z.mod_small|]; rewrite Htail, Hh, ?Z.mod_small; unfold SHPOOL_MAX_ELE in *; lia.
Qed.

Lemma slot_curele w i u s v :
  reader_slot w i u s ->
  reader_slot (set_ph (alter_user (set_curele v) i (ph w)) w) i (set_curele v u) s.
Proof.
  intros (Hok & Hl & Hu & Hs). pose proof (geti_Some _ _ _ Hu).
  split_and!; cbn; [done|by rewrite length_alter| |done].
  rewrite geti_to_nat in Hu |- * by lia. by rewrite list_lookup_alter_eq, Hu.
Qed.

Lemma idle_curele w q i v :
  pool_idle w q -> pool_idle (set_ph (alter_user (set_curele v) i (ph w)) w) q.
Proof. intros [Hr Hm]. split; [by apply pool_rep_users|done]. Qed.

Definition frame0 : frame := {| f_num := 1; f_flag := 9; f_data := [1; 2] |}.

(** The pool of 6 blocks after one frame, with a reader in slot 0 that has not
    read it. *)
Definition one_frame_world : world :=
  match MShmPoolAddResource producer (Some [1; 2]) 2 9 (reader_world 6) with
  | Ret _ w => w
  | _ => reader_world 6
  end.

Lemma one_frame_sync : reader_sync one_frame_world 0 [frame0] [frame0].
Proof.
  destruct (reader_sync_add producer (reader_world 6) 0 [] [] [1; 2] 2 9 [frame0])
    as (w' & H & Hs & _); [by apply reader_world_sync|cbn; lia|done|done|cbn; lia|].
  unfold one_frame_world. by rewrite H.
Qed.

Lemma GetPacket_returns_witness :
  exists w', MShmPoolGetPacket false reader0 10 one_frame_world =
    Ret (2, Some {| pk_data := [1; 2]; pk_seq := 1; pk_flag := 9 |}) w'.
Proof.
  destruct one_frame_sync as (Hidle & _ & _ & gone & u & Hq & Hu & _ & Hc & _).
  assert (gone = []) as -> by (destruct gone as [|? [|]]; [done|done|done]).
  rewrite (cursor_index _ _ [] _ (proj1 Hidle)) in Hc.
  eexists. exact (GetPacket_returns reader0 one_frame_world [frame0] 10 u 0 frame0 Hidle eq_refl
    ltac:(lia) Hu eq_refl Hc).
Defined.

Lemma GetPacket_wakes_witness :
  exists w1, MShmPoolGetPacket false reader0 10 (reader_world 6) = Blocked w1 /\ pool_idle w1 [].
Proof.
  destruct (GetPacket_wakes reader0 (reader_world 6) [] 10 (new_user 0 0 77 0 zero_usr) 0)
    as (w1 & H1 & H2 & _);
    [by apply reader_world_idle|done|lia|split_and!; [apply zero_sems_ok|done|done|done]|done|by vm_compute|done|
     by left|].
  exists w1. by split.
Defined.

(** [one_frame_world] after its reader has read that frame. *)
Definition read_world : world :=
  set_ph (alter_user (set_curele 1) 0 (ph one_frame_world)) one_frame_world.

Lemma GetPacket_repeats_last_witness :
  exists w', MShmPoolGetPacket false reader0 10 read_world = Ret (2, Some (frame_packet frame0)) w'.
Proof.
  destruct one_frame_sync as (Hidle & Hok & Hl & gone & u & Hq & Hu & _ & _ & Hs).
  pose proof (idle_curele one_frame_world [frame0] 0 1 Hidle) as Hidle'.
  pose proof (slot_curele one_frame_world 0 u 1 1 (conj Hok (conj Hl (conj Hu Hs)))) as Hslot.
  assert (Ht : tail (ph read_world) = 1 /\ head (ph read_world) = 0) by (split; vm_compute; reflexivity).
  destruct (GetPacket_repeats_last reader0 read_world [] frame0 10 (set_curele 1 u) 1 Hidle' eq_refl
    ltac:(cbn; lia) Hslot ltac:(lia) (eq_sym (proj1 Ht)) (proj2 Ht) ltac:(cbn; lia)) as (w' & Hw & _).
  exists w'. exact Hw.
Defined.
