(* ===== verification/ShmPoolTable.v ===== *)
(** * Readers come and go, cursors move, pools are created *)

From S2P Require Import Prelude Memory Sem ShmPool ShmPoolInv ShmPoolSpec ShmPoolThms ShmPoolStream ShmPoolPacket.

Section Table.
Implicit Types (us : list SHPOOL_USR) (h : SHPOOL_HEAD) (w : world) (i : Z) (u : SHPOOL_USR).

Lemma first_free_Some us idx i :
  first_free us idx = Some i -> i ∈ idx /\ exists u, geti us i = Some u /\ valid u = 0.
Proof.
  induction idx as [|j idx IH]; cbn; [done|].
  destruct (geti us j) as [u|] eqn:Hu; [|done]. destruct (Z.eqb_spec (valid u) 0).
  - intros [= <-]. split; [apply elem_of_cons; by left|eauto].
  - intros [? ?]%IH. split; [apply elem_of_cons; by right|done].
Qed.

Lemma first_free_None us idx :
  first_free us idx = None -> (forall i, i ∈ idx -> 0 <= i < zlen us) ->
  forall i u, i ∈ idx -> geti us i = Some u -> valid u <> 0.
Proof.
  induction idx as [|j idx IH]; cbn; intros Hf Hr i u Hi Hu; [by apply not_elem_of_nil in Hi|].
  destruct (geti us j) as [u'|] eqn:Hu'.
  - destruct (Z.eqb_spec (valid u') 0); [done|].
    apply elem_of_cons in Hi as [->|Hi]; [congruence|].
    eapply IH; [done| |done|done]. intros. apply Hr, elem_of_cons. by right.
  - destruct (geti_is_Some us j) as [? He]; [|congruence].
    apply Hr, elem_of_cons. by left.
Qed.

Lemma GetAFreeUsrNo_spec h :
  zlen (users h) = SHPOOL_MAX_USERS -> -1 <= last_usr_no h < SHPOOL_MAX_USERS ->
  exists n h', GetAFreeUsrNo h = (n, h') /\ users h' = users h /\
    (exists v, h' = set_last_usr_no v h /\ -1 <= v < SHPOOL_MAX_USERS) /\
    ((0 <= n < SHPOOL_MAX_USERS /\ exists u, geti (users h) n = Some u /\ valid u = 0) \/
     (n = - EBUSY /\ forall i u, geti (users h) i = Some u -> valid u <> 0)).
Proof.
  intros Hlen Hlast. unfold GetAFreeUsrNo.
  set (h1 := if last_usr_no h <? 0 then _ else _).
  assert (H1 : users h1 = users h /\ 0 <= last_usr_no h1 < SHPOOL_MAX_USERS /\
    exists v, h1 = set_last_usr_no v h /\ -1 <= v < SHPOOL_MAX_USERS).
  { unfold h1. destruct (Z.ltb_spec (last_usr_no h) 0).
    - split_and!; [done|done|done|]. by exists 0.
    - split_and!; [done|lia|lia|]. exists (last_usr_no h). split; [by destruct h|lia]. }
  destruct H1 as (Hus & Hl & v & Hv & Hvr). clearbody h1. rewrite Hus. unfold SHPOOL_MAX_USERS in *.
  destruct (first_free (users h) (seqZ (last_usr_no h1 + 1) _)) as [i|] eqn:Ha.
  { apply first_free_Some in Ha as [Hi Hu]. apply elem_of_seqZ in Hi.
    eexists _, _; split; [done|]. split; [done|].
    split; [exists i; subst h1; split; [done|lia]|]. left. split; [lia|done]. }
  destruct (first_free (users h) (seqZ 0 _)) as [i|] eqn:Hb.
  { apply first_free_Some in Hb as [Hi Hu]. apply elem_of_seqZ in Hi.
    eexists _, _; split; [done|]. split; [done|].
    split; [exists i; subst h1; split; [done|lia]|]. left. split; [lia|done]. }
  eexists _, _; split; [done|]. split; [done|]. split; [by exists v|]. right. split; [done|].
  intros i u Hu. pose proof (geti_Some _ _ _ Hu).
  destruct (Z.le_gt_cases i (last_usr_no h1)).
  - apply (first_free_None _ _ Hb) with (i := i); [|apply elem_of_seqZ; lia|done].
    intros ? ?%elem_of_seqZ. lia.
  - apply (first_free_None _ _ Ha) with (i := i); [|apply elem_of_seqZ; lia|done].
    intros ? ?%elem_of_seqZ. lia.
Qed.

Lemma geti_alter_eq {A} (f : A -> A) l i x :
  geti l i = Some x -> geti (alter f (Z.to_nat i) l) i = Some (f x).
Proof.
  intros H. pose proof (geti_Some _ _ _ H). rewrite geti_to_nat in H |- * by lia.
  by rewrite list_lookup_alter_eq, H.
Qed.

Lemma geti_alter_ne {A} (f : A -> A) l i j :
  0 <= i -> j <> i -> geti (alter f (Z.to_nat i) l) j = geti l j.
Proof.
  intros. unfold geti. destruct (Z.leb_spec 0 j); [|done]. apply list_lookup_alter_ne. lia.
Qed.

Lemma geti_insert_ne {A} (l : list A) i j x :
  0 <= i -> j <> i -> geti (<[Z.to_nat i := x]> l) j = geti l j.
Proof.
  intros. unfold geti. destruct (Z.leb_spec 0 j); [|done]. apply list_lookup_insert_ne. lia.
Qed.
End Table.

(** Slot [i] apart, the reader table and the semaphores are those of [w]. *)
Definition others_same (w w' : world) (i : Z) : Prop :=
  forall j, j <> i -> geti (users (ph w')) j = geti (users (ph w)) j /\
                      geti (sems w') j = geti (sems w) j.

(** What [MShmPoolReq] relies on: the table has its eight slots. *)
Definition table_ok (w : world) : Prop :=
  sems_ok (sems w) /\ zlen (sems w) = SHPOOL_MAX_USERS /\
  zlen (users (ph w)) = SHPOOL_MAX_USERS /\ -1 <= last_usr_no (ph w) < SHPOOL_MAX_USERS.

(** What [MShmPoolReq] does, with what it leaves to the application. *)
Lemma Req_spec w q uoffset pkey name ctype pid now p :
  pool_idle w q -> table_ok w -> 0 <= pkey -> 0 < uoffset -> 0 < boffset (ph w) ->
  exists rc p' w', MShmPoolReq (Core uoffset) pkey name ctype pid now p w = Ret (rc, p') w' /\
    pool_idle w' q /\ table_ok w' /\ pinfo (ph w') = pinfo (ph w) /\
    ((rc = 0 /\ mc p' = true /\ php p' = true /\ p_userflag p' = MSHM_POOL_NORMAL_USR /\
      reader_sync w' (userno p') q [] /\ others_same w w' (userno p') /\
      exists u, geti (users (ph w)) (userno p') = Some u /\ valid u = 0) \/
     (rc = - EBUSY /\ mc p' = false /\ others_same w w' (-1) /\
      forall i u, geti (users (ph w)) i = Some u -> valid u <> 0)).
Proof.
  intros [Hrep Hlock] (Hok & Hls & Hlu & Hlast) Hk Hu Hb.
  unfold MShmPoolReq. erewrite bind_ret; [|reflexivity].
  unfold MSHmPoolAttach. destruct (Z.ltb_spec pkey 0); [lia|].
  destruct (Z.leb_spec uoffset 0); [lia|]. destruct (Z.leb_spec (boffset (ph w)) 0); [lia|].
  change (0 <? 0) with false. cbn iota.
  assert (Hlk : lock w = Ret 0 (set_mlock 0 w)) by (unfold lock; by rewrite Hlock).
  rewrite (bind_ret _ _ _ _ _ Hlk). clear Hlk. erewrite bind_ret; [|reflexivity].
  destruct (GetAFreeUsrNo_spec (ph w) Hlu Hlast) as (n & h & Hn & Hus & (v & Hv & Hvr) & Hcase).
  cbn [ph set_mlock]. rewrite Hn. erewrite bind_ret; [|reflexivity].
  assert (Hrep1 : pool_rep h (eledata w) q) by (rewrite Hv; by apply pool_rep_last_usr_no).
  destruct Hcase as [(Hr & u & Hgu & Hval)|(-> & Hall)].
  - destruct (Z.ltb_spec n 0); [lia|]. unfold SHPOOL_MAX_USERS in *. cbn [mc php userno p_userflag].
    erewrite bind_ret; [|reflexivity]. cbn [ph set_sems set_ph].
    assert (Hg : geti (users h) n = Some u) by by rewrite Hus.
    erewrite bind_ret; [|unfold set_user; cbn; rewrite Hg; reflexivity].
    cbv [mbind M_bind modify]. unfold unlock, modify. cbn.
    unfold MShmPoolSetUserName, SHPOOL_MAX_USERS. cbn.
    rewrite (proj2 (Z.ltb_ge n 0)), (proj2 (Z.leb_gt 8 n)) by lia. cbn.
    rewrite seti_Some by lia. cbn [snd].
    assert (Hr2 : pool_rep (set_users (alter (new_user (tail h) ctype pid now) (Z.to_nat n) (users h)) h)
      (eledata w) q) by by apply pool_rep_users.
    eexists 0, _, _. split; [reflexivity|].
    assert (Htail : tail h = tail (ph w)) by (rewrite Hv; by destruct (ph w)).
    split; [|split; [|split; [by rewrite Hv|left]]].
    + split; [|done]. cbn. by apply pool_rep_users.
    + split_and!; cbn; rewrite ?length_insert, ?length_alter, ?Hus; try done.
      * by apply sems_ok_insert.
      * rewrite Hv. unfold SHPOOL_MAX_USERS. cbn. lia.
      * rewrite Hv. unfold SHPOOL_MAX_USERS. cbn. lia.
    + split_and!; try done; cbn.
      * split_and!; [split; [by do 2 apply pool_rep_users|done]|by apply sems_ok_insert| |].
        { cbn. rewrite length_insert, !length_alter, Hus. lia. }
        eexists q, _. rewrite app_nil_r. split_and!; [done|cbn; by do 2 apply geti_alter_eq|done| |].
        -- cbn. rewrite Z.sub_0_r. symmetry. apply Z.mod_small.
           destruct (pool_rep_tail _ _ _ Hrep1) as (-> & _ & _). apply Z.mod_pos_bound, max_ele_pos.
        -- cbn. rewrite geti_to_nat by lia. apply list_lookup_insert_eq. lia.
      * intros j Hj. cbn. rewrite !geti_alter_ne, geti_insert_ne, Hus by lia. done.
      * eauto.
  - change (- EBUSY <? 0) with true. cbn.
    eexists _, _, _. split; [reflexivity|]. split; [by split|]. split; [|split; [by rewrite Hv|]].
    + split_and!; cbn; rewrite ?Hus; try done; rewrite Hv; cbn; try done; lia.
    + right. split_and!; try done. intros j _. cbn. by rewrite Hus.
Qed.

(** Subscribing to a pool that exists: with a free slot the caller gets one
    that was free, in step with the pool ([reader_sync] with nothing unread), so
    it receives exactly the frames added from now on; with none it gets
    [-EBUSY].  Frames and other readers are as before, the lock is released. *)
Theorem Req_subscribes w q uoffset pkey name ctype pid now p :
  pool_idle w q -> table_ok w -> 0 <= pkey -> 0 < uoffset -> 0 < boffset (ph w) ->
  exists rc p' w', MShmPoolReq (Core uoffset) pkey name ctype pid now p w = Ret (rc, p') w' /\
    pool_idle w' q /\ table_ok w' /\
    ((rc = 0 /\ mc p' = true /\ php p' = true /\ p_userflag p' = MSHM_POOL_NORMAL_USR /\
      reader_sync w' (userno p') q [] /\ others_same w w' (userno p') /\
      exists u, geti (users (ph w)) (userno p') = Some u /\ valid u = 0) \/
     (rc = - EBUSY /\ mc p' = false /\ others_same w w' (-1) /\
      forall i u, geti (users (ph w)) i = Some u -> valid u <> 0)).
Proof.
  intros Hi Ht Hk Hu Hb.
  destruct (Req_spec w q uoffset pkey name ctype pid now p Hi Ht Hk Hu Hb)
    as (rc & p' & w' & H & H1 & H2 & _ & H3). eauto 10.
Qed.

Lemma Req_subscribes_witness :
  exists rc p' w', MShmPoolReq (Core 64) 3 None 0 77 0 producer (empty_world 6) = Ret (rc, p') w' /\
    pool_idle w' [].
Proof.
  destruct (Req_subscribes (empty_world 6) [] 64 3 None 0 77 0 producer) as (rc & p' & w' & H & Hi & _);
    [by apply empty_world_idle|split_and!; [apply zero_sems_ok|done..]|lia|lia|done|].
  exists rc, p', w'. by split.
Defined.

Section Total.
Implicit Types (us : list SHPOOL_USR) (h : SHPOOL_HEAD) (u : SHPOOL_USR).

Definition users_valid us : list SHPOOL_USR := filter (fun u => valid u <> 0) us.

Lemma GetTotalUser_filter h : MShmPoolGetTotalUser h = zlen (users_valid (users h)).
Proof.
  unfold MShmPoolGetTotalUser, users_valid.
  enough (H : forall us n, foldl (fun total u => if valid u =? 0 then total else total + 1) n us =
    n + zlen (filter (fun u => valid u <> 0) us)) by by rewrite H.
  induction us as [|u us IH]; intros n; cbn [foldl]; [cbn; lia|].
  rewrite IH, filter_cons. destruct (Z.eqb_spec (valid u) 0), (decide (valid u <> 0));
    try contradiction; cbn [length]; lia.
Qed.

Lemma users_valid_drop us (i : nat) u :
  us !! i = Some u ->
  zlen (users_valid (alter (set_valid 0) i us)) =
    zlen (users_valid us) - (if valid u =? 0 then 0 else 1).
Proof.
  unfold users_valid. revert i. induction us as [|u' us IH]; intros [|i] Hi; try done; cbn in Hi.
  - injection Hi as ->. unfold alter. cbn [list_alter]. rewrite !filter_cons. cbn [valid set_valid].
    destruct (decide (0 <> 0)); [done|].
    destruct (Z.eqb_spec (valid u) 0), (decide (valid u <> 0)); try contradiction; cbn [length]; lia.
  - unfold alter in *. cbn [list_alter]. rewrite !filter_cons.
    specialize (IH i Hi). destruct (decide (valid u' <> 0)); cbn [length]; lia.
Qed.
End Total.

(** Giving up a subscription frees the slot (and only that one), lowers the
    number of users by one if it was valid, keeps the frames, and releases the
    lock; the handle forgets the segment. *)
Theorem ReqFree_releases p w q u :
  pool_idle w q -> php p = true -> p_userflag p = MSHM_POOL_NORMAL_USR ->
  userno p < SHPOOL_MAX_USERS -> geti (users (ph w)) (userno p) = Some u ->
  exists p' w', MShmPoolReqFree p w = Ret (0, p') w' /\ pool_idle w' q /\ mc p' = false /\
    others_same w w' (userno p) /\ geti (users (ph w')) (userno p) = Some (set_valid 0 u) /\
    MShmPoolGetTotalUser (ph w') =
      MShmPoolGetTotalUser (ph w) - (if valid u =? 0 then 0 else 1).
Proof.
  intros [Hrep Hlock] Hph Hflag Hno Hu. pose proof (geti_Some _ _ _ Hu).
  unfold MShmPoolReqFree. rewrite Hph, Hflag, Z.eqb_refl. destruct (Z.leb_spec SHPOOL_MAX_USERS (userno p)); [lia|].
  cbn [negb]. erewrite bind_ret.
  2: { erewrite bind_ret; [|unfold lock; rewrite Hlock; reflexivity].
       erewrite bind_ret; [|unfold set_user; cbn; rewrite Hu; reflexivity]. reflexivity. }
  eexists _, _. split; [reflexivity|]. split_and!.
  - split; [by apply pool_rep_users|done].
  - by destruct (mc p) eqn:?.
  - intros j Hj. cbn. by rewrite geti_alter_ne by lia.
  - cbn. by apply geti_alter_eq.
  - rewrite !GetTotalUser_filter. cbn. apply users_valid_drop. by rewrite <- geti_to_nat by lia.
Qed.

Lemma ReqFree_releases_witness :
  exists p' w', MShmPoolReqFree reader0 (reader_world 6) = Ret (0, p') w' /\
    MShmPoolGetTotalUser (ph w') = 0.
Proof.
  destruct (ReqFree_releases reader0 (reader_world 6) [] (new_user 0 0 77 0 zero_usr))
    as (p' & w' & H & _ & _ & _ & _ & Ht); [by apply reader_world_idle|done..|].
  exists p', w'. split; [exact H|exact Ht].
Defined.

(** ** Moving a cursor *)

Section Moves.
Implicit Types (h : SHPOOL_HEAD) (w : world) (q : list frame) (k n : nat).

Lemma older_index hd k :
  0 <= hd < SHPOOL_MAX_ELE ->
  OlderEle ((hd + Z.of_nat (S k)) mod SHPOOL_MAX_ELE) = (hd + Z.of_nat k) mod SHPOOL_MAX_ELE.
Proof.
  intros. rewrite OlderEle_mod by apply Z.mod_pos_bound, max_ele_pos.
  rewrite Zminus_mod_idemp_l. f_equal. lia.
Qed.

Lemma newer_index hd (k : nat) :
  NewerEle ((hd + Z.of_nat k) mod SHPOOL_MAX_ELE) = (hd + Z.of_nat (S k)) mod SHPOOL_MAX_ELE.
Proof.
  rewrite NewerEle_mod by apply Z.mod_pos_bound, max_ele_pos.
  rewrite Zplus_mod_idemp_l. f_equal. lia.
Qed.

Lemma index_head hd k :
  0 <= hd < SHPOOL_MAX_ELE -> Z.of_nat k < SHPOOL_MAX_ELE ->
  ((hd + Z.of_nat k) mod SHPOOL_MAX_ELE =? hd) = (k =? 0)%nat.
Proof.
  intros. apply eq_bool_prop_intro. rewrite !Is_true_true, Z.eqb_eq, Nat.eqb_eq.
  rewrite mod_wrap by lia. zcase.
Qed.

Lemma index_inj hd j k :
  0 <= hd < SHPOOL_MAX_ELE -> Z.of_nat j < SHPOOL_MAX_ELE -> Z.of_nat k < SHPOOL_MAX_ELE ->
  ((hd + Z.of_nat j) mod SHPOOL_MAX_ELE =? (hd + Z.of_nat k) mod SHPOOL_MAX_ELE) = (j =? k)%nat.
Proof.
  intros. apply eq_bool_prop_intro. rewrite !Is_true_true, Z.eqb_eq, Nat.eqb_eq.
  rewrite !mod_wrap by lia. zcase.
Qed.

Lemma mv_older_spec hd n k m :
  0 <= hd < SHPOOL_MAX_ELE -> (0 < k)%nat -> Z.of_nat k < SHPOOL_MAX_ELE ->
  mv_older n hd ((hd + Z.of_nat k) mod SHPOOL_MAX_ELE) m =
    ((hd + Z.of_nat (k - n)) mod SHPOOL_MAX_ELE, m + Z.of_nat (n `min` k)).
Proof.
  intros Hhd. revert k m. induction n as [|n IH]; intros k m Hk Hb; cbn [mv_older].
  - rewrite Nat.sub_0_r, Nat.min_0_l. f_equal. lia.
  - destruct k as [|k]; [lia|]. rewrite older_index, index_head by lia.
    destruct (Nat.eqb_spec k 0) as [->|].
    + repeat (first [lia | f_equal]).
    + rewrite IH by lia. repeat (first [lia | f_equal]).
Qed.

Lemma mv_newer_spec hd n k len m :
  0 <= hd < SHPOOL_MAX_ELE -> (k < len)%nat -> Z.of_nat len < SHPOOL_MAX_ELE ->
  mv_newer n ((hd + Z.of_nat len) mod SHPOOL_MAX_ELE) ((hd + Z.of_nat k) mod SHPOOL_MAX_ELE) m =
    ((hd + Z.of_nat (k + n `min` (len - k))) mod SHPOOL_MAX_ELE, m + Z.of_nat (n `min` (len - k))).
Proof.
  intros Hhd. revert k m. induction n as [|n IH]; intros k m Hk Hb; cbn [mv_newer].
  - rewrite Nat.min_0_l, Nat.add_0_r. f_equal. lia.
  - rewrite newer_index, index_inj by lia. destruct (Nat.eqb_spec (S k) len) as [<-|].
    + repeat (first [lia | f_equal]).
    + rewrite IH by lia. repeat (first [lia | f_equal]).
Qed.

(** Back from the oldest frame the loop does not meet the head again. *)
Lemma mv_older_past hd n k m :
  0 <= hd < SHPOOL_MAX_ELE -> Z.of_nat (k + n) < SHPOOL_MAX_ELE ->
  mv_older n hd ((hd - Z.of_nat k) mod SHPOOL_MAX_ELE) m =
    ((hd - Z.of_nat (k + n)) mod SHPOOL_MAX_ELE, m + Z.of_nat n).
Proof.
  intros Hhd. revert k m. induction n as [|n IH]; intros k m Hb; cbn [mv_older].
  - repeat (first [lia | f_equal]).
  - assert (He : OlderEle ((hd - Z.of_nat k) mod SHPOOL_MAX_ELE) =
      (hd - Z.of_nat (S k)) mod SHPOOL_MAX_ELE).
    { rewrite OlderEle_mod by apply Z.mod_pos_bound, max_ele_pos.
      rewrite Zminus_mod_idemp_l. f_equal. lia. }
    rewrite He. destruct (Z.eqb_spec ((hd - Z.of_nat (S k)) mod SHPOOL_MAX_ELE) hd) as [Hx|].
    + exfalso. destruct (Z.le_gt_cases 0 (hd - Z.of_nat (S k))).
      * rewrite Z.mod_small in Hx; lia.
      * rewrite <- (Z_mod_plus_full _ 1), Z.mod_small in Hx; lia.
    + rewrite IH by lia. repeat (first [lia | f_equal]).
Qed.
End Moves.

(** The cursor of reader [i] set to [c]. *)
Definition with_cursor (i c : Z) (w : world) : world :=
  set_ph (alter_user (set_curele c) i (ph w)) w.

Lemma MvUsrPlace_cursor p w u place c n :
  mlock w = 1 -> mc p = true -> php p = true -> geti (users (ph w)) (userno p) = Some u ->
  place <> 0 ->
  (if place <? 0 then mv_older (Z.to_nat (- place)) (head (ph w)) (curele u) 0
   else mv_newer (Z.to_nat place) (tail (ph w)) (curele u) 0) = (c, n) ->
  MShmPoolMvUsrPlace p place w = Ret n (set_places n (with_cursor (userno p) c w)).
Proof.
  intros Hlock Hmc Hph Hu Hp Hmv. unfold MShmPoolMvUsrPlace. rewrite Hmc, Hph. cbn [negb orb].
  erewrite bind_ret; [|unfold lock; rewrite Hlock; reflexivity].
  unfold mv_cursor. erewrite bind_ret.
  2: { erewrite bind_ret; [|unfold get_user; cbn; rewrite Hu; reflexivity].
       erewrite bind_ret; [|reflexivity]. cbn [ph set_mlock].
       destruct (Z.ltb_spec place 0).
       - rewrite Hmv. erewrite bind_ret; [reflexivity|]. unfold set_user. cbn. rewrite Hu. reflexivity.
       - destruct (Z.ltb_spec 0 place); [|lia].
         rewrite Hmv. erewrite bind_ret; [reflexivity|]. unfold set_user. cbn. rewrite Hu. reflexivity. }
  clear -Hlock. cbn. f_equal. unfold with_cursor. destruct w; cbn in *. by subst.
Qed.

(** Moving a cursor that is on a live frame stays on the live frames: it goes
    back by at most the frames before it and forward by at most those up to the
    tail, returns how far it went, and releases the lock. *)
Theorem MvUsrPlace_moves p w q u k place :
  pool_idle w q -> mc p = true -> php p = true ->
  geti (users (ph w)) (userno p) = Some u ->
  curele u = (head (ph w) + Z.of_nat k) mod SHPOOL_MAX_ELE ->
  (place < 0 -> (0 < k <= length q)%nat) -> (0 < place -> (k < length q)%nat) -> place <> 0 ->
  exists moved w', MShmPoolMvUsrPlace p place w = Ret moved w' /\ pool_idle w' q /\
    moved = Z.min (Z.abs place) (if place <? 0 then Z.of_nat k else zlen q - Z.of_nat k) /\
    geti (users (ph w')) (userno p) =
      Some (set_curele ((head (ph w') + (Z.of_nat k + if place <? 0 then - moved else moved))
                          mod SHPOOL_MAX_ELE) u) /\
    places w' = moved.
Proof.
  intros Hidle Hmc Hph Hu Hc Hback Hfwd Hne.
  destruct (pool_rep_tail _ _ _ (proj1 Hidle)) as (Ht & Hhd & Hq).
  assert (Hw : forall c n, pool_idle (set_places n (with_cursor (userno p) c w)) q).
  { intros. split; [by apply pool_rep_users, Hidle|apply Hidle]. }
  destruct (Z.ltb_spec place 0) as [Hneg|Hpos].
  - pose proof (mv_older_spec (head (ph w)) (Z.to_nat (- place)) k 0 Hhd ltac:(lia) ltac:(lia)) as Hmv.
    rewrite <- Hc in Hmv. eexists _, _. split; [|split; [by apply Hw|]].
    + apply (MvUsrPlace_cursor p w u place _ _ (proj2 Hidle) Hmc Hph Hu Hne).
      destruct (Z.ltb_spec place 0); [exact Hmv|lia].
    + split_and!; [lia| |done]. cbn. rewrite (geti_alter_eq _ _ _ _ Hu).
      do 3 f_equal. repeat (first [lia | f_equal]).
  - pose proof (mv_newer_spec (head (ph w)) (Z.to_nat place) k (length q) 0 Hhd ltac:(lia) Hq) as Hmv.
    rewrite <- Hc, <- Ht in Hmv. eexists _, _. split; [|split; [by apply Hw|]].
    + apply (MvUsrPlace_cursor p w u place _ _ (proj2 Hidle) Hmc Hph Hu Hne).
      destruct (Z.ltb_spec place 0); [lia|exact Hmv].
    + split_and!; [lia| |done]. cbn. rewrite (geti_alter_eq _ _ _ _ Hu).
      do 3 f_equal. repeat (first [lia | f_equal]).
Qed.

Lemma MvUsrPlace_moves_witness :
  exists moved w', MShmPoolMvUsrPlace reader0 5 one_frame_world = Ret moved w' /\ moved = 1.
Proof.
  destruct one_frame_sync as (Hidle & _ & _ & gone & u & Hq & Hu & _ & Hc & _).
  assert (gone = []) as -> by (destruct gone as [|? [|]]; [done|done|done]).
  rewrite (cursor_index _ _ [] _ (proj1 Hidle)) in Hc.
  destruct (MvUsrPlace_moves reader0 one_frame_world [frame0] u 0 5 Hidle eq_refl eq_refl Hu Hc)
    as (m & w' & H1 & _ & H2 & _); [done|cbn; lia|done|].
  exists m, w'. split; [exact H1|exact H2].
Defined.

(** From the oldest frame a move back does not stop: the cursor leaves the
    live frames and lands on a slot that holds none. *)
Theorem MvUsrPlace_escapes p w q u n :
  pool_idle w q -> mc p = true -> php p = true ->
  geti (users (ph w)) (userno p) = Some u -> curele u = head (ph w) ->
  0 < n -> n + zlen q < SHPOOL_MAX_ELE ->
  exists w', MShmPoolMvUsrPlace p (- n) w = Ret n w' /\
    exists c, geti (users (ph w')) (userno p) = Some (set_curele c u) /\
      forall k, (k <= length q)%nat -> c <> (head (ph w') + Z.of_nat k) mod SHPOOL_MAX_ELE.
Proof.
  intros Hidle Hmc Hph Hu Hc Hn Hq.
  destruct (pool_rep_tail _ _ _ (proj1 Hidle)) as (Ht & Hhd & _).
  set (c := (head (ph w) - n) mod SHPOOL_MAX_ELE).
  assert (Hmv : mv_older (Z.to_nat (- - n)) (head (ph w)) (curele u) 0 = (c, n)).
  { pose proof (mv_older_past (head (ph w)) (Z.to_nat n) 0 0 Hhd ltac:(cbn; lia)) as Hmv.
    rewrite Hc, Z.opp_involutive. rewrite Z.sub_0_r, Z.mod_small in Hmv by lia.
    rewrite Hmv. unfold c. repeat (first [lia | f_equal]). }
  exists (set_places n (with_cursor (userno p) c w)). split.
  - apply (MvUsrPlace_cursor p w u (- n) c n (proj2 Hidle) Hmc Hph Hu); [lia|].
    destruct (Z.ltb_spec (- n) 0); [exact Hmv|lia].
  - cbn. rewrite (geti_alter_eq _ _ _ _ Hu). eexists; split; [done|]. intros k Hk.
    unfold c, SHPOOL_MAX_ELE in *. rewrite (mod_wrap _ (_ + _)) by lia.
    destruct (Z.le_gt_cases 0 (head (ph w) - n)).
    + rewrite Z.mod_small by lia. zcase.
    + rewrite <- (Z_mod_plus_full (_ - _) 1), Z.mod_small by lia. zcase.
Qed.

Lemma MvUsrPlace_escapes_witness :
  exists w', MShmPoolMvUsrPlace reader0 (- 2) (reader_world 6) = Ret 2 w'.
Proof.
  destruct (MvUsrPlace_escapes reader0 (reader_world 6) [] (new_user 0 0 77 0 zero_usr) 2)
    as (w' & H & _); [by apply reader_world_idle|done..|].
  exists w'. exact H.
Defined.

(** ** Creation *)

(** The environment of a creation that succeeds. *)
Definition create_ok (env : create_env) : Prop :=
  core_errno env = None /\ sem_answer env <> SemNone /\ 0 < pagesize env.

Lemma realsize_fits ps bytes :
  0 < ps -> 0 < bytes ->
  let off := (Z.quot (SIZEOF_SHPOOL_HEAD - 1) ps + 1) * ps in
  SIZEOF_SHPOOL_HEAD <= off /\
  off + Z.quot ((Z.quot (bytes - 1) ps + 1) * ps) SHPOOL_BLOCK_SIZE * SHPOOL_BLOCK_SIZE
    <= realsize ps bytes.
Proof.
  intros Hps Hb off. unfold realsize, SIZEOF_SHPOOL_HEAD in *.
  pose proof (Z.div_mod (122004 - 1) ps ltac:(lia)). pose proof (Z.mod_pos_bound (122004 - 1) ps Hps).
  unfold off.
  rewrite (Z.quot_div_nonneg (bytes + 1)), (Z.quot_div_nonneg (bytes - 1)),
    (Z.quot_div_nonneg (122004 - 1)) by lia.
  pose proof (Z.div_pos (bytes - 1) ps ltac:(lia) Hps).
  rewrite (Z.quot_div_nonneg (_ * ps)) by (unfold SHPOOL_BLOCK_SIZE; nia).
  split; [nia|].
  pose proof (Z.div_le_mono (bytes - 1) (bytes + 1) ps Hps ltac:(lia)).
  pose proof (Z.mul_div_le (((bytes - 1) / ps + 1) * ps) SHPOOL_BLOCK_SIZE ltac:(done)). nia.
Qed.

Lemma setval_frame n sems i :
  i <> 0 -> geti (Nat.iter n (fun s => snd (SemSetVal s 0 0)) sems) i = geti sems i.
Proof.
  intros Hi. induction n as [|n IH]; [done|]. cbn [Nat.iter nat_rect]. unfold Nat.iter in *. cbn [nat_rect].
  rewrite <- IH. set (s := nat_rect _ _ _ _). unfold SemSetVal. cbn [andb Z.leb].
  destruct (seti s 0 0) as [s'|] eqn:Hs; [|done]. by eapply geti_seti_ne.
Qed.

(** Creating a pool: the pages asked for hold the header and all the blocks,
    and the result is an empty pool of the requested size (rounded up to pages)
    with the lock released.  A semaphore set that existed keeps every value but
    the first, and the reader table is not touched. *)
Theorem Create_empty env pkey bytes p w :
  create_ok env -> 0 <= pkey -> 0 < bytes -> mlock w = 1 -> zlen (sems w) = SHPOOL_MAX_USERS ->
  let T := Z.quot ((Z.quot (bytes - 1) (pagesize env) + 1) * pagesize env) SHPOOL_BLOCK_SIZE in
  let off := (Z.quot (SIZEOF_SHPOOL_HEAD - 1) (pagesize env) + 1) * pagesize env in
  0 < T -> zlen (eledata w) = realsize (pagesize env) bytes - off ->
  exists p' w', MShmPoolCreate env pkey bytes p w = Ret (0, p') w' /\ p_userflag p' = 1 /\
    pool_idle w' [] /\ tblocks (ph w') = T /\ users (ph w') = users (ph w) /\
    SIZEOF_SHPOOL_HEAD <= boffset (ph w') /\
    boffset (ph w') + T * SHPOOL_BLOCK_SIZE <= realsize (pagesize env) bytes /\
    (sem_answer env = SemExists ->
       forall i, i <> 0 -> geti (sems w') i = geti (sems w) i).
Proof.
  intros (Hcore & Hsem & Hps) Hk Hb Hlock Hls T off HT Hsize.
  destruct (realsize_fits (pagesize env) bytes Hps Hb) as (Hoff & Hfit).
  fold off T in Hoff, Hfit.
  unfold MShmPoolCreate. destruct (Z.ltb_spec pkey 0), (Z.leb_spec bytes 0); try lia. cbn [orb].
  rewrite Hcore. erewrite bind_ret; [|unfold lock; rewrite Hlock; reflexivity].
  erewrite bind_ret; [|reflexivity]. erewrite bind_ret; [|reflexivity]. fold off T.
  destruct (mem_set_Some (eledata w) 0 0 (SHPOOL_BLOCK_SIZE * T)) as [data Hdata];
    [lia|unfold SHPOOL_BLOCK_SIZE; lia|unfold SHPOOL_BLOCK_SIZE in *; lia|].
  pose proof (mem_set_inv _ _ _ _ _ Hdata) as (_ & _ & _ & Hlen & _).
  destruct (sem_answer env); [| |done].
  all: do 4 (erewrite bind_ret; [|reflexivity]); erewrite bind_ret; [|reflexivity];
    erewrite bind_ret; [|cbn; rewrite Hdata; reflexivity];
    do 2 (erewrite bind_ret; [|reflexivity]).
  all: eexists _, _; split; [reflexivity|]; split; [done|].
  all: split; [split; [apply empty_rep; cbn; try done; rewrite ?Hlen; try lia|done]|].
  all: split_and!; cbn [tblocks users boffset ph]; try done.
  intros _ i Hi. cbn [sems set_ph set_sems set_mlock set_eledata]. by apply setval_frame.
Qed.

Lemma Create_empty_witness :
  exists p' w', MShmPoolCreate {| pagesize := 4096; core_errno := None; sem_answer := SemNew; core_key := 3 |}
      3 100 producer (set_eledata (replicate (Z.to_nat 4096) 0) (empty_world 1)) = Ret (0, p') w' /\
    pool_idle w' [].
Proof.
  destruct (Create_empty {| pagesize := 4096; core_errno := None; sem_answer := SemNew; core_key := 3 |}
    3 100 producer (set_eledata (replicate (Z.to_nat 4096) 0) (empty_world 1)))
    as (p' & w' & H & _ & Hi & _); [by split_and!|lia|lia|done|done|done| |].
  - cbn [eledata set_eledata]. rewrite length_replicate. reflexivity.
  - exists p', w'. split; [exact H|exact Hi].
Defined.
