(* ===== verification/MediaApi.v ===== *)
(** * Media sources (libsrc/media_api_m/media_api.c, media_api.h, venc_read.c)

    A media source is a process's handle on a frame pool: an encoder creates the
    pool and writes frames, the recorder connects to it as a reader, moves its
    cursor back over the seconds before, and reads.  The state is one source and
    the pool its key leads to; the recorder keeps one source per channel.  A call
    that has not returned after [fuel] rounds of its waiting loop is [Blocked]. *)

From S2P Require Import Prelude Update Memory Sem ShmPool.

Definition MEDIA_TYPE_VIDEO : Z := 0.
Definition ENC_NO_INIT : Z := 0.
Definition ENC_STAT_OK : Z := 1.
Definition MSHMPOOL_LOCAL_USR : Z := 0.
Definition MSHMPOOL_NET_USR : Z := 1.
Definition MAX_FRAME_SIZE : Z := 200 * 1024.

(** [temp_buf] is [None] for a null pointer; [attrib], when it is not null, points
    to the pool's application area. *)
Record media_source_t := {
  media_type : Z; no : Z; dev_stat : Z; thread_id : Z; mpool : MSHM_POOL;
  temp_buf : option (list Z); buflen : Z; attrib : bool
}.

#[export] Instance media_settable : Settable media_source_t := {| rebuild := fun m =>
  Build_media_source_t (media_type m) (no m) (dev_stat m) (thread_id m) (mpool m)
    (temp_buf m) (buflen m) (attrib m) |}.

Record src_st := { pool : world; media : media_source_t }.
#[export] Instance src_settable : Settable src_st :=
  {| rebuild := fun s => Build_src_st (pool s) (media s) |}.

Definition on_pool {A} (m : M world A) : M src_st A := fun s =>
  match m (pool s) with
  | Ret a w => Ret a (s <| pool := w |>)
  | Blocked w => Blocked (s <| pool := w |>)
  | Exited c w => Exited c (s <| pool := w |>)
  | Undef => Undef
  end.

Definition set_media (f : media_source_t -> media_source_t) : M src_st () :=
  modify (fun s => s <| media ::= f |>).
Definition set_pool (p : MSHM_POOL) (m : media_source_t) : media_source_t := m <| mpool := p |>.

(** The application area as the bytes of [media_attrib_t]: little-endian words. *)
Definition ATTRIB_TYPE : Z := 0.
Definition ATTRIB_STAT : Z := 4.
Definition ATTRIB_FRATE : Z := 24.

Definition le32 (b : list Z) : Z :=
  i32 (foldr (fun x acc => x + 256 * acc) 0 b).
Definition bytes32 (v : Z) : list Z :=
  map (fun k => Z.shiftr (u32 v) (8 * k) mod 256) [0; 1; 2; 3].

(** A word of the attributes, through a pointer that may be null. *)
Definition attrib_word (off : Z) : M src_st Z :=
  s ← get_st;
  if attrib (media s) then
    b ← access (mem_read (pinfo (ph (pool s))) off 4); mret (le32 b)
  else undef.

Definition write_attrib (off : Z) (b : list Z) : M src_st () :=
  s ← get_st;
  if attrib (media s) then
    info ← access (mem_write (pinfo (ph (pool s))) off b);
    on_pool (modify (fun w => set_ph (set_pinfo info (ph w)) w))
  else undef.

(** ** media_api.c *)

(** [area] is what [malloc] gives for the buffer. *)
Definition init_media_rw (area : option (list Z)) (type n blen : Z) (m : media_source_t)
    : Z * media_source_t :=
  let m := m <| media_type := type |> <| no := n |> <| attrib := false |> <| thread_id := -1 |>
             <| dev_stat := -1 |> <| temp_buf := (None : option (list Z)) |> <| buflen := blen |> in
  if 0 <? blen then
    match area with
    | Some a => (0, m <| temp_buf := Some a |> <| buflen := blen |>)
    | None => (- ENOMEM, m <| buflen := 0 |>)
    end
  else (0, m).

Definition get_media_attrib (m : option media_source_t) : bool :=
  match m with None => false | Some m => attrib m end.

Section Source.
(** What [MShmCoreAttach] finds at a key, the process, and the time. *)
Variables (core : Z -> core_attach) (pid now : Z).

Definition attach_media_device (key : Z) (usr_name : option (list Z)) (type : Z) : M src_st Z :=
  match usr_name with
  | None => mret (- EINVAL)
  | Some name =>
      if key <? 0 then mret (- EINVAL) else
      if negb (type =? MSHMPOOL_LOCAL_USR) && negb (type =? MSHMPOOL_NET_USR) then mret (- EINVAL) else
      s ← get_st;
      '(ret, p) ← on_pool (MShmPoolReq (core key) key (Some name) type pid now (mpool (media s)));
      set_media (set_pool p) ;;
      if ret <? 0 then mret ret else mret 0
  end.

Definition move_media_place (place : Z) : M src_st Z :=
  s ← get_st; on_pool (MShmPoolMvUsrPlace (mpool (media s)) place).

Definition moveto_media_packet (place : Z) : M src_st Z :=
  s ← get_st; on_pool (MShmPoolMvNewPlace (mpool (media s)) place).

(** A source that is connected already is left as it is, with -1. *)
Definition connect_media_read (key : Z) (name : option (list Z)) (usr_type : Z) : M src_st Z :=
  match name with
  | None => mret (- EINVAL)
  | Some _ =>
      s ← get_st;
      if dev_stat (media s) <? 0 then
        ret ← attach_media_device key name usr_type;
        if 0 <=? ret then
          set_media (fun m => m <| attrib := php (mpool m) |> <| dev_stat := 0 |>) ;;
          mret 0
        else mret ret
      else mret (-1)
  end.

Definition disconnect_media_read : M src_st Z :=
  set_media (fun m => m <| dev_stat := -1 |> <| attrib := false |>) ;;
  s ← get_st;
  '(ret, p) ← on_pool (MShmPoolReqFree (mpool (media s)));
  set_media (set_pool p) ;; mret ret.

Definition reactive_media_usr : M src_st Z :=
  s ← get_st; on_pool (MShmPoolReActiveUsr (mpool (media s))).

(** [env]: what the system calls of the creation answer. *)
Definition create_media_write (env : create_env) (key : Z) (name : option (list Z)) (size : Z) : M src_st Z :=
  match name with
  | None => mret (- EINVAL)
  | Some _ =>
      if (key <? 0) || (size <=? 0) then mret (- EINVAL) else
      s ← get_st;
      '(ret, p) ← on_pool (MShmPoolCreate env key size (mpool (media s)));
      set_media (set_pool p) ;;
      if negb (ret =? 0) then mret ret
      else
        set_media (fun m => m <| attrib := php (mpool m) |> <| dev_stat := 0 |>) ;;
        s ← get_st;
        write_attrib ATTRIB_TYPE (bytes32 (media_type (media s))) ;;
        write_attrib ATTRIB_STAT (bytes32 ENC_NO_INIT) ;;
        mret 0
  end.

Definition set_media_attrib (att : option (list Z)) (att_len : Z) : M src_st Z :=
  match att with
  | None => mret (- EINVAL)
  | Some a =>
      if att_len <=? 0 then mret (- EINVAL)
      else b ← access (mem_read a 0 att_len); write_attrib 0 b ;; mret att_len
  end.

(** ** The reading and writing functions of media_api.h *)

Definition read_media_resource (blen : Z) : M src_st (Z * option packet) :=
  s ← get_st; on_pool (MShmPoolGetResource (mpool (media s)) blen).

(** [asleep]: the call is resumed inside its wait. *)
Definition read_media_packet (asleep : bool) (blen : Z) : M src_st (Z * option packet) :=
  s ← get_st; on_pool (MShmPoolGetPacket asleep (mpool (media s)) blen).

(** The elements the reader has not read, by their numbers. *)
Definition MShmEleRemain (p : MSHM_POOL) : M world Z :=
  usr ← get_user (userno p);
  h ← gets ph;
  ele ← access (geti (eles h) (curele usr));
  if curele usr =? tail h then mret 0
  else if e_num ele <=? h_num h then mret (h_num h - e_num ele) else mret (h_num h).

Definition read_media_remain : M src_st Z :=
  s ← get_st; on_pool (MShmEleRemain (mpool (media s))).

Definition read_media_frame_type : M src_st Z :=
  s ← get_st; on_pool (GetFrameFlag (mpool (media s))).

Definition set_media_timeout_num (num : Z) : M src_st Z :=
  s ← get_st; on_pool (MShmPoolSetMaxNum (mpool (media s)) num).

Definition write_media_resource (buf : option (list Z)) (blen flag : Z) : M src_st Z :=
  s ← get_st; on_pool (MShmPoolAddResource (mpool (media s)) buf blen flag).

(** ** The recording sources of venc_read.c *)

(** The state is the source of channel [ch]. *)
Definition get_video_record_key (ch : Z) : Z :=
  if (ch =? 0) || (ch =? 1) || (ch =? 2) || (ch =? 3) then 196608 + ch else - EINVAL.

Definition get_venc_attrib_record (ch : Z) : M src_st bool :=
  s ← get_st;
  if MAX_RECORD_CHANNEL_M <=? ch then mret false
  else if dev_stat (media s) <? 0 then mret false else mret (attrib (media s)).

Definition get_video_record_buf (ch : Z) : M src_st (option (list Z)) :=
  s ← get_st; if MAX_RECORD_CHANNEL_M <=? ch then mret None else mret (temp_buf (media s)).

Definition get_video_record_buf_len (ch : Z) : M src_st Z :=
  s ← get_st; if MAX_RECORD_CHANNEL_M <=? ch then mret (- EINVAL) else mret (buflen (media s)).

Definition reactive_video_record_enc (ch : Z) : M src_st Z :=
  if MAX_RECORD_CHANNEL_M <=? ch then mret (- EINVAL) else reactive_media_usr.

Definition get_video_record_enc_remain (ch : Z) : M src_st Z :=
  if MAX_RECORD_CHANNEL_M <=? ch then mret (- EINVAL) else read_media_remain.

Definition get_record_venc_stat (ch : Z) : M src_st Z :=
  s ← get_st;
  if MAX_RECORD_CHANNEL_M <=? ch then mret (- EINVAL)
  else if dev_stat (media s) <? 0 then mret (- ENOENT)
  else if negb (attrib (media s)) then mret (- ENOENT)
  else attrib_word ATTRIB_STAT.

Definition connect_video_record_enc (ch : Z) (name : list Z) (pre_sec : Z) : M src_st Z :=
  if MAX_RECORD_CHANNEL_M <=? ch then mret (- EINVAL) else
  ret ← connect_media_read (get_video_record_key ch) (Some name) MSHMPOOL_NET_USR;
  (if 0 <=? ret then
     stat ← get_record_venc_stat ch;
     if stat =? ENC_STAT_OK then
       a ← get_venc_attrib_record ch;
       if a : bool then
         frate ← attrib_word ATTRIB_FRATE;
         moveto_media_packet (- (frate * pre_sec)) ;; mret ()
       else mret ()
     else mret ()
   else mret ()) ;;
  mret ret.

(** [sleep] is what the rest of the system does while the call sleeps. *)
Variable sleep : M src_st ().

Fixpoint connect_loop (fuel : nat) (ch : Z) (name : list Z) (pre_sec : Z) : M src_st () :=
  match fuel with
  | O => blocked
  | S fuel =>
      ret ← connect_video_record_enc ch name pre_sec;
      if ret =? 0 then mret () else sleep ;; connect_loop fuel ch name pre_sec
  end.

Fixpoint stat_loop (fuel : nat) (ch : Z) : M src_st Z :=
  match fuel with
  | O => blocked
  | S fuel =>
      ret ← get_record_venc_stat ch;
      if ret =? ENC_STAT_OK then mret ret else sleep ;; stat_loop fuel ch
  end.

Definition connect_video_record_enc_succ (fuel : nat) (ch : Z) (name : list Z) (pre_sec : Z)
    : M src_st Z :=
  if MAX_RECORD_CHANNEL_M <=? ch then mret (- EINVAL)
  else connect_loop fuel ch name pre_sec ;; stat_loop fuel ch.

Definition read_video_record_frame (asleep : bool) (blen : Z) : M src_st (Z * option packet) :=
  read_media_packet asleep blen.

(** The test of [attrib] is an assignment: the pointer is cleared and the test
    fails. *)
Definition disconnect_video_record_enc (ch : Z) : M src_st Z :=
  if MAX_RECORD_CHANNEL_M <=? ch then mret (- EINVAL) else
  s ← get_st;
  if dev_stat (media s) =? -1 then mret (- EINVAL) else
  set_media (fun m => m <| attrib := false |>) ;;
  if negb (mc (mpool (media s))) then mret (- EINVAL) else disconnect_media_read.

End Source.
