(* ===== verification/MediaApiThms.v ===== *)
(** * What a media source reads

    Connecting positions the reader on the frames of the seconds before, reading
    gives them in order and then waits; a source that is connected already cannot
    be connected again, and the call that insists never returns. *)

From S2P Require Import Prelude Update Memory Sem ShmPool ShmPoolInv ShmPoolSpec ShmPoolThms ShmPoolStream ShmPoolPacket ShmPoolTable MediaApi.

Lemma on_pool_ret {A} (m : M world A) s a w :
  m (pool s) = Ret a w -> on_pool m s = Ret a (s <| pool := w |>).
Proof. unfold on_pool. by intros ->. Qed.

(** The reader of the source is before the [k]th frame of the pool, and nothing has
    raised its semaphore. *)
Definition reading (s : src_st) (q : list frame) (k : nat) : Prop :=
  pool_idle (pool s) q /\ mc (mpool (media s)) = true /\ (k <= length q)%nat /\
  exists u, reader_slot (pool s) (userno (mpool (media s))) u 0 /\
    curele u = (head (ph (pool s)) + Z.of_nat k) mod SHPOOL_MAX_ELE.

Lemma reader_slot_cursor w i u v sm :
  reader_slot w i u sm -> reader_slot (with_cursor i v w) i (set_curele v u) sm.
Proof.
  intros (Hok & Hl & Hu & Hs). unfold with_cursor, alter_user. split_and!; cbn; try done.
  - by rewrite length_alter.
  - by apply geti_alter_eq.
Qed.

Lemma pool_idle_cursor w q i v : pool_idle w q -> pool_idle (with_cursor i v w) q.
Proof. intros [Hr Hm]. split; [by apply pool_rep_users | done]. Qed.

Lemma reading_cursor s q j k :
  reading s q j -> (k <= length q)%nat ->
  reading (s <| pool := with_cursor (userno (mpool (media s)))
                  ((head (ph (pool s)) + Z.of_nat k) mod SHPOOL_MAX_ELE) (pool s) |>) q k.
Proof.
  intros (Hi & Hm & _ & u & Hslot & _) Hk. split_and!; [by apply pool_idle_cursor | done | done |].
  eexists. split; [by apply reader_slot_cursor | done].
Qed.

Section Reads.
Implicit Types (s : src_st) (q : list frame) (f : frame) (k n : nat).

Lemma media_reads s q k f blen :
  reading s q k -> q !! k = Some f -> zlen (f_data f) <= blen ->
  exists s', read_video_record_frame false blen s = Ret (zlen (f_data f), Some (frame_packet f)) s' /\
    reading s' q (S k) /\ media s' = media s.
Proof.
  intros Hread Hf Hlen. pose proof Hread as (Hi & Hm & _ & u & (Hok & Hl & Hu & Hs) & Hc).
  pose proof (lookup_lt_Some _ _ _ Hf) as Hk.
  exists (s <| pool := with_cursor (userno (mpool (media s))) (NewerEle (curele u)) (pool s) |>).
  unfold read_video_record_frame, read_media_packet. rewrite (bind_ret _ _ s s s) by done.
  split; [|split; [|done]].
  - apply on_pool_ret.
    rewrite (GetPacket_live _ _ _ blen u k f Hi Hm ltac:(lia) Hu Hf Hc).
    destruct (Z.ltb_spec blen (zlen (f_data f))); [lia | done].
  - rewrite Hc, newer_index by lia. apply (reading_cursor _ _ k); [done | lia].
Qed.

(** Read [n] frames. *)
Fixpoint read_frames (n : nat) (blen : Z) : M src_st (list packet) :=
  match n with
  | O => mret []
  | S n =>
      '(_, r) ← read_video_record_frame false blen;
      p ← access r;
      l ← read_frames n blen;
      mret (p :: l)
  end.

Lemma read_frames_spec n s q k blen :
  reading s q k -> (k + n <= length q)%nat -> Forall (fun f => zlen (f_data f) <= blen) q ->
  exists s', read_frames n blen s = Ret (map frame_packet (take n (drop k q))) s' /\
    reading s' q (k + n) /\ media s' = media s.
Proof.
  revert s k. induction n as [|n IH]; intros s k Hread Hk Hlen; cbn [read_frames].
  - exists s. rewrite Nat.add_0_r. done.
  - destruct (lookup_lt_is_Some_2 q k ltac:(lia)) as [f Hf].
    rewrite (drop_S _ _ _ Hf). cbn [take map].
    pose proof (Forall_lookup_1 _ _ _ _ Hlen Hf) as Hfl.
    destruct (media_reads s q k f blen Hread Hf Hfl) as (s1 & Hr & Hread1 & Hm1).
    rewrite (bind_ret _ _ _ _ _ Hr). rewrite (bind_ret _ _ _ (frame_packet f) s1) by done.
    destruct (IH s1 (S k) Hread1 ltac:(lia) Hlen) as (s2 & Hr2 & Hread2 & Hm2).
    rewrite (bind_ret _ _ _ _ _ Hr2). exists s2. split; [done|].
    replace (k + S n)%nat with (S k + n)%nat by lia. split; [done | congruence].
Qed.

(** A reader that has read everything waits. *)
Lemma read_waits s q blen :
  reading s q (length q) -> 0 <= blen -> read_video_record_frame false blen s = Blocked s.
Proof.
  intros (Hi & Hm & _ & u & Hslot & Hc) Hb.
  unfold read_video_record_frame, read_media_packet. rewrite (bind_ret _ _ s s s) by done.
  unfold on_pool. pose proof Hslot as (_ & _ & Hu & _).
  rewrite (GetPacket_unfold _ _ _ _ _ Hb Hm Hu). cbv [mbind M_bind].
  rewrite (wait_sleep 2 (mpool (media s)) (pool s) u Hslot); [by destruct s|].
  rewrite Hc. by destruct (pool_rep_tail _ _ _ (proj1 Hi)) as (-> & _).
Qed.

End Reads.

(** ** Connecting *)

(** A pool the recorder can connect to: its attributes say that the encoder works
    and how many frames it makes in a second. *)
Record source_ready (s : src_st) (q : list frame) (frate : Z) : Prop := {
  sr_idle : pool_idle (pool s) q;
  sr_table : table_ok (pool s);
  sr_boffset : 0 < boffset (ph (pool s));
  sr_stat : exists b, mem_read (pinfo (ph (pool s))) ATTRIB_STAT 4 = Some b /\ le32 b = ENC_STAT_OK;
  sr_frate : exists b, mem_read (pinfo (ph (pool s))) ATTRIB_FRATE 4 = Some b /\ le32 b = frate
}.

(** Some reader slot of the pool is free. *)
Definition slot_free (w : world) : Prop := exists i u, geti (users (ph w)) i = Some u /\ valid u = 0.

Lemma mv_cursor_back p w u n k :
  geti (users (ph w)) (userno p) = Some u -> 0 < n -> (0 < k)%nat ->
  0 <= head (ph w) < SHPOOL_MAX_ELE -> Z.of_nat k < SHPOOL_MAX_ELE ->
  curele u = (head (ph w) + Z.of_nat k) mod SHPOOL_MAX_ELE ->
  exists moved, mv_cursor p (- n) w =
    Ret moved (with_cursor (userno p)
                 ((head (ph w) + Z.of_nat (k - Z.to_nat n)) mod SHPOOL_MAX_ELE) w).
Proof.
  intros Hu Hn Hk Hh Hb Hc. unfold mv_cursor.
  erewrite bind_ret; [|unfold get_user; cbn; rewrite Hu; reflexivity].
  erewrite bind_ret; [|reflexivity]. destruct (Z.ltb_spec (- n) 0); [|lia].
  rewrite Hc, mv_older_spec by lia. rewrite Z.opp_involutive.
  eexists. erewrite bind_ret; [reflexivity|]. unfold set_user. cbn. rewrite Hu. reflexivity.
Qed.

Section Connect.
Variables (core : Z -> core_attach) (pid now : Z).
Implicit Types (s : src_st) (q : list frame).

Lemma connect_read_spec s q frate uoffset key name :
  source_ready s q frate -> slot_free (pool s) -> dev_stat (media s) < 0 ->
  0 <= key -> core key = Core uoffset -> 0 < uoffset ->
  exists s', connect_media_read core pid now key (Some name) MSHMPOOL_NET_USR s = Ret 0 s' /\
    pinfo (ph (pool s')) = pinfo (ph (pool s)) /\ reading s' q (length q) /\
    dev_stat (media s') = 0 /\ attrib (media s') = true /\ php (mpool (media s')) = true.
Proof.
  intros [Hi Ht Hb Hst Hfr] (i & u & Hu & Hv) Hd Hk Hcore Huo.
  unfold connect_media_read. rewrite (bind_ret _ _ s s s) by done.
  rewrite (proj2 (Z.ltb_lt _ _) Hd).
  destruct (Req_spec (pool s) q uoffset key (Some name) MSHMPOOL_NET_USR pid now (mpool (media s)) Hi Ht Hk Huo Hb)
    as (rc & p & w & Hreq & Hi' & Ht' & Hinfo & Hcase).
  destruct Hcase as [(-> & Hmc & Hphp & _ & Hsync & _)|(_ & _ & _ & Hall)];
    [|exfalso; by apply (Hall i u Hu)].
  set (s1 := (s <| pool := w |>) <| media ::= set_pool p |>).
  assert (Ha : attach_media_device core pid now key (Some name) MSHMPOOL_NET_USR s = Ret 0 s1).
  { unfold attach_media_device. destruct (Z.ltb_spec key 0); [lia|].
    change (negb (MSHMPOOL_NET_USR =? MSHMPOOL_LOCAL_USR) && negb (MSHMPOOL_NET_USR =? MSHMPOOL_NET_USR)) with false.
    cbv iota. rewrite (bind_ret _ _ s s s) by done.
    rewrite Hcore, (bind_ret _ _ _ _ _ (on_pool_ret _ _ _ _ Hreq)). done. }
  rewrite (bind_ret _ _ _ _ _ Ha). change (0 <=? 0) with true. cbv iota.
  eexists. split; [reflexivity|]. split; [exact Hinfo|]. split; [|done].
  split; [exact Hi'|]. split; [exact Hmc|]. split; [done|].
  destruct Hsync as (_ & Hok & Hl & gone & u' & Hg & Hu' & _ & Hc & Hs).
  exists u'. split; [split_and!; done|]. cbn. rewrite Hc.
  cbn [length]. rewrite Z.sub_0_r.
  destruct (pool_rep_tail _ _ _ (proj1 Hi')) as (-> & _ & _). by rewrite Zmod_mod.
Qed.

Lemma attrib_word_spec s off b :
  attrib (media s) = true -> mem_read (pinfo (ph (pool s))) off 4 = Some b ->
  attrib_word off s = Ret (le32 b) s.
Proof.
  intros Ha Hb. unfold attrib_word. rewrite (bind_ret _ _ s s s) by done. rewrite Ha.
  by rewrite (bind_ret _ _ s b s) by (by rewrite Hb).
Qed.

Lemma record_stat_spec ch s b :
  ch < MAX_RECORD_CHANNEL_M -> dev_stat (media s) = 0 -> attrib (media s) = true ->
  mem_read (pinfo (ph (pool s))) ATTRIB_STAT 4 = Some b ->
  get_record_venc_stat ch s = Ret (le32 b) s.
Proof.
  intros Hch Hd Ha Hb. unfold get_record_venc_stat. rewrite (bind_ret _ _ s s s) by done.
  rewrite (proj2 (Z.leb_gt _ _) Hch), Hd, Ha. by apply attrib_word_spec.
Qed.

Lemma connect_record_spec s q frate uoffset ch name pre :
  source_ready s q frate -> slot_free (pool s) -> dev_stat (media s) < 0 ->
  0 <= ch < MAX_RECORD_CHANNEL_M -> core (get_video_record_key ch) = Core uoffset -> 0 < uoffset ->
  0 < frate * pre -> q <> [] ->
  exists s', connect_video_record_enc core pid now ch name pre s = Ret 0 s' /\
    pinfo (ph (pool s')) = pinfo (ph (pool s)) /\
    reading s' q (length q - Z.to_nat (frate * pre)) /\
    dev_stat (media s') = 0 /\ attrib (media s') = true.
Proof.
  intros Hsr Hfree Hd Hch Hcore Huo Hpre Hq. pose proof Hsr as [_ _ _ (b1 & Hb1 & Hst) (b2 & Hb2 & Hfr)].
  unfold connect_video_record_enc. rewrite (proj2 (Z.leb_gt _ _) (proj2 Hch)).
  assert (Hkey : 0 <= get_video_record_key ch).
  { unfold MAX_RECORD_CHANNEL_M in Hch. unfold get_video_record_key.
    destruct (_ || _) eqn:E; [lia|]. exfalso. revert E. zcase. }
  destruct (connect_read_spec s q frate uoffset _ name Hsr Hfree Hd Hkey Hcore Huo)
    as (s1 & H1 & Hinfo & Hread & Hd1 & Ha1 & Hp1).
  rewrite (bind_ret _ _ _ _ _ H1). change (0 <=? 0) with true. cbv iota.
  rewrite <- Hinfo in Hb1, Hb2.
  rewrite (bind_assoc (get_record_venc_stat ch)).
  rewrite (bind_ret _ _ _ _ _ (record_stat_spec ch s1 b1 (proj2 Hch) Hd1 Ha1 Hb1)), Hst.
  change (ENC_STAT_OK =? ENC_STAT_OK) with true. cbv iota.
  assert (Hga : get_venc_attrib_record ch s1 = Ret true s1).
  { unfold get_venc_attrib_record. rewrite (bind_ret _ _ s1 s1 s1) by done.
    rewrite (proj2 (Z.leb_gt _ _) (proj2 Hch)), Hd1, Ha1. done. }
  rewrite bind_assoc, (bind_ret _ _ _ _ _ Hga), bind_assoc.
  rewrite (bind_ret _ _ _ _ _ (attrib_word_spec s1 _ b2 Ha1 Hb2)), Hfr, bind_assoc.
  pose proof Hread as (Hi1 & Hmc1 & _ & u1 & (_ & _ & Hu1 & _) & Hc1).
  destruct (pool_rep_tail _ _ _ (proj1 Hi1)) as (_ & Hhd & Hlen).
  assert (Hq' : (0 < length q)%nat) by (destruct q; [done | cbn; lia]).
  destruct (mv_cursor_back (mpool (media s1)) (pool s1) u1 (frate * pre) (length q) Hu1 Hpre Hq' Hhd Hlen Hc1)
    as (moved & Hmv).
  assert (Hmt : moveto_media_packet (- (frate * pre)) s1 = Ret moved
    (s1 <| pool := with_cursor (userno (mpool (media s1)))
       ((head (ph (pool s1)) + Z.of_nat (length q - Z.to_nat (frate * pre))) mod SHPOOL_MAX_ELE) (pool s1) |>)).
  { unfold moveto_media_packet. rewrite (bind_ret _ _ s1 s1 s1) by done. apply on_pool_ret.
    unfold MShmPoolMvNewPlace. by rewrite Hmc1, Hp1. }
  rewrite (bind_ret _ _ _ _ _ Hmt). eexists. split; [reflexivity|].
  split; [exact Hinfo|]. split; [|done]. apply (reading_cursor _ _ (length q)); [done | lia].
Qed.

Variable sleep : M src_st ().

(** Connecting again: every round gets -1 and sleeps. *)
Lemma connect_connected ch name pre s :
  0 <= dev_stat (media s) -> connect_video_record_enc core pid now ch name pre s =
    Ret (if MAX_RECORD_CHANNEL_M <=? ch then - EINVAL else -1) s.
Proof.
  intros Hd. unfold connect_video_record_enc. destruct (MAX_RECORD_CHANNEL_M <=? ch); [done|].
  assert (Hr : connect_media_read core pid now (get_video_record_key ch) (Some name) MSHMPOOL_NET_USR s = Ret (-1) s).
  { unfold connect_media_read. rewrite (bind_ret _ _ s s s) by done.
    by rewrite (proj2 (Z.ltb_ge _ _) Hd). }
  by rewrite (bind_ret _ _ _ _ _ Hr).
Qed.
End Connect.

(** C17. The recorder gets the seconds before the alarm: connecting with [pre]
    seconds to a pool whose encoder makes [frate] frames a second returns, and the
    reads that follow give the last [frate * pre] frames the pool holds, or all it
    has, oldest first and each once; then the reader waits for the next frame. *)
Theorem connect_reads_back core pid now sleep fuel ch name pre s q frate uoffset blen :
  let n := Nat.min (length q) (Z.to_nat (frate * pre)) in
  source_ready s q frate -> slot_free (pool s) -> dev_stat (media s) < 0 ->
  0 <= ch < MAX_RECORD_CHANNEL_M -> core (get_video_record_key ch) = Core uoffset -> 0 < uoffset ->
  0 < frate * pre -> q <> [] -> Forall (fun f => zlen (f_data f) <= blen) q -> 0 <= blen ->
  exists s1 s2,
    connect_video_record_enc_succ core pid now sleep (S fuel) ch name pre s = Ret ENC_STAT_OK s1 /\
    read_frames n blen s1 = Ret (map frame_packet (drop (length q - n) q)) s2 /\
    pool_idle (pool s2) q /\ read_video_record_frame false blen s2 = Blocked s2.
Proof.
  intros n Hsr Hfree Hd Hch Hcore Huo Hpre Hq Hblen Hb.
  destruct (connect_record_spec core pid now s q frate uoffset ch name pre Hsr Hfree Hd Hch Hcore Huo Hpre Hq)
    as (s1 & Hc & Hinfo & Hread & Hd1 & Ha1).
  destruct Hsr as [_ _ _ (b & Hst & Hok) _]. rewrite <- Hinfo in Hst.
  assert (Hn : (length q - Z.to_nat (frate * pre) + n = length q)%nat) by lia.
  destruct (read_frames_spec n s1 q _ blen Hread ltac:(lia) Hblen) as (s2 & Hr & Hread2 & _).
  exists s1, s2. split_and!.
  - unfold connect_video_record_enc_succ. rewrite (proj2 (Z.leb_gt _ _) (proj2 Hch)).
    cbn [connect_loop stat_loop]. rewrite bind_assoc, (bind_ret _ _ _ _ _ Hc).
    rewrite (bind_ret _ _ s1 () s1) by done.
    rewrite (bind_ret _ _ _ _ _ (record_stat_spec ch s1 b (proj2 Hch) Hd1 Ha1 Hst)). by rewrite Hok.
  - rewrite Hr. f_equal. f_equal. rewrite take_ge by (rewrite length_drop; lia). f_equal. lia.
  - apply Hread2.
  - apply (read_waits s2 q); [by rewrite <- Hn | done].
Qed.

(** While nobody else disconnects the source, the connecting loop goes on. *)
Lemma loop_connected core pid now sleep fuel ch name pre s :
  (forall s, 0 <= dev_stat (media s) -> exists s', sleep s = Ret () s' /\ 0 <= dev_stat (media s')) ->
  0 <= ch < MAX_RECORD_CHANNEL_M -> 0 <= dev_stat (media s) ->
  exists s', connect_loop core pid now sleep fuel ch name pre s = Blocked s' /\ 0 <= dev_stat (media s').
Proof.
  intros Hsleep Hch. revert s. induction fuel as [|fuel IH]; intros s Hd; cbn [connect_loop]; [by exists s|].
  rewrite (bind_ret _ _ _ _ _ (connect_connected core pid now ch name pre s Hd)).
  rewrite (proj2 (Z.leb_gt _ _) (proj2 Hch)). change (-1 =? 0) with false. cbv iota.
  destruct (Hsleep s Hd) as (s1 & Hs & Hd1). rewrite (bind_ret _ _ _ _ _ Hs). by apply IH.
Qed.

(** A source that is connected cannot be connected again: the call repeats a
    request that is always refused, and does not return whatever the rest of the
    system does, unless it disconnects the source meanwhile. *)
Theorem reconnect_never_returns core pid now sleep fuel ch name pre s :
  (forall s, 0 <= dev_stat (media s) -> exists s', sleep s = Ret () s' /\ 0 <= dev_stat (media s')) ->
  0 <= ch < MAX_RECORD_CHANNEL_M -> 0 <= dev_stat (media s) ->
  exists s', connect_video_record_enc_succ core pid now sleep fuel ch name pre s = Blocked s' /\
    0 <= dev_stat (media s').
Proof.
  intros Hsleep Hch Hd. unfold connect_video_record_enc_succ. rewrite (proj2 (Z.leb_gt _ _) (proj2 Hch)).
  destruct (loop_connected core pid now sleep fuel ch name pre s Hsleep Hch Hd) as (s' & H & Hd').
  exists s'. split; [|done]. cbv [mbind M_bind]. by rewrite H.
Qed.

(** ** Witnesses *)

Definition attrib_info (frate : Z) : list Z :=
  bytes32 MEDIA_TYPE_VIDEO ++ bytes32 ENC_STAT_OK ++ replicate 16 0 ++ bytes32 frate ++ replicate 484 0.

Definition fresh_source : media_source_t :=
  {| media_type := 0; no := 0; dev_stat := -1; thread_id := -1; mpool := producer;
     temp_buf := None; buflen := 1024; attrib := false |}.

(** A pool of 6 blocks with two frames, the second with the byte 3. *)
Definition frame1 : frame := {| f_num := 2; f_flag := 1; f_data := [3] |}.

Definition two_frame_world : world :=
  match MShmPoolAddResource producer (Some [3]) 1 1 one_frame_world with
  | Ret _ w => w
  | _ => one_frame_world
  end.

Lemma two_frame_sync : reader_sync two_frame_world 0 [frame0; frame1] [frame0; frame1].
Proof.
  destruct (reader_sync_add producer one_frame_world 0 [frame0] [frame0] [3] 1 1 [frame0; frame1])
    as (w' & H & Hs & _); [apply one_frame_sync | cbn; lia | by vm_compute | by vm_compute | cbn; lia |].
  unfold two_frame_world. by rewrite H.
Qed.

Definition two_frame_source : src_st :=
  {| pool := set_ph (set_pinfo (attrib_info 1) (ph two_frame_world)) two_frame_world;
     media := fresh_source |}.

(** Every key leads to the pool. *)
Definition core64 : Z -> core_attach := fun _ => Core 64.

Lemma idle_pinfo w q i : pool_idle w q -> pool_idle (set_ph (set_pinfo i (ph w)) w) q.
Proof. intros [Hr Hm]. split; [by apply pool_rep_pinfo | exact Hm]. Qed.

Lemma table_pinfo w i : table_ok w -> table_ok (set_ph (set_pinfo i (ph w)) w).
Proof. by intros. Qed.

Lemma two_frame_ready : source_ready two_frame_source [frame0; frame1] 1.
Proof.
  destruct two_frame_sync as (Hidle & Hok). unfold two_frame_source. constructor; cbn [pool].
  - by apply idle_pinfo.
  - apply table_pinfo. split; [apply Hok|]. split_and!; by vm_compute.
  - by vm_compute.
  - exists (bytes32 ENC_STAT_OK). split; vm_compute; reflexivity.
  - exists (bytes32 1). split; vm_compute; reflexivity.
Qed.

Lemma connect_reads_back_witness :
  exists s1 s2, connect_video_record_enc_succ core64 77 0 (mret ()) 1 0 [] 1 two_frame_source = Ret ENC_STAT_OK s1 /\
    read_frames 1 10 s1 = Ret [{| pk_data := [3]; pk_seq := 2; pk_flag := 1 |}] s2.
Proof.
  destruct (connect_reads_back core64 77 0 (mret ()) 0 0 [] 1 two_frame_source [frame0; frame1] 1 64 10)
    as (s1 & s2 & H1 & H2 & _); [apply two_frame_ready | | done | done | done | done | done | done | | done |].
  - exists 1, zero_usr. split; by vm_compute.
  - repeat constructor; cbn; lia.
  - exists s1, s2. by split.
Defined.

Lemma reconnect_never_returns_witness :
  exists s', connect_video_record_enc_succ core64 77 0 (mret ()) 100 0 [] 0
    (two_frame_source <| media ::= fun m => m <| dev_stat := 0 |> |>) = Blocked s' /\ 0 <= dev_stat (media s').
Proof.
  apply (reconnect_never_returns core64 77 0 (mret ()) 100 0 [] 0); [eauto | done | done].
Defined.
