(* ===== verification/Ctime.v ===== *)
(** * Calendar time (the calls of time.h the recorder uses)

    [time_t] is a count of seconds in 32 bits.  The zone is a fixed offset [tz],
    in seconds east of Greenwich; [localtime] and [mktime] follow the Gregorian
    calendar from it.  [mktime] carries a field that is out of its range into the
    next one, as the C library does. *)

From S2P Require Import Prelude.

Record tm := {
  tm_year : Z; tm_mon : Z; tm_mday : Z; tm_hour : Z; tm_min : Z; tm_sec : Z
}.

(** Days since 1970-01-01 of the day [d] of month [m] (from 1) of year [y]. *)
Definition days_from_civil (y m d : Z) : Z :=
  let y := if m <=? 2 then y - 1 else y in
  let era := y / 400 in
  let yoe := y mod 400 in
  let doy := (153 * (if m <=? 2 then m + 9 else m - 3) + 2) / 5 + d - 1 in
  era * 146097 + (yoe * 365 + yoe / 4 - yoe / 100 + doy) - 719468.

(** The year of the 400-year era that its day [doe] is in, the day of that year
    (from 1 March), and the month of that day. *)
Definition year_of_era (doe : Z) : Z := (doe - doe / 1460 + doe / 36524 - doe / 146096) / 365.
Definition day_of_year (doe : Z) : Z :=
  doe - (365 * year_of_era doe + year_of_era doe / 4 - year_of_era doe / 100).
Definition month_of_day (doy : Z) : Z := (5 * doy + 2) / 153.

Definition civil_from_days (z : Z) : Z * Z * Z :=
  let z := z + 719468 in
  let era := z / 146097 in
  let doe := z mod 146097 in
  let doy := day_of_year doe in
  let mp := month_of_day doy in
  let m := if mp <? 10 then mp + 3 else mp - 9 in
  let y := year_of_era doe + era * 400 in
  (if m <=? 2 then y + 1 else y, m, doy - (153 * mp + 2) / 5 + 1).

Definition localtime (tz t : Z) : tm :=
  let days := (t + tz) / 86400 in
  let sod := (t + tz) mod 86400 in
  let '(y, m, d) := civil_from_days days in
  {| tm_year := y - 1900; tm_mon := m - 1; tm_mday := d;
     tm_hour := sod / 3600; tm_min := sod / 60 mod 60; tm_sec := sod mod 60 |}.

Definition mktime (tz : Z) (p : tm) : Z :=
  let y := tm_year p + 1900 + tm_mon p / 12 in
  let m := tm_mon p mod 12 + 1 in
  let t := (days_from_civil y m 1 + tm_mday p - 1) * 86400
           + tm_hour p * 3600 + tm_min p * 60 + tm_sec p - tz in
  if (- 2 ^ 31 <=? t) && (t <? 2 ^ 31) then t else -1.

(** ** [mktime] and [localtime] are inverse *)

Section Calendar.

Lemma year_of_era_range doe : 0 <= doe < 146097 -> 0 <= year_of_era doe < 400.
Proof. unfold year_of_era. intros. Z.div_mod_to_equations. lia. Qed.

Lemma day_of_year_range doe : 0 <= doe < 146097 -> 0 <= day_of_year doe <= 365.
Proof. unfold day_of_year, year_of_era. intros. Z.div_mod_to_equations. lia. Qed.

Lemma month_of_day_range doy : 0 <= doy <= 365 -> 0 <= month_of_day doy <= 11.
Proof. unfold month_of_day. intros. Z.div_mod_to_equations. lia. Qed.

Lemma civil_from_days_range z y m d :
  civil_from_days z = (y, m, d) -> 1 <= m <= 12 /\ 1 <= d <= 31.
Proof.
  unfold civil_from_days. cbv zeta. intros [= <- <- <-].
  pose proof (Z.mod_pos_bound (z + 719468) 146097 ltac:(lia)) as Hdoe.
  pose proof (day_of_year_range _ Hdoe) as Hdoy.
  pose proof (month_of_day_range _ Hdoy) as Hmp.
  unfold month_of_day in *. set (doy := day_of_year _) in *. clearbody doy.
  split; [zcase | Z.div_mod_to_equations; lia].
Qed.

Lemma civil_year_range z y m d :
  civil_from_days z = (y, m, d) -> -24857 <= z <= 24857 -> 1900 <= y <= 2040.
Proof.
  unfold civil_from_days. cbv zeta. intros [= <- <- <-] Hz.
  assert (Hy : 1900 <= year_of_era ((z + 719468) mod 146097) + (z + 719468) / 146097 * 400 <= 2039).
  { unfold year_of_era. Z.div_mod_to_equations. lia. }
  match goal with |- context [if ?c then _ else _] => destruct c end; lia.
Qed.

(** The day of a date from which [civil_from_days] computed it. *)
Lemma days_of_civil z y m d :
  civil_from_days z = (y, m, d) -> days_from_civil y m d = z.
Proof.
  unfold civil_from_days, days_from_civil. cbv zeta. intros [= <- <- <-].
  pose proof (Z.mod_pos_bound (z + 719468) 146097 ltac:(lia)) as Hdoe.
  pose proof (day_of_year_range _ Hdoe) as Hdoy.
  pose proof (month_of_day_range _ Hdoy) as Hmp.
  pose proof (year_of_era_range _ Hdoe) as Hyoe.
  set (era := (z + 719468) / 146097) in *.
  set (doe := (z + 719468) mod 146097) in *.
  set (mp := month_of_day (day_of_year doe)) in *.
  set (m := if mp <? 10 then mp + 3 else mp - 9).
  assert (Hm : (if m <=? 2 then m + 9 else m - 3) = mp) by (unfold m; zcase).
  rewrite Hm.
  set (yoe := year_of_era doe) in *.
  assert (Hy : (if m <=? 2 then (if m <=? 2 then yoe + era * 400 + 1 else yoe + era * 400) - 1
                else (if m <=? 2 then yoe + era * 400 + 1 else yoe + era * 400))
               = yoe + era * 400) by (zcase).
  rewrite Hy.
  replace ((yoe + era * 400) / 400) with era by (Z.div_mod_to_equations; lia).
  replace ((yoe + era * 400) mod 400) with yoe by (Z.div_mod_to_equations; lia).
  assert (Hd : day_of_year doe = doe - (365 * yoe + yoe / 4 - yoe / 100)) by done.
  assert (Hz : z + 719468 = era * 146097 + doe)
    by (unfold era, doe; rewrite (Z.div_mod (z + 719468) 146097) at 1; lia).
  lia.
Qed.

Lemma mktime_localtime tz t :
  - 2 ^ 31 <= t < 2 ^ 31 -> mktime tz (localtime tz t) = t.
Proof.
  intros Ht. unfold localtime.
  destruct (civil_from_days ((t + tz) / 86400)) as [[y m] d] eqn:Hc.
  pose proof (civil_from_days_range _ _ _ _ Hc) as [Hm Hd].
  pose proof (days_of_civil _ _ _ _ Hc) as Hdays.
  unfold mktime. cbn [tm_year tm_mon tm_mday tm_hour tm_min tm_sec].
  rewrite (Z.div_small (m - 1) 12), (Z.mod_small (m - 1) 12) by lia.
  replace (y - 1900 + 1900 + 0) with y by lia.
  replace (m - 1 + 1) with m by lia.
  assert (Hlin : days_from_civil y m d = days_from_civil y m 1 + d - 1)
    by (unfold days_from_civil; cbv zeta; lia).
  set (D := days_from_civil y m 1) in *.
  assert (Hsum : (D + d - 1) * 86400 + (t + tz) mod 86400 / 3600 * 3600
    + (t + tz) mod 86400 / 60 mod 60 * 60 + (t + tz) mod 86400 mod 60 - tz = t).
  { rewrite <- Hlin, Hdays. Z.div_mod_to_equations. lia. }
  rewrite Hsum. zcase.
Qed.

(** What the fields of a time are made of: two digits each, four for the year. *)
Definition tm_ok (p : tm) : Prop :=
  1900 <= tm_year p + 1900 <= 2040 /\ 0 <= tm_mon p <= 11 /\ 1 <= tm_mday p <= 31 /\
  0 <= tm_hour p <= 23 /\ 0 <= tm_min p <= 59 /\ 0 <= tm_sec p <= 59.

Lemma localtime_ok tz t :
  - 2 ^ 31 <= t < 2 ^ 31 -> - 86400 <= tz <= 86400 -> tm_ok (localtime tz t).
Proof.
  intros Ht Htz. unfold localtime.
  destruct (civil_from_days ((t + tz) / 86400)) as [[y m] d] eqn:Hc.
  pose proof (civil_from_days_range _ _ _ _ Hc) as [Hm Hd].
  assert (1900 <= y <= 2040).
  { apply (civil_year_range _ _ _ _ Hc). Z.div_mod_to_equations. lia. }
  unfold tm_ok. cbn [tm_year tm_mon tm_mday tm_hour tm_min tm_sec].
  Z.div_mod_to_equations. lia.
Qed.

(** ** The order of times is that of their fields *)

(** The number whose digits are the fields, year first. *)
Definition date_number (p : tm) : Z :=
  ((((tm_year p + 1900) * 100 + tm_mon p + 1) * 100 + tm_mday p) * 100 + tm_hour p) * 10000
  + tm_min p * 100 + tm_sec p.

(** A later day of an era is a later date: in a later year of the era, or in a later
    month, or a later day of the month. *)
Lemma year_of_era_mono d d' : 0 <= d <= d' -> d' < 146097 -> year_of_era d <= year_of_era d'.
Proof. unfold year_of_era. intros. apply Z.div_le_mono; [lia|]. Z.div_mod_to_equations. lia. Qed.

Lemma month_order x y : 0 <= x < y -> y <= 365 ->
  month_of_day x < month_of_day y \/
  month_of_day x = month_of_day y /\ x - (153 * month_of_day x + 2) / 5 < y - (153 * month_of_day y + 2) / 5.
Proof.
  intros Hx Hy. unfold month_of_day.
  assert ((5 * x + 2) / 153 <= (5 * y + 2) / 153) by (apply Z.div_le_mono; lia).
  destruct (Z.eq_dec ((5 * x + 2) / 153) ((5 * y + 2) / 153)) as [He | He]; [right | left; lia].
  split; [done|]. rewrite He. lia.
Qed.

Definition civil_number (c : Z * Z * Z) : Z := let '(y, m, d) := c in (y * 100 + m) * 100 + d.

Lemma civil_mono z z' : z < z' -> civil_number (civil_from_days z) < civil_number (civil_from_days z').
Proof.
  intros Hz. unfold civil_from_days, civil_number. cbv zeta.
  pose proof (Z.mod_pos_bound (z + 719468) 146097 ltac:(lia)) as Hd.
  pose proof (Z.mod_pos_bound (z' + 719468) 146097 ltac:(lia)) as Hd'.
  assert (Hera : (z + 719468) / 146097 < (z' + 719468) / 146097 \/
    (z + 719468) / 146097 = (z' + 719468) / 146097 /\ (z + 719468) mod 146097 < (z' + 719468) mod 146097)
    by (Z.div_mod_to_equations; lia).
  set (era := (z + 719468) / 146097) in *. set (era' := (z' + 719468) / 146097) in *.
  set (doe := (z + 719468) mod 146097) in *. set (doe' := (z' + 719468) mod 146097) in *.
  clearbody era era' doe doe'. clear Hz z z'.
  pose proof (year_of_era_range _ Hd) as Hy. pose proof (year_of_era_range _ Hd') as Hy'.
  pose proof (day_of_year_range _ Hd) as Hn. pose proof (day_of_year_range _ Hd') as Hn'.
  pose proof (month_of_day_range _ Hn) as Hm. pose proof (month_of_day_range _ Hn') as Hm'.
  assert (Hord : era * 400 + year_of_era doe < era' * 400 + year_of_era doe' \/
    era * 400 + year_of_era doe = era' * 400 + year_of_era doe' /\ day_of_year doe < day_of_year doe').
  { destruct Hera as [Hera | [-> Hdoe]]; [left; lia|].
    pose proof (year_of_era_mono doe doe' ltac:(lia) ltac:(lia)).
    destruct (Z.eq_dec (year_of_era doe) (year_of_era doe')) as [He | He]; [right | left; lia].
    split; [lia|]. unfold day_of_year. rewrite He. lia. }
  set (x := day_of_year doe) in *. set (x' := day_of_year doe') in *.
  set (y := year_of_era doe) in *. set (y' := year_of_era doe') in *. clearbody x x' y y'.
  assert (Hday : 0 <= x - (153 * month_of_day x + 2) / 5 <= 30) by (unfold month_of_day; Z.div_mod_to_equations; lia).
  assert (Hday' : 0 <= x' - (153 * month_of_day x' + 2) / 5 <= 30) by (unfold month_of_day; Z.div_mod_to_equations; lia).
  assert (Hord' : era * 400 + y < era' * 400 + y' \/
    era * 400 + y = era' * 400 + y' /\
    (month_of_day x < month_of_day x' \/
     month_of_day x = month_of_day x' /\ x - (153 * month_of_day x + 2) / 5 < x' - (153 * month_of_day x' + 2) / 5)).
  { destruct Hord as [? | [? ?]]; [by left | right]. split; [done|]. apply month_order; lia. }
  clear Hord Hera. set (q := x - _) in *. set (q' := x' - _) in *.
  set (mp := month_of_day x) in *. set (mp' := month_of_day x') in *. clearbody q q' mp mp'.
  destruct (Z.ltb_spec mp 10), (Z.ltb_spec mp' 10); zcase.
Qed.

Lemma localtime_mono tz t t' : t < t' -> date_number (localtime tz t) < date_number (localtime tz t').
Proof.
  intros Ht. unfold localtime, date_number.
  destruct (civil_from_days ((t + tz) / 86400)) as [[y m] d] eqn:Hc.
  destruct (civil_from_days ((t' + tz) / 86400)) as [[y' m'] d'] eqn:Hc'.
  cbn [tm_year tm_mon tm_mday tm_hour tm_min tm_sec].
  pose proof (Z.mod_pos_bound (t + tz) 86400 ltac:(lia)) as Hs.
  pose proof (Z.mod_pos_bound (t' + tz) 86400 ltac:(lia)) as Hs'.
  assert (Hday : (t + tz) / 86400 < (t' + tz) / 86400 \/
    (t + tz) / 86400 = (t' + tz) / 86400 /\ (t + tz) mod 86400 < (t' + tz) mod 86400)
    by (Z.div_mod_to_equations; lia).
  set (s := (t + tz) mod 86400) in *. set (s' := (t' + tz) mod 86400) in *.
  assert (Hciv : (y * 100 + m) * 100 + d < (y' * 100 + m') * 100 + d' \/
    y = y' /\ m = m' /\ d = d' /\ s < s').
  { destruct Hday as [Hday | [Hday Hsec]].
    - left. pose proof (civil_mono _ _ Hday) as Hm. by rewrite Hc, Hc' in Hm.
    - right. rewrite Hday, Hc' in Hc. by injection Hc as -> -> ->. }
  clearbody s s'. Z.div_mod_to_equations. lia.
Qed.

End Calendar.
