(* ===== verification/Cstring.v ===== *)
(** * C strings

    A string is the list of its characters without the final NUL; an area of
    [char] that holds one may have a NUL inside ([cstring] is the string it
    holds).  The conversions of printf and atoi are those the recorder's file
    names use. *)

From Stdlib Require Import Ascii String.
From S2P Require Import Prelude.

Definition cstr := list ascii.
Abbreviation lit s := (list_ascii_of_string s%string).

Definition NUL : ascii := "000"%char.

#[export] Instance ascii_eq_dec : EqDecision ascii := ascii_dec.

(** The string an area holds: its characters up to the first NUL. *)
Fixpoint cstring (a : list ascii) : cstr :=
  match a with
  | [] => []
  | c :: a => if Ascii.eqb c NUL then [] else c :: cstring a
  end.

(** The offset of the first [c]. *)
Fixpoint strchr (s : cstr) (c : ascii) : option nat :=
  match s with
  | [] => None
  | c' :: s => if Ascii.eqb c' c then Some O else S <$> strchr s c
  end.

Fixpoint is_prefix (p s : cstr) : bool :=
  match p, s with
  | [], _ => true
  | a :: p, b :: s => Ascii.eqb a b && is_prefix p s
  | _, [] => false
  end.

(** The offset of the first occurrence of [p]. *)
Fixpoint strstr (s p : cstr) : option nat :=
  if is_prefix p s then Some O
  else match s with [] => None | _ :: s => S <$> strstr s p end.

Definition ord (c : ascii) : Z := Z.of_nat (nat_of_ascii c).
Definition chr (z : Z) : ascii := ascii_of_nat (Z.to_nat z).

Definition isdigit (c : ascii) : bool := (48 <=? ord c) && (ord c <=? 57).
Definition isupper (c : ascii) : bool := (65 <=? ord c) && (ord c <=? 90).
Definition islower (c : ascii) : bool := (97 <=? ord c) && (ord c <=? 122).
Definition isalnum (c : ascii) : bool := isdigit c || isupper c || islower c.
Definition isspace (c : ascii) : bool := (ord c =? 32) || ((9 <=? ord c) && (ord c <=? 13)).
Definition toupper (c : ascii) : ascii := if islower c then chr (ord c - 32) else c.

Fixpoint atoi_digits (acc : Z) (s : cstr) : Z :=
  match s with
  | c :: s => if isdigit c then atoi_digits (acc * 10 + (ord c - 48)) s else acc
  | [] => acc
  end.

Fixpoint atoi (s : cstr) : Z :=
  match s with
  | [] => 0
  | c :: s' =>
      if isspace c then atoi s'
      else if ord c =? 45 then - atoi_digits 0 s'
      else if ord c =? 43 then atoi_digits 0 s'
      else atoi_digits 0 s
  end.

(** The digit [d] in upper case, as [%d] and [%X] print it. *)
Definition digit (d : Z) : ascii := if d <? 10 then chr (48 + d) else chr (55 + d).

Fixpoint digits (fuel : nat) (base n : Z) (acc : cstr) : cstr :=
  match fuel with
  | O => acc
  | S fuel =>
      let acc := digit (n mod base) :: acc in
      if n / base =? 0 then acc else digits fuel base (n / base) acc
  end.

Definition zeros (w : nat) (s : cstr) : cstr := replicate (w - length s) "0"%char ++ s.

(** [%0<w>d] and [%0<w>X] of an [int]; a number of 32 bits has at most 32 digits
    in any base. *)
Definition fmt_d (w : nat) (z : Z) : cstr :=
  if z <? 0 then "-"%char :: zeros (w - 1) (digits 32 10 (- z) [])
  else zeros w (digits 32 10 z []).
Definition fmt_X (w : nat) (z : Z) : cstr := zeros w (digits 32 16 (u32 z) []).

Lemma strstr_head p s : is_prefix p s = true -> strstr s p = Some O.
Proof. intros H. destruct s; cbn [strstr]; by rewrite H. Qed.

(** A search goes past characters that are not the first one looked for. *)
Lemma strstr_skip_ne s t c p : Forall (fun x => x <> c) s ->
  strstr (s ++ t) (c :: p) = Nat.add (length s) <$> strstr t (c :: p).
Proof.
  intros Hs. induction Hs as [|c' s Hc' Hs IH].
  - cbn [app length]. by destruct (strstr t (c :: p)).
  - cbn [app strstr is_prefix length].
    destruct (Ascii.eqb_spec c c') as [-> | _]; [done|]. cbn [andb].
    rewrite IH. by destruct (strstr t (c :: p)).
Qed.

(** ** What printing gives *)

(** The number a string of digits stands for. *)
Definition digit_val (c : ascii) : Z := if isdigit c then ord c - 48 else ord c - 55.
Definition val (base : Z) (s : cstr) : Z :=
  fold_left (fun a c => a * base + digit_val c) s 0.

Definition is_digit (base : Z) (c : ascii) : Prop := exists d, 0 <= d < base /\ c = digit d.

Section Digits.

Lemma digit_facts d :
  0 <= d < 16 -> digit_val (digit d) = d /\ isdigit (digit d) = (d <? 10) /\
    isalnum (digit d) = true /\ isspace (digit d) = false /\
    (ord (digit d) =? 45) = false /\ (ord (digit d) =? 43) = false.
Proof.
  intros. assert (d = 0 \/ d = 1 \/ d = 2 \/ d = 3 \/ d = 4 \/ d = 5 \/ d = 6 \/ d = 7 \/ d = 8
    \/ d = 9 \/ d = 10 \/ d = 11 \/ d = 12 \/ d = 13 \/ d = 14 \/ d = 15) as Hd by lia.
  repeat destruct Hd as [-> | Hd]; [..|subst]; vm_compute; repeat split.
Qed.

Lemma val_app base s t : val base (s ++ t) = val base s * base ^ zlen t + val base t.
Proof.
  unfold val. rewrite fold_left_app. generalize (fold_left (fun a c => a * base + digit_val c) s 0).
  assert (Hgen : forall l a, fold_left (fun a c => a * base + digit_val c) l a
    = a * base ^ zlen l + fold_left (fun a c => a * base + digit_val c) l 0).
  { induction l as [|c l IH]; intros a; cbn [fold_left length].
    - change (Z.of_nat 0) with 0. rewrite Z.pow_0_r. lia.
    - rewrite IH, (IH (0 * base + digit_val c)), Nat2Z.inj_succ, Z.pow_succ_r by lia. ring. }
  intros z. apply Hgen.
Qed.

Lemma digits_spec fuel base n acc :
  2 <= base <= 16 -> 0 <= n < base ^ Z.of_nat fuel -> (0 < fuel)%nat ->
  exists ds, digits fuel base n acc = ds ++ acc /\ Forall (is_digit base) ds /\
    val base ds = n /\ (0 < length ds)%nat /\ (n = 0 \/ base ^ (zlen ds - 1) <= n).
Proof.
  intros Hb. revert n acc. induction fuel as [|fuel IH]; intros n acc Hn Hf; [lia|].
  cbn [digits].
  assert (Hd : is_digit base (digit (n mod base)))
    by (exists (n mod base); split; [apply Z.mod_pos_bound; lia | done]).
  pose proof (Z.mod_pos_bound n base ltac:(lia)) as Hmod.
  assert (Hv : digit_val (digit (n mod base)) = n mod base) by (apply digit_facts; lia).
  destruct (Z.eqb_spec (n / base) 0) as [Hq | Hq].
  - exists [digit (n mod base)]. repeat split; [by constructor | | simpl; lia | ].
    + unfold val. simpl. rewrite Hv. rewrite (Z.div_mod n base) at 2 by lia. rewrite Hq. lia.
    + change (zlen [digit (n mod base)] - 1) with 0. rewrite Z.pow_0_r. lia.
  - rewrite Nat2Z.inj_succ, Z.pow_succ_r in Hn by lia.
    assert (Hq0 : 0 <= n / base) by (apply Z.div_pos; lia).
    assert (Hqb : n / base < base ^ Z.of_nat fuel) by (apply Z.div_lt_upper_bound; lia).
    assert (0 < fuel)%nat by (destruct fuel; [simpl in Hqb; lia | lia]).
    destruct (IH (n / base) (digit (n mod base) :: acc)) as (ds & -> & Hds & Hval & Hlen & Hsz);
      [lia | done |].
    exists (ds ++ [digit (n mod base)]). rewrite <- app_assoc. repeat split.
    + apply Forall_app. split; [done | by constructor].
    + rewrite val_app, Hval. change (zlen [digit (n mod base)]) with 1.
      unfold val. simpl. rewrite Hv, Z.pow_1_r. pose proof (Z.div_mod n base). lia.
    + rewrite length_app. simpl. lia.
    + right. destruct Hsz as [? | Hsz]; [lia|].
      rewrite length_app. cbn [length]. replace (zlen ds + 1 - 1)%Z with (Z.succ (zlen ds - 1)) by lia.
      replace (Z.of_nat (length ds + 1) - 1) with (Z.succ (zlen ds - 1)) by lia.
      rewrite Z.pow_succ_r by lia. pose proof (Z.div_mod n base). nia.
Qed.

Lemma val_zeros base w s : val base (zeros w s) = val base s.
Proof.
  unfold zeros. rewrite val_app.
  assert (Hz : forall k, val base (replicate k "0"%char) = 0).
  { induction k as [|k IH]; [done|]. rewrite replicate_S_end, val_app, IH. done. }
  rewrite Hz. lia.
Qed.

(** A number of at most [w] digits is printed on exactly [w]. *)
Lemma fmt_spec base w n :
  2 <= base <= 16 -> 0 <= n < 2 ^ 32 ->
  let s := zeros w (digits 32 base n []) in
  Forall (is_digit base) s /\ val base s = n /\ s <> [] /\
  (n < base ^ Z.of_nat w -> (0 < w)%nat -> length s = w) /\
  forall k, (0 < k)%nat -> (w <= k)%nat -> n < base ^ Z.of_nat k -> (length s <= k)%nat.
Proof.
  intros Hb Hn s.
  assert (Hbnd : 2 ^ 32 <= base ^ Z.of_nat 32) by (apply (Z.pow_le_mono_l 2 base 32); lia).
  destruct (digits_spec 32 base n []) as (ds & Hds & Hdig & Hval & Hlen & Hsz); [done | lia | lia |].
  rewrite app_nil_r in Hds. subst s. rewrite Hds.
  assert (Hsmall : forall k, (0 < k)%nat -> n < base ^ Z.of_nat k -> (length ds <= k)%nat).
  { intros k Hk Hlt. destruct Hsz as [-> | Hsz].
    - vm_compute in Hds. destruct base; vm_compute in Hds; subst ds; simpl; lia || (simpl in *; lia).
    - assert (zlen ds - 1 < Z.of_nat k); [|lia].
      apply (Z.pow_lt_mono_r_iff base); lia. }
  split; [|split; [|split; [|split]]].
  - unfold zeros. apply Forall_app. split; [|done].
    apply Forall_replicate. exists 0. split; [lia|done].
  - by rewrite val_zeros.
  - unfold zeros. destruct ds; [simpl in Hlen; lia|]. by destruct (replicate _ _).
  - intros Hlt Hw. unfold zeros. rewrite length_app, length_replicate.
    specialize (Hsmall w Hw Hlt). lia.
  - intros k Hk Hw Hlt. unfold zeros. rewrite length_app, length_replicate.
    specialize (Hsmall k Hk Hlt). lia.
Qed.

Lemma atoi_digits_val a s t :
  Forall (is_digit 10) s ->
  atoi_digits a (s ++ t) = atoi_digits (a * 10 ^ zlen s + val 10 s) t.
Proof.
  intros Hs. revert a. induction Hs as [|c s (d & Hd & ->) Hs IH]; intros a.
  - change (zlen []) with 0. rewrite Z.pow_0_r. unfold val. simpl. f_equal. lia.
  - destruct (digit_facts d ltac:(lia)) as (Hv & Hi & _).
    simpl. rewrite Hi. destruct (Z.ltb_spec d 10); [|lia].
    rewrite IH. f_equal. change (val 10 (digit d :: s)) with (val 10 ([digit d] ++ s)).
    rewrite val_app.
    cbn [length]. rewrite Nat2Z.inj_succ, Z.pow_succ_r by lia.
    assert (Hv1 : ord (digit d) - 48 = d).
    { unfold digit_val in Hv. rewrite Hi in Hv. destruct (Z.ltb_spec d 10); lia. }
    rewrite Hv1. unfold val at 2. simpl. rewrite Hv. ring.
Qed.

(** [atoi] of printed digits followed by something that is not a digit. *)
Lemma atoi_val s t :
  Forall (is_digit 10) s -> s <> [] ->
  match t with c :: _ => isdigit c = false | [] => True end ->
  atoi (s ++ t) = val 10 s.
Proof.
  intros Hs Hne Ht.
  assert (Hdig : atoi_digits 0 (s ++ t) = val 10 s).
  { rewrite atoi_digits_val by done. rewrite Z.mul_0_l, Z.add_0_l.
    destruct t as [|c t]; [done|]. simpl. by rewrite Ht. }
  destruct s as [|c s]; [done|].
  apply Forall_cons_1 in Hs as [(d & Hd & ->) _].
  destruct (digit_facts d ltac:(lia)) as (_ & _ & _ & Hsp & Hm & Hp).
  cbn [atoi app] in *. by rewrite Hsp, Hm, Hp.
Qed.

Lemma fmt_d_spec w n :
  0 <= n < 2 ^ 32 ->
  Forall (is_digit 10) (fmt_d w n) /\ val 10 (fmt_d w n) = n /\ fmt_d w n <> [] /\
  (n < 10 ^ Z.of_nat w -> (0 < w)%nat -> length (fmt_d w n) = w) /\
  forall k, (0 < k)%nat -> (w <= k)%nat -> n < 10 ^ Z.of_nat k -> (length (fmt_d w n) <= k)%nat.
Proof. intros. unfold fmt_d. destruct (Z.ltb_spec n 0); [lia|]. apply fmt_spec; lia. Qed.

Lemma fmt_2 n : 0 <= n < 100 ->
  Forall (is_digit 10) (fmt_d 2 n) /\ val 10 (fmt_d 2 n) = n /\ length (fmt_d 2 n) = 2%nat.
Proof. intros. destruct (fmt_d_spec 2 n) as (? & ? & _ & H2 & _); [lia|]. split_and!; [done..|]. apply H2; lia. Qed.

Lemma fmt_4 n : 0 <= n < 10000 ->
  Forall (is_digit 10) (fmt_d 4 n) /\ val 10 (fmt_d 4 n) = n /\ length (fmt_d 4 n) = 4%nat.
Proof. intros. destruct (fmt_d_spec 4 n) as (? & ? & _ & H4 & _); [lia|]. split_and!; [done..|]. apply H4; lia. Qed.

(** A printed [int] reads back. *)
Lemma atoi_fmt w n : - 2 ^ 31 <= n < 2 ^ 31 -> atoi (fmt_d w n) = n.
Proof.
  intros Hn. destruct (Z.ltb_spec n 0) as [Hneg|Hpos].
  - unfold fmt_d. destruct (Z.ltb_spec n 0); [|lia].
    destruct (fmt_spec 10 (w - 1) (- n)) as (Hd & Hv & _); [lia | lia|].
    change (atoi ("-"%char :: zeros (w - 1) (digits 32 10 (- n) [])))
      with (- atoi_digits 0 (zeros (w - 1) (digits 32 10 (- n) []))).
    rewrite <- (app_nil_r (zeros _ _)), atoi_digits_val by done. cbn [atoi_digits]. lia.
  - destruct (fmt_d_spec w n) as (Hd & Hv & Hne & _); [lia|].
    rewrite <- (app_nil_r (fmt_d w n)), atoi_val by done. done.
Qed.

End Digits.
