(* ===== verification/RecName.v ===== *)
(** * The names of recording files
      (src/mp_hdmodule_m/hdmod.c, libsrc/hdutil/hdutil.c)

    A recording's name carries its partition, its start, its channel, its length,
    its trigger and two flags: [REMOTE_TRIG_FLAG] for a recording started by hand
    and [LOCK_FILE_FLAG] for one that may not be deleted.  Strings are read and
    written as [Cstring] does; [None] is a read of bytes nobody wrote or a write
    past the end of a buffer. *)

From Stdlib Require Import Ascii String.
From S2P Require Import Prelude Update Ctime Cstring.

Definition IMG_FILE_EXT : cstr := lit ".AVI".
Definition RECORDING_FILE_EXT : cstr := lit ".ING".
Definition LOCK_FILE_FLAG : ascii := "@"%char.
Definition REMOTE_TRIG_FLAG : ascii := "#"%char.

(** The fields [channel], [len], [trig], [remote], [lock] and [partition] of the
    C structure carry the prefix [info_] here; [info_partition] is the 16 bytes of
    the array. *)
Record file_info_struct := {
  stime : Z; info_channel : Z; info_type : Z; info_len : Z; info_trig : Z;
  info_remote : Z; info_lock : Z; ing_flag : Z; info_partition : list ascii
}.

#[export] Instance file_info_settable : Settable file_info_struct :=
  {| rebuild := fun i => Build_file_info_struct (stime i) (info_channel i) (info_type i) (info_len i)
    (info_trig i) (info_remote i) (info_lock i) (ing_flag i) (info_partition i) |}.

(** [name]/YYYY/MM/DD/HH/HQ_Ccc_DYYYYMMDDHHMMSS_Lll_Ttt, what the three formats of
    [finfo2filename] share. *)
Definition finfo_base (tz : Z) (info : file_info_struct) : cstr :=
  let ptime := localtime tz (stime info) in
  let year := fmt_d 4 (1900 + tm_year ptime) in
  let month := fmt_d 2 (tm_mon ptime + 1) in
  let date := fmt_d 2 (tm_mday ptime) in
  let hour := fmt_d 2 (tm_hour ptime) in
  cstring (info_partition info) ++ lit "/" ++ year ++ lit "/" ++ month ++ lit "/" ++ date
  ++ lit "/" ++ hour ++ lit "/HQ_C" ++ fmt_d 2 (info_channel info) ++ lit "_D" ++ year ++ month
  ++ date ++ hour ++ fmt_d 2 (tm_min ptime) ++ fmt_d 2 (tm_sec ptime)
  ++ lit "_L" ++ fmt_d 2 (info_len info) ++ lit "_T" ++ fmt_X 2 (info_trig info).

Definition finfo2filename (tz : Z) (info : file_info_struct) : cstr :=
  if info_remote info =? 1
  then finfo_base tz info ++ [REMOTE_TRIG_FLAG] ++ [LOCK_FILE_FLAG] ++ IMG_FILE_EXT
  else if negb (info_trig info =? 0)
       then finfo_base tz info ++ [LOCK_FILE_FLAG] ++ IMG_FILE_EXT
       else finfo_base tz info ++ IMG_FILE_EXT.

(** [sprintf] into the string [s] from its offset [p]. *)
Definition print_at (s : cstr) (p : nat) (new : cstr) : cstr := take p s ++ new.

Definition hdutil_lock_filename (filename : cstr) : cstr :=
  let tname := filename in
  match strchr tname LOCK_FILE_FLAG with
  | Some _ => tname
  | None =>
      match strstr tname IMG_FILE_EXT with
      | None => tname
      | Some q =>
          match strchr tname REMOTE_TRIG_FLAG with
          | Some p => print_at tname p ([REMOTE_TRIG_FLAG] ++ [LOCK_FILE_FLAG] ++ IMG_FILE_EXT)
          | None => print_at tname q ([LOCK_FILE_FLAG] ++ IMG_FILE_EXT)
          end
      end
  end.

Definition hdutil_unlock_filename (filename : cstr) : cstr :=
  let tname := filename in
  match strchr tname LOCK_FILE_FLAG with
  | None => tname
  | Some p =>
      match strstr tname RECORDING_FILE_EXT with
      | Some _ => tname
      | None => print_at tname p IMG_FILE_EXT
      end
  end.

Definition rtflag_filename (filename : cstr) : cstr :=
  let tname := filename in
  match strchr tname REMOTE_TRIG_FLAG with
  | Some _ => tname
  | None =>
      match strchr tname LOCK_FILE_FLAG with
      | Some p => print_at tname p ([REMOTE_TRIG_FLAG] ++ [LOCK_FILE_FLAG] ++ IMG_FILE_EXT)
      | None =>
          match strstr tname IMG_FILE_EXT with
          | None => tname
          | Some p => print_at tname p ([REMOTE_TRIG_FLAG] ++ IMG_FILE_EXT)
          end
      end
  end.

(** ** Reading a name *)

Definition hex2ascii (s : ascii) : Z :=
  if Ascii.eqb s "F" then 63 else if Ascii.eqb s "E" then 62
  else if Ascii.eqb s "D" then 61 else if Ascii.eqb s "C" then 60
  else if Ascii.eqb s "B" then 59 else if Ascii.eqb s "A" then 58
  else ord (toupper s).

Fixpoint alnum_len (s : cstr) : nat :=
  match s with
  | c :: s => if isalnum c then S (alnum_len s) else O
  | [] => O
  end.

(** The offset of the end of the field; [None] for a null pointer. *)
Definition get_strtail (s : cstr) : option nat :=
  if (100 <? length s)%nat then None else Some (alnum_len s).

(** The bytes from a field on, with its end [rest] cut off by a NUL. *)
Definition field_area (f rest : cstr) : list ascii :=
  f ++ NUL :: match rest with [] => [] | _ :: r => r ++ [NUL] end.

(** [memcpy] of [n] bytes at offset [off] of an area, read as a number. *)
Definition num_at (a : list ascii) (off n : nat) : option Z :=
  let b := take n (drop off a) in
  if (length b =? n)%nat then Some (atoi (cstring b)) else None.

(** The fourteen digits of a start time at the head of an area. *)
Definition date_at (tz : Z) (a : list ascii) : option Z :=
  year ← num_at a 0 4; mon ← num_at a 4 2; mday ← num_at a 6 2;
  hour ← num_at a 8 2; min ← num_at a 10 2; sec ← num_at a 12 2;
  Some (mktime tz {| tm_year := year - 1900; tm_mon := mon - 1; tm_mday := mday;
                     tm_hour := hour; tm_min := min; tm_sec := sec |}).

Fixpoint trig_of (acc : Z) (s : cstr) : Z :=
  match s with
  | c :: s => trig_of (Z.shiftl acc 4 + hex2ascii c - 48) s
  | [] => acc
  end.

Definition set_field (tz : Z) (info : file_info_struct) (field rest : cstr)
    : option file_info_struct :=
  match field with
  | [] => Some info
  | c :: p =>
      if Ascii.eqb c "c" || Ascii.eqb c "C" then Some (info <| info_channel := atoi p |>)
      else if Ascii.eqb c "d" || Ascii.eqb c "D" then
        t ← date_at tz (field_area p rest);
        Some (info <| stime := t |>)
      else if Ascii.eqb c "l" || Ascii.eqb c "L" then Some (info <| info_len := atoi p |>)
      else if Ascii.eqb c "t" || Ascii.eqb c "T" then
        Some (info <| info_trig := trig_of 0 (drop (length p - 4) p) |>)
      else Some info
  end.

(** The scan of the name: [state] is true after a mark '_'. *)
Fixpoint finfo_loop (fuel : nat) (tz : Z) (s : cstr) (state : bool) (info : file_info_struct)
    : option (Z * file_info_struct) :=
  match fuel with
  | O => None
  | S fuel =>
      match s with
      | [] => Some (0, info)
      | c :: s' =>
          if Ascii.eqb c "010" then Some (0, info)
          else if negb state then finfo_loop fuel tz s' (Ascii.eqb c "_") info
          else match get_strtail s with
               | None => Some (-1, info)
               | Some t =>
                   info ← set_field tz info (take t s) (drop t s);
                   finfo_loop fuel tz (drop t s) false info
               end
      end
  end.

(** [strncpy] of [n] bytes of [src] over an array. *)
Definition strncpy (dst : list ascii) (src : cstr) (n : nat) : option (list ascii) :=
  if (n <=? length dst)%nat
  then Some (take n (src ++ replicate n NUL) ++ drop n dst) else None.

Definition bool01 (b : bool) : Z := if b then 1 else 0.

(** Every other round at most leaves the rest of the name as it is. *)
Definition hdutil_filename2finfo (tz : Z) (filename : cstr) (info : file_info_struct)
    : option (Z * file_info_struct) :=
  if (100 <? length filename)%nat then Some (-1, info) else
  part ← match strstr filename (lit "sd") with
         | Some p => strncpy (info_partition info) filename (p + 4)
         | None => strncpy (info_partition info) (lit "/hqdata/sda1") 13
         end;
  let info := info <| info_partition := <[12%nat := NUL]> (part : list ascii) |> in
  let info := info <| info_remote := bool01 (bool_decide (is_Some (strchr filename REMOTE_TRIG_FLAG))) |> in
  let info := info <| info_lock := bool01 (bool_decide (is_Some (strchr filename LOCK_FILE_FLAG))) |> in
  let info := info <| ing_flag := bool01 (bool_decide (is_Some (strstr filename RECORDING_FILE_EXT))) |> in
  finfo_loop (2 * length filename + 1) tz filename false info.

Definition get_fname_time (tz : Z) (filename : cstr) : option Z :=
  match strstr filename (lit "_D") with
  | None => Some (-1)
  | Some p => date_at tz (drop (p + 2) filename ++ [NUL])
  end.

Definition HDMOUNT_PATH : cstr := lit "/hqdata".

(** The 20 bytes of [part_name] hold a NUL after the partition's name. *)
Definition hdutil_filename2dirs (partition filename : cstr) : option (Z * cstr) :=
  match strstr partition (lit "/sd") with
  | None => Some (-1, [])
  | Some p =>
      let part_name := drop (p + 1) partition in
      if (20 <=? length part_name)%nat then None else
      match strstr filename (lit "_D") with
      | None => Some (-1, [])
      | Some p =>
          let p := (p + 2)%nat in
          if (length filename <? p + 8)%nat then None else
          let field off n := take n (drop (p + off) filename) in
          let path := HDMOUNT_PATH ++ lit "/" ++ part_name ++ lit "/" ++ field 0%nat 4%nat ++ lit "/"
            ++ field 4%nat 2%nat ++ lit "/" ++ field 6%nat 2%nat ++ lit "/" ++ field 8%nat 2%nat
            ++ lit "/" ++ filename in
          if (200 <=? length path)%nat then None else Some (0, path)
      end
  end.
