(* ===== verification/RecNameThms.v ===== *)
(** * The names of recording files: what they say is what is read back

    A name is a part without flags, the flags and the extension ([flagged]).
    [hdutil_filename2finfo] and [get_fname_time] read back what [finfo2filename]
    wrote, [hdutil_filename2dirs] finds its directory again, and the calls that
    lock, unlock and mark a name change one flag and nothing else. *)

From Stdlib Require Import Ascii String.
From S2P Require Import Prelude Update Ctime Cstring RecName.

(** A character of the part of a name before its flags. *)
Definition plain (c : ascii) : bool :=
  isalnum c || Ascii.eqb c "/" || Ascii.eqb c "_".

Definition flagged (base : cstr) (remote locked : bool) : cstr :=
  base ++ (if remote then [REMOTE_TRIG_FLAG] else []) ++ (if locked then [LOCK_FILE_FLAG] else [])
  ++ IMG_FILE_EXT.

Definition all_plain (s : cstr) : Prop := Forall (fun c => plain c = true) s.

Section Search.

Lemma is_digit_plain base c : 2 <= base <= 16 -> is_digit base c -> plain c = true /\ isalnum c = true.
Proof.
  intros Hb (d & Hd & ->). destruct (digit_facts d ltac:(lia)) as (_ & _ & H & _).
  unfold plain. by rewrite H.
Qed.

Lemma digits_plain base s : 2 <= base <= 16 -> Forall (is_digit base) s ->
  all_plain s /\ Forall (fun c => isalnum c = true) s.
Proof.
  intros Hb Hs. split; (eapply list.Forall_impl; [exact Hs|]); intros c Hc;
    by destruct (is_digit_plain base c Hb Hc).
Qed.

Lemma strchr_skip s t c : all_plain s -> plain c = false -> strchr (s ++ t) c = Nat.add (length s) <$> strchr t c.
Proof.
  intros Hs Hc. induction Hs as [|c' s Hc' Hs IH]; cbn [app strchr length].
  - by destruct (strchr t c).
  - destruct (Ascii.eqb_spec c' c) as [-> | _]; [congruence|].
    rewrite IH. by destruct (strchr t c).
Qed.

Lemma strstr_skip s t c p : all_plain s -> plain c = false ->
  strstr (s ++ t) (c :: p) = Nat.add (length s) <$> strstr t (c :: p).
Proof.
  intros Hs Hc. apply strstr_skip_ne. eapply list.Forall_impl; [exact Hs|].
  intros x Hx ->. congruence.
Qed.

Lemma print_at_app s t n new : print_at (s ++ t) (length s + n) new = s ++ print_at t n new.
Proof. unfold print_at. by rewrite take_app_add, <- app_assoc. Qed.

(** Each of the three calls sets one flag of a name and keeps the other. *)
Lemma lock_flagged b r l : all_plain b -> hdutil_lock_filename (flagged b r l) = flagged b r true.
Proof.
  intros Hb. unfold hdutil_lock_filename, flagged, IMG_FILE_EXT, RECORDING_FILE_EXT.
  cbn [list_ascii_of_string].
  rewrite ?(strchr_skip b _ LOCK_FILE_FLAG), ?(strchr_skip b _ REMOTE_TRIG_FLAG),
    ?(strstr_skip b) by done.
  destruct r, l; cbn; rewrite ?print_at_app; done.
Qed.

Lemma unlock_flagged b r l : all_plain b -> hdutil_unlock_filename (flagged b r l) = flagged b r false.
Proof.
  intros Hb. unfold hdutil_unlock_filename, flagged, IMG_FILE_EXT, RECORDING_FILE_EXT.
  cbn [list_ascii_of_string].
  rewrite ?(strchr_skip b _ LOCK_FILE_FLAG), ?(strchr_skip b _ REMOTE_TRIG_FLAG),
    ?(strstr_skip b) by done.
  destruct r, l; cbn; rewrite ?print_at_app; done.
Qed.

Lemma rtflag_flagged b r l : all_plain b -> rtflag_filename (flagged b r l) = flagged b true l.
Proof.
  intros Hb. unfold rtflag_filename, flagged, IMG_FILE_EXT, RECORDING_FILE_EXT.
  cbn [list_ascii_of_string].
  rewrite ?(strchr_skip b _ LOCK_FILE_FLAG), ?(strchr_skip b _ REMOTE_TRIG_FLAG),
    ?(strstr_skip b) by done.
  destruct r, l; cbn; rewrite ?print_at_app; done.
Qed.

End Search.

Section Scan.
Variable tz : Z.
Implicit Types (s t f : cstr) (info : file_info_struct).

Lemma finfo_loop_skip fuel s t info :
  Forall (fun c => Ascii.eqb c "_" = false /\ Ascii.eqb c "010" = false) s ->
  finfo_loop (length s + fuel) tz (s ++ t) false info = finfo_loop fuel tz t false info.
Proof.
  induction 1 as [|c s [Hc Hn] Hs IH]; [done|].
  cbn [length Nat.add app finfo_loop]. by rewrite Hn, Hc.
Qed.

Lemma alnum_len_app f t :
  Forall (fun c => isalnum c = true) f ->
  match t with c :: _ => isalnum c = false | [] => True end ->
  alnum_len (f ++ t) = length f.
Proof.
  intros Hf Ht. induction Hf as [|c f Hc Hf IH]; cbn [app alnum_len length].
  - destruct t; [done|]. cbn [alnum_len]. by rewrite Ht.
  - by rewrite Hc, IH.
Qed.

Lemma finfo_loop_field fuel f t info :
  Forall (fun c => isalnum c = true) f -> f <> [] ->
  match t with c :: _ => isalnum c = false | [] => True end ->
  (length (f ++ t) <= 100)%nat ->
  finfo_loop (S (S fuel)) tz ("_"%char :: f ++ t) false info =
  (info ← set_field tz info f t; finfo_loop fuel tz t false info).
Proof.
  intros Hf Hne Ht Hlen.
  assert (Hnl : match f ++ t with c :: _ => Ascii.eqb c "010" = false | [] => False end).
  { destruct Hf as [|c f Hc Hf]; [done|]. cbn. by destruct (Ascii.eqb_spec c "010") as [-> |]. }
  cbn [finfo_loop negb]. cbn [Ascii.eqb Bool.eqb].
  destruct (f ++ t) as [|c s] eqn:Hs; [done|]. rewrite Hnl. rewrite <- Hs in *.
  unfold get_strtail. destruct (Nat.ltb_spec 100 (length (f ++ t))); [lia|].
  rewrite (alnum_len_app f t Hf Ht), take_app_length, drop_app_length. done.
Qed.

Lemma finfo_loop_mark fuel c f t info :
  isalnum c = true -> Forall (fun c => isalnum c = true) f ->
  match t with c :: _ => isalnum c = false | [] => True end ->
  (length (f ++ t) < 100)%nat ->
  finfo_loop (S (S fuel)) tz ("_"%char :: c :: f ++ t) false info =
  (info ← set_field tz info (c :: f) t; finfo_loop fuel tz t false info).
Proof. intros. apply (finfo_loop_field fuel (c :: f)); [by constructor | done | done | simpl; lia]. Qed.

Lemma finfo_loop_more fuel s b info r :
  finfo_loop fuel tz s b info = Some r -> forall fuel', (fuel <= fuel')%nat ->
  finfo_loop fuel' tz s b info = Some r.
Proof.
  revert s b info. induction fuel as [|fuel IH]; intros s b info H fuel' Hle; [done|].
  destruct fuel' as [|fuel']; [lia|]. cbn [finfo_loop] in *.
  destruct s as [|c s]; [done|].
  destruct (Ascii.eqb c "010"); [done|].
  destruct b; cbn [negb] in *; [|apply IH; [done|lia]].
  destruct (get_strtail _); [|done].
  destruct (set_field _ _ _ _); [|done]. cbn [mbind option_bind] in *. apply IH; [done|lia].
Qed.

Lemma alnum_cstring s : Forall (fun c => isalnum c = true) s -> cstring s = s.
Proof.
  induction 1 as [|c s Hc Hs IH]; [done|]. cbn [cstring].
  destruct (Ascii.eqb_spec c NUL) as [-> |]; [done|]. by rewrite IH.
Qed.

Lemma num_at_here s t n :
  Forall (is_digit 10) s -> length s = n -> (0 < n)%nat -> num_at (s ++ t) 0 n = Some (val 10 s).
Proof.
  intros Hs Hlen Hn. unfold num_at. rewrite drop_0.
  rewrite take_app_length' by done. rewrite Hlen, Nat.eqb_refl. f_equal.
  rewrite alnum_cstring by (eapply digits_plain; [|done]; lia).
  rewrite <- (app_nil_r s) at 1. apply atoi_val; [done| |done]. by destruct s; simpl in *; [lia|].
Qed.

Lemma num_at_next s t off n :
  (length s <= off)%nat -> num_at (s ++ t) off n = num_at t (off - length s) n.
Proof. intros. unfold num_at. by rewrite drop_app_ge by lia. Qed.

#[local] Opaque fmt_d fmt_X.

(** The fourteen digits of a start time. *)
Definition date_str (p : tm) : cstr :=
  fmt_d 4 (1900 + tm_year p) ++ fmt_d 2 (tm_mon p + 1) ++ fmt_d 2 (tm_mday p)
  ++ fmt_d 2 (tm_hour p) ++ fmt_d 2 (tm_min p) ++ fmt_d 2 (tm_sec p).

Lemma date_str_digits p : tm_ok p -> Forall (is_digit 10) (date_str p) /\ length (date_str p) = 14%nat.
Proof.
  intros (? & ? & ? & ? & ? & ?). unfold date_str.
  destruct (fmt_4 (1900 + tm_year p)) as (? & _ & ?); [lia|].
  destruct (fmt_2 (tm_mon p + 1)) as (? & _ & ?); [lia|].
  destruct (fmt_2 (tm_mday p)) as (? & _ & ?); [lia|].
  destruct (fmt_2 (tm_hour p)) as (? & _ & ?); [lia|].
  destruct (fmt_2 (tm_min p)) as (? & _ & ?); [lia|].
  destruct (fmt_2 (tm_sec p)) as (? & _ & ?); [lia|].
  rewrite !Forall_app, !length_app. split_and!; assumption || lia.
Qed.

Lemma date_at_str (t : Z) rest :
  - 2 ^ 31 <= t < 2 ^ 31 -> - 86400 <= tz <= 86400 ->
  date_at tz (date_str (localtime tz t) ++ rest) = Some t.
Proof.
  intros Ht Htz. pose proof (localtime_ok tz t Ht Htz) as Hok.
  pose proof (mktime_localtime tz t Ht) as Hmk.
  revert Hok Hmk. generalize (localtime tz t). intros p (? & ? & ? & ? & ? & ?) Hmk.
  unfold date_str, date_at. rewrite <- !app_assoc.
  destruct (fmt_4 (1900 + tm_year p)) as (? & Hv1 & Hl1); [lia|].
  destruct (fmt_2 (tm_mon p + 1)) as (? & Hv2 & Hl2); [lia|].
  destruct (fmt_2 (tm_mday p)) as (? & Hv3 & Hl3); [lia|].
  destruct (fmt_2 (tm_hour p)) as (? & Hv4 & Hl4); [lia|].
  destruct (fmt_2 (tm_min p)) as (? & Hv5 & Hl5); [lia|].
  destruct (fmt_2 (tm_sec p)) as (? & Hv6 & Hl6); [lia|].
  set (a := fmt_d 4 _ ++ _).
  assert (Hnum : num_at a 0 4 = Some (1900 + tm_year p) /\ num_at a 4 2 = Some (tm_mon p + 1)
    /\ num_at a 6 2 = Some (tm_mday p) /\ num_at a 8 2 = Some (tm_hour p)
    /\ num_at a 10 2 = Some (tm_min p) /\ num_at a 12 2 = Some (tm_sec p)).
  { unfold a. split_and!;
      repeat (rewrite num_at_next by lia; rewrite ?Hl1, ?Hl2, ?Hl3, ?Hl4, ?Hl5; cbn [Nat.sub]);
      rewrite num_at_here by (assumption || lia); congruence. }
  destruct Hnum as (E1 & E2 & E3 & E4 & E5 & E6).
  rewrite E1; cbn [mbind option_bind]. rewrite E2; cbn [mbind option_bind].
  rewrite E3; cbn [mbind option_bind]. rewrite E4; cbn [mbind option_bind].
  rewrite E5; cbn [mbind option_bind]. rewrite E6; cbn [mbind option_bind]. f_equal.
  replace (1900 + tm_year p - 1900) with (tm_year p) by lia.
  replace (tm_mon p + 1 - 1) with (tm_mon p) by lia. by destruct p.
Qed.

Lemma hex2ascii_digit d : 0 <= d < 16 -> hex2ascii (digit d) - 48 = d.
Proof.
  intros. assert (d = 0 \/ d = 1 \/ d = 2 \/ d = 3 \/ d = 4 \/ d = 5 \/ d = 6 \/ d = 7 \/ d = 8
    \/ d = 9 \/ d = 10 \/ d = 11 \/ d = 12 \/ d = 13 \/ d = 14 \/ d = 15) as Hd by lia.
  repeat destruct Hd as [-> | Hd]; [..|subst]; reflexivity.
Qed.

Lemma trig_of_val s : Forall (is_digit 16) s -> trig_of 0 s = val 16 s.
Proof.
  unfold val. generalize 0 at 1 2. intros a Hs. revert a.
  induction Hs as [|c s (d & Hd & ->) Hs IH]; intros a; [done|].
  cbn [trig_of fold_left]. rewrite IH. f_equal. rewrite Z.shiftl_mul_pow2 by lia.
  destruct (digit_facts d ltac:(lia)) as (-> & _). pose proof (hex2ascii_digit d Hd). lia.
Qed.

End Scan.

(** The directory "/hqdata/sd.." of a partition. *)
Definition partition_name (disk part : ascii) : cstr := lit "/hqdata/sd" ++ [disk; part].

(** A recording that a name can hold: a partition, a time of 32 bits, numbers that
    are not negative and a trigger of 16 bits. *)
Record info_ok (disk part : ascii) (i : file_info_struct) : Prop := {
  ok_partition : cstring (info_partition i) = partition_name disk part;
  ok_disk : isalnum disk = true;
  ok_part : isalnum part = true;
  ok_stime : - 2 ^ 31 <= stime i < 2 ^ 31;
  ok_channel : 0 <= info_channel i < 2 ^ 31;
  ok_len : 0 <= info_len i < 2 ^ 31;
  ok_trig : 0 <= info_trig i < 2 ^ 16
}.

(** The length of a string of known parts. *)
Ltac solve_len := repeat (progress (rewrite ?length_app; cbn [length])); lia.

Section Names.
Variables (tz : Z) (disk part : ascii) (i : file_info_struct).
Hypothesis Htz : - 86400 <= tz <= 86400.
Hypothesis Hok : info_ok disk part i.

Let dir : cstr :=
  let p := localtime tz (stime i) in
  partition_name disk part ++ lit "/" ++ fmt_d 4 (1900 + tm_year p) ++ lit "/"
  ++ fmt_d 2 (tm_mon p + 1) ++ lit "/" ++ fmt_d 2 (tm_mday p) ++ lit "/" ++ fmt_d 2 (tm_hour p).

Let tail : cstr :=
  lit "_C" ++ fmt_d 2 (info_channel i) ++ lit "_D" ++ date_str (localtime tz (stime i))
  ++ lit "_L" ++ fmt_d 2 (info_len i) ++ lit "_T" ++ fmt_X 2 (info_trig i).

Lemma finfo_base_split : finfo_base tz i = dir ++ lit "/HQ" ++ tail.
Proof.
  unfold finfo_base, dir, tail, date_str. rewrite (ok_partition _ _ _ Hok).
  rewrite <- !app_assoc. done.
Qed.

Lemma filename_flagged :
  finfo2filename tz i =
    flagged (finfo_base tz i) (info_remote i =? 1) ((info_remote i =? 1) || negb (info_trig i =? 0)).
Proof.
  unfold finfo2filename, flagged. destruct (info_remote i =? 1); [done|].
  by destruct (info_trig i =? 0).
Qed.

Lemma field_digits : 
  Forall (is_digit 10) (fmt_d 2 (info_channel i)) /\ Forall (is_digit 10) (fmt_d 2 (info_len i)) /\
  Forall (is_digit 16) (fmt_X 2 (info_trig i)) /\
  fmt_d 2 (info_channel i) <> [] /\ fmt_d 2 (info_len i) <> [] /\ fmt_X 2 (info_trig i) <> [] /\
  val 10 (fmt_d 2 (info_channel i)) = info_channel i /\
  val 10 (fmt_d 2 (info_len i)) = info_len i /\ val 16 (fmt_X 2 (info_trig i)) = info_trig i /\
  (length (fmt_d 2 (info_channel i)) <= 10)%nat /\ (length (fmt_d 2 (info_len i)) <= 10)%nat /\
  (length (fmt_X 2 (info_trig i)) <= 4)%nat.
Proof.
  destruct Hok as [_ _ _ _ Hc Hl Ht].
  destruct (fmt_d_spec 2 (info_channel i)) as (? & ? & ? & _ & Hbc); [lia|].
  destruct (fmt_d_spec 2 (info_len i)) as (? & ? & ? & _ & Hbl); [lia|].
  with_strategy transparent [fmt_X] unfold fmt_X. rewrite u32_small by lia.
  destruct (fmt_spec 16 2 (info_trig i)) as (? & ? & ? & _ & Hbt); [lia | lia |].
  split_and!; try assumption; [apply Hbc | apply Hbl | apply Hbt]; lia.
Qed.

Lemma dir_facts : all_plain dir /\ Forall (fun c => Ascii.eqb c "_" = false) dir /\ length dir = 26%nat.
Proof.
  destruct Hok as [_ Hd Hp Hs _ _ _].
  pose proof (localtime_ok tz (stime i) Hs Htz) as (? & ? & ? & ? & ? & ?).
  unfold dir. set (p := localtime tz (stime i)) in *.
  destruct (fmt_4 (1900 + tm_year p)) as (D1 & _ & ?); [lia|].
  destruct (fmt_2 (tm_mon p + 1)) as (D2 & _ & ?); [lia|].
  destruct (fmt_2 (tm_mday p)) as (D3 & _ & ?); [lia|].
  destruct (fmt_2 (tm_hour p)) as (D4 & _ & ?); [lia|].
  assert (Hal : forall c, isalnum c = true -> plain c = true /\ Ascii.eqb c "_" = false).
  { intros c Hc. unfold plain. rewrite Hc. split; [done|]. by destruct (Ascii.eqb_spec c "_") as [-> |]. }
  assert (Hf : forall s, Forall (is_digit 10) s ->
    Forall (fun c => plain c = true /\ Ascii.eqb c "_" = false) s).
  { intros s Hs10. eapply list.Forall_impl; [exact Hs10|]. intros c Hc. apply Hal.
    by eapply (is_digit_plain 10). }
  assert (Hall : Forall (fun c => plain c = true /\ Ascii.eqb c "_" = false)
    (partition_name disk part ++ lit "/" ++ fmt_d 4 (1900 + tm_year p) ++ lit "/"
     ++ fmt_d 2 (tm_mon p + 1) ++ lit "/" ++ fmt_d 2 (tm_mday p) ++ lit "/" ++ fmt_d 2 (tm_hour p))).
  { rewrite !Forall_app. split_and!; try (apply Hf; assumption); unfold partition_name;
      cbn [list_ascii_of_string app]; repeat constructor; try done; by apply Hal. }
  split_and!.
  - eapply list.Forall_impl; [exact Hall|]. by intros c [].
  - eapply list.Forall_impl; [exact Hall|]. by intros c [].
  - rewrite !length_app. unfold partition_name. cbn [length list_ascii_of_string app]. lia.
Qed.

Lemma plain_digits base s : 2 <= base <= 16 -> Forall (is_digit base) s -> all_plain s.
Proof. intros Hb Hs. by apply (digits_plain base). Qed.

Lemma plain_lit s : forallb plain s = true -> all_plain s.
Proof. intros Hs. apply Forall_forall. by apply forallb_forall. Qed.

Lemma date_facts :
  Forall (is_digit 10) (date_str (localtime tz (stime i))) /\
  length (date_str (localtime tz (stime i))) = 14%nat.
Proof. apply date_str_digits, localtime_ok; [apply Hok | done]. Qed.

Lemma base_plain : all_plain (finfo_base tz i).
Proof.
  rewrite finfo_base_split. unfold all_plain.
  destruct field_digits as (D1 & D2 & D3 & _). destruct date_facts as [D4 _].
  unfold tail. rewrite !Forall_app.
  split_and!; [apply dir_facts | by apply plain_lit | by apply plain_lit | exact (plain_digits 10 _ ltac:(lia) D1)
    | by apply plain_lit | exact (plain_digits 10 _ ltac:(lia) D4) | by apply plain_lit
    | exact (plain_digits 10 _ ltac:(lia) D2) | by apply plain_lit
    | exact (plain_digits 16 _ ltac:(lia) D3)].
Qed.

Lemma base_length : (length (finfo_base tz i) <= 75)%nat.
Proof.
  rewrite finfo_base_split. destruct field_digits as (_ & _ & _ & _ & _ & _ & _ & _ & _ & ? & ? & ?).
  destruct date_facts as [_ ?]. destruct dir_facts as (_ & _ & ?).
  unfold tail. rewrite !length_app. cbn [length list_ascii_of_string]. lia.
Qed.

(** The four fields of a name, each with the mark before it. *)
Lemma set_channel f info rest : Forall (is_digit 10) f -> f <> [] ->
  set_field tz info ("C"%char :: f) rest = Some (info <| info_channel := val 10 f |>).
Proof. intros. rewrite <- (atoi_val f []) by done. by rewrite app_nil_r. Qed.

Lemma set_len f info rest : Forall (is_digit 10) f -> f <> [] ->
  set_field tz info ("L"%char :: f) rest = Some (info <| info_len := val 10 f |>).
Proof. intros. rewrite <- (atoi_val f []) by done. by rewrite app_nil_r. Qed.

Lemma set_trig f info rest : Forall (is_digit 16) f -> (length f <= 4)%nat ->
  set_field tz info ("T"%char :: f) rest = Some (info <| info_trig := val 16 f |>).
Proof.
  intros Hf Hl.
  assert (Hd : drop (length f - 4) f = f) by by replace (length f - 4)%nat with 0%nat by lia.
  change (set_field tz info ("T"%char :: f) rest) with
    (Some (info <| info_trig := trig_of 0 (drop (length f - 4) f) |>)).
  by rewrite Hd, trig_of_val.
Qed.

Lemma set_date info rest :
  set_field tz info ("D"%char :: date_str (localtime tz (stime i))) rest
  = Some (info <| stime := stime i |>).
Proof.
  change (set_field tz info ("D"%char :: date_str (localtime tz (stime i))) rest) with
    (t ← date_at tz (field_area (date_str (localtime tz (stime i))) rest);
     Some (info <| stime := t |>)).
  apply (obind_ret _ (fun t => Some (info <| stime := t |>))).
  apply date_at_str; [apply Hok | done].
Qed.

(** What the scan of a name finds. *)
Definition read_back (info : file_info_struct) : file_info_struct :=
  info <| info_channel := info_channel i |> <| stime := stime i |>
       <| info_len := info_len i |> <| info_trig := info_trig i |>.

Lemma scan_base fl info fuel :
  match fl with c :: _ => isalnum c = false | [] => True end -> (length fl <= 20)%nat ->
  finfo_loop (length (dir ++ lit "/HQ") + (8 + fuel)) tz (finfo_base tz i ++ fl) false info = finfo_loop fuel tz fl false (read_back info).
Proof.
  intros Hhd Hlen.
  destruct field_digits as (D1 & D2 & D3 & N1 & N2 & N3 & V1 & V2 & V3 & L1 & L2 & L3).
  destruct date_facts as [D4 L4]. destruct dir_facts as (Hpl & Hus & _).
  rewrite finfo_base_split, app_assoc, <- app_assoc. rewrite finfo_loop_skip.
  2:{ apply Forall_app. split; [|repeat constructor].
      apply Forall_forall. intros c Hc. split.
      - rewrite Forall_forall in Hus. by apply Hus.
      - unfold all_plain in Hpl. rewrite Forall_forall in Hpl. apply Hpl in Hc.
        by destruct (Ascii.eqb_spec c "010") as [-> |]. }
  unfold tail. cbn [list_ascii_of_string]. rewrite <- !app_assoc. cbn [app Nat.add].
  assert (Hal : forall base s, 2 <= base <= 16 -> Forall (is_digit base) s ->
    Forall (fun c => isalnum c = true) s) by (intros base s Hb Hs; by apply (digits_plain base)).
  rewrite finfo_loop_mark; [|exact eq_refl | apply (Hal 10 _ ltac:(lia)); assumption | exact eq_refl | solve_len].
  rewrite (obind_ret _ _ _ (set_channel _ _ _ D1 N1)).
  rewrite finfo_loop_mark; [|exact eq_refl | apply (Hal 10 _ ltac:(lia)); assumption | exact eq_refl | solve_len].
  rewrite (obind_ret _ _ _ (set_date _ _)).
  rewrite finfo_loop_mark; [|exact eq_refl | apply (Hal 10 _ ltac:(lia)); assumption | exact eq_refl | solve_len].
  rewrite (obind_ret _ _ _ (set_len _ _ _ D2 N2)).
  rewrite finfo_loop_mark; [|exact eq_refl | apply (Hal 16 _ ltac:(lia)); assumption | exact Hhd | solve_len].
  rewrite (obind_ret _ _ _ (set_trig _ _ _ D3 L3)).
  by rewrite V1, V2, V3.
Qed.

Lemma scan_name fl info fuel :
  Forall (fun c => Ascii.eqb c "_" = false /\ Ascii.eqb c "010" = false) fl ->
  match fl with c :: _ => isalnum c = false | [] => True end -> (length fl <= 20)%nat ->
  (length (dir ++ lit "/HQ") + (8 + (length fl + 1)) <= fuel)%nat ->
  finfo_loop fuel tz (finfo_base tz i ++ fl) false info = Some (0, read_back info).
Proof.
  intros Hfl Hhd Hlen Hfuel. eapply finfo_loop_more; [|exact Hfuel]. rewrite scan_base by done.
  pose proof (finfo_loop_skip tz 1 fl []) as Hend. rewrite app_nil_r in Hend. by rewrite Hend.
Qed.

Let flags : cstr :=
  (if info_remote i =? 1 then [REMOTE_TRIG_FLAG] else [])
  ++ (if (info_remote i =? 1) || negb (info_trig i =? 0) then [LOCK_FILE_FLAG] else []) ++ IMG_FILE_EXT.

Lemma flags_facts :
  Forall (fun c => Ascii.eqb c "_" = false /\ Ascii.eqb c "010" = false) flags /\
  match flags with c :: _ => isalnum c = false | [] => True end /\ (4 <= length flags <= 6)%nat.
Proof.
  unfold flags. destruct (info_remote i =? 1), (info_trig i =? 0);
    (split_and!; [repeat constructor | reflexivity | cbn; lia | cbn; lia]).
Qed.

(** The scan of any name that ends like this one finds its date after "_D". *)
Lemma strstr_date s t : Forall (fun c => Ascii.eqb c "_" = false) s ->
  strstr (s ++ tail ++ t) (lit "_D") = Some (length s + (2 + length (fmt_d 2 (info_channel i))))%nat.
Proof.
  intros Hs. unfold tail. cbn [list_ascii_of_string].
  assert (Hne : forall l, Forall (fun c => Ascii.eqb c "_" = false) l -> Forall (fun c => c <> "_"%char) l).
  { intros l Hl. eapply list.Forall_impl; [exact Hl|]. by intros c Hc ->. }
  rewrite strstr_skip_ne by by apply Hne. rewrite <- !app_assoc. cbn [app strstr is_prefix].
  cbn [Ascii.eqb Bool.eqb andb].
  destruct field_digits as (D1 & _). rewrite strstr_skip_ne.
  2:{ eapply list.Forall_impl; [exact D1|]. intros c (d & Hd & ->) Hc.
      destruct (digit_facts d ltac:(lia)) as (_ & _ & Hal & _). by rewrite Hc in Hal. }
  cbn [strstr is_prefix Ascii.eqb Bool.eqb andb fmap option_fmap option_map]. f_equal. lia.
Qed.

Lemma filename_split : finfo2filename tz i = dir ++ lit "/HQ" ++ tail ++ flags.
Proof. rewrite filename_flagged. unfold flagged. fold flags. by rewrite finfo_base_split, <- !app_assoc. Qed.

Lemma after_date s t :
  drop (length s + (2 + length (fmt_d 2 (info_channel i))) + 2) (s ++ tail ++ t)
  = date_str (localtime tz (stime i)) ++ lit "_L" ++ fmt_d 2 (info_len i) ++ lit "_T" ++ fmt_X 2 (info_trig i) ++ t.
Proof.
  unfold tail. rewrite drop_app_ge by lia.
  replace (_ + _ + 2 - _)%nat with (2 + (length (fmt_d 2 (info_channel i)) + 2))%nat by lia.
  rewrite <- !app_assoc. cbn [list_ascii_of_string app Nat.add drop].
  rewrite drop_app_ge by lia.
  by replace (_ + 2 - _)%nat with 2%nat by lia.
Qed.

Lemma fname_time : get_fname_time tz (finfo2filename tz i) = Some (stime i).
Proof.
  unfold get_fname_time. rewrite filename_split, app_assoc, strstr_date, after_date, <- app_assoc.
  2:{ apply Forall_app. split; [apply dir_facts | repeat constructor]. }
  apply date_at_str; [apply Hok | done].
Qed.

Lemma sub_here (s t : cstr) n : length s = n -> take n (drop 0 (s ++ t)) = s.
Proof. intros. by rewrite drop_0, take_app_length'. Qed.

Lemma sub_next (s t : cstr) off n : (length s <= off)%nat -> take n (drop off (s ++ t)) = take n (drop (off - length s) t).
Proof. intros. by rewrite drop_app_ge. Qed.

Lemma date_fields r :
  let p := localtime tz (stime i) in
  let a := date_str p ++ r in
  take 4 (drop 0 a) = fmt_d 4 (1900 + tm_year p) /\ take 2 (drop 4 a) = fmt_d 2 (tm_mon p + 1) /\
  take 2 (drop 6 a) = fmt_d 2 (tm_mday p) /\ take 2 (drop 8 a) = fmt_d 2 (tm_hour p).
Proof.
  pose proof (localtime_ok tz (stime i) (ok_stime _ _ _ Hok) Htz) as (? & ? & ? & ? & ? & ?).
  intros p. subst p. set (p := localtime tz (stime i)) in *. unfold date_str.
  destruct (fmt_4 (1900 + tm_year p)) as (_ & _ & L1); [lia|].
  destruct (fmt_2 (tm_mon p + 1)) as (_ & _ & L2); [lia|].
  destruct (fmt_2 (tm_mday p)) as (_ & _ & L3); [lia|].
  destruct (fmt_2 (tm_hour p)) as (_ & _ & L4); [lia|].
  rewrite <- !app_assoc. cbv zeta.
  split_and!; repeat (rewrite sub_next by lia; rewrite ?L1, ?L2, ?L3; cbn [Nat.sub]); by apply sub_here.
Qed.

Lemma dirs_again :
  hdutil_filename2dirs (partition_name disk part) (lit "HQ" ++ tail ++ flags)
  = Some (0, finfo2filename tz i).
Proof.
  unfold hdutil_filename2dirs.
  change (strstr (partition_name disk part) (lit "/sd")) with (Some 7%nat).
  rewrite strstr_date by repeat constructor. cbv iota beta.
  set (p := (length (lit "HQ") + (2 + length (fmt_d 2 (info_channel i))) + 2)%nat).
  destruct date_facts as [_ L4]. destruct flags_facts as (_ & _ & Lf).
  destruct field_digits as (_ & _ & _ & _ & _ & _ & _ & _ & _ & L1 & L2 & L3).
  assert (Hlen : (p + 14 <= length (lit "HQ" ++ tail ++ flags) <= 60)%nat).
  { unfold p, tail. repeat (progress (rewrite ?length_app; cbn [length list_ascii_of_string])); lia. }
  destruct (Nat.ltb_spec (length (lit "HQ" ++ tail ++ flags)) (p + 8)); [lia|].
  rewrite <- !drop_drop. unfold p. rewrite after_date.
  destruct (date_fields (lit "_L" ++ fmt_d 2 (info_len i) ++ lit "_T" ++ fmt_X 2 (info_trig i) ++ flags))
    as (F1 & F2 & F3 & F4). cbv zeta in F1, F2, F3, F4. rewrite F1, F2, F3, F4.
  change (drop 1 (drop 7 (partition_name disk part))) with ["s"%char; "d"%char; disk; part].
  change (20 <=? length ["s"%char; "d"%char; disk; part])%nat with false. cbv iota.
  assert (Hpath : HDMOUNT_PATH ++ lit "/" ++ ["s"%char; "d"%char; disk; part] ++ lit "/"
    ++ fmt_d 4 (1900 + tm_year (localtime tz (stime i))) ++ lit "/"
    ++ fmt_d 2 (tm_mon (localtime tz (stime i)) + 1) ++ lit "/"
    ++ fmt_d 2 (tm_mday (localtime tz (stime i))) ++ lit "/"
    ++ fmt_d 2 (tm_hour (localtime tz (stime i))) ++ lit "/" ++ lit "HQ" ++ tail ++ flags
    = finfo2filename tz i).
  { rewrite filename_split. unfold dir. rewrite <- !app_assoc. done. }
  rewrite Hpath. destruct (Nat.leb_spec 200 (length (finfo2filename tz i))) as [Hbig|]; [|done].
  rewrite filename_split, app_assoc, length_app in Hbig. destruct dir_facts as (_ & _ & Ld).
  rewrite length_app, Ld in Hbig. rewrite length_app in Hlen. cbn [length list_ascii_of_string] in *. lia.
Qed.

Lemma partition_read fl old :
  length old = 16%nat ->
  cstring (<[12%nat := NUL]> (take 12 ((finfo_base tz i ++ fl) ++ replicate 12 NUL) ++ drop 12 old))
  = partition_name disk part.
Proof.
  intros Hold. rewrite finfo_base_split. unfold dir. rewrite <- !app_assoc.
  rewrite take_app_length' by done.
  rewrite insert_app_r_alt by done. change (12 - length (partition_name disk part))%nat with 0%nat.
  destruct (drop 12 old) as [|x l] eqn:Hd.
  { apply (f_equal length) in Hd. rewrite length_drop in Hd. simpl in Hd. lia. }
  cbn [insert list_insert]. destruct Hok as [_ Hdk Hpt _ _ _ _].
  unfold partition_name. cbn.
  destruct (Ascii.eqb_spec disk NUL) as [-> |]; [done|].
  by destruct (Ascii.eqb_spec part NUL) as [-> |].
Qed.

(** What is read from a name whose end [fl] has no fields that count. *)
Lemma parse_ended fl i0 :
  match fl with c :: _ => isalnum c = false | [] => True end -> (length fl <= 20)%nat ->
  (forall info, finfo_loop (length fl + 1) tz fl false info = Some (0, info)) -> length (info_partition i0) = 16%nat ->
  exists i', hdutil_filename2finfo tz (finfo_base tz i ++ fl) i0 = Some (0, i') /\
    stime i' = stime i /\ info_channel i' = info_channel i /\ info_len i' = info_len i /\ info_trig i' = info_trig i /\
    info_remote i' = bool01 (bool_decide (is_Some (strchr fl REMOTE_TRIG_FLAG))) /\
    info_lock i' = bool01 (bool_decide (is_Some (strchr fl LOCK_FILE_FLAG))) /\
    ing_flag i' = bool01 (bool_decide (is_Some (strstr fl RECORDING_FILE_EXT))) /\
    cstring (info_partition i') = partition_name disk part.
Proof.
  intros Hhd Hlf Hend H0. unfold hdutil_filename2finfo. pose proof base_length as Hlb.
  destruct (Nat.ltb_spec 100 (length (finfo_base tz i ++ fl))) as [Hbig|]; [rewrite length_app in Hbig; lia|].
  assert (Hsd : strstr (finfo_base tz i ++ fl) (lit "sd") = Some 8%nat).
  { rewrite finfo_base_split. unfold dir. rewrite <- !app_assoc. reflexivity. }
  rewrite Hsd. unfold strncpy at 1. rewrite H0.
  change (8 + 4 <=? 16)%nat with true. cbv iota beta. cbn [mbind option_bind].
  unfold RECORDING_FILE_EXT. cbn [list_ascii_of_string].
  rewrite !(strchr_skip (finfo_base tz i)), (strstr_skip (finfo_base tz i)) by (apply base_plain || reflexivity).
  rewrite !(bool_decide_ext _ _ (fmap_is_Some _ _)). eexists. split.
  - eapply finfo_loop_more; [rewrite scan_base by done; apply Hend|].
    rewrite !length_app. destruct dir_facts as (_ & _ & Ld).
    rewrite Ld, finfo_base_split, !length_app, Ld. cbn [length list_ascii_of_string].
    unfold tail. repeat (progress (rewrite ?length_app; cbn [length list_ascii_of_string])). lia.
  - split_and!; try reflexivity. apply partition_read, H0.
Qed.

(** The ends of the names of recordings. *)
Lemma end_of_flags r l : let fl := (if r : bool then [REMOTE_TRIG_FLAG] else []) ++ (if l : bool then [LOCK_FILE_FLAG] else []) ++ IMG_FILE_EXT in
  match fl with c :: _ => isalnum c = false | [] => True end /\ (length fl <= 20)%nat /\
  (forall info, finfo_loop (length fl + 1) tz fl false info = Some (0, info)) /\
  bool_decide (is_Some (strchr fl REMOTE_TRIG_FLAG)) = r /\ bool_decide (is_Some (strchr fl LOCK_FILE_FLAG)) = l /\
  bool_decide (is_Some (strstr fl RECORDING_FILE_EXT)) = false.
Proof. intros fl. unfold fl. destruct r, l; (split_and!; [reflexivity | cbn; lia | done..]). Qed.

(** What is read from the name with any flags. *)
Lemma parse_flagged r l i0 : length (info_partition i0) = 16%nat ->
  exists i', hdutil_filename2finfo tz (flagged (finfo_base tz i) r l) i0 = Some (0, i') /\
    stime i' = stime i /\ info_channel i' = info_channel i /\ info_len i' = info_len i /\
    info_trig i' = info_trig i /\ info_lock i' = bool01 l /\ ing_flag i' = 0.
Proof.
  intros H0. destruct (end_of_flags r l) as (Hhd & Hl & Hend & Hr & Hlk & Hing).
  destruct (parse_ended _ i0 Hhd Hl Hend H0) as (i' & H). rewrite Hr, Hlk, Hing in H. exists i'. by destruct H as (? & ? & ? & ? & ? & _ & ? & ? & _).
Qed.

Lemma parse_name i0 :
  length (info_partition i0) = 16%nat ->
  exists i', hdutil_filename2finfo tz (finfo2filename tz i) i0 = Some (0, i') /\
    stime i' = stime i /\ info_channel i' = info_channel i /\ info_len i' = info_len i /\
    info_trig i' = info_trig i /\ info_remote i' = bool01 (info_remote i =? 1) /\
    info_lock i' = bool01 ((info_remote i =? 1) || negb (info_trig i =? 0)) /\
    ing_flag i' = 0 /\ cstring (info_partition i') = partition_name disk part.
Proof.
  intros H0. destruct (end_of_flags (info_remote i =? 1) ((info_remote i =? 1) || negb (info_trig i =? 0))) as (Hhd & Hl & Hend & Hr & Hlk & Hing).
  destruct (parse_ended _ i0 Hhd Hl Hend H0) as (i' & H). rewrite Hr, Hlk, Hing in H. exists i'. by rewrite filename_flagged.
Qed.

End Names.

(** C22. A recording's name says where it is and what it holds: [hdutil_filename2finfo]
    reads back from the name [finfo2filename] made the start time, the channel, the
    length, the trigger and the partition, a remote flag for a recording started by
    hand, and a lock for one that an alarm or a hand started; [get_fname_time] reads
    the same start time; and [hdutil_filename2dirs] finds the whole name again from
    the partition and the name without its 27 characters of directory. *)
Theorem filename_roundtrip tz disk part i i0 :
  - 86400 <= tz <= 86400 -> info_ok disk part i -> length (info_partition i0) = 16%nat ->
  (exists i', hdutil_filename2finfo tz (finfo2filename tz i) i0 = Some (0, i') /\
    stime i' = stime i /\ info_channel i' = info_channel i /\ info_len i' = info_len i /\
    info_trig i' = info_trig i /\ info_remote i' = bool01 (info_remote i =? 1) /\
    info_lock i' = bool01 ((info_remote i =? 1) || negb (info_trig i =? 0)) /\
    ing_flag i' = 0 /\ cstring (info_partition i') = partition_name disk part) /\
  get_fname_time tz (finfo2filename tz i) = Some (stime i) /\
  hdutil_filename2dirs (partition_name disk part) (drop 27 (finfo2filename tz i))
  = Some (0, finfo2filename tz i).
Proof.
  intros Htz Hok H0. split_and!.
  - by apply parse_name.
  - by eapply fname_time.
  - destruct (dir_facts tz disk part i Htz Hok) as (_ & _ & Hd).
    rewrite <- (dirs_again tz disk part i Htz Hok). f_equal.
    rewrite (filename_split tz disk part i Hok), drop_app_ge by lia.
    rewrite Hd. reflexivity.
Qed.

Definition example_info : file_info_struct :=
  {| stime := 1145588704; info_channel := 3; info_type := 2; info_len := 120; info_trig := 31;
     info_remote := 1; info_lock := 0; ing_flag := 0;
     info_partition := lit "/hqdata/sda4" ++ replicate 4 NUL |}.

Lemma filename_roundtrip_witness :
  finfo2filename 28800 example_info
    = lit "/hqdata/sda4/2006/04/21/11/HQ_C03_D20060421110504_L120_T1F#@.AVI" /\
  get_fname_time 28800 (lit "/hqdata/sda4/2006/04/21/11/HQ_C03_D20060421110504_L120_T1F#@.AVI")
    = Some 1145588704.
Proof.
  assert (Hok : info_ok "a" "4" example_info) by (constructor; vm_compute; done).
  assert (Hn : finfo2filename 28800 example_info
    = lit "/hqdata/sda4/2006/04/21/11/HQ_C03_D20060421110504_L120_T1F#@.AVI") by (vm_compute; done).
  split; [exact Hn|]. rewrite <- Hn.
  apply (filename_roundtrip 28800 "a" "4" example_info example_info); [lia | exact Hok | done].
Defined.

(** C23. A recording's name is a part without flags, its flags and its extension;
    locking, unlocking and marking a recording as started by hand set or clear one
    flag of the name, whatever flags it has, and keep the rest. *)
Theorem flags_change_one tz disk part i :
  - 86400 <= tz <= 86400 -> info_ok disk part i ->
  finfo2filename tz i
    = flagged (finfo_base tz i) (info_remote i =? 1) ((info_remote i =? 1) || negb (info_trig i =? 0)) /\
  forall r l, hdutil_lock_filename (flagged (finfo_base tz i) r l) = flagged (finfo_base tz i) r true /\
    hdutil_unlock_filename (flagged (finfo_base tz i) r l) = flagged (finfo_base tz i) r false /\
    rtflag_filename (flagged (finfo_base tz i) r l) = flagged (finfo_base tz i) true l.
Proof.
  intros Htz Hok. split; [apply filename_flagged|]. intros r l.
  pose proof (base_plain tz disk part i Htz Hok).
  by rewrite lock_flagged, unlock_flagged, rtflag_flagged.
Qed.

Lemma flags_change_one_witness :
  hdutil_unlock_filename (finfo2filename 28800 example_info)
  = lit "/hqdata/sda4/2006/04/21/11/HQ_C03_D20060421110504_L120_T1F#.AVI".
Proof.
  assert (Hok : info_ok "a" "4" example_info) by (constructor; vm_compute; done).
  destruct (flags_change_one 28800 "a" "4" example_info ltac:(lia) Hok) as [-> H].
  destruct (H true true) as (_ & Hu & _). vm_compute in Hu |- *. exact Hu.
Defined.

(** A trigger in lower case is not read as the number it stands for. *)
Lemma hex2ascii_lower : hex2ascii "a" - 48 = 17 /\ hex2ascii "A" - 48 = 10.
Proof. done. Qed.
