(* ===== verification/AlarmLog.v ===== *)
(** * The recording log (src/mp_hdmodule_m/hdmod.c)

    /log/alarmlog.txt is a sequence of records of 44 bytes: a time, a type and a
    text.  The calls that write it append one record; after a restart the recorder
    reads it from its end to find a recording that was not over.  [fopen], [stat]
    and [gettimeofday] may fail: [log_env] says what they gave. *)

From Stdlib Require Import Ascii String.
From S2P Require Import Prelude Ctime Cstring.

Definition LOG_RECORD : nat := 44.
Definition ALARMLOGFILE_MAX_SIZE : Z := 128.

(** [log_file] is ALARMLOG_FILE and [log_file_0] is ALARMLOG_FILE_0, [None] where
    there is no such file. *)
Record alarm_files := { log_file : option (list ascii); log_file_0 : option (list ascii) }.

(** [st_size_garbage] is what the field holds when [stat] fails. *)
Record log_env := {
  log_zone : Z; log_time : option Z; fopen_ok : bool; st_size_garbage : Z
}.

(** The time part of a record. *)
Definition log_stamp (e : log_env) : cstr :=
  match log_time e with
  | None => lit "<" ++ map chr [187; 241; 200; 161; 207; 181; 205; 179; 202; 177; 188; 228; 202; 177;
                                179; 246; 180; 237] ++ lit " >   "
  | Some t =>
      let p := localtime (log_zone e) t in
      lit "<" ++ fmt_d 4 (tm_year p + 1900) ++ lit "-" ++ fmt_d 2 (tm_mon p + 1) ++ lit "-"
      ++ fmt_d 2 (tm_mday p) ++ lit " " ++ fmt_d 2 (tm_hour p) ++ lit ":" ++ fmt_d 2 (tm_min p)
      ++ lit ":" ++ fmt_d 2 (tm_sec p) ++ lit ">   "
  end.

Definition newline : cstr := ["010"%char].

(** The file is moved away when it has grown past its limit. *)
Definition limit_log (e : log_env) (fs : alarm_files) : alarm_files :=
  let st_size := match log_file fs with Some f => zlen f | None => st_size_garbage e end in
  if ALARMLOGFILE_MAX_SIZE <=? Z.shiftr st_size 10 then
    {| log_file := None; log_file_0 := log_file fs |}
  else fs.

Definition append_log (e : log_env) (fs : alarm_files) (text : cstr) : alarm_files :=
  let fs := limit_log e fs in
  if fopen_ok e then
    {| log_file := Some (default [] (log_file fs) ++ log_stamp e ++ text);
       log_file_0 := log_file_0 fs |}
  else fs.

Definition dump_clearinfo_to_log (e : log_env) (fs : alarm_files) : alarm_files :=
  append_log e fs (lit "[CLEAR]            " ++ newline).

Definition save_text (time : Z) : cstr :=
  lit "[SAVE]  " ++ fmt_d 5 time ++ map chr [195; 235] ++ lit "    " ++ newline.
Definition stop_text : cstr := lit "[STOP]             " ++ newline.

(** The channel [ch] is not written. *)
Definition dump_saveinfo_to_log (e : log_env) (fs : alarm_files) (mode ch time : Z) : alarm_files :=
  append_log e fs ((if mode =? 1 then save_text time else []) ++ (if mode =? 0 then stop_text else [])).

(** ** Reading the log *)

Definition log_type (log : list ascii) : list ascii := take 8 (drop 24 log).
Definition log_data (log : list ascii) : list ascii := take 12 (drop 32 log).

(** [strncmp] of the first seven characters. *)
Definition type_is (log : list ascii) (s : string) : bool := is_prefix (lit s) (log_type log).

(** [fread] of one record at [pos] over the buffer [log]. *)
Definition fread_log (f : list ascii) (pos : nat) (log : list ascii) : list ascii * nat :=
  let b := take LOG_RECORD (drop pos f) in
  (b ++ drop (length b) log, (pos + length b)%nat).

(** The loop of the two checks: [stops] is the flag a record of that type ends the
    loop with. *)
Fixpoint check_loop (fuel : nat) (stops : list ascii -> option Z) (f : list ascii)
    (row pos : nat) (log : list ascii) : option (Z * list ascii) :=
  match fuel with
  | O => None
  | S fuel =>
      let i := (LOG_RECORD * row <=? length f)%nat in
      let pos := if i then (length f - LOG_RECORD * row)%nat else pos in
      let (log, pos) := fread_log f pos log in
      match stops log with
      | Some flag => Some (flag, log)
      | None => if i then check_loop fuel stops f (S row) pos log else Some (0, log)
      end
  end.

Definition trig_stops (log : list ascii) : option Z :=
  if type_is log "[CLEAR]" then Some 0
  else if type_is log "[ALARM]" then Some 1 else None.

Definition save_stops (log : list ascii) : option Z :=
  if type_is log "[STOP] " then Some 0
  else if type_is log "[CLEAR]" then Some 0
  else if type_is log "[SAVE] " then Some 1 else None.

Definition check_log (stops : list ascii -> option Z) (fs : alarm_files) (log : list ascii)
    : option (Z * list ascii) :=
  match log_file fs with
  | None => Some (0, log)
  | Some f => check_loop (length f / LOG_RECORD + 2) stops f 1 0 log
  end.

Definition check_alarmlog_for_trigflag (fs : alarm_files) (log : list ascii) := check_log trig_stops fs log.
Definition check_alarmlog_for_hqsaveflag (fs : alarm_files) (log : list ascii) := check_log save_stops fs log.

(** The string after the next [c]; a null pointer is not followed. *)
Definition after (s : cstr) (c : ascii) : option cstr :=
  p ← strchr s c; Some (drop (S p) s).

Definition get_record_time (zone : Z) (log : list ascii) : option Z :=
  let timeinfo := cstring (take 23 log) in
  lp ← after timeinfo "<"; let year := atoi lp - 1900 in
  lk ← after lp "-"; let mon := atoi lk - 1 in
  lp ← after lk "-"; let mday := atoi lp in
  lk ← after lp " "; let hour := atoi lk in
  lp ← after lk ":"; let min := atoi lp in
  lk ← after lp ":"; let sec := atoi lk in
  Some (mktime zone {| tm_year := year; tm_mon := mon; tm_mday := mday; tm_hour := hour;
                       tm_min := min; tm_sec := sec |}).

Definition get_hqsave_time (log : list ascii) : Z := atoi (cstring (take 11 (log_data log))).
