(* ===== verification/AlarmLogThms.v ===== *)
(** * The recording log: reading finds the last record that was written *)

From Stdlib Require Import Ascii String.
From S2P Require Import Prelude Ctime Cstring AlarmLog.

(** The last record of a log that ends the search, with its flag. *)
Definition last_stop (stops : list ascii -> option Z) (rs : list (list ascii))
    : option (Z * list ascii) :=
  fold_left (fun acc r => match stops r with Some f => Some (f, r) | None => acc end) rs None.

Definition whole_records (rs : list (list ascii)) : Prop :=
  Forall (fun r => length r = LOG_RECORD) rs.

Lemma concat_records rs : whole_records rs -> length (concat rs) = (LOG_RECORD * length rs)%nat.
Proof.
  unfold LOG_RECORD. induction 1 as [|r rs Hr Hrs IH]; [done|].
  cbn [concat length]. rewrite length_app, Hr, IH. unfold LOG_RECORD. lia.
Qed.

Section Scan.
Variable stops : list ascii -> option Z.

Lemma last_stop_snoc l r :
  last_stop stops (l ++ [r]) = match stops r with Some f => Some (f, r) | None => last_stop stops l end.
Proof. unfold last_stop. by rewrite fold_left_app. Qed.

Lemma fread_here a r b log :
  length r = LOG_RECORD -> length log = LOG_RECORD ->
  fread_log (a ++ r ++ b) (length a) log = (r, (length a + LOG_RECORD)%nat).
Proof.
  intros Hr Hl. unfold fread_log. rewrite drop_app_length, take_app_length' by done.
  rewrite Hr, <- Hl, drop_all, app_nil_r. done.
Qed.

(** Past the first record the read finds what was already looked at. *)
Lemma check_loop_past fuel rs log :
  whole_records rs -> rs <> [] -> Forall (fun r => stops r = None) rs -> stops log = None ->
  length log = LOG_RECORD ->
  exists log', check_loop (S fuel) stops (concat rs) (S (length rs)) LOG_RECORD log = Some (0, log').
Proof.
  intros Hw Hne Hs Hlog Hlen. cbn [check_loop].
  rewrite concat_records by done. destruct (Nat.leb_spec (LOG_RECORD * S (length rs)) (LOG_RECORD * length rs)).
  { unfold LOG_RECORD in *. lia. }
  destruct rs as [|r rs]; [done|]. apply Forall_cons_1 in Hw as [Hr Hw]. apply Forall_cons_1 in Hs as [_ Hs].
  unfold fread_log. cbn [concat]. rewrite drop_app_length' by done.
  destruct rs as [|r' rs].
  - change (take LOG_RECORD (concat [])) with (@nil ascii).
    change ([] ++ drop (length (@nil ascii)) log) with log. rewrite Hlog. eauto.
  - apply Forall_cons_1 in Hw as [Hr' _]. apply Forall_cons_1 in Hs as [Hs' _].
    cbn [concat]. rewrite take_app_length' by done. rewrite Hr', <- Hlen, drop_all, app_nil_r, Hs'. eauto.
Qed.

Lemma check_loop_records l : forall l' fuel pos log,
  whole_records (l ++ l') -> l ++ l' <> [] -> Forall (fun r => stops r = None) l' ->
  (length l < fuel)%nat -> length log = LOG_RECORD ->
  (l = [] -> stops log = None /\ pos = LOG_RECORD) ->
  exists log', check_loop fuel stops (concat (l ++ l')) (S (length l')) pos log
    = Some (default (0, log') (last_stop stops l)).
Proof.
  induction l as [|r l IH] using rev_ind; intros l' fuel pos log Hw Hne Hs Hf Hlen Hnil;
    (destruct fuel as [|fuel]; [lia|]).
  - destruct (Hnil eq_refl) as [Hlog ->]. by apply check_loop_past.
  - cbn [check_loop]. rewrite (concat_records (_ ++ l')) by done.
    rewrite !length_app. cbn [length].
    destruct (Nat.leb_spec (LOG_RECORD * S (length l')) (LOG_RECORD * (length l + 1 + length l')));
      [|unfold LOG_RECORD in *; lia].
    assert (Hl : whole_records l) by (apply Forall_app in Hw as [[? ?]%Forall_app _]; done).
    assert (Hr : length r = LOG_RECORD).
    { apply Forall_app in Hw as [[_ Hr]%Forall_app _]. by apply Forall_cons_1 in Hr as [? _]. }
    rewrite !concat_app. cbn [concat]. rewrite app_nil_r, <- app_assoc.
    replace (LOG_RECORD * (length l + 1 + length l') - LOG_RECORD * S (length l'))%nat
      with (length (concat l)) by (rewrite concat_records by done; unfold LOG_RECORD; lia).
    rewrite fread_here by done. rewrite last_stop_snoc.
    destruct (stops r) as [flag|] eqn:Hst; [by exists []|].
    destruct (IH (r :: l') fuel (length (concat l) + LOG_RECORD)%nat r) as [log' IHl].
    + by rewrite <- app_assoc in Hw.
    + by destruct l.
    + by constructor.
    + rewrite length_app in Hf. cbn [length] in Hf. lia.
    + done.
    + intros ->. done.
    + exists log'. rewrite concat_app in IHl. exact IHl.
Qed.

Lemma check_log_records rs f0 log :
  whole_records rs -> rs <> [] -> length log = LOG_RECORD ->
  exists log', check_log stops {| log_file := Some (concat rs); log_file_0 := f0 |} log
    = Some (default (0, log') (last_stop stops rs)).
Proof.
  intros Hw Hne Hlen. unfold check_log. cbn [log_file].
  destruct (check_loop_records rs [] (length (concat rs) / LOG_RECORD + 2) 0 log) as [log' H].
  - by rewrite app_nil_r.
  - by rewrite app_nil_r.
  - constructor.
  - rewrite concat_records by done. rewrite Nat.mul_comm, Nat.div_mul; [lia | done].
  - done.
  - by intros ->.
  - rewrite app_nil_r in H. eauto.
Qed.

End Scan.

(** ** The records the calls write *)

Section Records.

Lemma after_skip s t c : Forall (fun x => x <> c) s -> after (s ++ c :: t) c = Some t.
Proof.
  intros Hs. unfold after.
  assert (Hc : strchr (s ++ c :: t) c = Some (length s)).
  { induction Hs as [|x s Hx Hs IH]; cbn [app strchr length].
    - by rewrite Ascii.eqb_refl.
    - destruct (Ascii.eqb_spec x c); [done|]. by rewrite IH. }
  rewrite Hc. cbn [mbind option_bind]. f_equal.
  replace (S (length s)) with (length s + 1)%nat by lia. by rewrite drop_app_add.
Qed.

Lemma after_here t c : after (c :: t) c = Some t.
Proof. by apply (after_skip []). Qed.

Lemma cstring_id s : Forall (fun c => c <> NUL) s -> cstring s = s.
Proof.
  induction 1 as [|c s Hc Hs IH]; [done|]. cbn [cstring].
  destruct (Ascii.eqb_spec c NUL); [done|]. by rewrite IH.
Qed.

Lemma digits_ne s c : Forall (is_digit 10) s -> isalnum c = false -> Forall (fun x => x <> c) s.
Proof.
  intros Hs Hc. eapply list.Forall_impl; [exact Hs|]. intros x (d & Hd & ->) <-.
  destruct (digit_facts d ltac:(lia)) as (_ & _ & Hal & _). congruence.
Qed.

#[local] Opaque fmt_d.

(** The first 23 bytes of a stamp, in the parts [get_record_time] looks for. *)
Lemma stamp_time e t r :
  log_time e = Some t -> - 2 ^ 31 <= t < 2 ^ 31 -> - 86400 <= log_zone e <= 86400 ->
  length (log_stamp e) = 24%nat /\ get_record_time (log_zone e) (log_stamp e ++ r) = Some t.
Proof.
  intros Ht Hr Hz. unfold log_stamp. rewrite Ht.
  pose proof (localtime_ok (log_zone e) t Hr Hz) as (? & ? & ? & ? & ? & ?).
  pose proof (mktime_localtime (log_zone e) t Hr) as Hmk.
  set (p := localtime (log_zone e) t) in *.
  replace (tm_year p + 1900) with (1900 + tm_year p) by lia.
  destruct (fmt_4 (1900 + tm_year p)) as (D1 & V1 & L1); [lia|].
  destruct (fmt_2 (tm_mon p + 1)) as (D2 & V2 & L2); [lia|].
  destruct (fmt_2 (tm_mday p)) as (D3 & V3 & L3); [lia|].
  destruct (fmt_2 (tm_hour p)) as (D4 & V4 & L4); [lia|].
  destruct (fmt_2 (tm_min p)) as (D5 & V5 & L5); [lia|].
  destruct (fmt_2 (tm_sec p)) as (D6 & V6 & L6); [lia|].
  set (s1 := fmt_d 4 (1900 + tm_year p)) in *. set (s2 := fmt_d 2 (tm_mon p + 1)) in *.
  set (s3 := fmt_d 2 (tm_mday p)) in *. set (s4 := fmt_d 2 (tm_hour p)) in *.
  set (s5 := fmt_d 2 (tm_min p)) in *. set (s6 := fmt_d 2 (tm_sec p)) in *.
  clearbody s1 s2 s3 s4 s5 s6.
  split; [rewrite !length_app; cbn [length list_ascii_of_string]; lia|].
  assert (Hcut : cstring (take 23 ((lit "<" ++ s1 ++ lit "-" ++ s2 ++ lit "-" ++ s3 ++ lit " " ++ s4
      ++ lit ":" ++ s5 ++ lit ":" ++ s6 ++ lit ">   ") ++ r))
    = "<"%char :: s1 ++ "-"%char :: s2 ++ "-"%char :: s3 ++ " "%char :: s4 ++ ":"%char :: s5
      ++ ":"%char :: s6 ++ lit ">  ").
  { transitivity (cstring (take 23 (("<"%char :: s1 ++ "-"%char :: s2 ++ "-"%char :: s3 ++ " "%char :: s4
      ++ ":"%char :: s5 ++ ":"%char :: s6 ++ lit ">  ") ++ (" "%char :: r)))).
    - f_equal. f_equal. rewrite <- !app_assoc. cbn [app list_ascii_of_string].
      rewrite <- !app_assoc. cbn [app]. rewrite <- !app_assoc. cbn [app].
      rewrite <- !app_assoc. cbn [app]. rewrite <- !app_assoc. cbn [app].
      rewrite <- !app_assoc. cbn [app]. rewrite <- !app_assoc. done.
    - rewrite take_app_length'.
      + apply cstring_id. pose proof (fun s H => digits_ne s NUL H eq_refl) as Hd.
        cbn [list_ascii_of_string].
        repeat (first [apply list.Forall_nil_2 | apply list.Forall_cons_2; [done|] | apply list.Forall_app_2; [apply Hd; assumption|]]).
      + repeat (progress (rewrite ?length_app; cbn [length list_ascii_of_string])). lia. }
  unfold get_record_time. rewrite Hcut.
  pose proof (fun s c H Hc => digits_ne s c H Hc) as Hd.
  rewrite (obind_ret _ _ _ (after_here _ "<")).
  rewrite (obind_ret _ _ _ (after_skip s1 _ "-" (Hd s1 "-"%char D1 eq_refl))).
  rewrite (obind_ret _ _ _ (after_skip s2 _ "-" (Hd s2 "-"%char D2 eq_refl))).
  rewrite (obind_ret _ _ _ (after_skip s3 _ " " (Hd s3 " "%char D3 eq_refl))).
  rewrite (obind_ret _ _ _ (after_skip s4 _ ":" (Hd s4 ":"%char D4 eq_refl))).
  rewrite (obind_ret _ _ _ (after_skip s5 _ ":" (Hd s5 ":"%char D5 eq_refl))).
  rewrite !atoi_val by first [assumption | exact eq_refl | by intros Hn; rewrite Hn in *].
  rewrite V1, V2, V3, V4, V5, V6. f_equal. rewrite <- Hmk. f_equal.
  replace (1900 + tm_year p - 1900) with (tm_year p) by lia.
  replace (tm_mon p + 1 - 1) with (tm_mon p) by lia. by destruct p.
Qed.

Lemma record_parts st text :
  length st = 24%nat -> log_type (st ++ text) = take 8 text /\ log_data (st ++ text) = take 12 (drop 8 text).
Proof.
  intros Hs. unfold log_type, log_data. rewrite !drop_app_ge by lia.
  by rewrite Hs.
Qed.

Lemma save_text_facts time :
  0 <= time < 100000 ->
  length (save_text time) = 20%nat /\ take 8 (save_text time) = lit "[SAVE]  " /\
  atoi (cstring (take 11 (take 12 (drop 8 (save_text time))))) = time.
Proof.
  intros Ht. destruct (fmt_d_spec 5 time ltac:(lia)) as (D & V & N & L & _).
  specialize (L ltac:(lia) ltac:(lia)). unfold save_text. revert D V N L. generalize (fmt_d 5 time).
  intros s D V N L. split_and!.
  - rewrite !length_app. cbn [length list_ascii_of_string map newline]. rewrite L. done.
  - rewrite take_app_length' by done. done.
  - rewrite drop_app_length' by done. rewrite take_take.
    replace (11 `min` 12)%nat with (length s + 6)%nat by lia.
    rewrite take_app_add. cbn [map list_ascii_of_string newline app take].
    rewrite cstring_id.
    + rewrite atoi_val; [done | done | done | reflexivity].
    + apply list.Forall_app_2; [by apply digits_ne|]. repeat (constructor; [discriminate|]). constructor.
Qed.

End Records.

(** A log of whole records. *)
Definition log_ok (fs : alarm_files) : Prop :=
  exists rs, whole_records rs /\ default [] (log_file fs) = concat rs.

(** Appending a record of 20 characters keeps the log whole and the record last. *)
Lemma append_log_last e fs text t log stops :
  log_ok fs -> fopen_ok e = true -> log_time e = Some t -> - 2 ^ 31 <= t < 2 ^ 31 ->
  - 86400 <= log_zone e <= 86400 -> length text = 20%nat -> length log = LOG_RECORD ->
  stops (log_stamp e ++ text) <> None ->
  log_ok (append_log e fs text) /\
  check_log stops (append_log e fs text) log
    = (f ← stops (log_stamp e ++ text); Some (f, log_stamp e ++ text)).
Proof.
  intros (rs & Hw & Hrs) Hfo Htime Ht Hz Htext Hlog Hst.
  destruct (stamp_time e t text Htime Ht Hz) as [Hlen _].
  assert (Hrec : exists rs', whole_records rs' /\ log_file (append_log e fs text)
    = Some (concat (rs' ++ [log_stamp e ++ text]))).
  { unfold append_log. rewrite Hfo. cbn [log_file].
    assert (Hlim : default [] (log_file (limit_log e fs)) = concat rs \/
                   default [] (log_file (limit_log e fs)) = concat []).
    { unfold limit_log. destruct (_ <=? _); [by right | by left]. }
    destruct Hlim as [-> | ->]; [exists rs | exists []]; (split; [done || constructor|]);
      rewrite concat_app; cbn [concat]; by rewrite app_nil_r. }
  destruct Hrec as (rs' & Hw' & Hf).
  assert (Hw2 : whole_records (rs' ++ [log_stamp e ++ text])).
  { apply list.Forall_app_2; [done|]. constructor; [|constructor].
    rewrite length_app, Hlen, Htext. done. }
  split; [exists (rs' ++ [log_stamp e ++ text]); by rewrite Hf|].
  destruct (append_log e fs text) as [lf l0]. cbn [log_file] in Hf. subst lf.
  destruct (check_log_records stops (rs' ++ [log_stamp e ++ text]) l0 log) as [log' ->];
    [done | by destruct rs' | done |].
  rewrite last_stop_snoc. by destruct (stops (log_stamp e ++ text)).
Qed.

Lemma dump_save_append e fs ch time :
  dump_saveinfo_to_log e fs 1 ch time = append_log e fs (save_text time).
Proof. unfold dump_saveinfo_to_log. cbn. by rewrite app_nil_r. Qed.

Lemma save_read_back e fs t ch time log :
  log_ok fs -> fopen_ok e = true -> log_time e = Some t -> - 2 ^ 31 <= t < 2 ^ 31 ->
  - 86400 <= log_zone e <= 86400 -> 0 <= time < 100000 -> length log = LOG_RECORD ->
  exists r, check_alarmlog_for_hqsaveflag (dump_saveinfo_to_log e fs 1 ch time) log = Some (1, r) /\
    get_record_time (log_zone e) r = Some t /\ get_hqsave_time r = time.
Proof.
  intros Hok Hfo Htime Ht Hz Hlen Hlog.
  destruct (save_text_facts time Hlen) as (Hl & H8 & Hat).
  destruct (stamp_time e t (save_text time) Htime Ht Hz) as [Hst Hgt].
  destruct (record_parts (log_stamp e) (save_text time) Hst) as [Hty Hda]. rewrite H8 in Hty.
  assert (Hs1 : save_stops (log_stamp e ++ save_text time) = Some 1)
    by (unfold save_stops, type_is; by rewrite Hty).
  destruct (append_log_last e fs (save_text time) t log save_stops) as [_ H1]; [congruence || done ..|].
  exists (log_stamp e ++ save_text time). split.
  - unfold check_alarmlog_for_hqsaveflag. by rewrite dump_save_append, H1, Hs1.
  - split; [done|]. unfold get_hqsave_time. by rewrite Hda.
Qed.

(** C24. What the recorder writes to its log it finds after a restart, whatever whole
    records the log held before: after a start by hand the check answers 1 with the
    time and the length of that start; after a stop or a clear it answers 0; and the
    log stays a sequence of whole records. *)
Theorem log_read_back e fs t ch time log :
  log_ok fs -> fopen_ok e = true -> log_time e = Some t -> - 2 ^ 31 <= t < 2 ^ 31 ->
  - 86400 <= log_zone e <= 86400 -> 0 <= time < 100000 -> length log = LOG_RECORD ->
  (exists r, check_alarmlog_for_hqsaveflag (dump_saveinfo_to_log e fs 1 ch time) log = Some (1, r) /\
     get_record_time (log_zone e) r = Some t /\ get_hqsave_time r = time) /\
  fst <$> check_alarmlog_for_hqsaveflag (dump_saveinfo_to_log e fs 0 ch time) log = Some 0 /\
  fst <$> check_alarmlog_for_hqsaveflag (dump_clearinfo_to_log e fs) log = Some 0 /\
  fst <$> check_alarmlog_for_trigflag (dump_clearinfo_to_log e fs) log = Some 0 /\
  log_ok (dump_saveinfo_to_log e fs 1 ch time) /\ log_ok (dump_saveinfo_to_log e fs 0 ch time) /\
  log_ok (dump_clearinfo_to_log e fs).
Proof.
  intros Hok Hfo Htime Ht Hz Hlen Hlog.
  destruct (save_text_facts time Hlen) as (Hl & H8 & _).
  destruct (stamp_time e t (save_text time) Htime Ht Hz) as [Hst Hgt].
  destruct (record_parts (log_stamp e) (save_text time) Hst) as [Hty Hda]. rewrite H8 in Hty.
  pose proof (record_parts (log_stamp e) stop_text Hst) as [Hty0 _].
  pose proof (record_parts (log_stamp e) (lit "[CLEAR]            " ++ newline) Hst) as [Htyc _].
  assert (Hs1 : save_stops (log_stamp e ++ save_text time) = Some 1)
    by (unfold save_stops, type_is; by rewrite Hty).
  assert (Hs0 : save_stops (log_stamp e ++ stop_text) = Some 0)
    by (unfold save_stops, type_is; by rewrite Hty0).
  assert (Hsc : save_stops (log_stamp e ++ lit "[CLEAR]            " ++ newline) = Some 0)
    by (unfold save_stops, type_is; by rewrite Htyc).
  assert (Htc : trig_stops (log_stamp e ++ lit "[CLEAR]            " ++ newline) = Some 0)
    by (unfold trig_stops, type_is; by rewrite Htyc).
  destruct (append_log_last e fs (save_text time) t log save_stops) as [Hok1 H1]; [congruence || done ..|].
  destruct (append_log_last e fs stop_text t log save_stops) as [Hok0 H0]; [congruence || done ..|].
  destruct (append_log_last e fs (lit "[CLEAR]            " ++ newline) t log save_stops) as [Hokc Hc];
    [congruence || done ..|].
  destruct (append_log_last e fs (lit "[CLEAR]            " ++ newline) t log trig_stops) as [_ Hd];
    [congruence || done ..|].
  split_and!; [by apply save_read_back|..]; rewrite ?dump_save_append.
  - unfold check_alarmlog_for_hqsaveflag, dump_saveinfo_to_log. cbn [Z.eqb app]. by rewrite H0, Hs0.
  - unfold check_alarmlog_for_hqsaveflag, dump_clearinfo_to_log. by rewrite Hc, Hsc.
  - unfold check_alarmlog_for_trigflag, dump_clearinfo_to_log. by rewrite Hd, Htc.
  - done.
  - done.
  - done.
Qed.

Definition example_env : log_env :=
  {| log_zone := 28800; log_time := Some 1145588704; fopen_ok := true; st_size_garbage := 0 |}.
Definition no_files : alarm_files := {| log_file := None; log_file_0 := None |}.

Lemma log_read_back_witness :
  exists r, check_alarmlog_for_hqsaveflag (dump_saveinfo_to_log example_env no_files 1 2 600)
      (replicate 44 NUL) = Some (1, r) /\
    get_record_time 28800 r = Some 1145588704 /\ get_hqsave_time r = 600.
Proof.
  destruct (log_read_back example_env no_files 1145588704 2 600 (replicate 44 NUL)) as [H _];
    [exists []; split; [constructor | done] | done | done | lia | cbn; lia | lia | done | exact H].
Defined.

(** The channel a recording was started on is not in its record. *)
Lemma save_record_no_channel e fs ch ch' time :
  dump_saveinfo_to_log e fs 1 ch time = dump_saveinfo_to_log e fs 1 ch' time.
Proof. done. Qed.

(** A length of six digits makes a record of 45 bytes. *)
Lemma save_record_overlong : length (save_text 100000) = 21%nat.
Proof. done. Qed.

(** In an empty log the answer is read from memory nobody wrote. *)
Lemma empty_log_garbage f0 log :
  check_alarmlog_for_hqsaveflag {| log_file := Some []; log_file_0 := f0 |} log
  = Some (default 0 (save_stops log), log).
Proof.
  assert (Hf : forall p, fread_log [] p log = (log, p)).
  { intros p. unfold fread_log. rewrite drop_nil. change (take LOG_RECORD (@nil ascii)) with (@nil ascii).
    cbn [length]. by rewrite drop_0, Nat.add_0_r. }
  unfold check_alarmlog_for_hqsaveflag, check_log. cbn [log_file length].
  change (0 / LOG_RECORD + 2)%nat with 2%nat. cbn [check_loop length].
  change (LOG_RECORD * 1 <=? 0)%nat with false. cbv iota. rewrite Hf.
  by destruct (save_stops log).
Qed.
