(* ===== verification/Recorder.v ===== *)
(** * The recorder's channels (src/mp_hdmodule_m/hdmod.c)

    The state is the array of channel structures with the module's own flags, the
    recording log and the calls that left the module.  A pointer to a channel is
    its index, [None] the null pointer [get_hdch] gives for a channel number out of
    range.  A mutex is a flag that says it is held; locking one that is held blocks.
    What the encoders, the file index and the threads answer are parameters. *)

From Stdlib Require Import Ascii String.
From S2P Require Import Prelude Update Ctime Cstring RecName AlarmLog.

Definition MOTION_DLY_REC : Z := 10.
Definition HD_MINVAL : Z := 250.
Definition CF_MINVAL : Z := 50.

(** [aviinfo] is the descriptor of the open file, [None] for a null pointer. *)
Record hd_enc_struct := {
  mutex : bool; file_mutex : bool; thread_id : Z; audio_thread_id : Z;
  keyframe_pool_thread_id : Z; takepic_thread_id : Z; hdsave_mode : Z; audiochannel : Z;
  channel : Z; rec_type : Z; pre_rec : Z; dly_rec : Z; max_len : Z; del_typ : Z; state : Z;
  filename : cstr; aviinfo : option Z; recordlen : Z; filelen : Z; trig : Z; cutflag : Z;
  qid : Z; bitrate : Z; watchcnt : Z; keyframe_cnt : Z; audio_cnt : Z; readenc_flag : Z;
  picerrorcode : Z; takingpicflag : Z; pictime : Z; timemax : Z; semflag : Z; queryflag : Z;
  remote_trig_time : Z; remote_trigged : Z; alarmpicflag : Z; alarmpic_required : Z;
  alarmpic_path : cstr; partition : cstr; enable : Z; threadexit : Z; pre_connect : Z
}.

#[export] Instance hd_settable : Settable hd_enc_struct := {| rebuild := fun h =>
  Build_hd_enc_struct (mutex h) (file_mutex h) (thread_id h) (audio_thread_id h)
    (keyframe_pool_thread_id h) (takepic_thread_id h) (hdsave_mode h) (audiochannel h)
    (channel h) (rec_type h) (pre_rec h) (dly_rec h) (max_len h) (del_typ h) (state h)
    (filename h) (aviinfo h) (recordlen h) (filelen h) (trig h) (cutflag h)
    (qid h) (bitrate h) (watchcnt h) (keyframe_cnt h) (audio_cnt h) (readenc_flag h)
    (picerrorcode h) (takingpicflag h) (pictime h) (timemax h) (semflag h) (queryflag h)
    (remote_trig_time h) (remote_trigged h) (alarmpicflag h) (alarmpic_required h)
    (alarmpic_path h) (partition h) (enable h) (threadexit h) (pre_connect h) |}.

(** The calls that leave the module. *)
Inductive call :=
| Reactive_audio (ch : Z)
| Reactive_video (ch : Z)
| Avi_close (fd : Z)
| Rename_file (part old new : cstr)
| Fix_disk (name : cstr)
| Cancel (id : Z)
| Disconnect_video (ch : Z)
| Set_msgmnb (queueid msgnum : Z)
| Lock_by_time (part : cstr) (from until ch : Z)
| Index_add (part name : cstr)
| Send_state.

Record rec_st := {
  g_hdenc : list hd_enc_struct; cf_err : Z; old_cferr_state : Z; hd_playback_flag : Z;
  logs : alarm_files; calls : list call
}.

#[export] Instance rec_st_settable : Settable rec_st := {| rebuild := fun s =>
  Build_rec_st (g_hdenc s) (cf_err s) (old_cferr_state s) (hd_playback_flag s) (logs s) (calls s) |}.

Definition get_hdch (ch : Z) : option Z :=
  if (ch <? MAX_RECORD_CHANNEL_M) && (0 <=? ch) then Some ch else None.

(** The structure a pointer is to, and writing to it. *)
Definition get_hd (i : Z) : M rec_st hd_enc_struct := s ← get_st; access (geti (g_hdenc s) i).
Definition mod_hd (i : Z) (f : hd_enc_struct -> hd_enc_struct) : M rec_st () :=
  s ← get_st; h ← access (geti (g_hdenc s) i);
  l ← access (seti (g_hdenc s) i (f h)); put_st (s <| g_hdenc := l |>).
Definition emit (c : call) : M rec_st () := modify (fun s => s <| calls ::= fun l => l ++ [c] |>).

Definition mutex_lock (i : Z) : M rec_st () :=
  h ← get_hd i; if mutex h then blocked else mod_hd i (fun h => h <| mutex := true |>).
Definition mutex_unlock (i : Z) : M rec_st () := mod_hd i (fun h => h <| mutex := false |>).
Definition file_lock (i : Z) : M rec_st () :=
  h ← get_hd i; if file_mutex h then blocked else mod_hd i (fun h => h <| file_mutex := true |>).
Definition file_unlock (i : Z) : M rec_st () := mod_hd i (fun h => h <| file_mutex := false |>).

(** A call with a pointer: -1 for a null pointer. *)
Definition on_ptr (p : option Z) (m : Z -> M rec_st Z) : M rec_st Z :=
  match p with None => mret (-1) | Some i => m i end.

(** A body between locking and unlocking the channel's mutex. *)
Definition locked (i : Z) (f : hd_enc_struct -> hd_enc_struct) : M rec_st () :=
  mutex_lock i ;; mod_hd i f ;; mutex_unlock i.

(** ** What starts and ends a recording *)

(** The state of a channel that nothing asks to record. *)
Definition idle_state (h : hd_enc_struct) : Z :=
  if (rec_type h =? 0) && negb (pre_rec h =? 0) then 1 else 0.

(** The sums of seconds are not cut to an [int]: every caller passes 0 for [reclen]. *)
Definition trig_body (tr reclen : Z) (h : hd_enc_struct) : hd_enc_struct :=
  if tr =? 0 then
    let h := if recordlen h <? MOTION_DLY_REC + reclen
             then h <| recordlen := MOTION_DLY_REC + reclen |> else h in
    if state h =? 0 then h <| state := 1 |> else h
  else
    let h := if (state h =? 2) && negb (trig h =? tr) then h <| cutflag := 1 |>
             else h <| state := 2 |> in
    let h := h <| trig := Z.lor (trig h) tr |> in
    let reclen := reclen + dly_rec h in
    if recordlen h <? reclen then h <| recordlen := reclen |> else h.

Definition trig_record_event (p : option Z) (tr reclen : Z) : M rec_st Z :=
  on_ptr p (fun i =>
    h ← get_hd i;
    if (tr =? 0) && (rec_type h =? 0) then mret 0
    else if enable h =? 0 then mret (-1)
    else locked i (trig_body tr reclen) ;; mret 0).

Definition start_body (reclen : Z) (h : hd_enc_struct) : hd_enc_struct :=
  let h := h <| remote_trig_time := reclen |> in
  let h := if negb (remote_trigged h =? 1) && negb (state h =? 0)
           then h <| cutflag := 1 |> else h in
  let h := h <| remote_trigged := 1 |> in
  h <| state := 2 |>.

Definition remote_start_record (e : log_env) (p : option Z) (reclen : Z) : M rec_st Z :=
  on_ptr p (fun i =>
    let reclen := if reclen =? 0 then 65535 else reclen in
    locked i (start_body reclen) ;;
    h ← get_hd i;
    modify (fun s => s <| logs := dump_saveinfo_to_log e (logs s) 1 (channel h) reclen |>) ;;
    mret 0).

Definition stop_body (h : hd_enc_struct) : hd_enc_struct :=
  let h := if remote_trigged h =? 1 then h <| cutflag := 1 |> else h in
  let h := h <| remote_trigged := 0 |> in
  let h := if trig h =? 0 then
             (if (pre_rec h =? 0) || (rec_type h =? 1) then h <| state := 0 |>
              else h <| state := 1 |>) <| recordlen := 0 |>
           else h in
  h <| remote_trig_time := 0 |>.

Definition remote_stop_record (e : log_env) (p : option Z) : M rec_st Z :=
  on_ptr p (fun i =>
    locked i stop_body ;;
    h ← get_hd i;
    modify (fun s => s <| logs := dump_saveinfo_to_log e (logs s) 0 (channel h) 0 |>) ;;
    mret 0).

Definition clear_body (h : hd_enc_struct) : hd_enc_struct :=
  let h := h <| trig := 0 |> in
  let h := h <| recordlen := 0 |> in
  if remote_trigged h =? 0 then h <| state := idle_state h |> else h <| cutflag := 1 |>.

(** The pointer is not tested. *)
Definition clear_hdmod_trig_flag (ch : Z) : M rec_st Z :=
  i ← access (get_hdch ch); mod_hd i clear_body ;; mret 0.

(** ** The second *)

(** [--remote_trig_time] and what it ends. *)
Definition remote_tick (h : hd_enc_struct) : hd_enc_struct :=
  if 0 <? remote_trig_time h then
    let h := h <| remote_trig_time := remote_trig_time h - 1 |> in
    if remote_trig_time h =? 0 then
      let h := if recordlen h =? 0 then h <| state := idle_state h |>
               else h <| cutflag := 1 |> in
      h <| remote_trigged := 0 |>
    else h
  else h.

(** [--recordlen] and what it ends. *)
Definition alarm_tick (h : hd_enc_struct) : hd_enc_struct :=
  if 0 <? recordlen h then
    let h := h <| recordlen := recordlen h - 1 |> in
    if recordlen h =? 0 then
      let h := if remote_trigged h =? 0 then
                 (if (0 <? pre_rec h) && (rec_type h =? 0) then h <| state := 1 |>
                  else h <| state := 0 |>)
               else h <| cutflag := 1 |> in
      h <| trig := 0 |>
    else h
  else h.

Definition record_tick (h : hd_enc_struct) : hd_enc_struct :=
  if negb (state h =? 0) then
    let h := match aviinfo h with
             | Some _ =>
                 let h := h <| filelen := filelen h + 1 |> in
                 if max_len h <=? filelen h then h <| cutflag := 1 |> else h
             | None => h
             end in
    alarm_tick (remote_tick h)
  else h.

(** ** Flags and threads *)

Definition set_flag (ch : Z) (f : hd_enc_struct -> hd_enc_struct) : M rec_st Z :=
  on_ptr (get_hdch ch) (fun i => locked i f ;; mret 0).
Definition set_takingpicflag (value ch : Z) := set_flag ch (fun h => h <| takingpicflag := value |>).
Definition set_alarmpic_required (value ch : Z) := set_flag ch (fun h => h <| alarmpic_required := value |>).
Definition set_alarmpicflag (value ch : Z) := set_flag ch (fun h => h <| alarmpicflag := value |>).
Definition set_semflag (ch value : Z) := set_flag ch (fun h => h <| semflag := value |>).

Definition get_flag (ch : Z) (f : hd_enc_struct -> Z) : M rec_st Z :=
  on_ptr (get_hdch ch) (fun i =>
    mutex_lock i ;; h ← get_hd i; mutex_unlock i ;; mret (f h)).
Definition get_takingpicflag (ch : Z) := get_flag ch takingpicflag.
Definition get_alarmpic_required (ch : Z) := get_flag ch alarmpic_required.
Definition get_alarmpicflag (ch : Z) := get_flag ch alarmpicflag.

Definition get_hqsave_mode (ch : Z) : M rec_st Z :=
  match get_hdch ch with None => mret 0 | Some i => h ← get_hd i; mret (hdsave_mode h) end.

Definition change_thread_id (ch id : Z) : M rec_st () :=
  i ← access (get_hdch ch); locked i (fun h => h <| thread_id := id |>).

Definition hd_playback_en : M rec_st () := modify (fun s => s <| hd_playback_flag := 1 |>).
Definition hd_playback_cancel : M rec_st () := modify (fun s => s <| hd_playback_flag := 0 |>).

(** [ide]: [get_ide_flag], whether there is a disk. *)
Definition set_cferr_flag (ide flag : Z) : M rec_st () :=
  if ide =? 0 then mret ()
  else s ← get_st;
    if negb (old_cferr_state s =? flag) then
      modify (fun s => s <| cf_err := Z.land flag 1 |>) ;; emit Send_state ;;
      modify (fun s => s <| old_cferr_state := flag |>)
    else mret ().

Definition get_hd_minval (hd_type : Z) : Z := if hd_type =? 1 then HD_MINVAL else CF_MINVAL.
