(* ===== verification/RecorderSys.v ===== *)
(** * The recorder's files, threads and second (src/mp_hdmodule_m/hdmod.c)

    The operations of [Recorder] that call other modules: closing a file, the
    watch of the encoders, starting and stopping threads, the parameters and what
    is resumed after a restart.  [sleep] stands for what the other threads do to
    the state while this one sleeps. *)

From Stdlib Require Import Ascii String.
From S2P Require Import Prelude Update Ctime Cstring RecName AlarmLog Recorder.

(** A local [finfo]; [part0] is what its array [partition] held before. *)
Definition local_info (part0 : list ascii) : file_info_struct :=
  {| stime := 0; info_channel := 0; info_type := 0; info_len := 0; info_trig := 0;
     info_remote := 0; info_lock := 0; ing_flag := 0; info_partition := part0 |}.

Section System.
Variable zone : Z.
(** What [fileindex_rename_in_partition] returns. *)
Variable rename : cstr -> cstr -> cstr -> Z.
Variable pthread_cancel : Z -> Z.
(** The identifier of the new thread, [None] when [pthread_create] fails. *)
Variable pthread_create : option Z.
Variable sleep : M rec_st ().

(** [buf] takes 30 bytes of what follows the field, so its NUL too when it is
    shorter; a name that has no '_' after "_L" makes [memcpy] read from a null
    pointer. *)
Definition modify_queried_filename (name : cstr) : M rec_st (Z * cstr) :=
  match strstr name (lit "_C") with
  | None => mret (-2, name)
  | Some lm =>
      match get_hdch (atoi (drop lm name)) with
      | None => mret (-1, name)
      | Some i =>
          h ← get_hd i;
          let cut_len := max_len h in
          match strstr name (lit "_L") with
          | None => mret (-1, name)
          | Some lp =>
              let lp := (lp + 2)%nat in
              lk ← access (strchr (drop lp name) "_"%char);
              let buf := drop (lp + lk) name in
              if (30 <=? length buf)%nat then undef
              else mret (0, take lp name ++ fmt_d 2 cut_len ++ buf)
          end
      end
  end.

(** The name the file gets when it is closed, [None] when its name says nothing. *)
Definition close_name (i : Z) (part0 : list ascii) : M rec_st (option cstr) :=
  h ← get_hd i;
  r ← access (hdutil_filename2finfo zone (filename h) (local_info part0));
  let '(rc, finfo) := r in
  if rc <? 0 then mret None else
  let finfo := finfo <| info_len := filelen h |> in
  let newname := finfo2filename zone finfo in
  let newname := if (state h =? 2) || negb (info_trig finfo =? 0) || (info_remote finfo =? 1)
                 then hdutil_lock_filename newname else newname in
  if queryflag h =? 1 then
    '(_, newname) ← modify_queried_filename newname;
    mod_hd i (fun h => h <| queryflag := 0 |>) ;; mret (Some newname)
  else mret (Some newname).

Definition close_reset (h : hd_enc_struct) : hd_enc_struct :=
  h <| filename := ([] : cstr) |> <| cutflag := 0 |> <| filelen := 0 |> <| aviinfo := (None : option Z) |>.

Definition close_record_file (p : option Z) (part0 : list ascii) : M rec_st Z :=
  on_ptr p (fun i =>
    h ← get_hd i;
    match filename h with
    | [] => mret 0
    | _ =>
        match aviinfo h with
        | None => mret 0
        | Some fdes =>
            if 0 <? fdes then
              emit (Avi_close fdes) ;;
              mod_hd i (fun h => h <| aviinfo := (None : option Z) |>) ;;
              n ← close_name i part0;
              match n with
              | None => mod_hd i close_reset ;; mret 0
              | Some newname =>
                  h ← get_hd i;
                  emit (Rename_file (partition h) (filename h) newname) ;;
                  if rename (partition h) (filename h) newname <? 0 then
                    emit (Fix_disk (filename h)) ;; mret (-1)
                  else mod_hd i close_reset ;; mret 0
              end
            else mod_hd i close_reset ;; mret 0
        end
    end).

(** ** The second *)

(** Whether the channel is connected to its audio and video encoder. *)
Variables (aenc_attrib venc_attrib : Z -> bool).

Definition audio_watch (i : Z) : M rec_st () :=
  h ← get_hd i;
  if 0 <? audio_thread_id h then
    if aenc_attrib (audiochannel h) then
      mod_hd i (fun h => h <| audio_cnt := audio_cnt h + 1 |>) ;;
      h ← get_hd i;
      if audio_cnt h <? 10 then mret ()
      else emit (Reactive_audio (audiochannel h)) ;; mod_hd i (fun h => h <| audio_cnt := 0 |>)
    else mret ()
  else mod_hd i (fun h => h <| audio_cnt := 0 |>).

Definition video_watch (part0 : list ascii) (i : Z) : M rec_st () :=
  h ← get_hd i;
  if 0 <? thread_id h then
    if venc_attrib (channel h) then
      mod_hd i (fun h => h <| watchcnt := watchcnt h + 1 |>) ;;
      h ← get_hd i;
      if watchcnt h <? 10 then mret ()
      else if Z.rem (watchcnt h) 10 =? 0 then
        file_lock i ;;
        (if (10 <=? watchcnt h) && bool_decide (is_Some (aviinfo h))
         then close_record_file (Some i) part0 else mret 0) ;;
        file_unlock i ;;
        emit (Reactive_video (channel h))
      else mret ()
    else mret ()
  else mod_hd i (fun h => h <| watchcnt := 0 |>).

Fixpoint for_channels (l : list Z) (m : Z -> M rec_st ()) : M rec_st () :=
  match l with [] => mret () | i :: l => m i ;; for_channels l m end.

Definition channels : list Z := [0; 1; 2; 3].

Definition hd_second_proc (part0 : list ascii) : M rec_st () :=
  for_channels channels audio_watch ;;
  for_channels channels (fun i =>
    video_watch part0 i ;; mod_hd i record_tick ;; mutex_unlock i).

(** ** Threads *)

Definition start_audio_thread (p : option Z) : M rec_st Z :=
  on_ptr p (fun i =>
    h ← get_hd i;
    if 0 <? audio_thread_id h then mret 0
    else match pthread_create with
         | Some id => mod_hd i (fun h => h <| audio_thread_id := id |>) ;; mret 0
         | None => mret (-1)
         end).

Definition start_recordfilethread (p : option Z) : M rec_st Z :=
  on_ptr p (fun i =>
    h ← get_hd i;
    if 0 <? thread_id h then mret 0
    else
      locked i (fun h => h <| hdsave_mode := 1 |>) ;;
      mod_hd i (fun h => h <| threadexit := 0 |>) ;;
      match pthread_create with
      | Some id => mod_hd i (fun h => h <| thread_id := id |>) ;; mret 0
      | None => mret (-1)
      end).

Definition thread_stopped (h : hd_enc_struct) : hd_enc_struct :=
  h <| thread_id := -1 |> <| hdsave_mode := 0 |>.

Definition stop_recordfilethread (p : option Z) (part0 : list ascii) : M rec_st Z :=
  on_ptr p (fun i =>
    h ← get_hd i;
    if thread_id h <=? 0 then mret 0
    else
      mod_hd i (fun h => h <| threadexit := 1 |>) ;;
      sleep ;;
      h ← get_hd i;
      (if 0 <? audio_thread_id h then emit (Cancel (audio_thread_id h)) else mret ()) ;;
      h ← get_hd i;
      if thread_id h <=? 0 then mret 0
      else
        file_lock i ;; close_record_file (Some i) part0 ;; file_unlock i ;;
        h ← get_hd i;
        emit (Cancel (thread_id h)) ;;
        if negb (pthread_cancel (thread_id h) =? 0) then mret (-2)
        else
          emit (Disconnect_video (channel h)) ;;
          locked i thread_stopped ;; mret 0).

(** The first loop of [stop_Allrecordfilethread]: [Some] when it returns from it. *)
Fixpoint stop_all_flags (l : list Z) : M rec_st (option Z) :=
  match l with
  | [] => mret None
  | i :: l =>
      match get_hdch i with
      | None => mret (Some (-1))
      | Some i =>
          h ← get_hd i;
          if thread_id h <=? 0 then mret (Some 0)
          else mod_hd i (fun h => h <| threadexit := 1 |>) ;; stop_all_flags l
      end
  end.

Fixpoint stop_all_threads (l : list Z) (part0 : list ascii) : M rec_st Z :=
  match l with
  | [] => mret 0
  | i :: l =>
      match get_hdch i with
      | None => mret (-1)
      | Some i =>
          h ← get_hd i;
          (if 0 <? audio_thread_id h then
             emit (Cancel (audio_thread_id h)) ;; mod_hd i (fun h => h <| audio_thread_id := -1 |>)
           else mret ()) ;;
          h ← get_hd i;
          (if thread_id h <=? 0 then mret ()
           else
             file_lock i ;; close_record_file (Some i) part0 ;; file_unlock i ;;
             h ← get_hd i;
             emit (Cancel (thread_id h)) ;; emit (Disconnect_video (channel h)) ;;
             locked i thread_stopped) ;;
          stop_all_threads l part0
      end
  end.

Definition stop_Allrecordfilethread (part0 : list ascii) : M rec_st Z :=
  r ← stop_all_flags channels;
  match r with
  | Some rc => mret rc
  | None => sleep ;; stop_all_threads channels part0
  end.

Definition restart_recordfilethread (p : option Z) (part0 : list ascii) : M rec_st Z :=
  on_ptr p (fun i =>
    ret ← stop_recordfilethread p part0;
    if ret <? 0 then mret (-1)
    else
      sleep ;; mod_hd i (fun h => h <| threadexit := 0 |>) ;;
      start_audio_thread p ;; sleep ;;
      ret ← start_recordfilethread p;
      if ret <? 0 then mret (-2) else mret 0).

(** The handlers that run when a thread is cancelled; the queue [qid] is emptied. *)
Definition record_audio_thread_cleanup : M rec_st () :=
  i ← access (get_hdch 0); mod_hd i (fun h => h <| audio_thread_id := -1 |>).

Definition record_file_thread_cleanup (para : option Z) (part0 : list ascii) : M rec_st () :=
  match para with
  | None => mret ()
  | Some i =>
      file_lock i ;; close_record_file (Some i) part0 ;; file_unlock i ;;
      mod_hd i (fun h => h <| watchcnt := 0 |>) ;;
      h ← get_hd i;
      emit (Disconnect_video (channel h)) ;; change_thread_id (channel h) (-1)
  end.

End System.

(** ** Parameters *)

Definition init_hqpara_default_val (h : hd_enc_struct) : hd_enc_struct :=
  h <| pre_rec := 600 |> <| dly_rec := 300 |> <| max_len := 30 |> <| del_typ := 0 |>
    <| bitrate := 1024 |> <| queryflag := 0 |>.

(** [None] when a [msgctl] fails. *)
Definition set_msgmnb_value (msgctl : option ()) (queueid msgnum : Z) : M rec_st Z :=
  if msgnum <? 115 then mret 0
  else match msgctl with
       | None => mret (-1)
       | Some _ => emit (Set_msgmnb queueid (msgnum * 128)) ;; mret 0
       end.

Section Parameters.
(** A loaded parameter file, and what it answers for a key and a default. *)
Variable dictionary : Type.
Variable iniparser_getint : dictionary -> cstr -> Z -> Z.
Variable iniparser_getstring : dictionary -> cstr -> option cstr -> option cstr.
Variable msgctl : option ().

Definition ALARM_SNAPSHOT_PATH : cstr := lit "/picindex/alarmpic.txt".

(** The recording parameters of [section], before the encoder's [enable]. *)
Definition read_section (ini : dictionary) (section : cstr) (h : hd_enc_struct) : hd_enc_struct :=
  let key name := section ++ lit ":" ++ name in
  let h := h <| pre_rec := iniparser_getint ini (key (lit "pre_rec")) 600 |> in
  let h := if 3600 <? pre_rec h then h <| pre_rec := 3600 |> else h in
  let h := h <| dly_rec := iniparser_getint ini (key (lit "dly_rec")) 30 |> in
  let h := h <| max_len := iniparser_getint ini (key (lit "cut_len")) 30 |> in
  let h := if max_len h <? 90 then h <| max_len := 90 |> else h in
  let h := if 1800 <? max_len h then h <| max_len := 1800 |> else h in
  let h := h <| del_typ := iniparser_getint ini (key (lit "del_typ")) 0 |> in
  h <| rec_type := iniparser_getint ini (key (lit "rec_type")) 0 |>.

(** The encoder's [enable]; a channel that is enabled has one of two types. *)
Definition read_enable (ini : dictionary) (ch : Z) (h : hd_enc_struct) : hd_enc_struct :=
  let h := h <| enable := iniparser_getint ini (lit "video" ++ fmt_d 1 ch ++ lit ":enable") 1 |> in
  if enable h =? 0 then h
  else if rec_type h =? 1 then h else h <| rec_type := 0 |>.

(** [ini] is [None] when the file cannot be read; [alarmpic_path] has 60 bytes. *)
Definition read_hqsave_para_file (filename section : option cstr) (ch : Z) (ini : option dictionary)
    : M rec_st Z :=
  match filename, section, get_hdch ch with
  | Some _, Some section, Some i =>
      if (30 <? length section)%nat then mret (-1)
      else match ini with
           | None => mret (-1)
           | Some ini =>
               mod_hd i (read_section ini section) ;;
               mod_hd i (read_enable ini ch) ;;
               h ← get_hd i;
               (* max_len is at least 90 *)
               let msgnum := Z.quot (2 * pre_rec h) (max_len h) in
               set_msgmnb_value msgctl (qid h) msgnum ;;
               match iniparser_getstring ini (lit "alarm:snap_pic_path") (Some ALARM_SNAPSHOT_PATH) with
               | None => mret (-1)
               | Some cat =>
                   if (60 <=? length cat)%nat then undef
                   else mod_hd i (fun h => h <| alarmpic_path := cat |>) ;; mret 0
               end
           end
  | _, _, _ => mret (-1)
  end.

(** What [init_hdenc_ch] sets after the parameters are read. *)
Definition init_fields (ch : Z) (h : hd_enc_struct) : hd_enc_struct :=
  let h := h <| channel := ch |> <| audiochannel := ch |>
             <| partition := lit "/hqdata/sda" ++ fmt_d 1 (ch + 1) |> <| recordlen := 0 |>
             <| thread_id := -1 |> <| keyframe_pool_thread_id := -1 |> in
  let h := if negb (pre_rec h =? 0) && (rec_type h =? 0) then h <| state := 1 |> else h in
  h <| watchcnt := 0 |> <| keyframe_cnt := 0 |> <| readenc_flag := 0 |> <| takingpicflag := 0 |>
    <| picerrorcode := 0 |> <| pictime := 0 |> <| timemax := 0 |> <| takepic_thread_id := -1 |>
    <| remote_trig_time := 0 |> <| remote_trigged := 0 |> <| semflag := 0 |> <| threadexit := 0 |>.

(** [memset] clears the first four bytes of the structure, all in [mutex], which is
    initialised next. *)
Definition init_hdenc_ch (ch : Z) (ini : option dictionary) : M rec_st Z :=
  i ← access (get_hdch ch);
  mod_hd i (fun h => init_hqpara_default_val (h <| mutex := false |>)) ;;
  read_hqsave_para_file (Some (lit "/conf/ip1004.ini")) (Some (lit "hqpara")) ch ini ;;
  mod_hd i (init_fields ch) ;;
  mod_hd i (fun h => h <| file_mutex := false |> <| audio_thread_id := -1 |>) ;;
  mret 0.

Definition init_hdenc (ide : Z) (ini : option dictionary) : M rec_st Z :=
  for_channels channels (fun i =>
    init_hdenc_ch i ini ;; set_takingpicflag 0 i ;; set_alarmpic_required 0 i ;;
    set_alarmpicflag 0 i ;; mret ()) ;;
  set_cferr_flag ide 0 ;; emit Send_state ;; mret 0.

End Parameters.

(** ** After a restart *)

(** [log0] is what the local record held before it was read into. *)
Definition get_trig_status (atohex : cstr -> Z) (zone timenow : Z) (log0 : list ascii) : M rec_st () :=
  s ← get_st;
  '(trig_flag, log) ← access (check_alarmlog_for_trigflag (logs s) log0);
  if negb (trig_flag =? 0) then
    rec_len ← access (get_record_time zone log);
    match get_hdch 0 with
    | None => mret ()
    | Some i =>
        if timenow <? rec_len then mret ()
        else
          h ← get_hd i;
          if timenow <? rec_len + dly_rec h then
            mod_hd i (fun h => h <| state := 2 |>
              <| trig := atohex (cstring (take 11 (log_data log))) |>
              <| recordlen := rec_len + dly_rec h - timenow |>)
          else mret ()
    end
  else mret ().

Definition get_save_status (zone timenow : Z) (log0 : list ascii) : M rec_st () :=
  s ← get_st;
  '(save, log) ← access (check_alarmlog_for_hqsaveflag (logs s) log0);
  if negb (save =? 0) then
    match get_hdch 0 with
    | None => mret ()
    | Some i =>
        rec_len ← access (get_record_time zone log);
        if timenow <? rec_len then mret ()
        else
          let rec_time := get_hqsave_time log in
          if timenow <? rec_len + rec_time then
            mod_hd i (fun h => h <| state := 2 |> <| remote_trigged := 1 |>
              <| remote_trig_time := rec_time + rec_len - timenow |>)
          else mret ()
    end
  else mret ().
