(* ===== verification/RecorderSpec.v ===== *)
(** * The recording timer: what a channel of the recorder promises

    What decides whether a channel records is five numbers: its state (0 idle, 1
    recording ahead, 2 recording for an alarm or by hand), the seconds an alarm or
    a motion still asks for, the triggers of the alarm, the seconds a hand still
    asks for, and whether a hand does.  This file has them alone, with the events
    that change them, and what follows for a run of events: the channel is
    consistent, an alarm is recorded for its time whatever else happens, and with
    no more events the channel comes to rest after exactly the time asked for. *)

From S2P Require Import Prelude.

(** The recording parameters: the type (0 always, 1 on motion), the seconds ahead,
    the seconds after an alarm, and whether the channel is enabled. *)
Record config := { c_type : Z; c_pre : Z; c_dly : Z; c_enable : Z }.

Record timer := { t_state : Z; t_len : Z; t_trig : Z; t_rtime : Z; t_remote : Z }.

Inductive event :=
| Ev_trig (tr reclen : Z)
| Ev_start (reclen : Z)
| Ev_stop
| Ev_clear
| Ev_second.

(** The state of a channel that nothing asks to record. *)
Definition idle (c : config) : Z := if (c_type c =? 0) && negb (c_pre c =? 0) then 1 else 0.

#[export] Instance event_eq_dec : EqDecision event.
Proof. solve_decision. Defined.

Definition MOTION_DLY : Z := 10.

Definition on_motion (reclen : Z) (t : timer) : timer :=
  {| t_state := if t_state t =? 0 then 1 else t_state t;
     t_len := Z.max (t_len t) (MOTION_DLY + reclen);
     t_trig := t_trig t; t_rtime := t_rtime t; t_remote := t_remote t |}.

Definition on_alarm (c : config) (tr reclen : Z) (t : timer) : timer :=
  {| t_state := 2; t_len := Z.max (t_len t) (reclen + c_dly c); t_trig := Z.lor (t_trig t) tr;
     t_rtime := t_rtime t; t_remote := t_remote t |}.

Definition on_start (reclen : Z) (t : timer) : timer :=
  {| t_state := 2; t_len := t_len t; t_trig := t_trig t;
     t_rtime := if reclen =? 0 then 65535 else reclen; t_remote := 1 |}.

Definition on_stop (c : config) (t : timer) : timer :=
  {| t_state := if t_trig t =? 0 then idle c else t_state t;
     t_len := if t_trig t =? 0 then 0 else t_len t;
     t_trig := t_trig t; t_rtime := 0; t_remote := 0 |}.

Definition on_clear (c : config) (t : timer) : timer :=
  {| t_state := if t_remote t =? 0 then idle c else t_state t; t_len := 0; t_trig := 0;
     t_rtime := t_rtime t; t_remote := t_remote t |}.

(** [n] seconds in which nothing else happens. *)
Definition after_seconds (c : config) (n : Z) (t : timer) : timer :=
  {| t_state := if (n <? t_len t) || (n <? t_rtime t) then t_state t else idle c;
     t_len := if n <? t_len t then t_len t - n else 0;
     t_trig := if n <? t_len t then t_trig t else 0;
     t_rtime := if n <? t_rtime t then t_rtime t - n else 0;
     t_remote := if n <? t_rtime t then t_remote t else 0 |}.

Definition t_step (c : config) (ev : event) (t : timer) : timer :=
  match ev with
  | Ev_trig tr reclen =>
      if (tr =? 0) && (c_type c =? 0) || (c_enable c =? 0) then t
      else if tr =? 0 then on_motion reclen t else on_alarm c tr reclen t
  | Ev_start reclen => on_start reclen t
  | Ev_stop => on_stop c t
  | Ev_clear => on_clear c t
  | Ev_second => after_seconds c 1 t
  end.

Definition t_run (c : config) (evs : list event) (t : timer) : timer :=
  fold_left (fun t ev => t_step c ev t) evs t.

(** A channel at rest. *)
Definition at_rest (c : config) : timer :=
  {| t_state := idle c; t_len := 0; t_trig := 0; t_rtime := 0; t_remote := 0 |}.

(** ** The invariant *)

Definition cfg_ok (c : config) : Prop :=
  0 <= c_pre c /\ 0 < c_dly c /\ (c_type c = 0 \/ c_type c = 1).

(** The lengths and triggers that the callers pass. *)
Definition event_ok (ev : event) : Prop :=
  match ev with
  | Ev_trig tr reclen => 0 <= tr /\ 0 <= reclen
  | Ev_start reclen => 0 <= reclen
  | _ => True
  end.

Record timer_ok (c : config) (t : timer) : Prop := {
  ok_state : t_state t = 0 \/ t_state t = 1 \/ t_state t = 2;
  ok_len : 0 <= t_len t;
  ok_remote : (t_remote t = 1 /\ t_state t = 2 /\ 0 < t_rtime t) \/
              (t_remote t = 0 /\ t_rtime t = 0);
  ok_recording : 0 < t_len t -> t_state t <> 0;
  ok_alarm : t_trig t <> 0 -> t_state t = 2 /\ 0 < t_len t;
  ok_alarmed : t_state t = 2 -> t_remote t = 1 \/ 0 < t_len t;
  ok_rest : t_remote t = 0 -> t_len t = 0 -> t_state t = idle c
}.

Section Timer.
Variable c : config.
Implicit Types (t : timer) (ev : event).

Lemma idle_01 : idle c = 0 \/ idle c = 1.
Proof. unfold idle. destruct (_ && _); lia. Qed.

Ltac timer :=
  intros; pose proof idle_01;
  repeat match goal with
  | H : timer_ok _ _ |- _ => destruct H
  | t : timer |- _ => destruct t
  end; cbn in *; split; cbn; unfold MOTION_DLY in *; zcase; intros; try (exfalso; lia); try tauto; try lia.

Lemma at_rest_ok : timer_ok c (at_rest c).
Proof. timer. Qed.

Lemma on_motion_ok reclen t : c_type c = 1 -> 0 <= reclen -> timer_ok c t -> timer_ok c (on_motion reclen t).
Proof. timer. Qed.

Lemma on_alarm_ok tr reclen t :
  cfg_ok c -> 0 <= reclen -> timer_ok c t -> timer_ok c (on_alarm c tr reclen t).
Proof. intros (_ & Hd & _). timer. Qed.

Lemma on_start_ok reclen t : 0 <= reclen -> timer_ok c t -> timer_ok c (on_start reclen t).
Proof. timer. Qed.

Lemma on_stop_ok t : timer_ok c t -> timer_ok c (on_stop c t).
Proof. timer. Qed.

Lemma on_clear_ok t : timer_ok c t -> timer_ok c (on_clear c t).
Proof. timer. Qed.

Lemma after_seconds_ok n t : 0 <= n -> timer_ok c t -> timer_ok c (after_seconds c n t).
Proof. timer. Qed.

Lemma t_step_ok ev t : cfg_ok c -> event_ok ev -> timer_ok c t -> timer_ok c (t_step c ev t).
Proof.
  intros Hc Hev Ht. destruct ev as [tr reclen | reclen | | |]; cbn [t_step event_ok] in *.
  - destruct (_ || _) eqn:E; [done|]. destruct (Z.eqb_spec tr 0) as [-> |].
    + apply on_motion_ok; [|tauto|done]. destruct Hc as (_ & _ & Hty).
      cbn in E. apply orb_false_elim in E as [E _]. lia.
    + apply on_alarm_ok; tauto.
  - by apply on_start_ok.
  - by apply on_stop_ok.
  - by apply on_clear_ok.
  - by apply after_seconds_ok.
Qed.

Lemma t_run_ok evs t : cfg_ok c -> Forall event_ok evs -> timer_ok c t -> timer_ok c (t_run c evs t).
Proof.
  intros Hc Hevs. revert t. induction Hevs as [|ev evs Hev Hevs IH]; intros t Ht; [done|].
  apply IH, t_step_ok; done.
Qed.

(** Seconds add up. *)
Lemma after_seconds_add n m t :
  0 <= n -> 0 <= m -> after_seconds c m (after_seconds c n t) = after_seconds c (n + m) t.
Proof.
  intros. destruct t as [s l tr r rm]. unfold after_seconds; cbn.
  assert (Hl : (m <? (if n <? l then l - n else 0)) = (n + m <? l)) by (destruct (Z.ltb_spec n l); lia).
  assert (Hr : (m <? (if n <? r then r - n else 0)) = (n + m <? r)) by (destruct (Z.ltb_spec n r); lia).
  rewrite Hl, Hr. destruct (Z.ltb_spec (n + m) l), (Z.ltb_spec (n + m) r);
    destruct (Z.ltb_spec n l), (Z.ltb_spec n r); cbn; f_equal; lia.
Qed.

Lemma seconds_run n t : t_run c (replicate n Ev_second) t = after_seconds c (Z.of_nat n) t \/ n = 0%nat.
Proof.
  destruct n as [|n]; [by right|]. left. revert t.
  induction n as [|n IH]; intros t; [done|].
  change (t_run c (replicate (S (S n)) Ev_second) t)
    with (t_run c (replicate (S n) Ev_second) (after_seconds c 1 t)).
  rewrite IH, after_seconds_add by lia. f_equal. lia.
Qed.

(** After the time that is asked for a channel is at rest. *)
Lemma seconds_rest n t :
  timer_ok c t -> Z.max (t_len t) (t_rtime t) <= n -> after_seconds c n t = at_rest c.
Proof.
  intros [] Hn. unfold after_seconds, at_rest.
  destruct (Z.ltb_spec n (t_len t)), (Z.ltb_spec n (t_rtime t)); [lia..|done].
Qed.

(** ** An alarm is recorded for its time *)

Definition seconds_of (evs : list event) : Z :=
  zlen (filter (fun ev => ev = Ev_second) evs).

(** At least [k] seconds of the alarm [tr] are left. *)
Definition alarm_left (tr k : Z) t : Prop :=
  k <= t_len t /\ (0 < k -> t_state t = 2 /\ Z.land (t_trig t) tr = tr).

Lemma land_lor_l a b tr : Z.land a tr = tr -> Z.land (Z.lor a b) tr = tr.
Proof. intros H. rewrite Z.land_lor_distr_l, H. apply Z.bits_inj'. intros n Hn.
  rewrite Z.lor_spec, Z.land_spec. by destruct (Z.testbit tr n), (Z.testbit b n). Qed.

Lemma alarm_left_step ev tr k t :
  cfg_ok c -> event_ok ev -> ev <> Ev_clear -> tr <> 0 -> alarm_left tr k t ->
  alarm_left tr (if decide (ev = Ev_second) then k - 1 else k) (t_step c ev t).
Proof.
  intros Hc Hev Hne Htr [Hk Hal].
  assert (Htrig : 0 < k -> t_trig t <> 0).
  { intros Hk0 H0. destruct (Hal Hk0) as [_ Hl]. rewrite H0, Z.land_0_l in Hl. done. }
  destruct ev as [tr' reclen | reclen | | |]; [..|done|]; rewrite ?decide_False, ?decide_True by done;
    cbn [t_step event_ok] in *.
  - destruct (_ || _); [done|]. destruct (tr' =? 0).
    + split; [cbn; lia|]. cbn. intros Hk0. destruct (Hal Hk0) as [-> ?]. done.
    + split; [cbn; lia|]. cbn. intros Hk0. destruct (Hal Hk0) as [_ ?]. split; [done|].
      by apply land_lor_l.
  - split; [done|]. cbn. intros Hk0. by destruct (Hal Hk0).
  - split; cbn; destruct (Z.eqb_spec (t_trig t) 0); [|done| |done].
    + destruct (decide (0 < k)); [by destruct Htrig|lia].
    + intros. by destruct Htrig.
  - split; cbn; destruct (Z.ltb_spec 1 (t_len t)); try lia. cbn. intros. apply Hal. lia.
Qed.

Lemma alarm_left_run evs tr k t :
  cfg_ok c -> Forall event_ok evs -> ~ In Ev_clear evs -> tr <> 0 -> alarm_left tr k t ->
  alarm_left tr (k - seconds_of evs) (t_run c evs t).
Proof.
  intros Hc Hevs Hin Htr. revert k t. induction Hevs as [|ev evs Hev Hevs IH]; intros k t Hal.
  { unfold seconds_of. cbn. by rewrite Z.sub_0_r. }
  unfold seconds_of. rewrite filter_cons. cbn [t_run fold_left]. fold (t_run c evs (t_step c ev t)).
  assert (Hstep := alarm_left_step ev tr k t Hc Hev (fun H => Hin (or_introl H)) Htr Hal).
  apply IH in Hstep; [|intros ?; apply Hin; by right].
  destruct (decide (ev = Ev_second)); [|exact Hstep].
  cbn [length]. replace (k - _) with (k - 1 - seconds_of evs) by (unfold seconds_of; lia). done.
Qed.

Lemma alarm_raised tr reclen t :
  cfg_ok c -> c_enable c <> 0 -> tr <> 0 -> 0 <= reclen ->
  alarm_left tr (reclen + c_dly c) (t_step c (Ev_trig tr reclen) t).
Proof.
  intros Hc Hen Htr Hl. cbn [t_step]. rewrite (proj2 (Z.eqb_neq tr 0) Htr).
  rewrite (proj2 (Z.eqb_neq (c_enable c) 0) Hen). cbn.
  split; [cbn; lia|]. cbn. intros _. split; [done|]. apply Z.bits_inj'. intros n Hn.
  rewrite Z.land_spec, Z.lor_spec. by destruct (Z.testbit tr n), (Z.testbit (t_trig t) n).
Qed.

End Timer.
