(* ===== verification/RecorderThms.v ===== *)
(** * What the recorder's channels promise

    Each call of the module, on the whole state, does to the timer of its channel
    what [RecorderSpec] says and leaves the other channels alone; so what holds of
    runs of events there holds of the channels here. *)

From Stdlib Require Import Ascii String.
From S2P Require Import Prelude Update Ctime Cstring RecName AlarmLog AlarmLogThms Recorder RecorderSys RecorderSpec.

Definition config_of (h : hd_enc_struct) : config :=
  {| c_type := rec_type h; c_pre := pre_rec h; c_dly := dly_rec h; c_enable := enable h |}.

Definition timer_of (h : hd_enc_struct) : timer :=
  {| t_state := state h; t_len := recordlen h; t_trig := trig h;
     t_rtime := remote_trig_time h; t_remote := remote_trigged h |}.

(** What an event does to the structure of an unlocked channel. *)
Definition rec_step (ev : event) (h : hd_enc_struct) : hd_enc_struct :=
  match ev with
  | Ev_trig tr reclen =>
      if (tr =? 0) && (rec_type h =? 0) || (enable h =? 0) then h else trig_body tr reclen h
  | Ev_start reclen => start_body (if reclen =? 0 then 65535 else reclen) h
  | Ev_stop => stop_body h
  | Ev_clear => clear_body h
  | Ev_second => record_tick h
  end.

(** Two structures that agree on what recording depends on. *)
Definition same_rec (h h' : hd_enc_struct) : Prop :=
  timer_of h = timer_of h' /\ config_of h = config_of h'.

#[export] Instance same_rec_equiv : Equivalence same_rec.
Proof.
  split.
  - by intros h.
  - by intros h h' [].
  - intros h1 h2 h3 [] []. split; congruence.
Qed.

#[export] Instance timer_of_proper : Proper (same_rec ==> eq) timer_of.
Proof. by intros h h' []. Qed.
#[export] Instance config_of_proper : Proper (same_rec ==> eq) config_of.
Proof. by intros h h' []. Qed.

Section Bodies.

Lemma idle_state_of h : idle_state h = idle (config_of h).
Proof. done. Qed.

Lemma trig_motion h reclen :
  timer_of (trig_body 0 reclen h) = on_motion reclen (timer_of h) /\
  config_of (trig_body 0 reclen h) = config_of h.
Proof.
  unfold trig_body. change (0 =? 0) with true. cbv iota zeta.
  unfold timer_of, on_motion, MOTION_DLY, MOTION_DLY_REC. cbn.
  destruct (Z.ltb_spec (recordlen h) (10 + reclen)); cbn; destruct (state h =? 0) eqn:E; cbn;
    (split; [f_equal; lia | done]).
Qed.

Lemma trig_alarm h tr reclen : tr <> 0 ->
  timer_of (trig_body tr reclen h) = on_alarm (config_of h) tr reclen (timer_of h) /\
  config_of (trig_body tr reclen h) = config_of h.
Proof.
  intros Htr. unfold trig_body. rewrite (proj2 (Z.eqb_neq tr 0) Htr). cbv zeta.
  destruct ((state h =? 2) && negb (trig h =? tr)) eqn:E; cbn;
    (destruct (Z.ltb_spec (recordlen h) (reclen + dly_rec h)); cbn; unfold timer_of, on_alarm; cbn;
     (split; [f_equal; lia | done])).
Qed.

Lemma start_same h reclen :
  timer_of (start_body (if reclen =? 0 then 65535 else reclen) h) = on_start reclen (timer_of h) /\
  config_of (start_body (if reclen =? 0 then 65535 else reclen) h) = config_of h.
Proof.
  unfold start_body, on_start. cbv zeta. cbn.
  by destruct (reclen =? 0), (negb (remote_trigged h =? 1) && negb (state h =? 0)).
Qed.

Lemma stop_same h : cfg_ok (config_of h) ->
  timer_of (stop_body h) = on_stop (config_of h) (timer_of h) /\
  config_of (stop_body h) = config_of h.
Proof.
  intros (_ & _ & Hty). cbn in Hty. unfold stop_body. cbv zeta.
  assert (Hi : idle (config_of h) = if (pre_rec h =? 0) || (rec_type h =? 1) then 0 else 1).
  { unfold idle. cbn. destruct Hty as [-> | ->]; cbn; by destruct (pre_rec h =? 0). }
  unfold on_stop. rewrite Hi. cbn. destruct (remote_trigged h =? 1); cbn;
    (destruct (trig h =? 0) eqn:Et; cbn; [destruct (_ || _); cbn; by rewrite ?Et | by rewrite ?Et]).
Qed.

Lemma clear_same h :
  timer_of (clear_body h) = on_clear (config_of h) (timer_of h) /\
  config_of (clear_body h) = config_of h.
Proof. unfold clear_body. cbv zeta. cbn. destruct (remote_trigged h =? 0) eqn:E; cbn;
  unfold timer_of, on_clear; cbn; by rewrite E. Qed.

Lemma file_tick_same h :
  same_rec (match aviinfo h with
            | Some _ => let h := h <| filelen := filelen h + 1 |> in
                        if max_len h <=? filelen h then h <| cutflag := 1 |> else h
            | None => h end) h.
Proof. destruct (aviinfo h); [|done]. cbv zeta. by destruct (_ <=? _). Qed.

Lemma remote_tick_same h :
  timer_ok (config_of h) (timer_of h) ->
  config_of (remote_tick h) = config_of h /\
  timer_of (remote_tick h) =
    let r := if 1 <? remote_trig_time h then remote_trig_time h - 1 else 0 in
    {| t_state := if (r =? 0) && (remote_trig_time h =? 1) && (recordlen h =? 0)
                  then idle (config_of h) else state h;
       t_len := recordlen h; t_trig := trig h; t_rtime := r;
       t_remote := if 1 <? remote_trig_time h then remote_trigged h else 0 |}.
Proof.
  intros [_ _ Hr _ _ _ _]. cbn in Hr. unfold remote_tick.
  destruct (Z.ltb_spec 0 (remote_trig_time h)); cbv zeta; cbn.
  - destruct (Z.eqb_spec (remote_trig_time h - 1) 0); cbn.
    + destruct (Z.ltb_spec 1 (remote_trig_time h)); [lia|].
      rewrite (proj2 (Z.eqb_eq (remote_trig_time h) 1)) by lia.
      destruct (recordlen h =? 0) eqn:E; cbn; unfold timer_of; cbn; (split; [done|]); f_equal; lia.
    + destruct (Z.ltb_spec 1 (remote_trig_time h)); [|lia].
      rewrite (proj2 (Z.eqb_neq (remote_trig_time h - 1) 0)) by lia. done.
  - destruct (Z.ltb_spec 1 (remote_trig_time h)); [lia|].
    rewrite (proj2 (Z.eqb_neq (remote_trig_time h) 1)) by lia. split; [done|].
    unfold timer_of. cbn. f_equal; lia.
Qed.

Lemma alarm_tick_same h :
  0 <= pre_rec h -> 0 <= recordlen h ->
  config_of (alarm_tick h) = config_of h /\
  timer_of (alarm_tick h) =
    let l := if 1 <? recordlen h then recordlen h - 1 else 0 in
    {| t_state := if (recordlen h =? 1) && (remote_trigged h =? 0)
                  then idle (config_of h) else state h;
       t_len := l; t_trig := if recordlen h =? 1 then 0 else trig h;
       t_rtime := remote_trig_time h; t_remote := remote_trigged h |}.
Proof.
  intros Hp Hl. unfold alarm_tick.
  destruct (Z.ltb_spec 0 (recordlen h)); cbv zeta; cbn.
  - assert (Hi : idle (config_of h) = if (0 <? pre_rec h) && (rec_type h =? 0) then 1 else 0).
    { unfold idle. cbn. rewrite andb_comm. by replace (0 <? pre_rec h) with (negb (pre_rec h =? 0)) by lia. }
    destruct (Z.eqb_spec (recordlen h - 1) 0); cbn.
    + destruct (Z.ltb_spec 1 (recordlen h)); [lia|]. rewrite (proj2 (Z.eqb_eq (recordlen h) 1)) by lia.
      rewrite Hi. destruct (remote_trigged h =? 0) eqn:E; cbn; [destruct (_ && _); cbn|];
        unfold timer_of; cbn; (split; [done|]); f_equal; lia.
    + destruct (Z.ltb_spec 1 (recordlen h)); [|lia].
      rewrite (proj2 (Z.eqb_neq (recordlen h) 1)) by lia. done.
  - destruct (Z.ltb_spec 1 (recordlen h)); [lia|].
    rewrite (proj2 (Z.eqb_neq (recordlen h) 1)) by lia. split; [done|].
    unfold timer_of. cbn. f_equal; lia.
Qed.

Lemma record_tick_same h :
  cfg_ok (config_of h) -> timer_ok (config_of h) (timer_of h) ->
  timer_of (record_tick h) = after_seconds (config_of h) 1 (timer_of h) /\
  config_of (record_tick h) = config_of h.
Proof.
  intros Hc Hok. unfold record_tick. destruct (Z.eqb_spec (state h) 0) as [Hs|Hs]; cbn [negb].
  - split; [|done]. destruct Hok as [_ Hl Hr Hrec Hal _ Hrest]. cbn in *.
    unfold timer_of, after_seconds; cbn.
    rewrite (proj2 (Z.ltb_ge 1 (recordlen h))) by lia.
    rewrite (proj2 (Z.ltb_ge 1 (remote_trig_time h))) by lia. cbn. f_equal; lia.
  - set (g := match aviinfo h with Some _ => _ | None => _ end).
    assert (Hg : same_rec g h) by apply file_tick_same. clearbody g. destruct Hg as [Ht Hcg].
    rewrite <- Ht, <- Hcg in *.
    destruct (remote_tick_same g Hok) as [Hc1 Ht1]. destruct Hok as [_ Hl Hr Hrec Hal _ Hrest]. cbn in *.
    set (g1 := remote_tick g) in *. clearbody g1.
    assert (Hf : recordlen g1 = recordlen g /\ pre_rec g1 = pre_rec g) by (split; [exact (f_equal t_len Ht1) | exact (f_equal c_pre Hc1)]).
    destruct Hf as [Hf1 Hf2].
    destruct (alarm_tick_same g1) as [Hc2 Ht2]; [rewrite Hf2; apply Hc | lia |].
    rewrite Hc2, Hc1, Ht2. split; [|done]. cbv zeta. unfold after_seconds.
    injection Ht1 as E1 E2 E3 E4 E5. rewrite Hf1, E1, E3, E4, E5, Hc1. cbn.
    assert (Hst : state g <> 0) by (injection Ht as -> _; done).
    destruct (Z.ltb_spec 1 (recordlen g)), (Z.ltb_spec 1 (remote_trig_time g)); cbn;
      destruct (Z.eqb_spec (recordlen g) 1), (Z.eqb_spec (remote_trig_time g) 1),
        (Z.eqb_spec (recordlen g) 0), (Z.eqb_spec (remote_trigged g) 0); cbn;
      rewrite ?andb_false_r; cbn; try lia; f_equal; try lia.
Qed.

End Bodies.

(** Facts that chain the calls on one channel. *)
Create HintDb acts.

(** ** Calls on one channel

    [acts i m h a h']: run where channel [i] is [h], the call [m] returns [a], leaves
    the channel as [h'] and touches no other. *)

Definition acts {A} (i : Z) (m : M rec_st A) (h : hd_enc_struct) (a : A) (h' : hd_enc_struct) : Prop :=
  forall s, geti (g_hdenc s) i = Some h ->
  exists s', m s = Ret a s' /\ g_hdenc s' = <[Z.to_nat i := h']> (g_hdenc s).

Section Acts.
Implicit Types (h : hd_enc_struct) (i : Z).

Lemma acts_bind {A B} i (m : M rec_st A) (f : A -> M rec_st B) h a h1 b h2 :
  acts i m h a h1 -> acts i (f a) h1 b h2 -> acts i (m ≫= f) h b h2.
Proof.
  intros Hm Hf s Hs. destruct (Hm s Hs) as (s1 & Hr & Hl).
  pose proof (geti_Some _ _ _ Hs).
  destruct (Hf s1) as (s2 & Hr2 & Hl2).
  { rewrite Hl, geti_to_nat by lia. apply list_lookup_insert_eq. lia. }
  exists s2. rewrite (bind_ret _ _ _ _ _ Hr). split; [done|].
  by rewrite Hl2, Hl, list_insert_insert_eq.
Qed.

Lemma acts_ret {A} i h (a : A) : acts i (mret a) h a h.
Proof.
  intros s Hs. exists s. split; [done|]. pose proof (geti_Some _ _ _ Hs).
  rewrite list_insert_id; [done|]. by rewrite <- geti_to_nat by lia.
Qed.

Lemma acts_get i h : acts i (get_hd i) h h h.
Proof.
  intros s Hs. destruct (acts_ret i h h s Hs) as (s' & [= <-] & Hl).
  exists s. split; [|done].
  change (get_hd i s) with (access (geti (g_hdenc s) i) s). by rewrite Hs.
Qed.

Lemma acts_mod i h (f : hd_enc_struct -> hd_enc_struct) : acts i (mod_hd i f) h () (f h).
Proof.
  intros s Hs. pose proof (geti_Some _ _ _ Hs).
  exists (s <| g_hdenc := <[Z.to_nat i := f h]> (g_hdenc s) |>). split; [|done].
  unfold mod_hd. rewrite (bind_ret _ _ s s s) by done.
  rewrite (bind_ret _ _ s h s) by by rewrite Hs.
  rewrite (bind_ret _ _ s (<[Z.to_nat i := f h]> (g_hdenc s)) s) by by rewrite seti_Some. done.
Qed.

Lemma acts_emit i h c : acts i (emit c) h () h.
Proof.
  intros s Hs. destruct (acts_ret i h () s Hs) as (s' & [= <-] & Hl).
  eexists. split; [reflexivity|]. exact Hl.
Qed.

Lemma acts_logs i h (f : rec_st -> alarm_files) : acts i (modify (fun s => s <| logs := f s |>)) h () h.
Proof.
  intros s Hs. destruct (acts_ret i h () s Hs) as (s' & [= <-] & Hl).
  eexists. split; [reflexivity|]. exact Hl.
Qed.

Lemma acts_lock i h : mutex h = false -> acts i (mutex_lock i) h () (h <| mutex := true |>).
Proof. intros Hm. eapply acts_bind; [apply acts_get|]. rewrite Hm. apply acts_mod. Qed.

Lemma acts_unlock i h : acts i (mutex_unlock i) h () (h <| mutex := false |>).
Proof. apply (acts_mod i h (fun h => h <| mutex := false |>)). Qed.

Lemma acts_file_lock i h : file_mutex h = false -> acts i (file_lock i) h () (h <| file_mutex := true |>).
Proof. intros Hm. eapply acts_bind; [apply acts_get|]. rewrite Hm. apply acts_mod. Qed.

Lemma acts_locked i h f :
  mutex h = false -> acts i (locked i f) h () ((f (h <| mutex := true |>)) <| mutex := false |>).
Proof.
  intros Hm. eapply acts_bind; [by apply acts_lock|]. eapply acts_bind; [apply acts_mod|].
  apply acts_unlock.
Qed.

End Acts.

#[export] Hint Resolve acts_ret acts_get acts_mod acts_emit acts_logs acts_lock acts_unlock
  acts_file_lock acts_locked : acts.

(** ** The calls of the recorder *)

Section Calls.
Variables (zone : Z) (rename : cstr -> cstr -> cstr -> Z) (aenc_attrib venc_attrib : Z -> bool).
Variables (e : log_env) (part0 : list ascii).

(** The open file, if any, has a readable name that nobody asked for. *)
Definition file_ready (h : hd_enc_struct) : Prop :=
  aviinfo h = None \/
  (queryflag h <> 1 /\ is_Some (hdutil_filename2finfo zone (filename h) (local_info part0))).

(** No lock is held, and the timer and the file are in order. *)
Record chan_ok (h : hd_enc_struct) : Prop := {
  ok_mutex : mutex h = false;
  ok_file_mutex : file_mutex h = false;
  ok_config : cfg_ok (config_of h);
  ok_timer : timer_ok (config_of h) (timer_of h);
  ok_file : file_ready h
}.

(** [h'] is [h] after the event [ev] of its timer. *)
Definition stepped (ev : event) (h h' : hd_enc_struct) : Prop :=
  chan_ok h' /\ config_of h' = config_of h /\ timer_of h' = t_step (config_of h) ev (timer_of h).

Lemma stepped_intro ev h h' :
  chan_ok h -> event_ok ev -> config_of h' = config_of h ->
  timer_of h' = t_step (config_of h) ev (timer_of h) ->
  mutex h' = false -> file_mutex h' = false -> aviinfo h' = aviinfo h ->
  queryflag h' = queryflag h -> filename h' = filename h -> stepped ev h h'.
Proof.
  intros [] Hev Hc Ht Hm Hf Ha Hq Hn. split; [|done].
  split; unfold file_ready; rewrite ?Hc, ?Ht, ?Ha, ?Hq, ?Hn; try done. by apply t_step_ok.
Qed.

(** A body leaves the locks and the file alone. *)
Ltac body_frame := cbv zeta;
  repeat (match goal with |- context [if ?c then _ else _] => destruct c end); done.

Definition framed (h h' : hd_enc_struct) : Prop :=
  mutex h' = mutex h /\ file_mutex h' = file_mutex h /\ aviinfo h' = aviinfo h /\
  queryflag h' = queryflag h /\ filename h' = filename h.

Lemma trig_framed tr l h : framed h (trig_body tr l h).
Proof. unfold framed, trig_body. body_frame. Qed.
Lemma start_framed l h : framed h (start_body l h).
Proof. unfold framed, start_body. body_frame. Qed.
Lemma stop_framed h : framed h (stop_body h).
Proof. unfold framed, stop_body. body_frame. Qed.
Lemma tick_framed h : framed h (record_tick h).
Proof.
  unfold framed, record_tick, alarm_tick, remote_tick. destruct (negb _); [|done].
  set (g := match aviinfo h with Some _ => _ | None => _ end).
  assert (Hg : mutex g = mutex h /\ file_mutex g = file_mutex h /\ aviinfo g = aviinfo h /\
    queryflag g = queryflag h /\ filename g = filename h)
    by (unfold g; destruct (aviinfo h) eqn:E; body_frame).
  clearbody g. destruct Hg as (<- & <- & <- & <- & <-). body_frame.
Qed.
Lemma clear_framed h : framed h (clear_body h).
Proof. unfold framed, clear_body. body_frame. Qed.

(** What an event's body does to a structure that agrees with [h]. *)
Lemma rec_step_timer ev h :
  cfg_ok (config_of h) -> timer_ok (config_of h) (timer_of h) ->
  timer_of (rec_step ev h) = t_step (config_of h) ev (timer_of h) /\
  config_of (rec_step ev h) = config_of h.
Proof.
  intros Hc Ht. destruct ev as [tr reclen | reclen | | |]; cbn [rec_step t_step].
  - change (c_type (config_of h)) with (rec_type h). change (c_enable (config_of h)) with (enable h).
    destruct (_ || _); [done|].
    destruct (Z.eqb_spec tr 0) as [-> |]; [apply trig_motion | by apply trig_alarm].
  - apply start_same.
  - by apply stop_same.
  - apply clear_same.
  - by apply record_tick_same.
Qed.

Lemma acts_locked_event ev f i h :
  chan_ok h -> event_ok ev -> (forall g, framed g (f g)) ->
  (forall g, timer_of g = timer_of h -> config_of g = config_of h -> f g = rec_step ev g) ->
  exists h', acts i (locked i f) h () h' /\ stepped ev h h'.
Proof.
  intros Hok Hev Hfr Hf. eexists. split; [apply acts_locked, Hok|].
  pose proof (Hf (h <| mutex := true |>) eq_refl eq_refl) as Hg.
  destruct (rec_step_timer ev (h <| mutex := true |>)) as [Ht Hc]; [apply Hok..|].
  rewrite <- Hg in Ht, Hc.
  destruct (Hfr (h <| mutex := true |>)) as (_ & H2 & H3 & H4 & H5).
  apply stepped_intro; try done. rewrite <- (ok_file_mutex _ Hok). exact H2.
Qed.

Lemma acts_trig i h tr reclen :
  chan_ok h -> 0 <= tr -> 0 <= reclen ->
  exists rc h', acts i (trig_record_event (Some i) tr reclen) h rc h' /\
    stepped (Ev_trig tr reclen) h h' /\ (rc = 0 \/ (rc = -1 /\ enable h = 0)).
Proof.
  intros Hok Htr Hl.
  assert (Hsame : (tr =? 0) && (rec_type h =? 0) || (enable h =? 0) = true ->
    stepped (Ev_trig tr reclen) h h).
  { intros E. split; [done|]. split; [done|]. cbn [t_step].
    change (c_type (config_of h)) with (rec_type h). change (c_enable (config_of h)) with (enable h).
    by rewrite E. }
  destruct ((tr =? 0) && (rec_type h =? 0)) eqn:E1; [|destruct (enable h =? 0) eqn:E2].
  - exists 0, h. split; [|split; [by apply Hsame | by left]].
    eapply acts_bind; [apply acts_get|]. rewrite E1. apply acts_ret.
  - exists (-1), h. split; [|split; [by apply Hsame | right; lia]].
    eapply acts_bind; [apply acts_get|]. rewrite E1, E2. apply acts_ret.
  - destruct (acts_locked_event (Ev_trig tr reclen) (trig_body tr reclen) i h) as (h' & Ha & Hs);
      [done | done | intros; apply trig_framed | |].
    { intros g _ Hc. cbn [rec_step].
      change (rec_type g) with (c_type (config_of g)). change (enable g) with (c_enable (config_of g)).
      rewrite Hc. cbn. by rewrite E1, E2. }
    exists 0, h'. split; [|split; [done | by left]].
    eapply acts_bind; [apply acts_get|]. rewrite E1, E2.
    eapply acts_bind; [exact Ha | apply acts_ret].
Qed.

Lemma acts_start i h reclen :
  chan_ok h -> 0 <= reclen ->
  exists h', acts i (remote_start_record e (Some i) reclen) h 0 h' /\ stepped (Ev_start reclen) h h'.
Proof.
  intros Hok Hl.
  destruct (acts_locked_event (Ev_start reclen) (start_body (if reclen =? 0 then 65535 else reclen)) i h)
    as (h' & Ha & Hs); [done | done | intros; apply start_framed | done|].
  exists h'. split; [|done]. eapply acts_bind; [exact Ha|].
  eapply acts_bind; [apply acts_get|]. eapply acts_bind; [apply acts_logs | apply acts_ret].
Qed.

Lemma acts_stop i h :
  chan_ok h -> exists h', acts i (remote_stop_record e (Some i)) h 0 h' /\ stepped Ev_stop h h'.
Proof.
  intros Hok.
  destruct (acts_locked_event Ev_stop stop_body i h) as (h' & Ha & Hs);
    [done | done | intros; apply stop_framed | done|].
  exists h'. split; [|done]. eapply acts_bind; [exact Ha|].
  eapply acts_bind; [apply acts_get|]. eapply acts_bind; [apply acts_logs | apply acts_ret].
Qed.

Lemma stepped_body ev h :
  chan_ok h -> event_ok ev -> framed h (rec_step ev h) -> stepped ev h (rec_step ev h).
Proof.
  intros Hok Hev (H1 & H2 & H3 & H4 & H5).
  destruct (rec_step_timer ev h) as [Ht Hc]; [apply Hok..|].
  apply stepped_intro; try done; [rewrite H1 | rewrite H2]; apply Hok.
Qed.

Lemma acts_clear i h : chan_ok h -> 0 <= i < 4 ->
  exists h', acts i (clear_hdmod_trig_flag i) h 0 h' /\ stepped Ev_clear h h'.
Proof.
  intros Hok Hi. exists (clear_body h). split; [|apply (stepped_body Ev_clear); [done | done | apply clear_framed]].
  unfold clear_hdmod_trig_flag, get_hdch, MAX_RECORD_CHANNEL_M.
  destruct (Z.ltb_spec i 4), (Z.leb_spec 0 i); [|lia..].
  eapply acts_bind; [apply acts_ret|]. eapply acts_bind; [apply acts_mod | apply acts_ret].
Qed.

(** Closing a file keeps the timer and the locks, and leaves no file that was not
    there. *)
Definition kept (h h' : hd_enc_struct) : Prop :=
  same_rec h' h /\ mutex h' = mutex h /\ file_mutex h' = file_mutex h /\
  (aviinfo h' = None \/
   (aviinfo h' = aviinfo h /\ queryflag h' = queryflag h /\ filename h' = filename h)).

Lemma kept_refl h : kept h h.
Proof. split; [done|]. split_and!; auto. Qed.

Lemma kept_trans h1 h2 h3 : kept h1 h2 -> kept h2 h3 -> kept h1 h3.
Proof.
  intros (S1 & M1 & F1 & A1) (S2 & M2 & F2 & A2). split; [by etransitivity|].
  split_and!; [congruence..|]. destruct A2 as [? | (-> & -> & ->)]; auto.
Qed.

Lemma kept_ready h h' : kept h h' -> file_ready h -> file_ready h'.
Proof.
  intros (_ & _ & _ & [? | (Ha & Hq & Hn)]) Hr; [by left|].
  unfold file_ready. by rewrite Ha, Hq, Hn.
Qed.

Lemma acts_close_name i h r :
  queryflag h <> 1 -> hdutil_filename2finfo zone (filename h) (local_info part0) = Some r ->
  exists n, acts i (close_name zone i part0) h n h.
Proof.
  intros Hq Hread. destruct r as [rc finfo].
  destruct (rc <? 0) eqn:Hrc; eexists;
    (eapply acts_bind; [apply acts_get|]; rewrite Hread;
     eapply acts_bind; [apply acts_ret|]; cbv beta iota; rewrite Hrc).
  - apply acts_ret.
  - cbv zeta. rewrite (proj2 (Z.eqb_neq _ _) Hq). apply acts_ret.
Qed.

(** The structure after a file was closed. *)
Definition closed h h' : Prop :=
  let h1 := h <| aviinfo := (None : option Z) |> in
  h' = h1 \/ h' = close_reset h1 \/ h' = close_reset h.

Lemma acts_close_cases i h :
  file_ready h ->
  exists rc h', acts i (close_record_file zone rename (Some i) part0) h rc h' /\
    ((h' = h /\ (filename h = [] \/ aviinfo h = None)) \/ closed h h').
Proof.
  intros Hready. unfold close_record_file, on_ptr.
  destruct (filename h) as [|c nm] eqn:Hn.
  { exists 0, h. split; [|by left; auto]. eapply acts_bind; [apply acts_get|]. rewrite Hn. apply acts_ret. }
  destruct (aviinfo h) as [fd|] eqn:Ha.
  2:{ exists 0, h. split; [|by left; auto]. eapply acts_bind; [apply acts_get|]. rewrite Hn, Ha. apply acts_ret. }
  destruct Hready as [Hnone|[Hq [r Hread]]]; [congruence|].
  set (h1 := h <| aviinfo := (None : option Z) |>).
  destruct (0 <? fd) eqn:Hfd.
  2:{ exists 0, (close_reset h). split; [|right; by do 2 right]. eapply acts_bind; [apply acts_get|].
      rewrite Hn, Ha, Hfd. eapply acts_bind; [apply acts_mod | apply acts_ret]. }
  destruct (acts_close_name i h1 r Hq Hread) as [[newname|] Hname].
  - destruct (rename (partition h1) (filename h1) newname <? 0) eqn:Hren.
    + exists (-1), h1. split; [|right; by left].
      eapply acts_bind; [apply acts_get|]. rewrite Hn, Ha, Hfd.
      eapply acts_bind; [apply acts_emit|]. eapply acts_bind; [apply acts_mod|].
      eapply acts_bind; [exact Hname|]. eapply acts_bind; [apply acts_get|].
      eapply acts_bind; [apply acts_emit|]. fold h1. rewrite Hren.
      eapply acts_bind; [apply acts_emit|apply acts_ret].
    + exists 0, (close_reset h1). split; [|right; right; by left].
      eapply acts_bind; [apply acts_get|]. rewrite Hn, Ha, Hfd.
      eapply acts_bind; [apply acts_emit|]. eapply acts_bind; [apply acts_mod|].
      eapply acts_bind; [exact Hname|]. eapply acts_bind; [apply acts_get|].
      eapply acts_bind; [apply acts_emit|]. fold h1. rewrite Hren.
      eapply acts_bind; [apply acts_mod|apply acts_ret].
  - exists 0, (close_reset h1). split; [|right; right; by left].
    eapply acts_bind; [apply acts_get|]. rewrite Hn, Ha, Hfd.
    eapply acts_bind; [apply acts_emit|]. eapply acts_bind; [apply acts_mod|].
    eapply acts_bind; [exact Hname|]. eapply acts_bind; [apply acts_mod|apply acts_ret].
Qed.

Lemma acts_close i h :
  file_ready h ->
  exists rc h', acts i (close_record_file zone rename (Some i) part0) h rc h' /\ kept h h'.
Proof.
  intros Hr. destruct (acts_close_cases i h Hr) as (rc & h' & Ha & Hc). exists rc, h'. split; [done|].
  destruct Hc as [[-> _]|Hc]; [apply kept_refl|]. split; [|split_and!].
  all: destruct Hc as [-> | [-> | ->]]; try done; by left.
Qed.

(** ** The second *)

Lemma acts_audio_watch i h : exists h', acts i (audio_watch aenc_attrib i) h () h' /\ kept h h'.
Proof.
  assert (Hk : forall n, kept h (h <| audio_cnt := n |>))
    by (intros n; split; [done|]; split_and!; auto).
  unfold audio_watch. destruct (0 <? audio_thread_id h) eqn:E1.
  2:{ eexists. split; [|apply (Hk 0)]. eapply acts_bind; [apply acts_get|]. rewrite E1.
      apply (acts_mod i h (fun h => h <| audio_cnt := 0 |>)). }
  destruct (aenc_attrib (audiochannel h)) eqn:E2.
  2:{ exists h. split; [|apply kept_refl]. eapply acts_bind; [apply acts_get|]. rewrite E1, E2. apply acts_ret. }
  destruct (audio_cnt h + 1 <? 10) eqn:E3; eexists.
  - split; [|apply (Hk (audio_cnt h + 1))]. eapply acts_bind; [apply acts_get|]. rewrite E1, E2.
    eapply acts_bind; [apply (acts_mod i h (fun h => h <| audio_cnt := audio_cnt h + 1 |>))|].
    eapply acts_bind; [apply acts_get|].
    change (audio_cnt (h <| audio_cnt := audio_cnt h + 1 |>)) with (audio_cnt h + 1). rewrite E3. apply acts_ret.
  - split; [|apply (Hk 0)]. eapply acts_bind; [apply acts_get|]. rewrite E1, E2.
    eapply acts_bind; [apply (acts_mod i h (fun h => h <| audio_cnt := audio_cnt h + 1 |>))|].
    eapply acts_bind; [apply acts_get|].
    change (audio_cnt (h <| audio_cnt := audio_cnt h + 1 |>)) with (audio_cnt h + 1). rewrite E3.
    eapply acts_bind; [apply acts_emit|].
    apply (acts_mod i (h <| audio_cnt := audio_cnt h + 1 |>) (fun h => h <| audio_cnt := 0 |>)).
Qed.

Lemma acts_video_watch i h :
  file_mutex h = false -> file_ready h ->
  exists h', acts i (video_watch zone rename venc_attrib part0 i) h () h' /\ kept h h'.
Proof.
  intros Hfm Hready.
  assert (Hk : forall n, kept h (h <| watchcnt := n |>))
    by (intros n; split; [done|]; split_and!; auto).
  unfold video_watch. destruct (0 <? thread_id h) eqn:E1.
  2:{ eexists. split; [|apply (Hk 0)]. eapply acts_bind; [apply acts_get|]. rewrite E1.
      apply (acts_mod i h (fun h => h <| watchcnt := 0 |>)). }
  destruct (venc_attrib (channel h)) eqn:E2.
  2:{ exists h. split; [|apply kept_refl]. eapply acts_bind; [apply acts_get|]. rewrite E1, E2. apply acts_ret. }
  set (h1 := h <| watchcnt := watchcnt h + 1 |>).
  assert (Hstart : forall m b h', acts i m h1 b h' ->
    acts i (h ← get_hd i; if 0 <? thread_id h then
      if venc_attrib (channel h) then mod_hd i (fun h => h <| watchcnt := watchcnt h + 1 |>) ;; m
      else mret () else mod_hd i (fun h => h <| watchcnt := 0 |>)) h b h').
  { intros m b h' Hm. eapply acts_bind; [apply acts_get|]. rewrite E1, E2.
    eapply acts_bind; [apply (acts_mod i h (fun h => h <| watchcnt := watchcnt h + 1 |>)) | exact Hm]. }
  destruct (watchcnt h + 1 <? 10) eqn:E3; [|destruct (Z.rem (watchcnt h + 1) 10 =? 0) eqn:E4].
  - exists h1. split; [|apply Hk]. apply Hstart. eapply acts_bind; [apply acts_get|].
    change (watchcnt h1) with (watchcnt h + 1). rewrite E3. apply acts_ret.
  - set (h2 := h1 <| file_mutex := true |>).
    assert (Hclose : exists rc h3, acts i
      (if (10 <=? watchcnt h1) && bool_decide (is_Some (aviinfo h1))
       then close_record_file zone rename (Some i) part0 else mret 0) h2 rc h3 /\ kept h2 h3).
    { destruct (_ && _); [|exists 0, h2; split; [apply acts_ret | apply kept_refl]].
      apply acts_close. exact Hready. }
    destruct Hclose as (rc & h3 & Ha & (S3 & M3 & F3 & A3)).
    exists (h3 <| file_mutex := false |>). split.
    + apply Hstart. eapply acts_bind; [apply acts_get|].
      change (watchcnt h1) with (watchcnt h + 1) at 1 2. rewrite E3, E4.
      eapply acts_bind; [apply (acts_file_lock i h1); exact Hfm|].
      eapply acts_bind; [exact Ha|].
      eapply acts_bind; [apply (acts_mod i h3 (fun h => h <| file_mutex := false |>))|].
      apply acts_emit.
    + split; [exact S3|]. split; [exact M3|]. split; [by rewrite Hfm|]. exact A3.
  - exists h1. split; [|apply Hk]. apply Hstart. eapply acts_bind; [apply acts_get|].
    change (watchcnt h1) with (watchcnt h + 1). rewrite E3, E4. apply acts_ret.
Qed.

(** One channel's part of the second; it ends with no lock held, whoever held one. *)
Lemma acts_channel_second i h :
  file_mutex h = false -> file_ready h -> cfg_ok (config_of h) ->
  timer_ok (config_of h) (timer_of h) ->
  exists h', acts i (video_watch zone rename venc_attrib part0 i ;; mod_hd i record_tick ;; mutex_unlock i) h () h' /\
    stepped Ev_second h h'.
Proof.
  intros Hfm Hready Hc Ht. destruct (acts_video_watch i h Hfm Hready) as (h1 & Ha & Hk).
  pose proof (kept_ready _ _ Hk Hready) as Hr1. destruct Hk as ([St Sc] & _ & F1 & _).
  rewrite <- Sc, <- St in *.
  destruct (record_tick_same h1 Hc Ht) as [Ht1 Hc1].
  exists ((record_tick h1) <| mutex := false |>). split.
  - eapply acts_bind; [exact Ha|]. eapply acts_bind; [apply acts_mod|].
    apply (acts_mod i (record_tick h1) (fun h => h <| mutex := false |>)).
  - assert (Hfr : framed h1 (record_tick h1)) by apply tick_framed.
    destruct Hfr as (_ & H2 & H3 & H4 & H5).
    split; [|by rewrite <- Sc, <- St].
    split; [done | | exact (eq_ind_r cfg_ok Hc Hc1) | | unfold file_ready].
    + by rewrite <- Hfm, <- F1, <- H2.
    + change (timer_ok (config_of (record_tick h1)) (timer_of (record_tick h1))).
      rewrite Ht1, Hc1. by apply (after_seconds_ok _ 1).
    + unfold file_ready in Hr1. rewrite <- H3, <- H4, <- H5 in Hr1. exact Hr1.
Qed.

End Calls.

(** ** Runs of calls on the whole recorder *)

(** What the other modules and the clock ask of the recorder. *)
Inductive rcall :=
| R_trig (ch tr reclen : Z)
| R_start (ch reclen : Z)
| R_stop (ch : Z)
| R_clear (ch : Z)
| R_second.

#[export] Instance rcall_eq_dec : EqDecision rcall.
Proof. solve_decision. Defined.

Definition rcall_ok (c : rcall) : Prop :=
  match c with
  | R_trig ch tr reclen => 0 <= ch < 4 /\ 0 <= tr /\ 0 <= reclen
  | R_start ch reclen => 0 <= ch < 4 /\ 0 <= reclen
  | R_stop ch | R_clear ch => 0 <= ch < 4
  | R_second => True
  end.

(** The events of channel [ch] among the calls. *)
Definition event_for (ch : Z) (c : rcall) : option event :=
  match c with
  | R_trig ch' tr reclen => if ch' =? ch then Some (Ev_trig tr reclen) else None
  | R_start ch' reclen => if ch' =? ch then Some (Ev_start reclen) else None
  | R_stop ch' => if ch' =? ch then Some Ev_stop else None
  | R_clear ch' => if ch' =? ch then Some Ev_clear else None
  | R_second => Some Ev_second
  end.

Definition events_for (ch : Z) (cs : list rcall) : list event := omap (event_for ch) cs.

Section Runs.
Variables (zone : Z) (rename : cstr -> cstr -> cstr -> Z) (aenc_attrib venc_attrib : Z -> bool).
Variables (e : log_env) (part0 : list ascii).

Definition run_rcall (c : rcall) : M rec_st () :=
  match c with
  | R_trig ch tr reclen => trig_record_event (get_hdch ch) tr reclen ;; mret ()
  | R_start ch reclen => remote_start_record e (get_hdch ch) reclen ;; mret ()
  | R_stop ch => remote_stop_record e (get_hdch ch) ;; mret ()
  | R_clear ch => clear_hdmod_trig_flag ch ;; mret ()
  | R_second => hd_second_proc zone rename aenc_attrib venc_attrib part0
  end.

Fixpoint run_rcalls (cs : list rcall) : M rec_st () :=
  match cs with [] => mret () | c :: cs => run_rcall c ;; run_rcalls cs end.

(** Every channel is in order between two calls. *)
Definition rec_ok (s : rec_st) : Prop :=
  forall i, 0 <= i < 4 -> exists h, geti (g_hdenc s) i = Some h /\ chan_ok zone part0 h.

Lemma for_channels_acts (l : list Z) (m : Z -> M rec_st ()) (Q : hd_enc_struct -> Prop)
    (P : hd_enc_struct -> hd_enc_struct -> Prop) :
  NoDup l -> (forall i h, In i l -> Q h -> exists h', acts i (m i) h () h' /\ P h h') ->
  forall s, (forall i, In i l -> exists h, geti (g_hdenc s) i = Some h /\ Q h) ->
  exists s', for_channels l m s = Ret () s' /\
    (forall i h, In i l -> geti (g_hdenc s) i = Some h -> exists h', geti (g_hdenc s') i = Some h' /\ P h h') /\
    (forall i, ~ In i l -> geti (g_hdenc s') i = geti (g_hdenc s) i).
Proof.
  intros Hnd Hm. induction Hnd as [|i l Hi Hnd IH]; intros s Hs.
  { exists s. split; [done|]. split; [|done]. intros i h []. }
  destruct (Hs i) as (h & Hh & HQ); [by left|].
  destruct (Hm i h) as (h' & Ha & HP); [by left | done|].
  destruct (Ha s Hh) as (s1 & Hr & Hl). pose proof (geti_Some _ _ _ Hh) as Hrange.
  assert (Heq : geti (g_hdenc s1) i = Some h').
  { rewrite Hl, geti_to_nat by lia. apply list_lookup_insert_eq. lia. }
  assert (Hne : forall j, j <> i -> geti (g_hdenc s1) j = geti (g_hdenc s) j).
  { intros j Hj. eapply (geti_seti_ne _ i _ h'); [|done]. rewrite seti_Some by done. by rewrite Hl. }
  assert (Hnin : forall j, In j l -> j <> i).
  { intros j Hj ->. apply Hi. by apply list_elem_of_In. }
  destruct (IH ltac:(intros j h0 Hj; apply Hm; by right) s1) as (s2 & Hr2 & Hin & Hout).
  { intros j Hj. rewrite Hne by auto. apply Hs. by right. }
  exists s2. cbn [for_channels]. rewrite (bind_ret _ _ _ _ _ Hr). split; [done|]. split.
  - intros j h0 [<- | Hj] Hj0.
    + exists h'. rewrite Hout; [|intros Hj; by eapply Hnin]. simplify_eq. done.
    + apply Hin; [done|]. by rewrite Hne by auto.
  - intros j Hj. rewrite Hout, Hne; [done | |]; intros H; apply Hj; [by left | by right].
Qed.

Lemma in_channels i : In i channels <-> 0 <= i < 4.
Proof. unfold channels. cbn. lia. Qed.

Lemma nodup_channels : NoDup channels.
Proof. apply (bool_decide_unpack _). by vm_compute. Qed.

Lemma second_steps s :
  rec_ok s ->
  exists s', hd_second_proc zone rename aenc_attrib venc_attrib part0 s = Ret () s' /\
    forall i h, 0 <= i < 4 -> geti (g_hdenc s) i = Some h ->
      exists h', geti (g_hdenc s') i = Some h' /\ stepped zone part0 Ev_second h h'.
Proof.
  intros Hok. unfold hd_second_proc.
  destruct (for_channels_acts channels (audio_watch aenc_attrib) (chan_ok zone part0) kept
    nodup_channels) with (s := s) as (s1 & Hr1 & Hin1 & _).
  { intros i h _ _. apply acts_audio_watch. }
  { intros i Hi. by apply Hok, in_channels. }
  rewrite (bind_ret _ _ _ _ _ Hr1).
  destruct (for_channels_acts channels
    (fun i => video_watch zone rename venc_attrib part0 i ;; mod_hd i record_tick ;; mutex_unlock i)
    (fun h => file_mutex h = false /\ file_ready zone part0 h /\ cfg_ok (config_of h) /\
              timer_ok (config_of h) (timer_of h))
    (stepped zone part0 Ev_second) nodup_channels) with (s := s1) as (s2 & Hr2 & Hin2 & _).
  { intros i h _ (? & ? & ? & ?). by apply acts_channel_second. }
  { intros i Hi. destruct (Hok i) as (h & Hh & Hch); [by apply in_channels|].
    destruct (Hin1 i h Hi Hh) as (h' & Hh' & Hk). exists h'. split; [done|].
    pose proof (kept_ready _ _ _ _ Hk (ok_file _ _ _ Hch)).
    destruct Hk as ([St Sc] & _ & F & _). rewrite F, St, Sc. split_and!; [apply Hch | done | apply Hch..]. }
  exists s2. split; [exact Hr2|]. intros i h Hi Hh. apply in_channels in Hi.
  destruct (Hin1 i h Hi Hh) as (h1 & Hh1 & Hk). destruct (Hin2 i h1 Hi Hh1) as (h2 & Hh2 & Hst).
  exists h2. split; [done|]. destruct Hk as ([St Sc] & _). destruct Hst as (? & Hc2 & Ht2).
  split; [done|]. rewrite Hc2, Ht2, St, Sc. done.
Qed.

Lemma get_hdch_valid ch : 0 <= ch < 4 -> get_hdch ch = Some ch.
Proof.
  intros. unfold get_hdch, MAX_RECORD_CHANNEL_M.
  by destruct (Z.ltb_spec ch 4), (Z.leb_spec 0 ch); [|lia..].
Qed.

(** A call on one channel, as a step of the whole recorder. *)
Lemma acts_step {A} ch (m : M rec_st A) ev s :
  rec_ok s -> 0 <= ch < 4 ->
  (forall h, chan_ok zone part0 h -> exists a h', acts ch m h a h' /\ stepped zone part0 ev h h') ->
  exists s', (m ;; mret ()) s = Ret () s' /\
    forall i h, 0 <= i < 4 -> geti (g_hdenc s) i = Some h ->
      exists h', geti (g_hdenc s') i = Some h' /\
        (if i =? ch then stepped zone part0 ev h h' else h' = h).
Proof.
  intros Hok Hch Hm. destruct (Hok ch Hch) as (h & Hh & Hc).
  destruct (Hm h Hc) as (a & h' & Ha & Hst). destruct (Ha s Hh) as (s' & Hr & Hl).
  pose proof (geti_Some _ _ _ Hh) as Hrange.
  exists s'. rewrite (bind_ret _ _ _ _ _ Hr). split; [done|]. intros i g Hi Hg.
  destruct (Z.eqb_spec i ch) as [-> | Hne].
  - exists h'. rewrite Hl, geti_to_nat by lia. rewrite list_lookup_insert_eq by lia. simplify_eq. done.
  - exists g. split; [|done]. rewrite <- Hg. eapply (geti_seti_ne _ ch _ h'); [|done].
    rewrite seti_Some by done. by rewrite Hl.
Qed.

Lemma rcall_steps c s :
  rec_ok s -> rcall_ok c ->
  exists s', run_rcall c s = Ret () s' /\
    forall i h, 0 <= i < 4 -> geti (g_hdenc s) i = Some h ->
      exists h', geti (g_hdenc s') i = Some h' /\
        match event_for i c with Some ev => stepped zone part0 ev h h' | None => h' = h end.
Proof.
  intros Hok Hc. destruct c as [ch tr reclen | ch reclen | ch | ch |]; cbn [run_rcall rcall_ok event_for] in *.
  - destruct Hc as (Hch & Htr & Hl). rewrite get_hdch_valid by done.
    destruct (acts_step ch (trig_record_event (Some ch) tr reclen) (Ev_trig tr reclen) s Hok Hch) as (s' & Hr & H).
    { intros h Hh. destruct (acts_trig zone part0 ch h tr reclen Hh Htr Hl) as (rc & h' & ? & ? & _). eauto. }
    exists s'. split; [done|]. intros i h Hi Hh. rewrite (Z.eqb_sym ch i).
    destruct (H i h Hi Hh) as (h' & ? & ?). exists h'. split; [done|]. by destruct (i =? ch).
  - destruct Hc as (Hch & Hl). rewrite get_hdch_valid by done.
    destruct (acts_step ch (remote_start_record e (Some ch) reclen) (Ev_start reclen) s Hok Hch) as (s' & Hr & H).
    { intros h Hh. destruct (acts_start zone e part0 ch h reclen Hh Hl) as (h' & ? & ?). eauto. }
    exists s'. split; [done|]. intros i h Hi Hh. rewrite (Z.eqb_sym ch i).
    destruct (H i h Hi Hh) as (h' & ? & ?). exists h'. split; [done|]. by destruct (i =? ch).
  - rewrite get_hdch_valid by done.
    destruct (acts_step ch (remote_stop_record e (Some ch)) Ev_stop s Hok Hc) as (s' & Hr & H).
    { intros h Hh. destruct (acts_stop zone e part0 ch h Hh) as (h' & ? & ?). eauto. }
    exists s'. split; [done|]. intros i h Hi Hh. rewrite (Z.eqb_sym ch i).
    destruct (H i h Hi Hh) as (h' & ? & ?). exists h'. split; [done|]. by destruct (i =? ch).
  - destruct (acts_step ch (clear_hdmod_trig_flag ch) Ev_clear s Hok Hc) as (s' & Hr & H).
    { intros h Hh. destruct (acts_clear zone part0 ch h Hh Hc) as (h' & ? & ?). eauto. }
    exists s'. split; [done|]. intros i h Hi Hh. rewrite (Z.eqb_sym ch i).
    destruct (H i h Hi Hh) as (h' & ? & ?). exists h'. split; [done|]. by destruct (i =? ch).
  - exact (second_steps s Hok).
Qed.

End Runs.
