(* ===== verification/RecorderRuns.v ===== *)
(** * Runs of the recorder: alarms are recorded, and recording ends

    The properties of [RecorderSpec]'s timers, for runs of the calls themselves, and
    what a restart resumes. *)

From Stdlib Require Import Ascii String.
From S2P Require Import Prelude Update Ctime Cstring RecName AlarmLog AlarmLogThms Recorder RecorderSys RecorderSpec RecorderThms.

Section Runs.
Variables (zone : Z) (rename : cstr -> cstr -> cstr -> Z) (aenc_attrib venc_attrib : Z -> bool).
Variables (e : log_env) (part0 : list ascii).

Abbreviation run := (run_rcalls zone rename aenc_attrib venc_attrib e part0).
Abbreviation ok := (rec_ok zone part0).

Lemma run_refines cs : forall s, ok s -> Forall rcall_ok cs ->
  exists s', run cs s = Ret () s' /\ ok s' /\
    forall i h, 0 <= i < 4 -> geti (g_hdenc s) i = Some h ->
      exists h', geti (g_hdenc s') i = Some h' /\ config_of h' = config_of h /\
        timer_of h' = t_run (config_of h) (events_for i cs) (timer_of h).
Proof.
  induction cs as [|c cs IH]; intros s Hok Hcs.
  { exists s. split; [done|]. split; [done|]. intros i h _ Hh. by exists h. }
  apply Forall_cons_1 in Hcs as [Hc Hcs].
  destruct (rcall_steps zone rename aenc_attrib venc_attrib e part0 c s Hok Hc) as (s1 & Hr1 & H1).
  assert (Hok1 : ok s1).
  { intros i Hi. destruct (Hok i Hi) as (h & Hh & Hch). destruct (H1 i h Hi Hh) as (h' & Hh' & Hst).
    exists h'. split; [done|]. destruct (event_for i c); [apply Hst | by rewrite Hst]. }
  destruct (IH s1 Hok1 Hcs) as (s2 & Hr2 & Hok2 & H2).
  exists s2. cbn [run_rcalls]. rewrite (bind_ret _ _ _ _ _ Hr1). split; [done|]. split; [done|].
  intros i h Hi Hh. destruct (H1 i h Hi Hh) as (h1 & Hh1 & Hst).
  destruct (H2 i h1 Hi Hh1) as (h2 & Hh2 & Hc2 & Ht2). exists h2. split; [done|].
  unfold events_for in *. cbn [omap list_omap]. destruct (event_for i c) as [ev|].
  - destruct Hst as (_ & Hc1 & Ht1). rewrite Hc2, Ht2, Hc1, Ht1. done.
  - by subst h1.
Qed.

Lemma event_for_ok i c ev : rcall_ok c -> event_for i c = Some ev -> event_ok ev.
Proof.
  destruct c as [ch tr reclen | ch reclen | ch | ch |]; cbn [rcall_ok event_for];
    try (destruct (ch =? i)); intros Hc [= <-]; cbn; tauto.
Qed.

Lemma events_for_ok i cs : Forall rcall_ok cs -> Forall event_ok (events_for i cs).
Proof.
  induction 1 as [|c cs Hc Hcs IH]; [constructor|]. unfold events_for. cbn [omap list_omap].
  destruct (event_for i c) eqn:E; [|done]. constructor; [by eapply event_for_ok | done].
Qed.

Lemma events_for_clear i cs : In Ev_clear (events_for i cs) -> In (R_clear i) cs.
Proof.
  induction cs as [|c cs IH]; [done|]. unfold events_for. cbn [omap list_omap].
  destruct (event_for i c) as [ev|] eqn:E; [|by right; apply IH].
  intros [-> | ?]; [left | right; by apply IH].
  destruct c as [ch ? ? | ch ? | ch | ch |]; cbn in E; try (destruct (Z.eqb_spec ch i)); by simplify_eq.
Qed.

Lemma events_for_seconds i cs :
  seconds_of (events_for i cs) = zlen (filter (fun c => c = R_second) cs).
Proof.
  unfold seconds_of. f_equal. induction cs as [|c cs IH]; [done|].
  unfold events_for in *. cbn [omap list_omap]. rewrite (filter_cons _ c).
  destruct c as [ch ? ? | ch ? | ch | ch |]; cbn [event_for]; try (destruct (ch =? i));
    rewrite ?filter_cons, ?decide_False, ?decide_True by done; cbn [length]; by rewrite ?IH.
Qed.

Lemma events_for_only_seconds i n : events_for i (replicate n R_second) = replicate n Ev_second.
Proof. induction n as [|n IH]; [done|]. cbn. f_equal. exact IH. Qed.

End Runs.




(** C10. Whatever the other modules and the clock ask of the recorder, in any order,
    every call returns, the channels stay in order, and each channel's timer is the
    one its own events give: no call touches another channel's. *)
Theorem calls_refine zone rename aenc venc e part0 s cs :
  rec_ok zone part0 s -> Forall rcall_ok cs ->
  exists s', run_rcalls zone rename aenc venc e part0 cs s = Ret () s' /\ rec_ok zone part0 s' /\
    forall i h, 0 <= i < 4 -> geti (g_hdenc s) i = Some h ->
      exists h', geti (g_hdenc s') i = Some h' /\ config_of h' = config_of h /\
        timer_of h' = t_run (config_of h) (events_for i cs) (timer_of h).
Proof. apply run_refines. Qed.

(** C11. An alarm on an enabled channel is recorded for its time: however the calls
    that follow mix motions, other alarms, starts and stops by hand and calls on the
    other channels, as long as the channel's trigger is not cleared and fewer than
    [reclen + dly_rec] seconds pass, the channel records for the alarm (state 2) and
    its trigger is among those the recording is marked with. *)
Theorem alarm_is_recorded zone rename aenc venc e part0 s ch tr reclen cs h :
  rec_ok zone part0 s -> 0 <= ch < 4 -> geti (g_hdenc s) ch = Some h -> enable h <> 0 ->
  0 < tr -> 0 <= reclen -> Forall rcall_ok cs -> ~ In (R_clear ch) cs ->
  zlen (filter (fun c => c = R_second) cs) < reclen + dly_rec h ->
  exists s' h', run_rcalls zone rename aenc venc e part0 (R_trig ch tr reclen :: cs) s = Ret () s' /\
    geti (g_hdenc s') ch = Some h' /\ state h' = 2 /\ Z.land (trig h') tr = tr.
Proof.
  intros Hok Hch Hh Hen Htr Hl Hcs Hclear Hn.
  assert (Hcs' : Forall rcall_ok (R_trig ch tr reclen :: cs)) by (constructor; [cbn; lia | done]).
  destruct (run_refines zone rename aenc venc e part0 _ s Hok Hcs') as (s' & Hr & _ & H).
  destruct (H ch h Hch Hh) as (h' & Hh' & _ & Ht). exists s', h'. split; [done|]. split; [done|].
  destruct (Hok ch Hch) as (h0 & Hh0 & Hchan). assert (h0 = h) as -> by congruence.
  unfold events_for in Ht. cbn [omap list_omap event_for] in Ht. rewrite Z.eqb_refl in Ht.
  pose proof (alarm_raised (config_of h) tr reclen (timer_of h) (ok_config _ _ _ Hchan) Hen
    ltac:(lia) Hl) as Hal.
  apply (alarm_left_run (config_of h) (events_for ch cs) tr) in Hal; [| apply Hchan | by apply events_for_ok
    | intros Hin; by apply Hclear, events_for_clear | lia].
  rewrite events_for_seconds in Hal. destruct Hal as [_ Hal].
  change (timer_of h' = t_run (config_of h) (events_for ch cs)
    (t_step (config_of h) (Ev_trig tr reclen) (timer_of h))) in Ht.
  rewrite <- Ht in Hal. apply Hal. cbn. lia.
Qed.

(** C26. When nothing more is asked, a channel records exactly as long as was asked:
    before the longer of its two counts has run out its state has not changed, and
    from then on it is idle with no trigger and no hand. *)
Theorem comes_to_rest zone rename aenc venc e part0 s n :
  rec_ok zone part0 s ->
  exists s', run_rcalls zone rename aenc venc e part0 (replicate n R_second) s = Ret () s' /\
    forall i h, 0 <= i < 4 -> geti (g_hdenc s) i = Some h ->
      exists h', geti (g_hdenc s') i = Some h' /\
        (Z.of_nat n < Z.max (recordlen h) (remote_trig_time h) -> state h' = state h) /\
        (Z.max (recordlen h) (remote_trig_time h) <= Z.of_nat n ->
           state h' = idle_state h /\ recordlen h' = 0 /\ trig h' = 0 /\
           remote_trig_time h' = 0 /\ remote_trigged h' = 0).
Proof.
  intros Hok.
  destruct (run_refines zone rename aenc venc e part0 (replicate n R_second) s Hok) as (s' & Hr & _ & H).
  { apply Forall_replicate. done. }
  exists s'. split; [done|]. intros i h Hi Hh. destruct (H i h Hi Hh) as (h' & Hh' & _ & Ht).
  exists h'. split; [done|]. rewrite events_for_only_seconds in Ht.
  destruct (Hok i Hi) as (h0 & Hh0 & Hch). assert (h0 = h) as -> by congruence.
  pose proof (ok_timer _ _ _ Hch) as Htok. pose proof (ok_len _ _ Htok) as Hlen. cbn in Hlen.
  assert (Hrt : 0 <= remote_trig_time h) by (pose proof (ok_remote _ _ Htok) as Hrm; cbn in Hrm; lia).
  destruct (seconds_run (config_of h) n (timer_of h)) as [Hrun | ->].
  - rewrite Hrun in Ht. split; intros Hn.
    + apply (f_equal t_state) in Ht. cbn in Ht. rewrite Ht.
      destruct (Z.ltb_spec (Z.of_nat n) (recordlen h)), (Z.ltb_spec (Z.of_nat n) (remote_trig_time h)); [done..|lia].
    + rewrite (seconds_rest _ _ _ Htok Hn) in Ht. unfold timer_of, at_rest in Ht. by injection Ht.
  - cbn in Ht. unfold timer_of in Ht. injection Ht as -> -> -> -> ->. split; [done|]. intros Hn.
    assert (recordlen h = 0) as Hl0 by lia. assert (remote_trig_time h = 0) as Hr0 by lia.
    pose proof (ok_alarm _ _ Htok) as Hal. pose proof (ok_remote _ _ Htok) as Hrm.
    pose proof (ok_rest _ _ Htok) as Hrest. cbn in *.
    assert (remote_trigged h = 0) as Hg by lia. assert (trig h = 0) as Htr.
    { destruct (Z.eq_dec (trig h) 0); [done|]. apply Hal in n. lia. }
    split_and!; try done. by apply Hrest.
Qed.

(** ** A concrete recorder *)

Definition example_hd (ch : Z) : hd_enc_struct :=
  {| mutex := false; file_mutex := false; thread_id := 7; audio_thread_id := -1;
     keyframe_pool_thread_id := -1; takepic_thread_id := -1; hdsave_mode := 1; audiochannel := ch;
     channel := ch; rec_type := 1; pre_rec := 10; dly_rec := 30; max_len := 120; del_typ := 0;
     state := 0; filename := ([] : cstr); aviinfo := None; recordlen := 0; filelen := 0; trig := 0;
     cutflag := 0; qid := 0; bitrate := 1024; watchcnt := 0; keyframe_cnt := 0; audio_cnt := 0;
     readenc_flag := 0; picerrorcode := 0; takingpicflag := 0; pictime := 0; timemax := 0;
     semflag := 0; queryflag := 0; remote_trig_time := 0; remote_trigged := 0; alarmpicflag := 0;
     alarmpic_required := 0; alarmpic_path := ([] : cstr); partition := lit "/hqdata/sda1";
     enable := 1; threadexit := 0; pre_connect := 0 |}.

Definition example_rec : rec_st :=
  {| g_hdenc := map example_hd [0; 1; 2; 3; 4]; cf_err := 0; old_cferr_state := 0;
     hd_playback_flag := 0; logs := no_files; calls := [] |}.

Lemma example_rec_ok zone part0 : rec_ok zone part0 example_rec.
Proof.
  intros i Hi. exists (example_hd i). split.
  - assert (i = 0 \/ i = 1 \/ i = 2 \/ i = 3) as [-> | [-> | [-> | ->]]] by lia; done.
  - split; [done | done | split; cbn; lia | apply (at_rest_ok (config_of (example_hd i))) | by left].
Qed.

Definition no_rename : cstr -> cstr -> cstr -> Z := fun _ _ _ => 0.
Definition connected : Z -> bool := fun _ => true.

Lemma calls_refine_witness :
  exists s', run_rcalls 0 no_rename connected connected example_env []
    [R_trig 2 0 5; R_second; R_start 2 3; R_second; R_trig 1 16 0] example_rec = Ret () s' /\
    rec_ok 0 [] s'.
Proof.
  destruct (calls_refine 0 no_rename connected connected example_env [] example_rec
    [R_trig 2 0 5; R_second; R_start 2 3; R_second; R_trig 1 16 0]) as (s' & Hr & Hok & _).
  - apply example_rec_ok.
  - repeat constructor; cbn; lia.
  - exists s'. split; [exact Hr | exact Hok].
Defined.

Lemma alarm_is_recorded_witness :
  exists s' h', run_rcalls 0 no_rename connected connected example_env []
    [R_trig 1 16 0; R_stop 1; R_second; R_trig 0 4 0; R_second] example_rec = Ret () s' /\
    geti (g_hdenc s') 1 = Some h' /\ state h' = 2 /\ Z.land (trig h') 16 = 16.
Proof.
  apply (alarm_is_recorded 0 no_rename connected connected example_env [] example_rec 1 16 0
    [R_stop 1; R_second; R_trig 0 4 0; R_second] (example_hd 1)); try done; try lia.
  - apply example_rec_ok.
  - repeat constructor; cbn; lia.
  - cbn. intros [H | [H | [H | [H | []]]]]; discriminate H.
Defined.

Lemma comes_to_rest_witness :
  exists s', run_rcalls 0 no_rename connected connected example_env [] (replicate 3 R_second) example_rec
    = Ret () s'.
Proof.
  destruct (comes_to_rest 0 no_rename connected connected example_env [] example_rec 3) as (s' & Hr & _).
  - apply example_rec_ok.
  - exists s'. exact Hr.
Defined.

(** ** After a restart *)

Section Resume.

Lemma get_hd_inv i s h s' : get_hd i s = Ret h s' -> s' = s /\ geti (g_hdenc s) i = Some h.
Proof.
  change (get_hd i s) with (access (geti (g_hdenc s) i) s).
  destruct (geti _ _); [|done]. by intros [= <- <-].
Qed.

Lemma mod_hd_logs i f s a s' : mod_hd i f s = Ret a s' -> logs s' = logs s.
Proof.
  unfold mod_hd. intros (s0 & s1 & [= <- <-] & H)%bind_ret_inv.
  apply bind_ret_inv in H as (h & s2 & H2 & H).
  destruct (geti _ _); [|done]. injection H2 as <- <-.
  apply bind_ret_inv in H as (l & s3 & H3 & H). destruct (seti _ _ _); [|done].
  injection H3 as <- <-. injection H as <- <-. done.
Qed.

Lemma locked_logs i f s a s' : locked i f s = Ret a s' -> logs s' = logs s.
Proof.
  unfold locked. intros (u1 & s1 & H1 & H)%bind_ret_inv.
  apply bind_ret_inv in H as (u2 & s2 & H2 & H3).
  apply mod_hd_logs in H2, H3. rewrite H3, H2.
  unfold mutex_lock in H1. apply bind_ret_inv in H1 as (h & s0 & H0 & H1).
  apply get_hd_inv in H0 as [-> _]. destruct (mutex h); [done|]. by apply mod_hd_logs in H1.
Qed.

(** What a start by hand leaves in the log. *)
Lemma start_logs e zone part0 ch s h reclen :
  geti (g_hdenc s) ch = Some h -> chan_ok zone part0 h -> 0 <= reclen ->
  exists s', remote_start_record e (Some ch) reclen s = Ret 0 s' /\
    logs s' = dump_saveinfo_to_log e (logs s) 1 (channel h) (if reclen =? 0 then 65535 else reclen).
Proof.
  intros Hh Hok Hl. destruct (acts_start zone e part0 ch h reclen Hok Hl) as (h' & Ha & _).
  destruct (Ha s Hh) as (s' & Hr & _). exists s'. split; [done|]. revert Hr.
  unfold remote_start_record, on_ptr. intros (u & s1 & H1 & H)%bind_ret_inv.
  apply locked_logs in H1. apply bind_ret_inv in H as (h1 & s2 & H2 & H).
  apply get_hd_inv in H2 as [-> _]. apply bind_ret_inv in H as (u3 & s3 & [= <- <-] & H).
  injection H as <-. cbn. by rewrite H1.
Qed.

End Resume.

(** C25. After a restart channel 0 goes on with what was started by hand, on whichever
    channel: if [ch] was told at
    time [t] to record for [reclen] seconds and the recorder starts again at [now],
    before they are over, with the log it left, then [get_save_status] has channel 0
    record by hand for the seconds that are left. *)
Theorem restart_resumes e zone part0 ch s h t reclen now s2 h0 log0 :
  rec_ok zone part0 s -> geti (g_hdenc s) ch = Some h -> 0 <= ch < 4 ->
  log_ok (logs s) -> fopen_ok e = true -> log_time e = Some t -> 0 <= t < 2 ^ 31 ->
  - 86400 <= log_zone e <= 86400 -> 0 < reclen < 100000 -> t <= now < t + reclen ->
  geti (g_hdenc s2) 0 = Some h0 -> length log0 = LOG_RECORD ->
  exists s1 s3 h3, remote_start_record e (get_hdch ch) reclen s = Ret 0 s1 /\
    (logs s2 = logs s1 -> get_save_status (log_zone e) now log0 s2 = Ret () s3 /\
       geti (g_hdenc s3) 0 = Some h3 /\ state h3 = 2 /\ remote_trigged h3 = 1 /\
       remote_trig_time h3 = t + reclen - now).
Proof.
  intros Hok Hh Hch Hlog Hfo Htime Ht Hz Hlen Hnow Hh0 Hl0.
  destruct (Hok ch Hch) as (h' & Hh' & Hchan). assert (h' = h) as -> by congruence.
  destruct (start_logs e zone part0 ch s h reclen Hh Hchan ltac:(lia)) as (s1 & Hr & Hlogs).
  rewrite (proj2 (Z.eqb_neq reclen 0)) in Hlogs by lia.
  destruct (save_read_back e (logs s) t (channel h) reclen log0) as (r & Hchk & Hrt & Hst); [done..|lia|lia|lia|done|].
  rewrite <- Hlogs in Hchk.
  set (f := fun h => h <| state := 2 |> <| remote_trigged := 1 |> <| remote_trig_time := reclen + t - now |>).
  destruct (acts_mod 0 h0 f s2 Hh0) as (s3 & Hr3 & Hl3).
  exists s1, s3, (f h0). rewrite get_hdch_valid by done. split; [done|]. intros Heq.
  pose proof (geti_Some _ _ _ Hh0) as Hrange. split.
  - unfold get_save_status. rewrite (bind_ret _ _ s2 s2 s2) by done. rewrite Heq.
    rewrite (bind_ret _ _ s2 (1, r) s2) by by rewrite Hchk. cbv beta iota.
    rewrite get_hdch_valid by lia. change (negb (1 =? 0)) with true. cbv iota.
    rewrite (bind_ret _ _ s2 t s2) by by rewrite Hrt. rewrite Hst.
    destruct (Z.ltb_spec now t); [lia|]. destruct (Z.ltb_spec now (t + reclen)); [|lia]. exact Hr3.
  - rewrite Hl3. split; [apply list_lookup_insert_eq; lia|]. split_and!; [done..|cbn; lia].
Qed.

(** The recorder after a restart, with the log of a start on channel 2. *)
Definition restarted_rec : rec_st :=
  example_rec <| logs := dump_saveinfo_to_log example_env no_files 1 2 600 |>.

Lemma restart_resumes_witness :
  exists s3 h3, get_save_status 28800 (1145588704 + 100) (replicate 44 NUL) restarted_rec = Ret () s3 /\
    geti (g_hdenc s3) 0 = Some h3 /\ state h3 = 2 /\ remote_trig_time h3 = 500.
Proof.
  destruct (restart_resumes example_env 0 [] 2 example_rec (example_hd 2) 1145588704 600
    (1145588704 + 100) restarted_rec (example_hd 0) (replicate 44 NUL)) as (s1 & s3 & h3 & Hr & H);
    [apply example_rec_ok | done | lia | exists []; split; [constructor | done] | done | done | lia
    | cbn; lia | lia | lia | done | done |].
  assert (Hlog : logs restarted_rec = logs s1).
  { vm_compute in Hr. injection Hr as <-. vm_compute. reflexivity. }
  destruct (H Hlog) as (Hg & H3 & Hs & _ & Ht). exists s3, h3.
  split; [exact Hg|]. split; [exact H3|]. split; [exact Hs|]. rewrite Ht. reflexivity.
Defined.

(** ** Behaviours worth knowing *)

Section Findings.

(** The second unlocks the mutex of every channel, whoever holds it. *)
Lemma second_releases_lock zone rename venc part0 i h :
  mutex h = true -> file_mutex h = false -> file_ready zone part0 h -> cfg_ok (config_of h) ->
  timer_ok (config_of h) (timer_of h) ->
  exists h', acts i (video_watch zone rename venc part0 i ;; mod_hd i record_tick ;; mutex_unlock i) h () h' /\
    mutex h' = false.
Proof.
  intros _ Hf Hr Hc Ht. destruct (acts_channel_second zone rename venc part0 i h Hf Hr Hc Ht)
    as (h' & Ha & Hst & _). exists h'. split; [done | apply Hst].
Qed.

(** When channel 0 has no thread, stopping all recording stops none. *)
Lemma stop_all_stops_none zone rename sleep part0 s h :
  geti (g_hdenc s) 0 = Some h -> thread_id h <= 0 ->
  stop_Allrecordfilethread zone rename sleep part0 s = Ret 0 s.
Proof.
  intros Hh Ht. unfold stop_Allrecordfilethread.
  rewrite (bind_ret _ _ s (Some 0) s); [done|].
  unfold channels. cbn [stop_all_flags]. change (get_hdch 0) with (Some 0). cbv iota.
  rewrite (bind_ret _ _ s h s).
  - by rewrite (proj2 (Z.leb_le _ _) Ht).
  - change (get_hd 0 s) with (access (geti (g_hdenc s) 0) s). by rewrite Hh.
Qed.

(** The number after "_C" is never read: the name's channel is always taken to be 0. *)
Lemma queried_channel s : atoi (lit "_C" ++ s) = 0.
Proof. done. Qed.

End Findings.
