(* ===== verification/RecThread.v ===== *)
(** * The recording thread (src/mp_hdmodule_m/hdmod.c)

    One thread per channel reads the encoder's frames and writes them to a file.
    It follows the channel's [state]: it connects to the encoder when something
    asks to record, starts a file at a key frame, cuts it when the second says so,
    and drops the connection when nothing is to be recorded.

    Before every access to the channel's structure the other threads may act: the
    next of [moves] is applied.  The source of frames is an interface,
    [VideoSource]; [MediaApi] implements it.  What the clock, the disk and the AVI
    library answer is a function of the state. *)

From Stdlib Require Import Ascii String.
From S2P Require Import Prelude Update Memory Ctime Cstring ShmPool RecName AlarmLog Recorder RecorderSys MediaApi.

(** What the thread needs of the encoder's frames. *)
Class VideoSource (V : Type) := {
  vs_connect : Z -> Z -> M V Z;                     (* channel, seconds before *)
  vs_read : Z -> Z -> M V (Z * option packet);      (* channel, buffer length *)
  vs_attrib : Z -> M V bool;
  vs_disconnect : Z -> M V Z
}.

Definition MOTION_PRE_REC : Z := 10.
Definition MEDIA_VIDEO : Z := 1.
Definition FRAMETYPE_I : Z := 0.

(** ** Frames: the bytes of [stream_fmt_struct] *)

Definition le_bytes (b : list Z) : Z := foldr (fun x acc => x + 256 * acc) 0 b.

(** [frame->media], [frame->type], [frame->len] and the data. *)
Definition frame_media (frame : list Z) : option Z := le_bytes <$> mem_read frame 12 2.
Definition frame_type (frame : list Z) : option Z := le_bytes <$> mem_read frame 14 2.
Definition frame_len (frame : list Z) : option Z := le32 <$> mem_read frame 16 4.
Definition frame_data (frame : list Z) : option (list Z) :=
  len ← frame_len frame; mem_read frame 28 len.

Definition is_keyframe (frame : list Z) : option bool :=
  m ← frame_media frame; t ← frame_type frame;
  Some ((m =? MEDIA_VIDEO) && (t =? FRAMETYPE_I)).

(** What is written for a frame; [w_seq] is the number it was read with. *)
Record written := { w_key : bool; w_data : list Z; w_seq : Z }.

(** ** The thread *)

(** The thread's own variables.  [recorded] are the files it made, the newest first,
    each with what was written to it; [buf_seq] is the number of the frame in the
    buffer. *)
Record locals := {
  connect_enc : Z; a_connect_enc : Z; th_state : Z; newstate : Z; first_flag : bool;
  old_seq : Z; new_seq : Z; video_flag : Z; frame_buf : list Z; buf_seq : Z; file : option Z;
  end_last_file : Z; recorded : list (cstr * list written)
}.

#[export] Instance locals_settable : Settable locals := {| rebuild := fun l =>
  Build_locals (connect_enc l) (a_connect_enc l) (th_state l) (newstate l) (first_flag l)
    (old_seq l) (new_seq l) (video_flag l) (frame_buf l) (buf_seq l) (file l)
    (end_last_file l) (recorded l) |}.

Section Thread.
Context {V : Type} {vs : VideoSource V}.

Record thread_st := {
  shared : rec_st; source : V; moves : list ((rec_st -> rec_st) * (V -> V)); loc : locals
}.

#[local] Instance thread_settable : Settable thread_st := {| rebuild := fun t =>
  Build_thread_st (shared t) (source t) (moves t) (loc t) |}.

Variables (zone : Z) (rename : cstr -> cstr -> cstr -> Z) (part0 : list ascii).
(** The channel's index, [time], [connect_audio_rec_enc], [get_disk_free] and
    [get_hd_type], and what creating the directories and the file gives. *)
Variables (i : Z) (time : thread_st -> Z) (connect_audio : thread_st -> Z) (get_disk_free : thread_st -> cstr -> Z)
  (hd_type : Z) (create_dirs : thread_st -> cstr -> Z) (AVI_open : thread_st -> cstr -> option Z).

(** Running an operation of a part of the state. *)
Definition on_shared {A} (m : M rec_st A) : M thread_st A := fun t =>
  match m (shared t) with
  | Ret a s => Ret a (t <| shared := s |>)
  | Blocked s => Blocked (t <| shared := s |>)
  | Exited c s => Exited c (t <| shared := s |>)
  | Undef => Undef
  end.
Definition on_source {A} (m : M V A) : M thread_st A := fun t =>
  match m (source t) with
  | Ret a s => Ret a (t <| source := s |>)
  | Blocked s => Blocked (t <| source := s |>)
  | Exited c s => Exited c (t <| source := s |>)
  | Undef => Undef
  end.

(** The other threads act. *)
Definition others : M thread_st () := fun t =>
  match moves t with
  | [] => Ret () t
  | (f, g) :: l => Ret () (t <| shared := f (shared t) |> <| source := g (source t) |> <| moves := l |>)
  end.

(** Reading and writing the channel's structure. *)
Definition peek {A} (f : hd_enc_struct -> A) : M thread_st A :=
  others ;; h ← on_shared (get_hd i); mret (f h).
Definition poke (f : hd_enc_struct -> hd_enc_struct) : M thread_st () := others ;; on_shared (mod_hd i f).
Definition lock_file : M thread_st () := others ;; on_shared (file_lock i).
Definition unlock_file : M thread_st () := on_shared (file_unlock i).
Definition local (f : locals -> locals) : M thread_st () := modify (fun t => t <| loc ::= f |>).
Definition sleep_ : M thread_st () := others.

Definition lock_recent_file : M thread_st Z :=
  timenow ← gets time;
  h ← peek (fun h => h);
  on_shared (emit (Lock_by_time (partition h) (timenow - pre_rec h) timenow (channel h))) ;; mret 0.

(** How far back the thread connects. *)
Definition set_pre_connect : M thread_st () :=
  rt ← peek rec_type;
  if rt =? 0 then poke (fun h => h <| pre_connect := 0 |>)
  else
    timenow ← gets time;
    l ← gets loc;
    if MOTION_PRE_REC <=? timenow - end_last_file l
    then poke (fun h => h <| pre_connect := MOTION_PRE_REC |>)
    else poke (fun h => h <| pre_connect := timenow - end_last_file l |>).

(** The switch at the head of a round.  Connecting the source may not return. *)
Definition switch_state : M thread_st () :=
  ns ← peek state;
  local (fun l => l <| newstate := ns |>) ;;
  l ← gets loc;
  if th_state l =? 0 then
    if negb (ns =? 0) then
      set_pre_connect ;;
      h ← peek (fun h => h);
      on_source (vs_connect (channel h) (pre_connect h)) ;;
      ret ← gets connect_audio;
      (if ret =? 0 then local (fun l => l <| a_connect_enc := 1 |>) else mret ()) ;;
      local (fun l => l <| th_state := ns |>) ;;
      (if ns =? 2 then lock_recent_file else mret 0) ;;
      local (fun l => l <| connect_enc := 1 |>)
    else mret ()
  else if th_state l =? 1 then
    if ns =? 2 then lock_recent_file ;; mret () else mret ()
  else mret ().

(** The frame of [p] is copied to the head of the buffer. *)
Definition fill_buf (p : packet) (buf : list Z) : list Z :=
  pk_data p ++ drop (length (pk_data p)) buf.

(** One read of a frame; the condition of the loop is tested next in every case. *)
Definition read_frame (buflen : Z) : M thread_st () :=
  poke (fun h => h <| readenc_flag := 1 |>) ;;
  ch ← peek channel;
  '(ret, r) ← on_source (vs_read ch buflen);
  if ret <? 0 then sleep_
  else
    p ← access r;
    local (fun l => l <| frame_buf := fill_buf p (frame_buf l) |> <| buf_seq := pk_seq p |>
                      <| new_seq := pk_seq p |> <| video_flag := pk_flag p |>) ;;
    poke (fun h => h <| readenc_flag := 0 |>) ;;
    poke (fun h => h <| watchcnt := 0 |>) ;;
    l ← gets loc;
    if video_flag l =? FRAMETYPE_I then
      local (fun l => l <| first_flag := false |> <| old_seq := new_seq l |>)
    else
      local (fun l => l <| old_seq := old_seq l + 1 |>) ;;
      l ← gets loc;
      if negb (old_seq l =? new_seq l)
      then local (fun l => l <| old_seq := new_seq l |> <| first_flag := true |>)
      else mret ().

(** [do ... while (first_flag && !threadexit)], [fuel] reads of it. *)
Fixpoint read_loop (fuel : nat) (buflen : Z) : M thread_st () :=
  match fuel with
  | O => blocked
  | S fuel =>
      read_frame buflen ;;
      l ← gets loc;
      if first_flag l then
        ex ← peek threadexit;
        if ex =? 0 then read_loop fuel buflen else mret ()
      else mret ()
  end.

(** The file is closed when it is to be cut or the state has changed. *)
Definition close_round : M thread_st () :=
  poke (fun h => h <| watchcnt := 0 |>) ;;
  cut ← peek cutflag;
  l ← gets loc;
  let closeflag := if negb (cut =? 0) then true
                   else negb (th_state l =? newstate l) && negb (th_state l =? 0) in
  local (fun l => l <| th_state := newstate l |>) ;;
  lock_file ;;
  a ← peek aviinfo;
  (if closeflag && bool_decide (is_Some a)
   then on_shared (close_record_file zone rename (Some i) part0) else mret 0) ;;
  unlock_file.

(** ** Creating a file *)

Definition make_file_name (h : hd_enc_struct) (ctime : Z) : option cstr :=
  if (16 <=? length (partition h))%nat then None else
  Some (finfo2filename zone
    {| stime := ctime; info_channel := channel h; info_type := state h; info_len := 0;
       info_trig := trig h; info_remote := remote_trigged h; info_lock := 0; ing_flag := 0;
       info_partition := partition h ++ replicate (16 - length (partition h)) NUL |}).

Definition recording_name (name : cstr) : cstr :=
  match strstr name IMG_FILE_EXT with
  | Some p => take p name ++ RECORDING_FILE_EXT
  | None => name
  end.

(** [None] is a null pointer; the attributes of the video are read when the file is
    open. *)
Definition create_record_file : M thread_st (option Z) :=
  ctime ← gets time;
  h ← peek (fun h => h);
  name ← access (make_file_name h ctime);
  poke (fun h => h <| filename := recording_name name |>) ;;
  name ← peek filename;
  t ← get_st;
  if create_dirs t name <? 0 then on_shared (emit (Fix_disk name)) ;; mret None
  else
    a ← on_source (vs_attrib (channel h));
    on_shared (emit (Index_add (partition h) name)) ;;
    t ← get_st;
    match AVI_open t name with
    | None => on_shared (emit (Fix_disk name)) ;; mret None
    | Some fd =>
        if a : bool then
          local (fun l => l <| recorded ::= cons (name, ([] : list written)) |>) ;; mret (Some fd)
        else undef
    end.

(** [AVI_write_frame] with the local [aviinfo]: writing to a file that was closed
    is undefined. *)
Definition AVI_write_frame : M thread_st () :=
  l ← gets loc;
  a ← peek aviinfo;
  key ← access (is_keyframe (frame_buf l));
  data ← access (frame_data (frame_buf l));
  match recorded l with
  | (name, ws) :: files =>
      if bool_decide (is_Some a /\ a = file l) then
        local (fun l => l <| recorded :=
          (name, ws ++ [{| w_key := key; w_data := data; w_seq := buf_seq l |}]) :: files |>)
      else undef
  | [] => undef
  end.

(** ** The rest of a round *)

(** A key frame that is to be recorded, with its file; the lock is held. *)
Definition key_round : M thread_st () :=
  lock_file ;;
  a ← peek aviinfo;
  match a with
  | Some _ => AVI_write_frame ;; unlock_file
  | None =>
      part ← peek partition;
      t ← get_st;
      if get_disk_free t part <? get_hd_minval hd_type then
        poke (fun h => h <| threadexit := 1 |>) ;; unlock_file
      else
        f ← create_record_file;
        local (fun l => l <| file := f |>) ;;
        poke (fun h => h <| aviinfo := f |>) ;;
        match f with
        | None =>
            unlock_file ;;
            ch ← peek channel;
            on_source (vs_disconnect ch) ;; sleep_ ;; local (fun l => l <| th_state := 0 |>)
        | Some _ => AVI_write_frame ;; unlock_file
        end
  end.

(** Nothing is to be recorded: the source is dropped at a key frame. *)
Definition drop_source : M thread_st () :=
  ch ← peek channel;
  a ← on_source (vs_attrib ch);
  if a : bool then
    ch ← peek channel;
    on_source (vs_disconnect ch) ;;
    timenow ← gets time;
    local (fun l => l <| connect_enc := 0 |> <| end_last_file := timenow |>
                      <| old_seq := -1 |> <| new_seq := -1 |>)
  else mret ().

(** Any other frame goes to the file that is open. *)
Definition other_round : M thread_st () :=
  l ← gets loc;
  if negb (th_state l =? 0) then
    ex ← peek threadexit;
    if ex =? 0 then
      lock_file ;;
      a ← peek aviinfo;
      (if bool_decide (is_Some a) then AVI_write_frame else mret ()) ;;
      unlock_file
    else mret ()
  else mret ().

Definition write_round : M thread_st () :=
  l ← gets loc;
  key ← access (is_keyframe (frame_buf l));
  if key : bool then
    ex ← peek threadexit;
    if ex =? 0 then
      if negb (newstate l =? 0) then key_round else drop_source ;; other_round
    else other_round
  else other_round.

(** One round of the loop. *)
Definition round (fuel : nat) (buflen : Z) : M thread_st () :=
  switch_state ;;
  l ← gets loc;
  if negb (connect_enc l =? 1) then sleep_
  else read_loop fuel buflen ;; close_round ;; write_round.

(** [n] rounds at most; [true] when the thread is told to end. *)
Fixpoint rounds (n fuel : nat) (buflen : Z) : M thread_st bool :=
  match n with
  | O => mret false
  | S n =>
      ex ← peek threadexit;
      if negb (ex =? 0) then mret true
      else round fuel buflen ;; rounds n fuel buflen
  end.

(** The thread, [disknum] disks in the system: what it does before its loop, [n]
    rounds of the loop, and what it does after it. *)
Definition record_file_thread (disknum : Z) (frame : option (list Z)) (n fuel : nat) (buflen : Z)
    : M thread_st bool :=
  if disknum =? 0 then mret true else
  match frame with
  | None => ch ← peek channel; on_shared (change_thread_id ch (-1)) ;; sleep_ ;; mret true
  | Some buf =>
      local (fun l => l <| frame_buf := (buf : list Z) |>) ;;
      over ← rounds n fuel buflen;
      if over : bool then
        lock_file ;; on_shared (close_record_file zone rename (Some i) part0) ;; unlock_file ;;
        ch ← peek channel;
        on_shared (change_thread_id ch (-1)) ;;
        on_source (vs_disconnect ch) ;; mret true
      else mret false
  end.

End Thread.

Arguments thread_st : clear implicits.
