(* ===== verification/RecFrames.v ===== *)
(** * Frames, recordings that can be played, and their names

    What is written of the frame in the thread's buffer, when a sequence of written
    frames can be played, and that the name made for a recording in progress says
    what the file is. *)

From Stdlib Require Import Ascii String.
From S2P Require Import Prelude Update Memory Ctime Cstring ShmPool RecName RecNameThms AlarmLog Recorder RecorderSys RecThread.

(** ** Frames in the buffer *)

Lemma mem_read_prefix a b off n bs : mem_read a off n = Some bs -> mem_read (a ++ b) off n = Some bs.
Proof.
  unfold mem_read. destruct (_ && _) eqn:E; [|done].
  apply andb_true_iff in E as [E H3]. apply andb_true_iff in E as [H1 H2].
  rewrite H1, H2. apply Z.leb_le in H1, H2, H3. cbn [andb].
  rewrite (proj2 (Z.leb_le _ _)) by (rewrite length_app; lia). intros [= <-]. f_equal.
  rewrite drop_app_le by lia. rewrite take_app_le by (rewrite length_drop; lia). done.
Qed.

Lemma keyframe_prefix a b k : is_keyframe a = Some k -> is_keyframe (a ++ b) = Some k.
Proof.
  unfold is_keyframe, frame_media, frame_type.
  destruct (mem_read a 12 2) eqn:E1; [|done]. destruct (mem_read a 14 2) eqn:E2; [|done].
  by rewrite (mem_read_prefix _ b _ _ _ E1), (mem_read_prefix _ b _ _ _ E2).
Qed.

Lemma data_prefix a b d : frame_data a = Some d -> frame_data (a ++ b) = Some d.
Proof.
  unfold frame_data, frame_len. destruct (mem_read a 16 4) eqn:E1; [|done].
  rewrite (mem_read_prefix _ b _ _ _ E1). apply mem_read_prefix.
Qed.

(** What would be written of the frame in a buffer. *)
Definition entry_of (buf : list Z) (seq : Z) : option written :=
  key ← is_keyframe buf; data ← frame_data buf;
  Some {| w_key := key; w_data := data; w_seq := seq |}.

Lemma entry_prefix a b seq w : entry_of a seq = Some w -> entry_of (a ++ b) seq = Some w.
Proof.
  unfold entry_of. destruct (is_keyframe a) eqn:E1; [|done]. destruct (frame_data a) eqn:E2; [|done].
  by rewrite (keyframe_prefix _ b _ E1), (data_prefix _ b _ E2).
Qed.

(** ** Files that can be played *)

(** [b] may be written after [a]. *)
Definition follows (a b : written) : Prop := w_key b = true \/ w_seq b = w_seq a + 1 \/ b = a.

Fixpoint chained (a : written) (l : list written) : Prop :=
  match l with [] => True | b :: l => follows a b /\ chained b l end.

(** A file starts with a key frame, and each frame follows the one before it. *)
Definition plays (l : list written) : Prop :=
  match l with [] => False | a :: l => w_key a = true /\ chained a l end.

Lemma chained_snoc a l b :
  chained a l -> follows (default a (list.last l)) b -> chained a (l ++ [b]).
Proof.
  revert a. induction l as [|c l IH]; intros a; cbn [chained app]; [done|]. intros [H1 H2] Hb.
  split; [done|]. apply IH; [done|]. rewrite last_cons in Hb. by destruct (list.last l).
Qed.

Lemma plays_snoc l a b : plays l -> list.last l = Some a -> follows a b -> plays (l ++ [b]).
Proof.
  destruct l as [|c l]; [done|]. intros [H1 H2] Hl Hb. split; [done|].
  apply chained_snoc; [done|]. rewrite last_cons in Hl.
  destruct (list.last l); by injection Hl as ->.
Qed.

(** ** Names of recordings in progress *)

Lemma readable_name tz disk part i i0 fl :
  - 86400 <= tz <= 86400 -> info_ok disk part i -> length (info_partition i0) = 16%nat ->
  Forall (fun c => Ascii.eqb c "_" = false /\ Ascii.eqb c "010" = false) fl ->
  match fl with c :: _ => isalnum c = false | [] => True end -> (length fl <= 20)%nat ->
  is_Some (hdutil_filename2finfo tz (finfo_base tz i ++ fl) i0).
Proof.
  intros Htz Hok H0 Hfl Hhd Hlen. unfold hdutil_filename2finfo.
  pose proof (base_length tz disk part i Htz Hok) as Hlb.
  destruct (Nat.ltb_spec 100 (length (finfo_base tz i ++ fl))); [rewrite length_app in *; lia|].
  assert (Hsd : exists r, strstr (finfo_base tz i ++ fl) (lit "sd") = Some 8%nat /\ r = 8%nat).
  { eexists. split; [|done]. rewrite (finfo_base_split tz disk part i Hok). done. }
  destruct Hsd as (? & -> & _). unfold strncpy at 1. rewrite H0.
  change (8 + 4 <=? 16)%nat with true. cbv iota beta. cbn [mbind option_bind].
  eexists. apply (scan_name tz disk part i Htz Hok); [done | done | done|].
  rewrite (finfo_base_split tz disk part i Hok), !length_app. cbn [length list_ascii_of_string].
  lia.
Qed.

Definition flag_text (r l : bool) : cstr :=
  (if r then [REMOTE_TRIG_FLAG] else []) ++ (if l then [LOCK_FILE_FLAG] else []).

Lemma recording_flagged b r l : all_plain b ->
  recording_name (flagged b r l) = b ++ flag_text r l ++ RECORDING_FILE_EXT.
Proof.
  intros Hb. unfold recording_name, flagged, IMG_FILE_EXT. cbn [list_ascii_of_string].
  rewrite (strstr_skip b) by done.
  destruct r, l; cbn [flag_text app strstr is_prefix fmap option_fmap option_map]; cbn;
    rewrite take_app_add, <- ?app_assoc; done.
Qed.

(** The file [make_file_name] describes. *)
Definition made_info (h : hd_enc_struct) (ctime : Z) : file_info_struct :=
  {| stime := ctime; info_channel := channel h; info_type := state h; info_len := 0;
     info_trig := trig h; info_remote := remote_trigged h; info_lock := 0; ing_flag := 0;
     info_partition := partition h ++ replicate (16 - length (partition h)) NUL |}.

Lemma made_info_ok disk pt h ctime :
  partition h = partition_name disk pt -> isalnum disk = true -> isalnum pt = true ->
  0 <= channel h < MAX_RECORD_CHANNEL_M -> 0 <= trig h < 2 ^ 16 -> - 2 ^ 31 <= ctime < 2 ^ 31 ->
  info_ok disk pt (made_info h ctime).
Proof.
  intros Hp Hd Hq Hc Ht Htime. unfold MAX_RECORD_CHANNEL_M in Hc. split; cbn; try done; try lia.
  rewrite Hp. unfold partition_name. cbn.
  destruct (Ascii.eqb_spec disk NUL) as [-> |]; [done|].
  by destruct (Ascii.eqb_spec pt NUL) as [-> |].
Qed.

Lemma made_name zone h ctime part0 disk pt :
  - 86400 <= zone <= 86400 -> length part0 = 16%nat ->
  partition h = partition_name disk pt -> isalnum disk = true -> isalnum pt = true ->
  0 <= channel h < MAX_RECORD_CHANNEL_M -> 0 <= trig h < 2 ^ 16 -> - 2 ^ 31 <= ctime < 2 ^ 31 ->
  exists name, make_file_name zone h ctime = Some name /\ recording_name name <> [] /\
    is_Some (hdutil_filename2finfo zone (recording_name name) (local_info part0)).
Proof.
  intros Hz Hp0 Hp Hd Hq Hc Ht Htime.
  pose proof (made_info_ok disk pt h ctime Hp Hd Hq Hc Ht Htime) as Hok.
  exists (finfo2filename zone (made_info h ctime)). split.
  - unfold make_file_name. destruct (Nat.leb_spec 16 (length (partition h))) as [Hl|]; [|done].
    rewrite Hp in Hl. cbn in Hl. lia.
  - rewrite (filename_flagged zone (made_info h ctime)).
    rewrite recording_flagged by by apply (base_plain zone disk pt).
    split.
    + intros He%(f_equal length). rewrite !length_app in He. cbn in He. lia.
    + apply (readable_name zone disk pt); [done..| | |];
        destruct (_ =? 1), (_ || _); cbn; try done; try lia; repeat constructor.
Qed.
