(* ===== verification/RecThreadThms.v ===== *)
(** * What the recording thread writes

    Whatever the other threads do, every file starts with a key frame, and each
    frame after it is a key frame, or the frame that follows the last one written,
    or that one again after a read that failed.  The thread never writes to a file
    that was closed. *)

From Stdlib Require Import Ascii String.
From S2P Require Import Prelude Update Wp Memory Ctime Cstring ShmPool RecName RecNameThms AlarmLog Recorder RecorderSys RecorderThms MediaApi RecThread RecFrames.

(** ** The promise of a source of frames

    [vok]: the source can be read; [vconn]: it is connected.  A frame it gives is a
    whole frame, with the flag of its type and a number that is not 0. *)

Definition good_packet (p : packet) : Prop :=
  is_keyframe (pk_data p) = Some (pk_flag p =? FRAMETYPE_I) /\
  is_Some (frame_data (pk_data p)) /\ 0 < pk_seq p.

Class SourceSpec {V : Type} (vs : VideoSource V) (vok vconn : V -> Prop) := {
  ss_connect ch n v : vok v -> wp (vs_connect ch n) (fun _ v' => vok v' /\ vconn v') vok v;
  ss_read ch n v : vok v ->
    wp (vs_read ch n)
       (fun r v' => vok v' /\ (vconn v -> vconn v') /\
          (0 <= fst r -> exists p, snd r = Some p /\ good_packet p)) vok v;
  ss_attrib ch v : vok v -> wp (vs_attrib ch) (fun a v' => v' = v /\ (vconn v -> a = true)) vok v;
  ss_disconnect ch v : vok v -> wp (vs_disconnect ch) (fun _ v' => vok v') vok v
}.

Section Spec.
Context {V : Type} {vs : VideoSource V} {vok vconn : V -> Prop} {spec : SourceSpec vs vok vconn}.
Variables (zone : Z) (rename : cstr -> cstr -> cstr -> Z) (part0 : list ascii).
Variables (i : Z) (time : thread_st V -> Z) (connect_audio : thread_st V -> Z)
  (get_disk_free : thread_st V -> cstr -> Z) (hd_type : Z) (create_dirs : thread_st V -> cstr -> Z)
  (AVI_open : thread_st V -> cstr -> option Z).
Hypothesis Hchan : 0 <= i < MAX_RECORD_CHANNEL_M.
Hypothesis Hzone : - 86400 <= zone <= 86400.
Hypothesis Htime : forall t, - 2 ^ 31 <= time t < 2 ^ 31.
Hypothesis Hpart0 : length part0 = 16%nat.
Implicit Types (t : thread_st V) (h : hd_enc_struct) (l : locals) (phi psi : locals -> Prop).

(** ** What the other threads may do *)

Definition hd_ok h : Prop :=
  channel h = i /\
  (exists disk pt, partition h = partition_name disk pt /\ isalnum disk = true /\ isalnum pt = true) /\
  0 <= trig h < 2 ^ 16 /\ queryflag h <> 1.

(** They open no file, close it and change its name only while they hold its lock,
    and do not take back an order to end. *)
Definition relied h h' : Prop :=
  hd_ok h' /\ file_mutex h' = file_mutex h /\ mutex h' = mutex h /\
  (threadexit h <> 0 -> threadexit h' <> 0) /\
  ((aviinfo h' = aviinfo h /\ filename h' = filename h) \/
   (file_mutex h = false /\ aviinfo h' = None)).

Definition move_ok (m : (rec_st -> rec_st) * (V -> V)) : Prop :=
  (forall s h, geti (g_hdenc s) i = Some h -> hd_ok h ->
     exists h', geti (g_hdenc (fst m s)) i = Some h' /\ relied h h') /\
  (forall v, vok v -> vok (snd m v) /\ (vconn v -> vconn (snd m v))).

Definition hd_of t : option hd_enc_struct := geti (g_hdenc (shared t)) i.
Definition opened t : Prop := exists h fd, hd_of t = Some h /\ aviinfo h = Some fd.
Definition exiting t : Prop := exists h, hd_of t = Some h /\ threadexit h <> 0.

(** The name of the open file says what it is. *)
Definition with_name h : Prop :=
  filename h <> [] /\ is_Some (hdutil_filename2finfo zone (filename h) (local_info part0)).

(** Every file made can be played. *)
Definition files_ok (fs : list (cstr * list written)) : Prop := Forall (fun f => plays (snd f)) fs.
Definition all_play t : Prop := files_ok (recorded (loc t)).

(** What holds throughout, with the file's lock [held] or not; [lp] is what is
    known of the thread's variables. *)
Record sound (held : bool) (lp : locals -> Prop) t h : Prop := {
  so_hd : hd_of t = Some h;
  so_ok : hd_ok h;
  so_lock : file_mutex h = held;
  so_mutex : mutex h = false;
  so_file : forall fd, aviinfo h = Some fd -> file (loc t) = Some fd /\ with_name h;
  so_source : vok (source t);
  so_conn : th_state (loc t) <> 0 -> vconn (source t);
  so_moves : Forall move_ok (moves t);
  so_loc : lp (loc t)
}.

(** In addition [phi] holds of its variables, and [psi] when a file is open; with
    [lax], unless the thread is to end. *)
Definition good (lax held : bool) lp phi psi t h : Prop :=
  sound held lp t h /\
  ((lax = true /\ threadexit h <> 0) \/ (phi (loc t) /\ (aviinfo h <> None -> psi (loc t)))).
Definition inv (lax held : bool) lp phi psi t : Prop := exists h, good lax held lp phi psi t h.

Definition same_rest t t' : Prop := source t' = source t /\ moves t' = moves t /\ loc t' = loc t.

(** [h'] is [h] for the thread's purposes. *)
Definition kept_hd h h' : Prop :=
  hd_ok h' /\ mutex h' = mutex h /\ (threadexit h <> 0 -> threadexit h' <> 0) /\
  ((aviinfo h' = aviinfo h /\ filename h' = filename h) \/ aviinfo h' = None).

Lemma good_step lax held held' lp phi psi t h t' h' :
  good lax held lp phi psi t h -> same_rest t t' -> hd_of t' = Some h' -> kept_hd h h' ->
  file_mutex h' = held' -> good lax held' lp phi psi t' h'.
Proof.
  intros [[] Hx] (E1 & E2 & E3) Hh' (K1 & K2 & K3 & K4) Hlock. split.
  - split; rewrite ?E1, ?E2, ?E3; try done; [congruence|].
    intros fd Hfd. destruct K4 as [[Ha Hn]|]; [|congruence].
    rewrite Ha in Hfd. destruct (so_file0 fd Hfd) as (? & Hn1 & Hn2). split; [done|].
    unfold with_name. by rewrite Hn.
  - rewrite E3. destruct Hx as [[? Hx]|[Hp Hq]]; [left; auto|right]. split; [done|].
    intros Ho. apply Hq. destruct K4 as [[Ha _]|]; congruence.
Qed.

(** What is known of the variables as they are. *)
Lemma good_loc lax held lp lp' phi psi phi' psi' t h :
  good lax held lp phi psi t h -> lp' (loc t) -> (phi (loc t) -> phi' (loc t)) ->
  (aviinfo h <> None -> phi (loc t) -> psi (loc t) -> psi' (loc t)) -> good lax held lp' phi' psi' t h.
Proof.
  intros [[] Hx] H1 H2 H3. split; [split; auto|]. destruct Hx as [|[? ?]]; [auto|right]. split; auto.
Qed.

Lemma good_lax lax held lp phi psi t h : good lax held lp phi psi t h -> good true held lp phi psi t h.
Proof. intros [Hs [[]|]]; split; auto. Qed.

Section Rules.
Variables (lax held : bool) (lp phi psi : locals -> Prop) (R : thread_st V -> Prop).
#[local] Abbreviation G := (good lax held lp phi psi).

Lemma wp_others t h (Q : () -> thread_st V -> Prop) :
  G t h -> (forall t' h', G t' h' -> loc t' = loc t -> relied h h' \/ h' = h -> Q () t') ->
  wp others Q R t.
Proof.
  intros [[] Hx] HQ. unfold wp, others. destruct (moves t) as [|[f g] ms] eqn:Hm.
  { apply (HQ t h); [split; [split|]|..]; auto; by rewrite Hm. }
  inversion so_moves0 as [|? ? [Hf Hg] Hms]; subst. cbn in *.
  destruct (Hf _ _ so_hd0 so_ok0) as (h' & Hh' & Hrel).
  destruct (Hg _ so_source0) as [Hv1 Hv2].
  pose proof Hrel as (R1 & R2 & R3 & R4 & R5).
  eapply (HQ _ h'); [| done | by left]. split.
  - split; cbn; try done; try congruence.
    + intros fd Hfd. destruct R5 as [[Ha Hn]|[]]; [|congruence].
      rewrite Ha in Hfd. destruct (so_file0 fd Hfd) as (? & Hn1 & Hn2). split; [done|].
      unfold with_name. by rewrite Hn.
    + auto.
  - cbn. destruct Hx as [[? Hx]|[Hp Hq]]; [left; auto|right]. split; [done|].
    intros Ho. apply Hq. destruct R5 as [[Ha _]|[]]; congruence.
Qed.

Lemma get_hd_of t h : hd_of t = Some h -> on_shared (get_hd i) t = Ret h t.
Proof.
  intros Hh. unfold on_shared. change (get_hd i (shared t)) with (@access rec_st _ (hd_of t) (shared t)).
  rewrite Hh. by destruct t.
Qed.

Lemma wp_peek {A} (f : hd_enc_struct -> A) t h (Q : A -> thread_st V -> Prop) :
  G t h -> (forall t' h', G t' h' -> loc t' = loc t -> relied h h' \/ h' = h -> Q (f h') t') ->
  wp (peek i f) Q R t.
Proof.
  intros Hg HQ. unfold peek. apply wp_bind. eapply wp_others; [exact Hg|].
  intros t' h' Hg' Hl Hrel. eapply wp_bind, wp_Ret; [apply get_hd_of, Hg'|]. apply wp_ret. by apply (HQ t' h').
Qed.

(** What an operation on the channel's structure does to the thread. *)
Lemma wp_acts {A} (m : M rec_st A) t h a h' (Q : A -> thread_st V -> Prop) :
  hd_of t = Some h -> acts i m h a h' ->
  (forall t', hd_of t' = Some h' -> same_rest t t' -> Q a t') -> wp (on_shared m) Q R t.
Proof.
  intros Hh Hm HQ. destruct (Hm (shared t) Hh) as (s' & Hs & Hl).
  unfold wp, on_shared. rewrite Hs. apply HQ; [|done].
  unfold hd_of in *. cbn. pose proof (geti_Some _ _ _ Hh). rewrite Hl, geti_to_nat by lia.
  apply list_lookup_insert_eq. lia.
Qed.

Lemma wp_poke_with f t h (Q : () -> thread_st V -> Prop) :
  G t h ->
  (forall t1 h1 t', G t1 h1 -> loc t1 = loc t -> relied h h1 \/ h1 = h ->
     same_rest t1 t' -> hd_of t' = Some (f h1) -> Q () t') ->
  wp (poke i f) Q R t.
Proof.
  intros Hg HQ. unfold poke. apply wp_bind. eapply wp_others; [exact Hg|].
  intros t1 h1 Hg1 Hl Hrel. eapply wp_acts; [apply Hg1 | apply acts_mod|].
  intros t' Hh' Hsame. by eapply HQ.
Qed.

Lemma wp_poke f t h (Q : () -> thread_st V -> Prop) :
  G t h -> (forall h, hd_ok h -> kept_hd h (f h) /\ file_mutex (f h) = file_mutex h) ->
  (forall t' h', G t' h' -> loc t' = loc t -> Q () t') -> wp (poke i f) Q R t.
Proof.
  intros Hg Hf HQ. eapply wp_poke_with; [exact Hg|]. intros t1 h1 t' Hg1 Hl _ Hsame Hh'.
  destruct (Hf h1) as [Hk Hm]; [apply Hg1|].
  apply (HQ t' (f h1)); [|by rewrite (proj2 (proj2 Hsame))].
  eapply good_step; [exact Hg1 | exact Hsame | exact Hh' | exact Hk|]. rewrite Hm. apply Hg1.
Qed.

Lemma wp_emit c t h (Q : () -> thread_st V -> Prop) :
  G t h -> (forall t', G t' h -> loc t' = loc t -> Q () t') -> wp (on_shared (emit c)) Q R t.
Proof.
  intros Hg HQ. eapply wp_acts; [apply Hg | apply acts_emit|]. intros t' Hh' Hsame.
  apply HQ; [|by rewrite (proj2 (proj2 Hsame))].
  eapply good_step; [exact Hg | exact Hsame | exact Hh' | | apply Hg].
  split; [apply Hg|]. split; [done|]. split; [done|]. by left.
Qed.

(** A change of the thread's variables. *)
Lemma wp_local lp' phi' psi' f t h (Q : () -> thread_st V -> Prop) :
  G t h -> (aviinfo h <> None -> file (f (loc t)) = file (loc t)) ->
  (th_state (f (loc t)) <> 0 -> th_state (loc t) <> 0 \/ vconn (source t)) ->
  lp' (f (loc t)) -> (phi (loc t) -> phi' (f (loc t))) ->
  (aviinfo h <> None -> phi (loc t) -> psi (loc t) -> psi' (f (loc t))) ->
  (forall t', good lax held lp' phi' psi' t' h -> loc t' = f (loc t) -> source t' = source t -> Q () t') ->
  wp (local f) Q R t.
Proof.
  intros [[] Hx] Hf Hst Hlp Hphi Hpsi HQ. apply wp_modify, HQ; [|done..]. split.
  - split; cbn; try done.
    + intros fd Hfd. rewrite Hf by congruence. by apply so_file0.
    + intros [?|?]%Hst; auto.
  - cbn. destruct Hx as [|[H1 H2]]; [by left|right]. split; [auto|]. intros Ho. apply Hpsi; auto.
Qed.

(** An operation on the source. *)
Lemma wp_source {A} (m : M V A) t h (P : A -> V -> Prop) (Q : A -> thread_st V -> Prop) :
  G t h -> wp m P vok (source t) ->
  (forall a v, P a v -> vok v /\ (th_state (loc t) <> 0 -> vconn v)) ->
  (forall l, lp l -> files_ok (recorded l)) -> (forall t', all_play t' -> R t') ->
  (forall a t', G t' h -> loc t' = loc t -> P a (source t') -> Q a t') ->
  wp (on_source m) Q R t.
Proof.
  intros [[] Hx] Hm HP Hlp HR HQ. unfold wp, on_source in *.
  destruct (m (source t)) as [a v|v|c v|]; [|by apply HR, Hlp..|done].
  destruct (HP a v Hm) as [Hv Hc]. apply (HQ a); [|done..].
  split; [split; cbn; auto | done].
Qed.

End Rules.

Lemma wp_lock_file lax lp phi psi R t h (Q : () -> thread_st V -> Prop) :
  good lax false lp phi psi t h ->
  (forall t' h', good lax true lp phi psi t' h' -> loc t' = loc t -> Q () t') ->
  wp (lock_file i) Q R t.
Proof.
  intros Hg HQ. unfold lock_file. apply wp_bind. eapply wp_others; [exact Hg|].
  intros t1 h1 Hg1 Hl _. eapply wp_acts; [apply Hg1 | apply acts_file_lock, Hg1|].
  intros t' Hh' Hsame. eapply HQ; [|by rewrite (proj2 (proj2 Hsame))].
  eapply good_step; [exact Hg1 | exact Hsame | exact Hh' | | done].
  split; [apply Hg1|]. split; [done|]. split; [done|]. by left.
Qed.

Lemma wp_unlock_hd lax lp phi psi R t h (Q : () -> thread_st V -> Prop) :
  good lax true lp phi psi t h ->
  (forall t', good lax false lp phi psi t' (h <| file_mutex := false |>) -> loc t' = loc t -> Q () t') ->
  wp (unlock_file i) Q R t.
Proof.
  intros Hg HQ. unfold unlock_file, file_unlock. eapply (wp_acts R); [apply Hg | apply acts_mod|].
  intros t' Hh' Hsame. apply HQ; [|by rewrite (proj2 (proj2 Hsame))].
  eapply good_step; [exact Hg | exact Hsame | exact Hh' | | done].
  split; [apply Hg|]. split; [done|]. split; [done|]. by left.
Qed.

Lemma wp_unlock_file lax lp phi psi R t h (Q : () -> thread_st V -> Prop) :
  good lax true lp phi psi t h ->
  (forall t' h', good lax false lp phi psi t' h' -> loc t' = loc t -> Q () t') ->
  wp (unlock_file i) Q R t.
Proof. intros Hg HQ. eapply wp_unlock_hd; [exact Hg|]. intros t'. apply HQ. Qed.

(** ** The assertions of a round *)

Definition buffer_ok l : Prop := is_Some (entry_of (frame_buf l) (buf_seq l)).

Definition last_of (fs : list (cstr * list written)) : option written :=
  match fs with (_, ws) :: _ => list.last ws | [] => None end.

(** The number the thread compares the next frame with. *)
Definition seq_known l : Prop := old_seq l = buf_seq l \/ old_seq l = -1.

Definition phi0 l : Prop := first_flag l = false -> buffer_ok l /\ seq_known l.
Definition busy l : Prop := th_state l <> 0 /\ connect_enc l = 1.
(** With a file open: what was written last is the frame in the buffer [psi0], or
    the frame in the buffer may be written next [psi1], unless the thread waits for
    a key frame. *)
Definition psi0 l : Prop := busy l /\ exists e, last_of (recorded l) = Some e /\
  (first_flag l = false -> entry_of (frame_buf l) (buf_seq l) = Some e).
Definition psi1 l : Prop := busy l /\ exists e, last_of (recorded l) = Some e /\
  (first_flag l = false ->
   exists c, entry_of (frame_buf l) (buf_seq l) = Some c /\ follows e c).
Definition lp0 l : Prop := files_ok (recorded l) /\ is_Some (is_keyframe (frame_buf l)).
Definition lp1 l : Prop := lp0 l /\ (newstate l <> 0 -> th_state l <> 0).

Definition lpr l : Prop := lp1 l /\ connect_enc l = 1.

(** [inv] with the lock free and the thread perhaps told to end. *)
Abbreviation I := (inv true false).

Section Preserved.
Variables (lax held : bool) (lp phi psi : locals -> Prop) (R : thread_st V -> Prop).
#[local] Abbreviation G := (good lax held lp phi psi).

Lemma wp_lock_recent t h :
  G t h -> wp (lock_recent_file i time) (fun _ t' => exists h', G t' h' /\ loc t' = loc t) R t.
Proof.
  intros Hg. unfold lock_recent_file. apply wp_bind, wp_gets, wp_bind.
  eapply wp_peek; [exact Hg|]. intros t1 h1 Hg1 Hl1 _. apply wp_bind.
  eapply wp_emit; [exact Hg1|]. intros t2 Hg2 Hl2. apply wp_ret. exists h1. split; [done | congruence].
Qed.

Lemma pre_connect_kept h n : hd_ok h ->
  kept_hd h (h <| pre_connect := n |>) /\ file_mutex (h <| pre_connect := n |>) = file_mutex h.
Proof. intros Hok. split; [|done]. split; [exact Hok|]. split; [done|]. split; [done|]. by left. Qed.

Lemma wp_set_pre_connect t h :
  G t h -> wp (set_pre_connect i time) (fun _ t' => exists h', G t' h' /\ loc t' = loc t) R t.
Proof.
  intros Hg. unfold set_pre_connect. apply wp_bind. eapply wp_peek; [exact Hg|].
  intros t1 h1 Hg1 Hl1 _. destruct (rec_type h1 =? 0); [|apply wp_bind, wp_gets, wp_bind, wp_gets; case_match];
    (eapply wp_poke; [exact Hg1 | intros; by apply pre_connect_kept|];
     intros t2 h2 Hg2 Hl2; exists h2; split; [done | congruence]).
Qed.

End Preserved.

(** The thread connects and takes the new state. *)
Lemma connect_spec ns t h :
  good true false (fun l => lp0 l /\ newstate l = ns) phi0 (fun _ => False) t h -> ns <> 0 ->
  wp (set_pre_connect i time ;;
      h ← peek i (fun h => h);
      on_source (vs_connect (channel h) (pre_connect h)) ;;
      ret ← gets connect_audio;
      (if ret =? 0 then local (fun l => l <| a_connect_enc := 1 |>) else mret ()) ;;
      local (fun l => l <| th_state := ns |>) ;;
      (if ns =? 2 then lock_recent_file i time else mret 0) ;;
      local (fun l => l <| connect_enc := 1 |>))
    (fun _ t' => I lp1 phi0 psi0 t') all_play t.
Proof.
  intros Hg Hns. eapply wp_seq; [by eapply wp_set_pre_connect|]. intros _ t1 (h1 & Hg1 & _).
  apply wp_bind. eapply wp_peek; [exact Hg1|]. intros t2 h2 Hg2 _ _. apply wp_bind.
  eapply wp_source; [exact Hg2 | apply ss_connect, Hg2 | by intros a v [? ?] | by intros l [[? _] _] | done |].
  intros _ t3 Hg3 _ [_ Hconn]. apply wp_bind, wp_gets.
  apply (wp_seq _ _ (fun _ t' => good true false (fun l => lp0 l /\ newstate l = ns) phi0 (fun _ => False) t' h2 /\
    vconn (source t'))).
  { destruct (connect_audio t3 =? 0); [|by apply wp_ret].
    eapply (wp_local _ _ _ _ _ _ (fun l => lp0 l /\ newstate l = ns) phi0 (fun _ => False));
      [exact Hg3 | done | by left | exact (so_loc _ _ _ _ (proj1 Hg3)) | done | done |].
    intros t4 Hg4 _ Hs. by rewrite Hs. }
  intros _ t4 [Hg4 Hconn4]. apply wp_bind.
  eapply (wp_local _ _ _ _ _ _ lp1 phi0 (fun _ => False)); [exact Hg4 | done | by right | | done | done |].
  { destruct Hg4 as [[] _]. split; [apply so_loc0 | done]. }
  intros t5 Hg5 _ _. apply (wp_seq _ _ (fun _ t' => exists h', good true false lp1 phi0 (fun _ => False) t' h')).
  { destruct (ns =? 2); [|apply wp_ret; by exists h2].
    eapply wp_mono; [by eapply wp_lock_recent|]. intros a t' (h' & ? & _). by exists h'. }
  intros _ t6 (h6 & Hg6). eapply (wp_local _ _ _ _ _ _ lp1 phi0 psi0); 
    [exact Hg6 | done | by left | exact (so_loc _ _ _ _ (proj1 Hg6)) | done | done |].
  intros t7 Hg7 _ _. by exists h6.
Qed.

Lemma switch_spec t : I lp0 phi0 psi0 t ->
  wp (switch_state i time connect_audio) (fun _ t' => I lp1 phi0 psi0 t') all_play t.
Proof.
  intros [h Hg]. unfold switch_state. apply wp_bind. eapply wp_peek; [exact Hg|].
  intros t1 h1 Hg1 _ _. set (ns := state h1). apply wp_bind.
  eapply (wp_local _ _ _ _ _ _ (fun l => lp0 l /\ newstate l = ns) phi0 psi0); [exact Hg1 | done | by left | | done | done |].
  { split; [apply Hg1 | done]. }
  intros t2 Hg2 _ _. apply wp_bind, wp_gets. pose proof (so_loc _ _ _ _ (proj1 Hg2)) as [Hlp Hnew].
  destruct (Z.eqb_spec (th_state (loc t2)) 0) as [Hz|Hz].
  - destruct (Z.eqb_spec ns 0) as [Hn|Hn]; cbn [negb].
    { apply wp_ret. exists h1. eapply good_loc; [exact Hg2 | | done..]. split; [done | congruence]. }
    eapply connect_spec; [|exact Hn]. eapply good_loc; [exact Hg2 | done..|]. by intros _ _ [[? _] _].
  - assert (Hg3 : good true false lp1 phi0 psi0 t2 h1) by (eapply good_loc; [exact Hg2 | done..]).
    destruct (th_state (loc t2) =? 1); [|apply wp_ret; by exists h1].
    destruct (ns =? 2); [|apply wp_ret; by exists h1].
    eapply wp_seq; [by eapply wp_lock_recent|]. intros _ t4 (h4 & Hg4 & _). apply wp_ret. by exists h4.
Qed.

(** ** Reading *)

Lemma psi0_psi1 l : psi0 l -> psi1 l.
Proof.
  intros (Hb & e & He & H). split; [done|]. exists e. split; [done|]. intros Hf.
  exists e. split; [auto|]. by right; right.
Qed.

Lemma entry_parts buf seq c : entry_of buf seq = Some c ->
  is_keyframe buf = Some (w_key c) /\ frame_data buf = Some (w_data c) /\
  c = {| w_key := w_key c; w_data := w_data c; w_seq := seq |}.
Proof.
  unfold entry_of. destruct (is_keyframe buf) as [k|]; [|done]. destruct (frame_data buf) as [d|]; [|done].
  by intros [= <-].
Qed.

Lemma entry_fields buf seq c : entry_of buf seq = Some c -> w_seq c = seq /\ is_keyframe buf = Some (w_key c).
Proof. unfold entry_of. intros H. inv_opt H. done. Qed.

Lemma good_entry p buf : good_packet p -> exists c, entry_of (fill_buf p buf) (pk_seq p) = Some c /\
  w_seq c = pk_seq p /\ w_key c = (pk_flag p =? FRAMETYPE_I).
Proof.
  intros (Hk & [d Hd] & _). eexists. split; [|split].
  - apply entry_prefix. unfold entry_of. by rewrite Hk, Hd.
  - done.
  - done.
Qed.

Lemma flag_kept h f : hd_ok h -> (forall h, hd_ok h -> hd_ok (f h)) ->
  (forall h, mutex (f h) = mutex h) -> (forall h, file_mutex (f h) = file_mutex h) ->
  (forall h, threadexit (f h) = threadexit h) -> (forall h, aviinfo (f h) = aviinfo h) ->
  (forall h, filename (f h) = filename h) -> kept_hd h (f h) /\ file_mutex (f h) = file_mutex h.
Proof.
  intros Hok H1 H2 H3 H4 H5 H6. split; [|done]. split; [auto|]. split; [done|].
  split; [by rewrite H4|]. by left.
Qed.

(** The frame [p] was read, and [old_seq] is not yet compared with its number. *)
Definition just_read (p : packet) (c : written) l : Prop :=
  lpr l /\ entry_of (frame_buf l) (buf_seq l) = Some c /\ buf_seq l = pk_seq p /\
  new_seq l = pk_seq p /\ video_flag l = pk_flag p.
Definition awaits (n : written -> Z -> Prop) l : Prop := busy l /\ exists e, last_of (recorded l) = Some e /\
  (first_flag l = false -> n e (old_seq l)).

Lemma compare_spec p c t h :
  good true false (just_read p c) (fun _ => True)
    (awaits (fun e n => n = w_seq e \/ n = -1)) t h ->
  0 < pk_seq p -> w_seq c = pk_seq p -> w_key c = (pk_flag p =? FRAMETYPE_I) ->
  wp (l ← gets loc;
      if video_flag l =? FRAMETYPE_I then
        local (fun l => l <| first_flag := false |> <| old_seq := new_seq l |>)
      else
        local (fun l => l <| old_seq := old_seq l + 1 |>) ;;
        l ← gets loc;
        if negb (old_seq l =? new_seq l)
        then local (fun l => l <| old_seq := new_seq l |> <| first_flag := true |>)
        else mret ()) (fun _ t' => I lpr phi0 psi1 t') all_play t.
Proof.
  intros Hg Hpos Hseq Hkey. apply wp_bind, wp_gets.
  destruct (so_loc _ _ _ _ (proj1 Hg)) as (Hlp & Hc & Hb & Hn & Hv). rewrite Hv.
  destruct (Z.eqb_spec (pk_flag p) FRAMETYPE_I) as [Hi|Hi].
  - eapply (wp_local _ _ _ _ _ _ lpr phi0 psi1); [exact Hg | done | by left | exact Hlp | | |].
    + intros _ _. split; [exists c; exact Hc | left; cbn; congruence].
    + intros _ _ (Hbusy & e & He & _). split; [exact Hbusy|]. exists e. split; [exact He|].
      intros _. exists c. split; [exact Hc|]. left. by rewrite Hkey.
    + intros t' Hg' _ _. by exists h.
  - apply wp_bind. eapply (wp_local _ _ _ _ _ _ (just_read p c) (fun _ => True)
      (awaits (fun e n => n = w_seq e + 1 \/ n = 0))); [exact Hg | done | by left | | done | |].
    + split_and!; [exact Hlp | exact Hc | exact Hb | exact Hn | exact Hv].
    + intros _ _ (Hbusy & e & He & H). split; [exact Hbusy|]. exists e. split; [exact He|].
      intros Hf. destruct (H Hf); [left | right]; cbn; lia.
    + intros t1 Hg1 _ _. apply wp_bind, wp_gets.
      destruct (so_loc _ _ _ _ (proj1 Hg1)) as (Hlp1 & Hc1 & Hb1 & Hn1 & _).
      destruct (Z.eqb_spec (old_seq (loc t1)) (new_seq (loc t1))) as [He|He]; cbn [negb].
      * apply wp_ret. exists h. eapply good_loc; [exact Hg1 | exact Hlp1 | by split; [exists c | left; congruence] |].
        intros _ _ (Hbusy & e & Hl & H). split; [exact Hbusy|]. exists e. split; [exact Hl|].
        intros Hf. exists c. split; [exact Hc1|]. right. left.
        destruct (H Hf); lia.
      * eapply (wp_local _ _ _ _ _ _ lpr phi0 psi1); [exact Hg1 | done | by left | exact Hlp1 | done | |].
        -- intros _ _ (Hbusy & e & Hl & _). split; [exact Hbusy|]. by exists e.
        -- intros t2 Hg2 _ _. by exists h.
Qed.

Lemma read_frame_spec buflen t : I lpr phi0 psi0 t ->
  wp (read_frame i buflen) (fun _ t' => I lpr phi0 psi1 t') all_play t.
Proof.
  intros [h Hg]. unfold read_frame. apply wp_bind.
  eapply wp_poke; [exact Hg | by intros; apply (flag_kept _ (fun h => h <| readenc_flag := 1 |>))|].
  intros t1 h1 Hg1 _. apply wp_bind. eapply wp_peek; [exact Hg1|]. intros t2 h2 Hg2 _ _. apply wp_bind.
  eapply wp_source; [exact Hg2 | apply ss_read, Hg2 | | by intros l [[[? _] _] _] | done |].
  { intros a v (Hv & Hc & _). split; [done|]. intros Hs. by apply Hc, (so_conn _ _ _ _ (proj1 Hg2)). }
  intros [ret r] t3 Hg3 _ (_ & _ & Hgood). cbn [fst snd] in Hgood.
  destruct (Z.ltb_spec ret 0) as [|Hret].
  { eapply wp_others; [exact Hg3|]. intros t4 h4 Hg4 _ _. exists h4.
    eapply good_loc; [exact Hg4 | apply Hg4 | done | by intros _ _ ?%psi0_psi1]. }
  destruct (Hgood Hret) as (p & -> & Hp). destruct (good_entry p (frame_buf (loc t3)) Hp) as (c & Hc & Hseq & Hkey).
  apply wp_bind. eapply wp_access; [done|]. apply wp_bind.
  eapply (wp_local _ _ _ _ _ _ (just_read p c) (fun _ => True) (awaits (fun e n => n = w_seq e \/ n = -1)));
    [exact Hg3 | done | by left | | done | |].
  { destruct (so_loc _ _ _ _ (proj1 Hg3)) as [[[Hlp _] Hst] Hce].
    pose proof (entry_parts _ _ _ Hc) as (Hkf & _). split_and!; [|exact Hc | done..].
    split; [split; [split; [exact Hlp | by eexists] | exact Hst] | exact Hce]. }
  { intros _ Hphi (Hbusy & e & He & H). split; [exact Hbusy|]. exists e. split; [exact He|].
    intros Hf. destruct (Hphi Hf) as [_ Hs]. apply entry_fields in H as [Hw _]; [|exact Hf].
    unfold seq_known in Hs. rewrite Hw. exact Hs. }
  intros t4 Hg4 _ _. apply wp_bind.
  eapply wp_poke; [exact Hg4 | by intros; apply (flag_kept _ (fun h => h <| readenc_flag := 0 |>))|].
  intros t5 h5 Hg5 _. apply wp_bind.
  eapply wp_poke; [exact Hg5 | by intros; apply (flag_kept _ (fun h => h <| watchcnt := 0 |>))|].
  intros t6 h6 Hg6 _. apply (compare_spec p c t6 h6 Hg6); [apply Hp | exact Hseq | exact Hkey].
Qed.

(** A frame was read that may be written, unless the thread is to end. *)
Definition phi2 l : Prop := buffer_ok l /\ seq_known l.
Definition next_ok l : Prop := exists e c, last_of (recorded l) = Some e /\
  entry_of (frame_buf l) (buf_seq l) = Some c /\ follows e c.
Definition psi2 l : Prop := busy l /\ next_ok l.

Lemma read_loop_spec fuel buflen t : I lpr phi0 psi0 t ->
  wp (read_loop i fuel buflen) (fun _ t' => I lpr phi2 psi2 t') all_play t.
Proof.
  revert t. induction fuel as [|fuel IH]; intros t Ht; cbn [read_loop].
  { destruct Ht as [h Hg]. apply wp_blocked, (so_loc _ _ _ _ (proj1 Hg)). }
  eapply wp_seq; [by apply read_frame_spec|]. intros _ t1 [h1 Hg1]. apply wp_bind, wp_gets.
  destruct (first_flag (loc t1)) eqn:Hf.
  - assert (Hw : good true false (fun l => lpr l /\ first_flag l = true) phi0 psi1 t1 h1)
      by (eapply good_loc; [exact Hg1 | | done..]; split; [apply Hg1 | done]).
    apply wp_bind. eapply wp_peek; [exact Hw|]. intros t2 h2 Hg2 _ _.
    destruct (so_loc _ _ _ _ (proj1 Hg2)) as [Hlp Hf2]. destruct (Z.eqb_spec (threadexit h2) 0) as [Hz|Hz].
    + apply IH. exists h2. eapply good_loc; [exact Hg2 | exact Hlp | done|].
      intros _ _ (Hb & e & He & _). split; [exact Hb|]. exists e. split; [exact He|]. congruence.
    + apply wp_ret. exists h2. split; [|by left].
      destruct (proj1 Hg2). by split.
  - apply wp_ret. exists h1. eapply good_loc; [exact Hg1 | apply Hg1 | intros H; by apply H|].
    intros _ _ (Hb & e & He & H). destruct (H Hf) as (c & Hc & Hfo).
    split; [exact Hb|]. by exists e, c.
Qed.

(** ** Closing *)

(** Closing under the lock: no file is open. *)
Lemma wp_close lax lp phi psi psi' R t h :
  good lax true lp phi psi t h ->
  wp (on_shared (close_record_file zone rename (Some i) part0))
     (fun _ t' => exists h', good lax true lp phi psi' t' h' /\ aviinfo h' = None /\ loc t' = loc t) R t.
Proof.
  intros Hg. pose proof (proj1 Hg) as [Hh Hok Hl Hm Hf _ _ _ _].
  assert (Hready : file_ready zone part0 h).
  { destruct (aviinfo h) as [fd|] eqn:Ha; [|by left]. right. split; [apply Hok | by apply (Hf fd)]. }
  destruct (acts_close_cases zone rename part0 i h Hready) as (rc & h' & Hact & Hcase).
  assert (Hc : kept_hd h h' /\ file_mutex h' = file_mutex h /\ aviinfo h' = None).
  { destruct Hcase as [[-> Hnone]|Hcase].
    - destruct (aviinfo h) as [fd|] eqn:Ha.
      { destruct (Hf fd eq_refl) as (_ & Hn & _). by destruct Hnone. }
      split; [|done]. split; [done|]. split; [done|]. split; [done|]. by right.
    - destruct Hcase as [-> | [-> | ->]];
        (split; [split; [exact Hok|]; split; [done|]; split; [done|]; by right | done]). }
  destruct Hc as (Hk & Hm' & Ha'). eapply wp_acts; [exact Hh | exact Hact|].
  intros t' Hh' Hs. exists h'. split; [|split; [done | by rewrite (proj2 (proj2 Hs))]].
  pose proof (good_step _ _ true _ _ _ _ _ _ _ Hg Hs Hh' Hk ltac:(congruence)) as Hg'.
  eapply good_loc; [exact Hg' | apply Hg' | done | done].
Qed.

Definition lp2 l : Prop := lp0 l /\ th_state l = newstate l /\ connect_enc l = 1.
Definition psi3 l : Prop := newstate l <> 0 /\ connect_enc l = 1 /\ next_ok l.

Lemma close_round_spec t : I lpr phi2 psi2 t ->
  wp (close_round zone rename part0 i) (fun _ t' => I lp2 phi2 psi3 t') all_play t.
Proof.
  intros [h Hg]. unfold close_round. apply wp_bind.
  eapply wp_poke; [exact Hg | by intros; apply (flag_kept _ (fun h => h <| watchcnt := 0 |>))|].
  intros t1 h1 Hg1 _. apply wp_bind. eapply wp_peek; [exact Hg1|]. intros t2 h2 Hg2 _ _.
  apply wp_bind, wp_gets. cbv zeta.
  set (closeflag := if negb (cutflag h2 =? 0) then true else _).
  pose proof (so_loc _ _ _ _ (proj1 Hg2)) as [[Hlp Hst] Hce]. apply wp_bind.
  eapply (wp_local _ _ _ _ _ _ lp2 phi2 (fun l => closeflag = false -> psi3 l));
    [exact Hg2 | done | | done | done | |].
  { cbn. intros ?. left. auto. }
  { intros _ _ ((Hb1 & Hb2) & Hnext) Hc. split; [|split; [exact Hb2 | exact Hnext]]. cbn.
    unfold closeflag in Hc. destruct (negb (cutflag h2 =? 0)); [done|].
    destruct (Z.eqb_spec (th_state (loc t2)) (newstate (loc t2))) as [<-|]; [done|].
    by destruct (Z.eqb_spec (th_state (loc t2)) 0). }
  intros t3 Hg3 _ _. apply wp_bind. eapply wp_lock_file; [exact Hg3|]. intros t4 h4 Hg4 _.
  apply wp_bind. eapply wp_peek; [exact Hg4|]. intros t5 h5 Hg5 _ _.
  apply (wp_seq _ _ (fun _ t' => exists h', good true true lp2 phi2 psi3 t' h')).
  - destruct closeflag; cbn [andb].
    + case_bool_decide as Hd.
      * eapply wp_mono; [eapply (wp_close _ _ _ _ psi3); exact Hg5|]. intros _ t' (h' & ? & _). by exists h'.
      * apply wp_ret. exists h5. eapply good_loc; [exact Hg5 | apply Hg5 | done|].
        intros Ha. destruct Hd. by apply not_eq_None_Some.
    + apply wp_ret. exists h5. eapply good_loc; [exact Hg5 | apply Hg5 | done|]. intros _ _ H. by apply H.
  - intros _ t6 (h6 & Hg6). eapply wp_unlock_file; [exact Hg6|]. intros t7 h7 Hg7 _. by exists h7.
Qed.

(** ** Writing *)

(** What is in the buffer may be added to the newest file. *)
Definition writable l : Prop := busy l /\ seq_known l /\ exists name ws rest c,
  recorded l = (name, ws) :: rest /\ files_ok rest /\
  entry_of (frame_buf l) (buf_seq l) = Some c /\ plays (ws ++ [c]).

Lemma next_writable l : lp0 l -> busy l -> seq_known l -> next_ok l -> writable l.
Proof.
  intros Hlp Hb Hs (e & c & He & Hc & Hf). split; [done|]. split; [done|].
  destruct (recorded l) as [|[name ws] rest] eqn:Hr; [done|]. destruct Hlp as [Hlp _]. rewrite Hr in Hlp.
  inversion Hlp; subst. exists name, ws, rest, c. split_and!; try done. by eapply plays_snoc.
Qed.

(** The lock is held and a file is open. *)
Lemma write_spec phi psi t h :
  good false true writable phi psi t h -> aviinfo h <> None ->
  wp (AVI_write_frame i) (fun _ t' => exists h', good false true lp0 phi0 psi0 t' h') all_play t.
Proof.
  intros Hg Ho. unfold AVI_write_frame. apply wp_bind, wp_gets.
  destruct (so_loc _ _ _ _ (proj1 Hg)) as (Hb & Hs & name & ws & rest & c & Hr & Hrest & Hc & Hp).
  destruct (entry_parts _ _ _ Hc) as (Hkey & Hdata & Hceq).
  apply wp_bind. eapply wp_peek; [exact Hg|]. intros t1 h1 Hg1 Hl1 Hrel.
  assert (Ha : aviinfo h1 = aviinfo h).
  { destruct Hrel as [(_ & _ & _ & _ & [[? _]|[Hlk _]])| ->]; [done | | done].
    by rewrite (so_lock _ _ _ _ (proj1 Hg)) in Hlk. }
  destruct (aviinfo h) as [fd|] eqn:Hfd; [|done].
  destruct (so_file _ _ _ _ (proj1 Hg1) fd Ha) as [Hfile _].
  apply wp_bind. eapply wp_access; [exact Hkey|]. apply wp_bind. eapply wp_access; [exact Hdata|].
  rewrite Hr. rewrite bool_decide_eq_true_2 by (rewrite Ha, <- Hl1, Hfile; split; [by eexists | done]).
  eapply (wp_local _ _ _ _ _ _ lp0 phi0 psi0); [exact Hg1 | done | by left | | | |].
  - cbn. rewrite Hl1, <- Hceq. split; [by constructor | cbn; eexists; first exact Hkey].
  - intros _ _. split; [exists c|]; cbn; by rewrite Hl1.
  - intros _ _ _. split; [by rewrite Hl1|]. exists c. cbn. by rewrite last_snoc, Hl1, <- Hceq.
  - intros t2 Hg2 _ _. by exists h1.
Qed.

(** ** A new file *)

(** A key frame is in the buffer, for the thread to record. *)
Definition keyed l : Prop := lp0 l /\ busy l /\ seq_known l /\
  exists c, entry_of (frame_buf l) (buf_seq l) = Some c /\ w_key c = true.

Lemma keyed_writable l (name : cstr) :
  keyed l -> writable (l <| recorded ::= cons (name, ([] : list written)) |>).
Proof.
  intros ([Hfs _] & Hb & Hs & c & Hc & Hk). split; [exact Hb|]. split; [exact Hs|].
  exists name, [], (recorded l), c. split_and!; [done | exact Hfs | exact Hc | by split].
Qed.

(** No file is open, and the lock is held. *)
#[local] Abbreviation closed_with lp := (good false true lp (fun _ => True) (fun _ => False)).

Lemma closed_none lp t h : closed_with lp t h -> aviinfo h = None.
Proof. intros [_ [[]|[_ Hn]]]; [done|]. destruct (aviinfo h); [|done]. by destruct Hn. Qed.

Lemma relied_none h h' : relied h h' \/ h' = h -> aviinfo h = None -> aviinfo h' = None.
Proof. intros [(_ & _ & _ & _ & [[-> _]|[_ ->]])| ->] Ha; [exact Ha | done | exact Ha]. Qed.

(** While the lock is held the others leave the file as it is. *)
Lemma relied_locked h h' : file_mutex h = true -> relied h h' \/ h' = h ->
  aviinfo h' = aviinfo h /\ filename h' = filename h.
Proof. intros Hl [(_ & _ & _ & _ & [?|[Hf _]])| ->]; [done | congruence | done]. Qed.

(** What [create_record_file] leaves: a file without frames, with a name that says
    what it is, or no file. *)
Definition created (f : option Z) t : Prop :=
  match f with
  | Some _ => exists h, closed_with writable t h /\ with_name h
  | None => exists h, closed_with keyed t h
  end.

Lemma create_spec t h : closed_with keyed t h ->
  wp (create_record_file zone i time create_dirs AVI_open) created all_play t.
Proof.
  intros Hg. unfold create_record_file. apply wp_bind, wp_gets, wp_bind.
  eapply wp_peek; [exact Hg|]. intros t1 h1 Hg1 _ _.
  destruct (so_ok _ _ _ _ (proj1 Hg1)) as (Hch & (disk & pt & Hp & Hd & Hq) & Htr & _).
  destruct (made_name zone h1 (time t) part0 disk pt) as (name & Hname & Hne & Hread);
    [done..| by rewrite Hch | done | apply Htime |].
  apply wp_bind. eapply wp_access; [exact Hname|]. apply wp_bind.
  eapply wp_poke_with; [exact Hg1|]. intros t2 h2 t3 Hg2 _ _ Hs3 Hh3.
  pose proof (closed_none _ _ _ Hg2) as Hn2.
  assert (Hg3 : closed_with keyed t3 (h2 <| filename := recording_name name |>)).
  { eapply good_step; [exact Hg2 | exact Hs3 | exact Hh3 | | apply Hg2].
    split; [apply Hg2|]. split; [done|]. split; [done|]. by right. }
  apply wp_bind. eapply wp_peek; [exact Hg3|]. intros t4 h4 Hg4 _ Hr4.
  apply relied_locked in Hr4 as [_ Hf4]; [|apply Hg3]. cbn in Hf4.
  apply wp_bind, wp_get. rewrite Hf4.
  destruct (create_dirs t4 (recording_name name) <? 0).
  { apply wp_bind. eapply wp_emit; [exact Hg4|]. intros t5 Hg5 _. apply wp_ret. by exists h4. }
  apply wp_bind. eapply wp_source; [exact Hg4 | apply ss_attrib, Hg4 | | by intros l [[? _] _] | done |].
  { intros a v [-> _]. split; apply Hg4. }
  intros a t5 Hg5 Hl5 [Hs5 Ha]. apply wp_bind. eapply wp_emit; [exact Hg5|]. intros t6 Hg6 _.
  apply wp_bind, wp_get. destruct (AVI_open t6 (recording_name name)) as [fd|].
  2: { apply wp_bind. eapply wp_emit; [exact Hg6|]. intros t7 Hg7 _. apply wp_ret. by exists h4. }
  destruct (so_loc _ _ _ _ (proj1 Hg4)) as (_ & [Hst _] & _).
  rewrite Ha by by apply Hg4. apply wp_bind.
  eapply (wp_local _ _ _ _ _ _ writable (fun _ => True) (fun _ => False));
    [exact Hg6 | done | by left | apply keyed_writable, Hg6 | done | done |].
  intros t7 Hg7 _ _. apply wp_ret. exists h4. split; [exact Hg7|]. unfold with_name. rewrite Hf4. done.
Qed.

(** The new file becomes the channel's. *)
Lemma wp_set_file lp fd t h (Q : () -> thread_st V -> Prop) R :
  closed_with lp t h -> with_name h -> file (loc t) = Some fd ->
  (forall t' h', good false true lp (fun _ => True) (fun _ => True) t' h' -> aviinfo h' <> None -> Q () t') ->
  wp (poke i (fun h => h <| aviinfo := Some fd |>)) Q R t.
Proof.
  intros Hg Hn Hfile HQ. eapply wp_poke_with; [exact Hg|].
  intros t1 h1 t' [[] _] Hl1 Hr (E1 & E2 & E3) Hh'.
  apply relied_locked in Hr as [_ Hf]; [|apply Hg].
  eapply HQ with (h' := h1 <| aviinfo := Some fd |>); [|done]. split; [|by right].
  split; rewrite ?E1, ?E2, ?E3; try done. intros fd' [= <-].
  rewrite Hl1. split; [done|]. unfold with_name in *. cbn. by rewrite Hf.
Qed.

(** The thread's variables when no file is open. *)
Lemma wp_set_local_file lp fo t h (Q : () -> thread_st V -> Prop) R :
  closed_with lp t h -> (forall l, lp l -> lp (l <| file := fo |>)) ->
  (forall t', closed_with lp t' h -> file (loc t') = fo -> Q () t') ->
  wp (local (fun l => l <| file := fo |>)) Q R t.
Proof.
  intros Hg Hlp HQ.
  eapply (wp_local _ _ _ _ _ _ lp (fun _ => True) (fun _ => False)); [exact Hg | | by left | | done | done |].
  - intros Hn. by rewrite (closed_none _ _ _ Hg) in Hn.
  - apply Hlp, Hg.
  - intros t' Hg' Hl _. apply HQ; [exact Hg' | by rewrite Hl].
Qed.

(** The thread's variables may be changed before the source is dropped as well as
    after it: nothing looks at them meanwhile. *)
Definition with_loc (f : locals -> locals) t : thread_st V :=
  Build_thread_st (shared t) (source t) (moves t) (f (loc t)).

Lemma wp_drop_early ch f (Q : () -> thread_st V -> Prop) (R : thread_st V -> Prop) t :
  (forall t', R (with_loc f t') -> R t') ->
  wp (local f ;; on_source (vs_disconnect ch) ;; sleep_) Q R t ->
  wp (on_source (vs_disconnect ch) ;; sleep_ ;; local f) Q R t.
Proof.
  intros HR. cbv [wp local modify on_source sleep_ others mbind M_bind alter_field source].
  destruct t as [s v ms l]; cbn.
  destruct (vs_disconnect ch v) as [a v'|v'|c v'|]; cbn;
    [|exact (HR (Build_thread_st s v' ms l))..|done].
  by destruct ms as [|[f1 g1] ms].
Qed.

Lemma keyed_rest lax t h : good lax false keyed (fun _ => True) (fun _ => False) t h -> I lp0 phi0 psi0 t.
Proof.
  intros Hg. pose proof (so_loc _ _ _ _ (proj1 Hg)) as (Hlp & _ & Hs & c & Hc & _). exists h.
  eapply good_loc; [eapply good_lax, Hg | done | | done].
  intros _ _. split; [by exists c | done].
Qed.

Lemma key_spec t h : good false false keyed (fun _ => True) next_ok t h ->
  wp (key_round zone i time get_disk_free hd_type create_dirs AVI_open)
     (fun _ t' => I lp0 phi0 psi0 t') all_play t.
Proof.
  intros Hg. unfold key_round. apply wp_bind. eapply wp_lock_file; [exact Hg|].
  intros t1 h1 Hg1 _. apply wp_bind. eapply wp_peek; [exact Hg1|]. intros t2 h2 Hg2 _ _.
  pose proof (so_loc _ _ _ _ (proj1 Hg2)) as (Hlp & Hb & Hs & Hc).
  destruct (aviinfo h2) as [fd|] eqn:Ha.
  { eapply wp_seq; [eapply (write_spec (fun _ => True) (fun _ => True) t2 h2); [|by rewrite Ha]|].
    { eapply good_loc; [exact Hg2 | | done..]. apply next_writable; [done..|].
      destruct Hg2 as [_ [[]|[_ Hn]]]; [done|]. apply Hn. by rewrite Ha. }
    intros _ t3 (h3 & Hg3). eapply wp_unlock_file; [eapply good_lax, Hg3|].
    intros t4 h4 Hg4 _. by exists h4. }
  assert (Hn : closed_with keyed t2 h2) by (eapply good_loc; [exact Hg2 | apply Hg2 | done | by rewrite Ha]).
  apply wp_bind. eapply wp_peek; [exact Hn|]. intros t3 h3 Hg3 _ _. apply wp_bind, wp_get.
  destruct (get_disk_free t3 (partition h3) <? get_hd_minval hd_type).
  { apply wp_bind. eapply wp_poke; [exact Hg3 | |].
    { intros h' Hok. split; [|done]. split; [exact Hok|]. split; [done|]. split; [done|]. by left. }
    intros t4 h4 Hg4 _. eapply wp_unlock_file; [eapply good_lax, Hg4|]. intros t5 h5 Hg5 _.
    eapply keyed_rest, Hg5. }
  eapply wp_seq; [by eapply create_spec|]. intros f t4 Hf.
  destruct f as [fd|]; destruct Hf as (h4 & Hg4).
  - destruct Hg4 as [Hg4 Hname]. apply wp_bind.
    eapply (wp_set_local_file writable); [exact Hg4 | done|]. intros t5 Hg5 Hf5. apply wp_bind.
    eapply (wp_set_file writable); [exact Hg5 | exact Hname | exact Hf5|]. intros t6 h6 Hg6 Ho6.
    eapply wp_seq; [by eapply write_spec|]. intros _ t7 (h7 & Hg7).
    eapply wp_unlock_file; [eapply good_lax, Hg7|]. intros t8 h8 Hg8 _. by exists h8.
  - apply wp_bind. eapply (wp_set_local_file keyed); [exact Hg4 | done|]. intros t5 Hg5 _.
    apply wp_bind. eapply wp_poke; [exact Hg5 | |].
    { intros h' Hok. split; [|done]. split; [exact Hok|]. split; [done|]. split; [done|]. by right. }
    intros t6 h6 Hg6 _. apply wp_bind. eapply wp_unlock_file; [exact Hg6|]. intros t7 h7 Hg7 _.
    apply wp_bind. eapply wp_peek; [exact Hg7|]. intros t8 h8 Hg8 _ _.
    apply wp_drop_early; [done|]. apply wp_bind.
    pose proof (so_loc _ _ _ _ (proj1 Hg8)) as (Hlp8 & _ & Hs8 & c & Hc8 & _).
    eapply (wp_local _ _ _ _ _ _ (fun l => lp0 l /\ th_state l = 0) phi0 psi0);
      [exact Hg8 | done | done | by split | | done |].
    { intros _ _. split; [by exists c | done]. }
    intros t9 Hg9 _ _. apply wp_bind. pose proof (so_loc _ _ _ _ (proj1 Hg9)) as [_ Hz].
    eapply wp_source; [exact Hg9 | apply ss_disconnect, Hg9 | done | by intros l [[? _] _] | done |].
    intros _ t10 Hg10 _ _. eapply wp_others; [exact Hg10|]. intros t11 h11 Hg11 _ _. exists h11.
    eapply good_loc; [eapply good_lax, Hg11 | apply Hg11 | done..].
Qed.

Lemma good_strict held lp phi psi t h :
  good true held lp phi psi t h -> threadexit h = 0 -> good false held lp phi psi t h.
Proof. intros [Hs [[_ ?]|]] Hz; [done | by split; [|right]]. Qed.

Lemma phi2_phi0 l : phi2 l -> phi0 l.
Proof. by intros H _. Qed.

(** The thread's state is 0: no file is open. *)
Lemma idle_rest t : I lp2 phi2 psi3 t -> th_state (loc t) = 0 -> I lp0 phi0 psi0 t.
Proof.
  intros [h Hg] Hz. pose proof (so_loc _ _ _ _ (proj1 Hg)) as (Hlp & Heq & _). exists h.
  eapply good_loc; [exact Hg | exact Hlp | apply phi2_phi0|]. intros _ _ [Hn _]. congruence.
Qed.

Lemma other_idle (P : thread_st V -> Prop) R t : P t -> th_state (loc t) = 0 ->
  wp (other_round i) (fun _ => P) R t.
Proof. intros HP Hz. unfold other_round. apply wp_bind, wp_gets. by rewrite Hz. Qed.

Lemma other_spec t : I lp2 phi2 psi3 t -> wp (other_round i) (fun _ t' => I lp0 phi0 psi0 t') all_play t.
Proof.
  intros Ht. destruct (decide (th_state (loc t) = 0)) as [Hz|Hz].
  { apply other_idle; [by apply idle_rest | done]. }
  destruct Ht as [h Hg]. unfold other_round. apply wp_bind, wp_gets.
  rewrite (proj2 (Z.eqb_neq _ _) Hz). cbn [negb]. apply wp_bind.
  eapply wp_peek; [exact Hg|]. intros t1 h1 Hg1 Hl1 _. rewrite <- Hl1 in Hz.
  destruct (Z.eqb_spec (threadexit h1) 0) as [Hx|Hx].
  2: { apply wp_ret. exists h1. split; [|by left]. destruct Hg1 as [[] _]. split; auto. apply so_loc0. }
  set (lp := fun l => lp2 l /\ th_state l <> 0).
  assert (Hg2 : good false false lp phi2 psi3 t1 h1)
    by (eapply good_loc; [eapply good_strict; [exact Hg1 | done] | split; [apply Hg1 | done] | done..]).
  apply wp_bind. eapply wp_lock_file; [exact Hg2|]. intros t3 h3 Hg3 _.
  apply wp_bind. eapply wp_peek; [exact Hg3|]. intros t4 h4 Hg4 _ _.
  pose proof (so_loc _ _ _ _ (proj1 Hg4)) as ((Hlp & Heq & Hce) & Hst).
  apply (wp_seq _ _ (fun _ t' => exists h', good false true lp0 phi0 psi0 t' h')).
  - case_bool_decide as Ha.
    + apply not_eq_None_Some in Ha. destruct Hg4 as [Hs [[]|[[Hb Hk] Hn]]]; [done|].
      destruct (Hn Ha) as (_ & _ & Hnext).
      apply (write_spec (fun _ => True) (fun _ => True) t4 h4); [|done]. split; [|by right].
      destruct Hs. split; try done. by apply next_writable.
    + apply wp_ret. exists h4. eapply good_loc; [exact Hg4 | exact Hlp | apply phi2_phi0|]. intros Ho.
      destruct Ha. by apply not_eq_None_Some.
  - intros _ t5 (h5 & Hg5). eapply wp_unlock_file; [eapply good_lax, Hg5|]. intros t6 h6 Hg6 _. by exists h6.
Qed.

(** Nothing is to be recorded. *)
Lemma drop_source_spec t h : good false false lp2 phi2 psi3 t h -> newstate (loc t) = 0 ->
  wp (drop_source i time) (fun _ t' => I lp0 phi0 psi0 t' /\ th_state (loc t') = 0) all_play t.
Proof.
  intros Hg Hn. pose proof (so_loc _ _ _ _ (proj1 Hg)) as (_ & Heq & _).
  set (lp := fun l => lp0 l /\ th_state l = 0).
  assert (Hg1 : good true false lp phi2 (fun _ => False) t h).
  { eapply good_loc; [eapply good_lax, Hg | split; [apply Hg | congruence] | done|].
    by intros _ _ [? _]. }
  assert (Hpost : forall t h, good true false lp phi2 (fun _ => False) t h ->
            I lp0 phi0 psi0 t /\ th_state (loc t) = 0).
  { intros t' h' Hg'. split; [|apply Hg']. exists h'. eapply good_loc; [exact Hg' | apply Hg' | apply phi2_phi0 | done]. }
  unfold drop_source. apply wp_bind. eapply wp_peek; [exact Hg1|]. intros t2 h2 Hg2 _ _. apply wp_bind.
  eapply wp_source; [exact Hg2 | apply ss_attrib, Hg2 | | by intros l [[? _] _] | done |].
  { intros a v [-> _]. split; [apply Hg2 | intros []; apply Hg2]. }
  intros a t3 Hg3 _ _. destruct a; [|apply wp_ret, (Hpost _ h2), Hg3].
  apply wp_bind. eapply wp_peek; [exact Hg3|]. intros t4 h4 Hg4 _ _. apply wp_bind.
  eapply wp_source; [exact Hg4 | apply ss_disconnect, Hg4 | | by intros l [[? _] _] | done |].
  { intros a v Hv. split; [exact Hv | intros []; apply Hg4]. }
  intros _ t5 Hg5 _ _. apply wp_bind, wp_gets.
  eapply (wp_local _ _ _ _ _ _ lp phi2 (fun _ => False)); [exact Hg5 | done | by left | apply Hg5 | | done |].
  { intros [Hb _]. split; [exact Hb | by right]. }
  intros t6 Hg6 _ _. by apply (Hpost _ h4).
Qed.

Lemma write_round_spec t : I lp2 phi2 psi3 t ->
  wp (write_round zone i time get_disk_free hd_type create_dirs AVI_open)
     (fun _ t' => I lp0 phi0 psi0 t') all_play t.
Proof.
  intros [h Hg]. unfold write_round. apply wp_bind, wp_gets.
  destruct (so_loc _ _ _ _ (proj1 Hg)) as ([_ [key Hkey]] & _).
  apply wp_bind. eapply wp_access; [exact Hkey|]. destruct key; [|apply other_spec; by exists h].
  apply wp_bind. eapply wp_peek; [exact Hg|]. intros t1 h1 Hg1 Hl1 _.
  destruct (Z.eqb_spec (threadexit h1) 0) as [Hx|]; [|apply other_spec; by exists h1].
  apply good_strict in Hg1; [|exact Hx].
  pose proof (so_loc _ _ _ _ (proj1 Hg1)) as (Hlp & Heq & Hce). rewrite <- Hl1 in *.
  destruct (Z.eqb_spec (newstate (loc t1)) 0) as [Hn|Hn]; cbn [negb].
  - eapply wp_seq; [by eapply drop_source_spec|]. intros _ t2 [Ht2 Hz]. by apply other_idle.
  - destruct Hg1 as [Hs [[]|[[[c Hc] Hk] Hp]]]; [done|].
    apply (key_spec t1 h1). split; [|right; split; [done|]; intros Ho; by destruct (Hp Ho) as (_ & _ & ?)].
    destruct Hs. split; try done. split; [done|]. split; [split; congruence|]. split; [done|].
    exists c. split; [done|]. apply entry_parts in Hc as [Hc _]. congruence.
Qed.

Lemma round_spec fuel buflen t : I lp0 phi0 psi0 t ->
  wp (round zone rename part0 i time connect_audio get_disk_free hd_type create_dirs AVI_open fuel buflen)
     (fun _ t' => I lp0 phi0 psi0 t') all_play t.
Proof.
  intros Ht. unfold round. eapply wp_seq; [by apply switch_spec|]. intros _ t1 [h1 Hg1].
  apply wp_bind, wp_gets. destruct (Z.eqb_spec (connect_enc (loc t1)) 1) as [Hc|Hc]; cbn [negb].
  - apply (wp_seq _ _ (fun _ t' => I lpr phi2 psi2 t')); [apply read_loop_spec; exists h1; eapply good_loc; [exact Hg1 | by split; [apply Hg1|] | done..]|].
    intros _ t2 Ht2. eapply wp_seq; [by apply close_round_spec|]. intros ? t3 Ht3. by apply write_round_spec.
  - eapply wp_others; [exact Hg1|]. intros t2 h2 Hg2 _ _. exists h2.
    eapply good_loc; [exact Hg2 | apply Hg2 | done..].
Qed.

(** [n] rounds from the assertion between rounds. *)
#[local] Abbreviation run_round :=
  (round zone rename part0 i time connect_audio get_disk_free hd_type create_dirs AVI_open).
#[local] Abbreviation run_rounds :=
  (rounds zone rename part0 i time connect_audio get_disk_free hd_type create_dirs AVI_open).

Lemma rounds_spec n fuel buflen t : I lp0 phi0 psi0 t ->
  wp (run_rounds n fuel buflen) (fun _ t' => I lp0 phi0 psi0 t') all_play t.
Proof.
  revert t. induction n as [|n IH]; intros t Ht; cbn [rounds]; [by apply wp_ret|].
  destruct Ht as [h Hg]. apply wp_bind. eapply wp_peek; [exact Hg|]. intros t1 h1 Hg1 _ _.
  destruct (threadexit h1 =? 0); cbn [negb]; [|apply wp_ret; by exists h1].
  eapply wp_seq; [apply round_spec; by exists h1|]. intros ? t2. apply IH.
Qed.

Lemma wp_change_id lax held lp phi psi R id t h (Q : () -> thread_st V -> Prop) :
  good lax held lp phi psi t h -> aviinfo h = None ->
  (forall t' h', good lax held lp phi psi t' h' -> aviinfo h' = None -> loc t' = loc t -> Q () t') ->
  wp (on_shared (change_thread_id i id)) Q R t.
Proof.
  intros Hg Ha HQ. eapply (wp_acts R); [apply Hg | |].
  { unfold change_thread_id, get_hdch.
    rewrite (proj2 (Z.ltb_lt _ _)), (proj2 (Z.leb_le _ _)) by lia.
    apply (acts_locked i h (fun h => h <| Recorder.thread_id := id |>)), Hg. }
  intros t' Hh' Hs. eapply HQ.
  - eapply good_step; [exact Hg | exact Hs | exact Hh' | | apply Hg].
    split; [apply Hg|]. split; [cbn; symmetry; apply Hg|]. split; [done|]. by left.
  - exact Ha.
  - by rewrite (proj2 (proj2 Hs)).
Qed.

(** ** The thread *)

(** How the thread finds its channel and its variables. *)
Record starts t h : Prop := {
  st_hd : hd_of t = Some h;
  st_ok : hd_ok h;
  st_lock : file_mutex h = false /\ mutex h = false;
  st_file : aviinfo h = None;
  st_source : vok (source t);
  st_moves : Forall move_ok (moves t);
  st_loc : th_state (loc t) = 0 /\ first_flag (loc t) = true /\ recorded (loc t) = []
}.

Lemma starts_good lp phi psi t h : starts t h -> lp (loc t) -> phi (loc t) -> good true false lp phi psi t h.
Proof.
  intros [? ? [? ?] ? ? ? (? & _)] Hlp Hphi. split; [split; try done; congruence|right].
  split; [exact Hphi | done].
Qed.

Lemma starts_buf t h buf : starts t h -> starts (with_loc (fun l => l <| frame_buf := buf |>) t) h.
Proof. intros []. by split. Qed.

(** What the thread leaves when it has ended: no open file. *)
Definition ended t : Prop := exists h, hd_of t = Some h /\ aviinfo h = None.

Lemma thread_end_spec t : I lp0 phi0 psi0 t ->
  wp (lock_file i ;; on_shared (close_record_file zone rename (Some i) part0) ;; unlock_file i ;;
      ch ← peek i channel;
      on_shared (change_thread_id ch (-1)) ;; on_source (vs_disconnect ch) ;; mret true)
     (fun _ t' => all_play t' /\ ended t') all_play t.
Proof.
  intros [h Hg]. apply wp_bind. eapply wp_lock_file; [exact Hg|]. intros t1 h1 Hg1 _.
  eapply wp_seq; [eapply (wp_close _ _ _ _ (fun _ => False)); exact Hg1|].
  intros ? t2 (h2 & Hg2 & Ha2 & _). apply wp_bind.
  assert (Hn : good true true lp0 (fun _ => True) (fun _ => False) t2 h2)
    by (eapply good_loc; [exact Hg2 | apply Hg2 | done | done]).
  eapply wp_unlock_hd; [exact Hn|]. intros t3 Hg3 _. apply wp_bind.
  eapply wp_peek; [exact Hg3|]. intros t4 h4 Hg4 _ Hr4.
  apply relied_none in Hr4; [|exact Ha2].
  destruct (so_ok _ _ _ _ (proj1 Hg4)) as (-> & _). apply wp_bind.
  eapply wp_change_id; [exact Hg4 | exact Hr4|]. intros t5 h5 Hg5 Ha5 _. apply wp_bind.
  pose proof (ss_disconnect i _ (so_source _ _ _ _ (proj1 Hg5))) as Hd.
  pose proof (so_hd _ _ _ _ (proj1 Hg5)) as Hh5. destruct (so_loc _ _ _ _ (proj1 Hg5)) as [Hp _].
  unfold wp, on_source in *. destruct (vs_disconnect i (source t5)); [|exact Hp..|done].
  split; [exact Hp | by exists h5].

Qed.

(** C3. What the recording thread writes can be played.

    Whatever the other threads do between its steps (short of opening the file,
    closing it without its lock, or taking back an order to end), whatever the
    encoder gives or fails to give, whichever calls fail: the thread has no undefined
    behaviour, never writes to a file that was closed, and every file it made starts
    with a key frame, each later frame being a key frame, the next in number, or the
    same again after a failed read; also when it waits for ever.  A thread that ends
    leaves no file open. *)
Theorem recorded_files_play disknum frame n fuel buflen t h :
  starts t h -> (forall buf, frame = Some buf -> is_Some (is_keyframe buf)) ->
  wp (record_file_thread zone rename part0 i time connect_audio get_disk_free hd_type create_dirs
        AVI_open disknum frame n fuel buflen)
     (fun over t' => all_play t' /\ (over = true -> ended t')) all_play t.
Proof.
  intros Ht Hframe. assert (Hp : all_play t).
  { unfold all_play. rewrite (proj2 (proj2 (st_loc _ _ Ht))). constructor. }
  unfold record_file_thread. destruct (disknum =? 0).
  { apply wp_ret. split; [exact Hp|]. intros _. exists h. split; apply Ht. }
  destruct frame as [buf|].
  - apply wp_bind, wp_modify. eapply wp_seq.
    { apply rounds_spec. exists h. apply starts_good; [by apply starts_buf|split; [exact Hp | by apply Hframe]|].
      intros Hf. cbn in Hf. by rewrite (proj1 (proj2 (st_loc _ _ Ht))) in Hf. }
    intros over t1 Ht1. destruct over.
    { eapply wp_mono; [by apply thread_end_spec|]. intros ? t2 [? ?]. by split. }
    apply wp_ret. destruct Ht1 as [h1 Hg1]. split; [|done]. apply (so_loc _ _ _ _ (proj1 Hg1)).
  - pose proof (starts_good (fun l => files_ok (recorded l)) (fun _ => True) (fun _ => False) t h Ht Hp Logic.I) as Hg.
    apply wp_bind. eapply wp_peek; [exact Hg|]. intros t1 h1 Hg1 _ Hr.
    apply relied_none in Hr; [|apply Ht].
    destruct (so_ok _ _ _ _ (proj1 Hg1)) as (-> & _). apply wp_bind.
    eapply wp_change_id; [exact Hg1 | exact Hr|]. intros t2 h2 Hg2 Ha2 _. apply wp_bind.
    eapply wp_others; [exact Hg2|]. intros t3 h3 Hg3 _ Hr3. apply wp_ret.
    split; [apply (so_loc _ _ _ _ (proj1 Hg3))|]. intros _. exists h3. split; [apply Hg3|]. by eapply relied_none.
Qed.
End Spec.
