(* ===== verification/RecThreadRuns.v ===== *)
(** * Runs of the recording thread

    A recording from a scripted encoder, and the recording sources of [MediaApi] as
    the encoder's frames. *)

From Stdlib Require Import Ascii String.
From S2P Require Import Prelude Update Wp Memory Sem Ctime Cstring ShmPool ShmPoolPacket MediaApi MediaApiThms RecName AlarmLog Recorder RecorderSys RecorderThms RecorderRuns RecThread RecFrames RecThreadThms.

(** ** A scripted encoder *)

(** What each read gives, [None] for a read that fails. *)
Record script := { online : bool; answers : list (option packet) }.

#[export] Instance script_source : VideoSource script := {|
  vs_connect := fun _ _ v => Ret 0 {| online := true; answers := answers v |};
  vs_read := fun _ _ v =>
    match answers v with
    | Some p :: l => Ret (Z.of_nat (length (pk_data p)), Some p) {| online := online v; answers := l |}
    | None :: l => Ret (-1, None) {| online := online v; answers := l |}
    | [] => Ret (-1, None) v
    end;
  vs_attrib := fun _ v => Ret (online v) v;
  vs_disconnect := fun _ v => Ret 0 {| online := false; answers := answers v |}
|}.

Definition script_ok (v : script) : Prop :=
  Forall (fun a => match a with Some p => good_packet p | None => True end) (answers v).

#[export] Instance script_spec : SourceSpec script_source script_ok (fun v => online v = true).
Proof.
  split; intros; unfold wp; cbn; try done.
  unfold script_ok in *. destruct (answers v) as [|[p|] l] eqn:Ha; cbn.
  - rewrite Ha. split_and!; [done | done | lia].
  - inversion H; subst. split_and!; [done | done | intros _; by exists p].
  - inversion H; subst. split_and!; [done | done | lia].
Qed.

(** ** A recording of channel 0 *)

Definition example_frame (key : bool) (d : list Z) : list Z :=
  repeat 0 12 ++ [1; 0; if key then 0 else 1; 0; Z.of_nat (length d); 0; 0; 0] ++ repeat 0 8 ++ d.
Definition example_packet (key : bool) (n : Z) (d : list Z) : packet :=
  {| pk_data := example_frame key d; pk_seq := n; pk_flag := if key then 0 else 1 |}.

Definition example_script : script := {| online := false; answers :=
  [Some (example_packet false 6 [60]); Some (example_packet true 7 [70]); Some (example_packet false 8 [80]);
   None; Some (example_packet false 9 [90]); Some (example_packet false 11 [11]);
   Some (example_packet true 12 [12])] |}.

Definition on_chan (f : hd_enc_struct -> hd_enc_struct) : (rec_st -> rec_st) * (script -> script) :=
  (fun s => s <| g_hdenc ::= fun l : list hd_enc_struct => alter f 0%nat l |>, fun v => v).
Definition no_move : (rec_st -> rec_st) * (script -> script) := on_chan (fun h => h).

Definition example_moves : list ((rec_st -> rec_st) * (script -> script)) :=
  [no_move; on_chan (fun h => h <| state := 2 |> <| trig := 4 |>)] ++ replicate 92 no_move ++
  [on_chan (fun h => h <| threadexit := 1 |>)].

Definition example_thread : thread_st script :=
  {| shared := example_rec; source := example_script; moves := example_moves;
     loc := {| connect_enc := 0; a_connect_enc := 0; th_state := 0; newstate := 0; first_flag := true;
               old_seq := -1; new_seq := -1; video_flag := 0; frame_buf := []; buf_seq := 0;
               file := None; end_last_file := 0; recorded := [] |} |}.

Definition example_run (n : nat) : M (thread_st script) bool :=
  record_file_thread 0 no_rename (repeat NUL 16) 0 (fun _ => 1000) (fun _ => 0) (fun _ _ => 5000) 0
    (fun _ _ => 0) (fun _ _ => Some 9) 1 (Some (repeat 0 64)) n 9 64.

(** Channel 0's thread with the scripted encoder. *)
#[local] Abbreviation script_move_ok := (move_ok (vok := script_ok) (vconn := fun v => online v = true) 0).
#[local] Abbreviation script_starts := (starts (vok := script_ok) (vconn := fun v => online v = true) 0).

Lemma on_chan_ok f : (forall h, hd_ok 0 h -> relied 0 h (f h)) -> script_move_ok (on_chan f).
Proof.
  intros Hf. split; [|done]. intros s h Hh Hok. exists (f h). split; [|by apply Hf].
  change (geti (g_hdenc (fst (on_chan f) s)) 0) with (alter f 0%nat (g_hdenc s) !! 0%nat).
  change (geti (g_hdenc s) 0) with (g_hdenc s !! 0%nat) in Hh.
  by rewrite list_lookup_alter_eq, Hh.
Qed.

Lemma example_moves_ok : Forall script_move_ok example_moves.
Proof.
  assert (Hn : script_move_ok no_move).
  { apply on_chan_ok. intros h Hh. split; [exact Hh|]. split_and!; try done. by left. }
  unfold example_moves. rewrite Forall_app. split; [|rewrite Forall_app; split].
  - constructor; [exact Hn|]. constructor; [|constructor].
    apply on_chan_ok. intros h (H1 & H2 & _ & H4).
    split; [split_and!; try done; cbn; lia|]. split_and!; try done. by left.
  - by apply list.Forall_replicate.
  - constructor; [|constructor]. apply on_chan_ok. intros h Hh.
    split; [exact Hh|]. split_and!; try done. by left.
Qed.

Lemma example_starts : script_starts example_thread (example_hd 0).
Proof.
  split; [done | | done | done | | apply example_moves_ok | done].
  - split; [done|]. split; [by exists "a"%char, "1"%char|]. by cbn.
  - repeat constructor; by eexists.
Qed.

Definition example_end : thread_st script :=
  match example_run 8 example_thread with Ret _ t => t | _ => example_thread end.

(** The frame before the failed read was written twice; the one after the gap was
    not written. *)
Lemma recorded_files_play_witness :
  example_run 8 example_thread = Ret true example_end /\ all_play example_end /\ ended 0 example_end /\
  map snd (recorded (loc example_end)) =
    [[{| w_key := true; w_data := [70]; w_seq := 7 |}; {| w_key := false; w_data := [80]; w_seq := 8 |};
      {| w_key := false; w_data := [80]; w_seq := 8 |}; {| w_key := false; w_data := [90]; w_seq := 9 |};
      {| w_key := true; w_data := [12]; w_seq := 12 |}]].
Proof.
  assert (Hw : wp (example_run 8) (fun over t' => all_play t' /\ (over = true -> ended 0 t'))
                 all_play example_thread).
  { unfold example_run. apply (recorded_files_play 0 no_rename (repeat NUL 16) 0 (fun _ => 1000) (fun _ => 0)
      (fun _ _ => 5000) 0 (fun _ _ => 0) (fun _ _ => Some 9)) with (h := example_hd 0);
      [done | done | done | done | apply example_starts | by intros buf [= <-]]. }
  assert (Hr : example_run 8 example_thread = Ret true example_end) by (vm_compute; reflexivity).
  destruct (wp_returned _ _ _ _ _ _ Hw Hr) as [Hp He].
  split; [exact Hr|]. split; [exact Hp|]. split; [by apply He | vm_compute; reflexivity].
Defined.

(** ** The recorder's own encoder *)

(** The calls of [MediaApi] as the source of frames.  The thread is not asleep in a
    read when it begins one. *)
Definition hdmodule : list Z := [104; 100; 109; 111; 100; 117; 108; 101].
Definition media_source (core : Z -> core_attach) (pid now : Z) (sleep : M src_st ()) (fuel : nat)
    : VideoSource src_st := {|
  vs_connect := fun ch pre => connect_video_record_enc_succ core pid now sleep fuel ch hdmodule pre;
  vs_read := fun _ blen => read_video_record_frame false blen;
  vs_attrib := get_venc_attrib_record;
  vs_disconnect := disconnect_video_record_enc
|}.

Section Hang.
Variables (core : Z -> core_attach) (pid now : Z) (sleep : M src_st ()) (fuel : nat).
#[local] Instance source_of_pool : VideoSource src_st := media_source core pid now sleep fuel.
Variables (i : Z) (time connect_audio : thread_st src_st -> Z).
Implicit Types (t : thread_st src_st).

(** The source stays connected. *)
Definition keeps_link (f : src_st -> src_st) : Prop :=
  forall v, 0 <= dev_stat (media v) -> 0 <= dev_stat (media (f v)).

(** The others keep asking to record channel [i], and leave its source alone. *)
Definition keeps_asking (m : (rec_st -> rec_st) * (src_st -> src_st)) : Prop :=
  (forall s h, geti (g_hdenc s) i = Some h -> channel h = i -> state h <> 0 ->
     exists h', geti (g_hdenc (fst m s)) i = Some h' /\ channel h' = i /\ state h' <> 0) /\
  keeps_link (snd m).

Record asked t h : Prop := {
  as_hd : geti (g_hdenc (shared t)) i = Some h;
  as_chan : channel h = i;
  as_state : state h <> 0;
  as_link : 0 <= dev_stat (media (source t));
  as_moves : Forall keeps_asking (moves t);
  as_loc : th_state (loc t) = 0
}.

Lemma asked_others t h : asked t h -> exists t' h', others t = Ret () t' /\ asked t' h'.
Proof.
  intros []. unfold others. destruct (moves t) as [|[f g] ms] eqn:Hm.
  { exists t, h. split; [done|]. by split; rewrite ?Hm. }
  inversion as_moves0 as [|? ? [Hf Hg] Hms]; subst.
  destruct (Hf _ _ as_hd0 as_chan0 as_state0) as (h' & ? & ? & ?).
  eexists _, h'. split; [done|]. split; try done. by apply Hg.
Qed.

Lemma asked_peek {A} (f : hd_enc_struct -> A) t h :
  asked t h -> exists t' h', peek i f t = Ret (f h') t' /\ asked t' h'.
Proof.
  intros (t' & h' & Ho & Ha)%asked_others. exists t', h'. split; [|done]. unfold peek.
  rewrite (bind_ret _ _ _ _ _ Ho). by rewrite (bind_ret _ _ _ _ _ (get_hd_of i t' h' (as_hd _ _ Ha))).
Qed.

Lemma asked_poke (f : hd_enc_struct -> hd_enc_struct) t h :
  (forall h, channel (f h) = channel h /\ state (f h) = state h) ->
  asked t h -> exists t' h', poke i f t = Ret () t' /\ asked t' h'.
Proof.
  intros Hf (t1 & h1 & Ho & [])%asked_others. unfold poke. rewrite (bind_ret _ _ _ _ _ Ho).
  destruct (acts_mod i h1 f _ as_hd0) as (s' & Hs & Hl). unfold on_shared. rewrite Hs.
  eexists _, (f h1). split; [done|]. destruct (Hf h1) as [Hc Hst]. pose proof (geti_Some _ _ _ as_hd0).
  split; cbn; try done; [|congruence..].
  rewrite Hl, geti_to_nat by lia. apply list_lookup_insert_eq. lia.
Qed.

Lemma asked_pre_connect t h :
  asked t h -> exists t' h', set_pre_connect i time t = Ret () t' /\ asked t' h'.
Proof.
  intros (t1 & h1 & Hp & Ha)%(asked_peek rec_type). unfold set_pre_connect.
  rewrite (bind_ret _ _ _ _ _ Hp).
  assert (Hpoke : forall n, exists t' h', poke i (fun h => h <| pre_connect := n |>) t1 = Ret () t' /\ asked t' h')
    by (intros; by eapply asked_poke).
  destruct (rec_type h1 =? 0); [apply Hpoke|].
  rewrite (bind_ret _ _ t1 (time t1) t1), (bind_ret _ _ t1 (loc t1) t1) by done.
  destruct (_ <=? _); apply Hpoke.
Qed.

(** C39. A recording asked for again before the next key frame never starts.

    The channel was told to stop, and the source is dropped only at the next key
    frame.  When it is told to record before that, the thread connects the source
    that is still connected, and the round does not return, however long the channel
    is asked to record. *)
Theorem record_again_hangs get_disk_free hd_type create_dirs AVI_open zone rename part0 rfuel buflen t h :
  (forall s, 0 <= dev_stat (media s) -> exists s', sleep s = Ret () s' /\ 0 <= dev_stat (media s')) ->
  0 <= i < MAX_RECORD_CHANNEL_M -> asked t h ->
  exists t', round zone rename part0 i time connect_audio get_disk_free hd_type create_dirs AVI_open
    rfuel buflen t = Blocked t'.
Proof.
  intros Hsleep Hi Ha. unfold round.
  enough (exists t', switch_state i time connect_audio t = Blocked t') as [t' Hb].
  { exists t'. cbv [mbind M_bind]. by rewrite Hb. }
  unfold switch_state. destruct (asked_peek state t h Ha) as (t1 & h1 & Hp & Ha1).
  rewrite (bind_ret _ _ _ _ _ Hp). pose proof (as_state _ _ Ha1) as Hst.
  set (t2 := Build_thread_st (shared t1) (source t1) (moves t1) ((loc t1) <| newstate := state h1 |>)).
  rewrite (bind_ret _ _ t1 () t2) by done. rewrite (bind_ret _ _ t2 (loc t2) t2) by done.
  assert (Ha2 : asked t2 h1) by (destruct Ha1; by split).
  rewrite (as_loc _ _ Ha2), (proj2 (Z.eqb_neq _ _) Hst). cbn [Z.eqb negb].
  destruct (asked_pre_connect t2 h1 Ha2) as (t3 & h3 & Hc & Ha3). rewrite (bind_ret _ _ _ _ _ Hc).
  destruct (asked_peek (fun h => h) t3 h3 Ha3) as (t4 & h4 & Hp4 & Ha4). rewrite (bind_ret _ _ _ _ _ Hp4).
  assert (Hch : 0 <= channel h4 < MAX_RECORD_CHANNEL_M) by by rewrite (as_chan _ _ Ha4).
  destruct (loop_connected core pid now sleep fuel (channel h4) hdmodule (pre_connect h4) (source t4) Hsleep Hch)
    as (v & Hv & _); [apply Ha4|].
  eexists. cbv [mbind M_bind on_source]. cbn [vs_connect source_of_pool media_source].
  unfold connect_video_record_enc_succ. rewrite (proj2 (Z.leb_gt _ _) (proj2 Hch)).
  cbv [mbind M_bind]. by rewrite Hv.
Qed.
End Hang.

(** Channel 0 stopped and asked to record again; the others have left it so. *)
Definition asked_hd : hd_enc_struct := (example_hd 0) <| state := 2 |>.
Definition asked_thread : thread_st src_st :=
  {| shared := example_rec <| g_hdenc := [asked_hd] |>;
     source := two_frame_source <| media ::= fun m => m <| dev_stat := 0 |> |>;
     moves := replicate 3 (fun s => s, fun v => v); loc := loc example_thread |}.

Lemma record_again_hangs_witness :
  exists t', round (vs := media_source core64 77 0 (mret ()) 50) 0 no_rename (repeat NUL 16) 0 (fun _ => 1000)
    (fun _ => 0) (fun _ _ => 5000) 0 (fun _ _ => 0) (fun _ _ => Some 9) 9 64 asked_thread = Blocked t'.
Proof.
  apply (record_again_hangs core64 77 0 (mret ()) 50 0) with (h := asked_hd);
    [intros s Hs; by exists s | done|].
  split; [done | done | done | done | | done].
  apply list.Forall_replicate. split; [|by intros v].
  intros s h Hh Hc Hs. by exists h.
Defined.
