(* ===== verification/NvPair.v ===== *)
(** * Name-value messages (libsrc/nv_pair/src/nv_pair.c)

    The discovery and set-up protocol sends its commands as text: pairs of a name and
    a value, each behind a separator, the name and the value joined by a mark.  A
    program fills a structure with pairs and takes the text, or gives it a text and
    asks for values.  The areas of the structure have their fixed sizes; writing past
    the end of one, or reading a string from one without a NUL, is undefined.  The
    state is what the program's pointer is to. *)

From Stdlib Require Import Ascii String.
From S2P Require Import Prelude Update Cstring.

Definition MAX_MARK_LEN : Z := 20.
Definition MAX_SEP_LEN : Z := 20.
Definition MAX_CMD_NUM : Z := 50.
Definition MAX_DATA_LEN : Z := 100.
Definition NVP_SUCCESS : Z := 0.
Definition NVP_NO_MEM : Z := 1000.
Definition NVP_PARA_ERR : Z := 1001.
Definition MAGIC : Z := 0xeb90eb90.
Definition nvp_default_seperator : cstr := lit "^^".
Definition nvp_default_equal_mark : cstr := lit "==".

Definition area := list ascii.

(** [magic] is an [unsigned long] of 32 bits; [nvp] and [msg_buf] are the areas of
    the pairs and of the whole text. *)
Record NVP_T := {
  magic : Z; str_len : Z; num_nvp : Z; seperator : area; equal_mark : area;
  nvp : list area; msg_buf : area
}.

#[export] Instance nvp_settable : Settable NVP_T := {| rebuild := fun nt =>
  Build_NVP_T (magic nt) (str_len nt) (num_nvp nt) (seperator nt) (equal_mark nt) (nvp nt) (msg_buf nt) |}.

(** What the pointer [NVP_TP *] is to: nothing, a structure that was released, or a
    structure. *)
Inductive handle := Null | Freed | At (nt : NVP_T).

(** ** Areas *)

Definition zeroed (n : Z) : area := replicate (Z.to_nat n) NUL.

(** The string in an area, if its NUL is in it. *)
Definition text (a : area) : option cstr :=
  if existsb (fun c => Ascii.eqb c NUL) a then Some (cstring a) else None.

(** [memcpy] of [t] to the head of an area, and [sprintf] of a string that prints [t]. *)
Definition memcpy (a : area) (t : list ascii) : option area :=
  if (length t <=? length a)%nat then Some (t ++ drop (length t) a) else None.
Definition sprintf (a : area) (t : cstr) : option area := memcpy a (t ++ [NUL]).

(** [memcpy] at an offset of the area. *)
Definition memcpy_at (a : area) (off : Z) (t : list ascii) : option area :=
  if (0 <=? off) && (off <=? zlen a)
  then app (take (Z.to_nat off) a) <$> memcpy (drop (Z.to_nat off) a) t else None.

(** ** The tests of the pointer *)

(** [ok]: the other arguments are valid; [bad] is returned when a test fails. *)
Definition with_nt {A} (bad : A) (ok : bool) (m : NVP_T -> M handle A) : M handle A :=
  h ← get_st;
  match h with
  | Null => mret bad
  | _ => if negb ok then mret bad
         else match h with
              | At nt => if magic nt =? MAGIC then m nt else mret bad
              | _ => undef
              end
  end.

Definition nvp_set_seperator (sep : cstr) : M handle Z :=
  with_nt (- NVP_PARA_ERR) (zlen sep <=? MAX_SEP_LEN) (fun nt =>
    a ← access (memcpy (zeroed MAX_SEP_LEN) sep);
    put_st (At (nt <| seperator := a |>)) ;; mret NVP_SUCCESS).

Definition nvp_set_equal_mark (mark : cstr) : M handle Z :=
  with_nt (- NVP_PARA_ERR) (zlen mark <=? MAX_MARK_LEN) (fun nt =>
    a ← access (memcpy (zeroed MAX_MARK_LEN) mark);
    put_st (At (nt <| equal_mark := a |>)) ;; mret 0).

(** [mem]: what [malloc] gives, [None] when there is no memory. *)
Definition nvp_create (mem : option NVP_T) : M handle () :=
  match mem with
  | None => put_st Null
  | Some nt =>
      put_st (At (nt <| msg_buf := zeroed (MAX_CMD_NUM * MAX_DATA_LEN) |>
                     <| nvp := replicate (Z.to_nat MAX_CMD_NUM) (zeroed MAX_DATA_LEN) |>
                     <| magic := MAGIC |> <| num_nvp := 0 |> <| str_len := 0 |>)) ;;
      nvp_set_equal_mark nvp_default_equal_mark ;;
      nvp_set_seperator nvp_default_seperator ;; mret ()
  end.

(** ** Setting and getting pairs *)

(** The text of pair [i]. *)
Definition pair_text (nt : NVP_T) (i : Z) : option cstr := a ← geti (nvp nt) i; text a.

Fixpoint index_loop (n : nat) (nt : NVP_T) (i : Z) (name : cstr) : option Z :=
  match n with
  | O => Some (- NVP_PARA_ERR)
  | S n =>
      p ← pair_text nt i; sep ← text (seperator nt);
      if negb (is_prefix sep p) then index_loop n nt (i + 1) name else
      let p := drop (length sep) p in
      if negb (is_prefix name p) then index_loop n nt (i + 1) name else
      let p := drop (length name) p in
      mark ← text (equal_mark nt);
      if negb (is_prefix mark p) then index_loop n nt (i + 1) name else Some i
  end.

Definition nvp_get_pair_index (nt : NVP_T) (name : cstr) : option Z :=
  if MAX_DATA_LEN <? zlen name then Some (- NVP_PARA_ERR)
  else index_loop (Z.to_nat (num_nvp nt)) nt 0 name.

Definition set_area (nt : NVP_T) (i : Z) (a : area) : option NVP_T :=
  l ← seti (nvp nt) i a; Some (nt <| nvp := l |>).

(** [None] is a null pointer. *)
Definition nvp_set_pair_str (name value : option cstr) : M handle Z :=
  match name, value with
  | Some name, Some value =>
      with_nt (- NVP_PARA_ERR) (zlen name + zlen value <=? MAX_DATA_LEN) (fun nt =>
        index ← access (nvp_get_pair_index nt name);
        sep ← access (text (seperator nt));
        mark ← access (text (equal_mark nt));
        let t := sep ++ name ++ mark ++ value in
        if index <? 0 then
          a ← access (a ← geti (nvp nt) (num_nvp nt); sprintf a t);
          nt ← access (set_area nt (num_nvp nt) a);
          put_st (At (nt <| num_nvp := num_nvp nt + 1 |>)) ;;
          if MAX_CMD_NUM <? num_nvp nt + 1 then mret (- NVP_NO_MEM) else mret NVP_SUCCESS
        else
          a ← access (sprintf (zeroed MAX_DATA_LEN) t);
          nt ← access (set_area nt index a);
          put_st (At nt) ;; mret NVP_SUCCESS)
  | _, _ => mret (- NVP_PARA_ERR)
  end.

Definition nvp_set_pair_int (name : option cstr) (value : Z) : M handle Z :=
  nvp_set_pair_str name (Some (fmt_d 1 value)).

(** The value is the text behind the first mark; an empty one counts as none. *)
Definition nvp_get_pair_str (name : cstr) (def_val : option cstr) : M handle (option cstr) :=
  with_nt None (zlen name <=? MAX_DATA_LEN) (fun nt =>
    i ← access (nvp_get_pair_index nt name);
    if i <? 0 then mret def_val else
    p ← access (pair_text nt i);
    mark ← access (text (equal_mark nt));
    match strstr p mark with
    | Some k =>
        let s := drop (k + length mark) p in
        mret (match s with [] => def_val | _ => Some s end)
    | None => mret def_val
    end).

Definition nvp_get_pair_int (name : cstr) (def_val : Z) : M handle Z :=
  ret ← nvp_get_pair_str name None;
  match ret with None => mret def_val | Some s => mret (atoi s) end.

Definition nvp_get_count : M handle Z := with_nt (- NVP_PARA_ERR) true (fun nt => mret (num_nvp nt)).

(** ** The whole text *)

Fixpoint fill_loop (n : nat) (nt : NVP_T) (i len : Z) (buf : area) : option (Z * area) :=
  match n with
  | O => Some (len, buf)
  | S n =>
      t ← pair_text nt i; buf ← memcpy_at buf len t;
      fill_loop n nt (i + 1) (len + zlen t) buf
  end.

(** The string from [strlen(seperator)] on. *)
Definition nvp_get_string : M handle (option cstr) :=
  with_nt None true (fun nt =>
    '(len, buf) ← access (fill_loop (Z.to_nat (num_nvp nt)) nt 0 0 (zeroed (MAX_CMD_NUM * MAX_DATA_LEN)));
    put_st (At (nt <| str_len := len |> <| msg_buf := buf |>)) ;;
    sep ← access (text (seperator nt));
    s ← access (text (drop (length sep) buf)); mret (Some s)).

(** The loop of [nvp_parse_string]: [rest] is the text from [index] on. *)
Fixpoint parse_loop (fuel : nat) (sep : cstr) (rest : cstr) (nt : NVP_T) : option (Z * NVP_T) :=
  match fuel with
  | O => Some (num_nvp nt, nt)
  | S fuel =>
      match strstr rest sep with
      | None => Some (if num_nvp nt =? 0 then - NVP_PARA_ERR else num_nvp nt, nt)
      | Some p =>
          let index := drop (p + length sep) rest in
          let copy offset :=
            a ← geti (nvp nt) (num_nvp nt); a ← memcpy a (take offset (drop p rest));
            nt ← set_area nt (num_nvp nt) a; Some (nt <| num_nvp := num_nvp nt + 1 |>) in
          nt ← (match strstr index sep with
                | Some s =>
                    let offset := (length sep + s)%nat in
                    if (length sep <? offset)%nat then copy offset else Some nt
                | None => copy (length rest - p)%nat
                end);
          parse_loop fuel sep index nt
      end
  end.

Fixpoint clear_pairs (n : nat) (l : list area) (i : Z) : option (list area) :=
  match n with
  | O => Some l
  | S n => l ← seti l i (zeroed MAX_DATA_LEN); clear_pairs n l (i + 1)
  end.

Definition nvp_parse_string (str : option cstr) : M handle Z :=
  match str with
  | None => mret (- NVP_PARA_ERR)
  | Some str =>
      with_nt (- NVP_PARA_ERR) true (fun nt =>
        if MAX_CMD_NUM * MAX_DATA_LEN <? zlen str then mret (- NVP_NO_MEM) else
        l ← access (clear_pairs (Z.to_nat (num_nvp nt)) (nvp nt) 0);
        sep ← access (text (seperator nt));
        let buf := zeroed (MAX_CMD_NUM * MAX_DATA_LEN) in
        buf ← access (if is_prefix sep str then memcpy buf str
                      else b ← memcpy buf sep; memcpy_at b (zlen sep) str);
        msg ← access (text buf);
        '(ret, nt) ← access (parse_loop (Z.to_nat MAX_CMD_NUM) sep msg
          (nt <| nvp := l |> <| msg_buf := buf |> <| str_len := zlen msg |> <| num_nvp := 0 |>));
        put_st (At nt) ;; mret ret)
  end.

Definition nvp_destroy : M handle () :=
  h ← get_st;
  match h with
  | At nt => if magic nt =? MAGIC then put_st Freed else mret ()
  | Null => mret ()
  | Freed => undef
  end.

Definition nvp_get_error_str (errno : Z) : cstr :=
  if errno =? NVP_NO_MEM then lit "not enough memory"
  else if errno =? NVP_PARA_ERR then lit "parameters error" else lit "unknow nvp errno".
