(* ===== verification/NvPairThms.v ===== *)
(** * Messages read what was written

    A structure holds a list of pairs, the last value set for a name; the text of one
    structure, parsed by another with the same separator and mark, holds the same
    pairs. *)

From Stdlib Require Import Ascii String.
From S2P Require Import Prelude Update Cstring NvPair.

(** ** Strings in areas *)

Definition no_nul (s : cstr) : Prop := Forall (fun c => c <> NUL) s.

Lemma text_here s r : no_nul s -> text (s ++ NUL :: r) = Some s.
Proof.
  intros Hs. unfold text. rewrite existsb_app. cbn. rewrite orb_true_r. f_equal.
  induction Hs as [|c s Hc Hs IH]; [done|]. cbn [app cstring].
  destruct (Ascii.eqb_spec c NUL); [done|]. by rewrite IH.
Qed.

Lemma zeroed_cons n : 0 < n -> zeroed n = NUL :: zeroed (n - 1).
Proof.
  intros. unfold zeroed. replace (Z.to_nat n) with (S (Z.to_nat (n - 1))) by lia. done.
Qed.

Lemma zeroed_length n : 0 <= n -> zlen (zeroed n) = n.
Proof. intros. unfold zeroed. rewrite length_replicate. lia. Qed.

Lemma zeroed_drop n k : (Z.of_nat k <= n) -> drop k (zeroed n) = zeroed (n - Z.of_nat k).
Proof. intros. unfold zeroed. rewrite drop_replicate. f_equal. lia. Qed.

(** Copying a string into a cleared area that is longer. *)
Lemma memcpy_zeroed n s : zlen s < n ->
  exists r, memcpy (zeroed n) s = Some (s ++ NUL :: r) /\ zlen (s ++ NUL :: r) = n.
Proof.
  intros Hl. unfold memcpy. pose proof (zeroed_length n ltac:(lia)) as Hz.
  destruct (Nat.leb_spec (length s) (length (zeroed n))); [|lia].
  rewrite zeroed_drop, zeroed_cons by lia. eexists. split; [done|].
  rewrite length_app. cbn [length]. unfold zeroed. rewrite length_replicate. lia.
Qed.

Lemma sprintf_ok a s : zlen s < zlen a ->
  exists r, sprintf a s = Some (s ++ NUL :: r) /\ zlen (s ++ NUL :: r) = zlen a.
Proof.
  intros Hl. unfold sprintf, memcpy. rewrite length_app. cbn [length].
  destruct (Nat.leb_spec (length s + 1) (length a)); [|lia].
  exists (drop (length s + 1) a). rewrite <- app_assoc. split; [done|].
  rewrite length_app. cbn [app length]. rewrite length_drop. lia.
Qed.

Lemma is_prefix_app p s : is_prefix p (p ++ s) = true.
Proof. induction p as [|c p IH]; [done|]. cbn. by rewrite Ascii.eqb_refl. Qed.

Lemma is_prefix_inv p s : is_prefix p s = true -> s = p ++ drop (length p) s.
Proof.
  revert s. induction p as [|c p IH]; intros [|d s]; try done. cbn.
  intros [->%Ascii.eqb_eq H]%andb_true_iff. f_equal. by apply IH.
Qed.

(** ** Lists of pairs *)

Abbreviation pairs := (list (cstr * cstr)).
Implicit Types (l : pairs) (n v : cstr).

Fixpoint pairs_set l n v : pairs :=
  match l with
  | [] => [(n, v)]
  | (n', v') :: l => if decide (n' = n) then (n, v) :: l else (n', v') :: pairs_set l n v
  end.

Fixpoint pairs_get l n : option cstr :=
  match l with
  | [] => None
  | (n', v) :: l => if decide (n' = n) then Some v else pairs_get l n
  end.

Fixpoint pairs_index l n : option nat :=
  match l with
  | [] => None
  | (n', _) :: l => if decide (n' = n) then Some O else S <$> pairs_index l n
  end.

(** The value last set for [n], where [calls] are the calls in order. *)
Definition last_value (calls : pairs) n : option cstr := pairs_get (rev calls) n.

Lemma pairs_get_set l n v m : pairs_get (pairs_set l n v) m = if decide (n = m) then Some v else pairs_get l m.
Proof.
  induction l as [|[n' v'] l IH]; cbn [pairs_set pairs_get]; [done|].
  destruct (decide (n' = n)) as [-> | Hn]; cbn [pairs_get].
  - by destruct (decide (n = m)).
  - rewrite IH. destruct (decide (n' = m)) as [-> | ]; [|done]. by rewrite decide_False.
Qed.

Lemma pairs_set_calls calls n :
  pairs_get (fold_left (fun l c => pairs_set l (fst c) (snd c)) calls []) n = last_value calls n.
Proof.
  unfold last_value. induction calls as [|[m v] calls IH] using rev_ind; [done|].
  rewrite fold_left_app, rev_app_distr. cbn. by rewrite pairs_get_set, IH.
Qed.

Lemma pairs_set_index l n v :
  match pairs_index l n with
  | Some k => (k < length l)%nat /\ pairs_set l n v = <[k := (n, v)]> l
  | None => pairs_set l n v = l ++ [(n, v)]
  end.
Proof.
  induction l as [|[n' v'] l IH]; cbn [pairs_index pairs_set]; [done|].
  destruct (decide (n' = n)); [split; [cbn; lia | done]|].
  destruct (pairs_index l n) as [k|]; cbn.
  - destruct IH as [? ->]. split; [lia | done].
  - by rewrite IH.
Qed.

Lemma pairs_get_index l n :
  pairs_get l n = (k ← pairs_index l n; snd <$> l !! k).
Proof.
  induction l as [|[n' v'] l IH]; cbn [pairs_index pairs_get]; [done|].
  destruct (decide (n' = n)); [done|]. rewrite IH. by destruct (pairs_index l n).
Qed.

(** ** A structure that holds pairs *)

Section Marks.
Variables (sep mark : cstr).

(** Neither is empty or as long as its area, and they have no character in common. *)
Record marks_ok : Prop := {
  mo_sep : 0 < zlen sep < MAX_SEP_LEN;
  mo_mark : 0 < zlen mark < MAX_MARK_LEN;
  mo_nul : no_nul sep /\ no_nul mark;
  mo_apart : Forall (fun c => c ∉ sep) mark
}.

(** A name has no character of theirs, and a value none of the separator. *)
Definition name_ok n : Prop := Forall (fun c => c <> NUL /\ (c ∉ sep) /\ (c ∉ mark)) n.
Definition value_ok v : Prop := Forall (fun c => c <> NUL /\ c ∉ sep) v.

Definition body n v : cstr := n ++ mark ++ v.
Definition entry n v : cstr := sep ++ body n v.
Definition pair_ok n v : Prop := name_ok n /\ value_ok v /\ zlen (entry n v) < MAX_DATA_LEN.

Record rep (nt : NVP_T) l : Prop := {
  rp_magic : magic nt = MAGIC;
  rp_sep : text (seperator nt) = Some sep;
  rp_mark : text (equal_mark nt) = Some mark;
  rp_num : num_nvp nt = zlen l;
  rp_len : zlen (nvp nt) = MAX_CMD_NUM;
  rp_most : zlen l <= MAX_CMD_NUM;
  rp_areas : Forall (fun a => zlen a = MAX_DATA_LEN) (nvp nt);
  rp_pairs : forall k n v, l !! k = Some (n, v) -> pair_ok n v /\ pair_text nt (Z.of_nat k) = Some (entry n v);
  rp_rest : forall k, (length l <= k)%nat -> Z.of_nat k < MAX_CMD_NUM -> nvp nt !! k = Some (zeroed MAX_DATA_LEN)
}.

Context (Hmarks : marks_ok).
Implicit Types (nt : NVP_T).

Lemma mark_first : exists c m, mark = c :: m /\ c <> NUL /\ c ∉ sep.
Proof.
  destruct Hmarks as [_ Hm [_ Hn] Ha]. destruct mark as [|c m]; [cbn in Hm; lia|].
  exists c, m. inversion Hn. by inversion Ha.
Qed.

Lemma sep_first : exists c s, sep = c :: s.
Proof. destruct Hmarks as [Hs _ _ _]. destruct sep as [|c s]; [cbn in Hs; lia|]. by exists c, s. Qed.

Lemma entry_no_nul n v : pair_ok n v -> no_nul (entry n v).
Proof.
  intros (Hn & Hv & _). destruct Hmarks as [_ _ [Hs Hm] _]. unfold no_nul, entry, body.
  rewrite !Forall_app. split_and!; [done | | done |].
  - eapply list.Forall_impl; [exact Hn|]. by intros c (? & _).
  - eapply list.Forall_impl; [exact Hv|]. by intros c (? & _).
Qed.

Lemma body_apart n v : pair_ok n v -> Forall (fun c => c ∉ sep) (body n v).
Proof.
  intros (Hn & Hv & _). unfold body. rewrite !Forall_app. split_and!; [| apply Hmarks |].
  - eapply list.Forall_impl; [exact Hn|]. by intros c (_ & ? & _).
  - eapply list.Forall_impl; [exact Hv|]. by intros c (_ & ?).
Qed.

(** A name matches only the body of a pair with that name. *)
Lemma match_name n n' v : name_ok n -> name_ok n' ->
  is_prefix n (body n' v) && is_prefix mark (drop (length n) (body n' v)) = bool_decide (n' = n).
Proof.
  destruct mark_first as (c & m & Hm & _). unfold body. revert n'.
  induction n as [|d n IH]; intros [|d' n'] Hn Hn'; cbn [app is_prefix length drop andb].
  - rewrite drop_0. by rewrite is_prefix_app, bool_decide_eq_true_2.
  - rewrite Hm. cbn [is_prefix]. inversion Hn' as [|? ? (_ & _ & Hd) _]; subst.
    destruct (Ascii.eqb_spec c d') as [<- |]; [|done]. destruct Hd. rewrite Hm. by left.
  - rewrite Hm. cbn [app is_prefix]. inversion Hn as [|? ? (_ & _ & Hd) _]; subst.
    destruct (Ascii.eqb_spec d c) as [-> |]; [|done]. destruct Hd. rewrite Hm. by left.
  - inversion Hn; inversion Hn'; subst. destruct (Ascii.eqb_spec d d') as [-> | Hne]; cbn [andb].
    + rewrite IH by done. apply bool_decide_ext. split; [by intros -> | by intros [= ->]].
    + symmetry. apply bool_decide_eq_false_2. intros [= ? ?]. congruence.
Qed.

Lemma index_loop_spec nt l n : rep nt l -> name_ok n ->
  forall k, (k <= length l)%nat ->
  index_loop (length l - k) nt (Z.of_nat k) n =
    Some (match pairs_index (drop k l) n with Some j => Z.of_nat (k + j) | None => - NVP_PARA_ERR end).
Proof.
  intros Hr Hn k Hk. remember (length l - k)%nat as m eqn:Hm. revert k Hk Hm.
  induction m as [|m IH]; intros k Hk Hm; cbn [index_loop].
  { rewrite drop_ge by lia. done. }
  destruct (lookup_lt_is_Some_2 l k) as [[n' v] Hl]; [lia|].
  destruct (rp_pairs _ _ Hr _ _ _ Hl) as [Hok Ht]. rewrite Ht, (rp_sep _ _ Hr), (rp_mark _ _ Hr).
  rewrite (drop_S _ _ _ Hl). cbn [mbind option_bind pairs_index].
  pose proof (match_name n n' v Hn (proj1 Hok)) as Hmatch. unfold entry.
  rewrite is_prefix_app, drop_app_length. cbn [negb].
  specialize (IH (S k) ltac:(lia) ltac:(lia)). rewrite Nat2Z.inj_succ, <- Z.add_1_r in IH.
  assert (Hnext : index_loop m nt (Z.of_nat k + 1) n = Some (match S <$> pairs_index (drop (S k) l) n with
    Some j => Z.of_nat (k + j) | None => - NVP_PARA_ERR end)).
  { rewrite IH. destruct (pairs_index (drop (S k) l) n) as [j|]; [|done]. cbn. do 2 f_equal. lia. }
  destruct (is_prefix n (body n' v)); cbn [negb andb] in *.
  - rewrite Hmatch. destruct (decide (n' = n)) as [->|Hne].
    + rewrite bool_decide_eq_true_2 by done. cbn [negb]. do 2 f_equal. lia.
    + rewrite bool_decide_eq_false_2 by done. exact Hnext.
  - destruct (decide (n' = n)) as [->|]; [|exact Hnext]. by rewrite bool_decide_eq_true_2 in Hmatch.
Qed.

Lemma index_spec nt l n : rep nt l -> name_ok n -> zlen n <= MAX_DATA_LEN ->
  nvp_get_pair_index nt n =
    Some (match pairs_index l n with Some j => Z.of_nat j | None => - NVP_PARA_ERR end).
Proof.
  intros Hr Hn Hlen. unfold nvp_get_pair_index. destruct (Z.ltb_spec MAX_DATA_LEN (zlen n)); [lia|].
  rewrite (rp_num _ _ Hr), Nat2Z.id. pose proof (index_loop_spec nt l n Hr Hn 0 ltac:(lia)) as H1.
  rewrite Nat.sub_0_r in H1. exact H1.
Qed.

Lemma pair_lens n v : pair_ok n v -> zlen n + zlen v < MAX_DATA_LEN /\ zlen n <= MAX_DATA_LEN.
Proof. intros (_ & _ & Hl). unfold entry, body in Hl. rewrite !length_app in Hl. lia. Qed.

Lemma with_nt_at {A} (bad : A) ok m nt l : rep nt l -> ok = true -> with_nt bad ok m (At nt) = m nt (At nt).
Proof. intros Hr ->. cbv [with_nt get_st mbind M_bind]. cbn [negb]. by rewrite (rp_magic _ _ Hr), Z.eqb_refl. Qed.

(** A pair goes into a place of a list. *)
Definition placed l k (x : cstr * cstr) (l' : pairs) : Prop :=
  ((k < length l)%nat /\ l' = <[k := x]> l) \/ (k = length l /\ l' = l ++ [x]).

Lemma placed_lookup l k x l' j y : placed l k x l' ->
  l' !! j = Some y -> (j = k /\ y = x) \/ (j <> k /\ l !! j = Some y).
Proof.
  intros [[Hk ->]|[-> ->]] Hj.
  - apply list_lookup_insert_Some in Hj as [(<- & <- & _)|[? ?]]; [by left|]. right. split; [congruence | done].
  - apply lookup_snoc_Some in Hj as [[? ?]|[-> ->]]; [right; split; [lia | done] | by left].
Qed.

Lemma placed_length l k x l' : placed l k x l' -> (length l <= length l')%nat /\ (k < length l')%nat.
Proof. intros [[Hk ->]|[-> ->]]; [rewrite length_insert; lia | rewrite length_app; cbn; lia]. Qed.

(** A pair goes into an area of the structure. *)
Lemma pair_written nt l k n v a nt' l' :
  rep nt l -> pair_ok n v -> placed l k (n, v) l' -> zlen l' <= MAX_CMD_NUM ->
  text a = Some (entry n v) -> zlen a = MAX_DATA_LEN ->
  magic nt' = MAGIC -> seperator nt' = seperator nt -> equal_mark nt' = equal_mark nt ->
  num_nvp nt' = zlen l' -> nvp nt' = <[k := a]> (nvp nt) -> rep nt' l'.
Proof.
  intros [] Hok Hl' Hmax Ht Ha H1 H2 H3 H4 H5. pose proof (placed_length _ _ _ _ Hl') as [Hle Hk].
  split; rewrite ?H1, ?H2, ?H3, ?H4, ?H5; try done.
  - by rewrite length_insert.
  - by apply Forall_insert.
  - intros j n' v' Hj. unfold pair_text in *. rewrite H5.
    destruct (placed_lookup _ _ _ _ _ _ Hl' Hj) as [[-> [= -> ->]]|[Hne Hj']].
    + rewrite geti_of_nat, list_lookup_insert_eq by lia. done.
    + rewrite geti_of_nat, list_lookup_insert_ne by done. rewrite <- geti_of_nat. by apply rp_pairs0.
  - intros j Hj Hjm. rewrite list_lookup_insert_ne by lia. apply rp_rest0; lia.
Qed.

Lemma geti_nvp nt l k : rep nt l -> Z.of_nat k < MAX_CMD_NUM ->
  exists a, geti (nvp nt) (Z.of_nat k) = Some a /\ zlen a = MAX_DATA_LEN /\
    forall a', seti (nvp nt) (Z.of_nat k) a' = Some (<[k := a']> (nvp nt)).
Proof.
  intros Hr Hk. pose proof (rp_len _ _ Hr) as Hl.
  destruct (lookup_lt_is_Some_2 (nvp nt) k) as [a Ha]; [lia|]. exists a.
  unfold geti, seti. destruct (Z.leb_spec 0 (Z.of_nat k)), (Z.ltb_spec (Z.of_nat k) (zlen (nvp nt))); try lia.
  rewrite Nat2Z.id. cbn [andb]. split; [done|]. split; [|done].
  eapply (list.Forall_lookup_1 _ _ _ _ (rp_areas _ _ Hr) Ha).
Qed.

Lemma set_spec nt l n v : rep nt l -> pair_ok n v ->
  is_Some (pairs_index l n) \/ zlen l < MAX_CMD_NUM ->
  exists nt', nvp_set_pair_str (Some n) (Some v) (At nt) = Ret NVP_SUCCESS (At nt') /\ rep nt' (pairs_set l n v).
Proof.
  intros Hr Hok Hroom. pose proof (pair_lens n v Hok) as [Hlen Hln].
  pose proof (entry_no_nul n v Hok) as Hnul. pose proof (pairs_set_index l n v) as Hset.
  unfold nvp_set_pair_str. rewrite (with_nt_at _ _ _ nt l Hr) by (apply Z.leb_le; lia).
  rewrite (bind_access _ _ _ _ (index_spec nt l n Hr (proj1 Hok) Hln)).
  rewrite (bind_access _ _ _ _ (rp_sep _ _ Hr)), (bind_access _ _ _ _ (rp_mark _ _ Hr)).
  change (sep ++ n ++ mark ++ v) with (entry n v).
  destruct (pairs_index l n) as [k|] eqn:Hi.
  - destruct Hset as [Hk Hset]. rewrite (proj2 (Z.ltb_ge _ _)) by lia.
    assert (Hkm : Z.of_nat k < MAX_CMD_NUM) by (pose proof (rp_most _ _ Hr); lia).
    destruct (geti_nvp nt l k Hr Hkm) as (a & _ & _ & Hput).
    destruct (sprintf_ok (zeroed MAX_DATA_LEN) (entry n v)) as (r & Hs & Hrl); [apply Hok|].
    rewrite (bind_access _ _ _ _ Hs). unfold set_area. rewrite Hput.
    eexists. split; [done|]. apply (pair_written nt l k n v (entry n v ++ NUL :: r)); try done; try lia.
    + left. by split.
    + rewrite Hset, length_insert. apply Hr.
    + by apply text_here.
    + apply Hr.
    + cbn. rewrite Hset, length_insert. apply Hr.
  - destruct Hroom as [[]|Hroom]; [done|]. cbn [Z.ltb Z.compare Z.opp].
    change (- NVP_PARA_ERR <? 0) with true. cbv iota.
    rewrite (rp_num _ _ Hr). destruct (geti_nvp nt l (length l) Hr Hroom) as (a & Hg & Hal & Hput).
    rewrite Hg. cbn [mbind option_bind].
    destruct (sprintf_ok a (entry n v)) as (r & Hs & Hrl); [rewrite Hal; apply Hok|].
    rewrite (bind_access _ _ _ _ Hs). unfold set_area. rewrite Hput. cbn [mbind option_bind].
    rewrite (bind_access _ _ _ _ eq_refl), bind_put.
    cbn [num_nvp alter_field]. rewrite (rp_num _ _ Hr). destruct (Z.ltb_spec MAX_CMD_NUM (zlen l + 1)); [lia|].
    eexists. split; [done|]. apply (pair_written nt l (length l) n v (entry n v ++ NUL :: r)); try done; try lia.
    + right. by split.
    + rewrite Hset, length_app. cbn [length]. lia.
    + by apply text_here.
    + apply Hr.
    + cbn. rewrite Hset, length_app. cbn [length]. lia.
Qed.

(** The first mark of a pair is the one behind its name. *)
Lemma mark_found n v : pair_ok n v ->
  strstr (entry n v) mark = Some (length (sep ++ n)) /\
  drop (length (sep ++ n) + length mark) (entry n v) = v.
Proof.
  intros (Hn & _). destruct mark_first as (c & m & Hm & _ & Hc). unfold entry, body.
  replace (sep ++ n ++ mark ++ v) with ((sep ++ n) ++ mark ++ v) by by rewrite <- app_assoc.
  split.
  - assert (Hskip : strstr ((sep ++ n) ++ mark ++ v) mark = Nat.add (length (sep ++ n)) <$> strstr (mark ++ v) mark).
    { rewrite Hm. apply strstr_skip_ne. apply Forall_app. split.
      - apply list.Forall_forall. by intros x Hx ->.
      - eapply list.Forall_impl; [exact Hn|]. intros x (_ & _ & Hx) ->. apply Hx. rewrite Hm. by left. }
    rewrite Hskip, strstr_head by apply is_prefix_app. cbn. by rewrite Nat.add_0_r.
  - rewrite <- length_app, app_assoc. by rewrite drop_app_length.
Qed.

(** The value of a name, an empty one counting as none. *)
Definition value_or (o def : option cstr) : option cstr :=
  match o with Some (c :: v) => Some (c :: v) | _ => def end.

Lemma get_spec nt l n def : rep nt l -> name_ok n -> zlen n <= MAX_DATA_LEN ->
  nvp_get_pair_str n def (At nt) = Ret (value_or (pairs_get l n) def) (At nt).
Proof.
  intros Hr Hn Hln. unfold nvp_get_pair_str. rewrite (with_nt_at _ _ _ nt l Hr) by (apply Z.leb_le; lia).
  rewrite (bind_access _ _ _ _ (index_spec nt l n Hr Hn Hln)), pairs_get_index.
  destruct (pairs_index l n) as [k|] eqn:Hi; [|done].
  destruct (Z.ltb_spec (Z.of_nat k) 0); [lia|].
  pose proof (pairs_set_index l n []) as Hk. rewrite Hi in Hk. destruct Hk as [Hk _].
  destruct (lookup_lt_is_Some_2 l k Hk) as [[n' v] Hl].
  destruct (rp_pairs _ _ Hr _ _ _ Hl) as [Hok Ht].
  rewrite (bind_access _ _ _ _ Ht), (bind_access _ _ _ _ (rp_mark _ _ Hr)). cbn [mbind option_bind].
  rewrite Hl. cbn [fmap option_fmap option_map snd].
  destruct (mark_found n' v Hok) as [Hf Hd]. rewrite Hf, Hd. by destruct v.
Qed.

(** ** The text of a structure *)

Definition message l : cstr := concat (map (fun p => entry (fst p) (snd p)) l).

Definition all_ok l : Prop := Forall (fun p => pair_ok (fst p) (snd p)) l.

Lemma rep_all_ok nt l : rep nt l -> all_ok l.
Proof. intros Hr. apply list.Forall_lookup_2. intros k [n v] Hk. by apply (rp_pairs _ _ Hr k). Qed.

Lemma message_length l : all_ok l -> zlen (message l) <= 99 * zlen l.
Proof.
  induction 1 as [|[n v] l [_ [_ Hl]] Hok IH]; [done|]. unfold message in *.
  cbn [map concat length fst snd] in *. rewrite length_app. unfold MAX_DATA_LEN in Hl. lia.
Qed.

Lemma message_no_nul l : all_ok l -> no_nul (message l).
Proof.
  induction 1 as [|[n v] l Hp Hok IH]; [constructor|]. apply Forall_app. split; [by apply entry_no_nul | exact IH].
Qed.

Lemma memcpy_at_end pre sz t : zlen t <= sz ->
  memcpy_at (pre ++ zeroed sz) (zlen pre) t = Some ((pre ++ t) ++ zeroed (sz - zlen t)).
Proof.
  intros Ht. unfold memcpy_at, memcpy. pose proof (zeroed_length sz ltac:(lia)) as Hz.
  rewrite Nat2Z.id, take_app_length, drop_app_length. destruct (Z.leb_spec 0 (zlen pre)); [|lia].
  destruct (Z.leb_spec (zlen pre) (zlen (pre ++ zeroed sz))); [|rewrite length_app in *; lia]. cbn [andb].
  destruct (Nat.leb_spec (length t) (length (zeroed sz))); [|lia]. cbn.
  by rewrite zeroed_drop, <- app_assoc by lia.
Qed.

Lemma fill_spec nt l sz pre k : rep nt l -> (k <= length l)%nat ->
  zlen (pre ++ message (drop k l)) <= sz ->
  fill_loop (length l - k) nt (Z.of_nat k) (zlen pre) (pre ++ zeroed (sz - zlen pre)) =
    Some (zlen (pre ++ message (drop k l)),
          (pre ++ message (drop k l)) ++ zeroed (sz - zlen (pre ++ message (drop k l)))).
Proof.
  intros Hr. remember (length l - k)%nat as m eqn:Hm. revert k pre Hm.
  induction m as [|m IH]; intros k pre Hm Hk Hn; cbn [fill_loop].
  { rewrite drop_ge by lia. unfold message. cbn [map concat]. by rewrite app_nil_r. }
  destruct (lookup_lt_is_Some_2 l k) as [[nm v] Hl]; [lia|].
  destruct (rp_pairs _ _ Hr _ _ _ Hl) as [Hok Ht]. rewrite Ht. cbn [mbind option_bind].
  rewrite (drop_S _ _ _ Hl) in Hn |- *.
  assert (Hmsg : forall r, message ((nm, v) :: r) = entry nm v ++ message r) by done.
  rewrite Hmsg, app_assoc in Hn |- *. pose proof Hn as Hn'. rewrite !length_app in Hn'.
  rewrite memcpy_at_end by lia.
  replace (sz - zlen pre - zlen (entry nm v)) with (sz - zlen (pre ++ entry nm v)) by (rewrite length_app; lia).
  replace (zlen pre + zlen (entry nm v)) with (zlen (pre ++ entry nm v)) by (rewrite length_app; lia).
  replace (Z.of_nat k + 1) with (Z.of_nat (S k)) by lia. by apply IH; [lia | lia|].
Qed.

Lemma text_zeroed s sz : no_nul s -> 0 < sz -> text (s ++ zeroed sz) = Some s.
Proof. intros Hs Hn. rewrite zeroed_cons by done. by apply text_here. Qed.

Lemma rep_message nt l len buf : rep nt l -> rep (nt <| str_len := len |> <| msg_buf := buf |>) l.
Proof. intros []. by split. Qed.

Lemma string_spec nt l : rep nt l ->
  exists nt', nvp_get_string (At nt) = Ret (Some (drop (length sep) (message l))) (At nt') /\ rep nt' l.
Proof.
  intros Hr. unfold nvp_get_string. rewrite (with_nt_at _ _ _ nt l Hr) by done.
  pose proof (message_length l (rep_all_ok nt l Hr)) as Hlen. pose proof (rp_most _ _ Hr) as Hmost.
  unfold MAX_CMD_NUM in Hmost. set (sz := MAX_CMD_NUM * MAX_DATA_LEN).
  assert (Hn : sz = 5000) by done.
  pose proof (fill_spec nt l sz [] 0 Hr ltac:(lia) ltac:(rewrite drop_0; cbn [app]; lia)) as Hfill.
  rewrite Nat.sub_0_r, drop_0 in Hfill. cbn [app] in Hfill. change (zlen []) with 0 in Hfill.
  rewrite Z.sub_0_r in Hfill. change (Z.of_nat 0) with 0 in Hfill.
  rewrite (rp_num _ _ Hr), Nat2Z.id, (bind_access _ _ _ _ Hfill). cbn beta iota.
  rewrite bind_put, (bind_access _ _ _ _ (rp_sep _ _ Hr)).
  eexists. split; [|by apply rep_message].
  assert (Ht : text (drop (length sep) (message l ++ zeroed (sz - zlen (message l)))) =
    Some (drop (length sep) (message l))).
  { destruct l as [|[nm v] l].
    - cbn [app message map concat]. rewrite zeroed_drop; [|destruct Hmarks as [Hs _ _ _]; unfold MAX_SEP_LEN in Hs; cbn; lia].
      rewrite drop_nil. apply (text_zeroed []); [constructor|].
      destruct Hmarks as [Hs _ _ _]. unfold MAX_SEP_LEN in Hs. cbn. lia.
    - pose proof (message_no_nul _ (rep_all_ok _ _ Hr)) as Hnn.
      rewrite drop_app_le.
      + apply text_zeroed; [|lia]. by apply Forall_drop.
      + unfold message. cbn [map concat fst snd]. unfold entry. rewrite !length_app. lia. }
  by rewrite (bind_access _ _ _ _ Ht).
Qed.

(** ** Parsing *)

Lemma clear_lookup m (ar : list area) k : (k + m <= length ar)%nat ->
  exists ar', clear_pairs m ar (Z.of_nat k) = Some ar' /\ length ar' = length ar /\
    forall j, ar' !! j = if decide (k <= j < k + m)%nat then Some (zeroed MAX_DATA_LEN) else ar !! j.
Proof.
  revert ar k. induction m as [|m IH]; intros ar k Hk; cbn [clear_pairs].
  { exists ar. split_and!; [done..|]. intros j. rewrite decide_False by lia. done. }
  assert (Hs : seti ar (Z.of_nat k) (zeroed MAX_DATA_LEN) = Some (<[k := zeroed MAX_DATA_LEN]> ar)).
  { unfold seti. rewrite (proj2 (Z.leb_le _ _)), (proj2 (Z.ltb_lt _ _)), Nat2Z.id by lia. done. }
  rewrite Hs. cbn [mbind option_bind]. replace (Z.of_nat k + 1) with (Z.of_nat (S k)) by lia.
  destruct (IH (<[k := zeroed MAX_DATA_LEN]> ar) (S k)) as (ar' & H1 & H2 & H3); [rewrite length_insert; lia|].
  exists ar'. rewrite length_insert in H2. split_and!; [done..|]. intros j. rewrite H3.
  destruct (decide (S k <= j < S k + m)%nat), (decide (k <= j < k + S m)%nat); try lia; try done.
  - assert (j = k) as -> by lia. apply list_lookup_insert_eq. lia.
  - apply list_lookup_insert_ne. lia.
Qed.

(** A structure whose pairs were cleared holds none. *)
Lemma cleared_rep nt l ar' : rep nt l -> clear_pairs (Z.to_nat (num_nvp nt)) (nvp nt) 0 = Some ar' ->
  forall nt', magic nt' = MAGIC -> seperator nt' = seperator nt -> equal_mark nt' = equal_mark nt ->
    nvp nt' = ar' -> num_nvp nt' = 0 -> rep nt' [].
Proof.
  intros Hr Hc nt' H1 H2 H3 H4 H5. destruct Hr. rewrite rp_num0, Nat2Z.id in Hc.
  destruct (clear_lookup (length l) (nvp nt) 0) as (ar1 & Har1 & Hlen & Hlook); [lia|].
  change (Z.of_nat 0) with 0 in Har1. rewrite Har1 in Hc. injection Hc as ->.
  assert (Hall : forall j, Z.of_nat j < MAX_CMD_NUM -> ar' !! j = Some (zeroed MAX_DATA_LEN)).
  { intros j Hj. rewrite Hlook. destruct (decide _); [done|]. apply rp_rest0; [lia | done]. }
  split; rewrite ?H1, ?H2, ?H3, ?H4, ?H5; try done; [by rewrite Hlen | | auto].
  apply list.Forall_lookup_2. intros j a Hj. assert (Hjl : (j < length ar')%nat) by by eapply lookup_lt_Some.
  rewrite Hall in Hj by lia. injection Hj as <-. done.
Qed.

Lemma strstr_apart (b : cstr) : Forall (fun c => c ∉ sep) b ->
  forall t, strstr (b ++ t) sep = Nat.add (length b) <$> strstr t sep.
Proof.
  destruct sep_first as (c & s & Hs). intros Hb t. rewrite Hs in *. apply strstr_skip_ne.
  eapply list.Forall_impl; [exact Hb|]. intros x Hx ->. apply Hx. by left.
Qed.

Lemma strstr_nil : strstr [] sep = None.
Proof. destruct sep_first as (c & s & ->). done. Qed.

Lemma strstr_message l : strstr (message l) sep = match l with [] => None | _ => Some O end.
Proof.
  destruct l as [|[n v] l]; [apply strstr_nil|]. apply strstr_head. unfold message. cbn [map concat fst snd].
  unfold entry. rewrite <- app_assoc. apply is_prefix_app.
Qed.

Lemma body_length n v : (0 < length (body n v))%nat.
Proof. destruct mark_first as (c & m & Hm & _). unfold body. rewrite Hm, !length_app. cbn. lia. Qed.

(** The loop on the text of [l], behind characters [b] that are not a separator's. *)
Lemma parse_spec l : forall fuel (b : cstr) nt l0,
  rep nt l0 -> all_ok l -> Forall (fun c => c ∉ sep) b -> (length l <= fuel)%nat ->
  zlen (l0 ++ l) <= MAX_CMD_NUM -> (0 < length (l0 ++ l))%nat ->
  exists nt', parse_loop fuel sep (b ++ message l) nt = Some (zlen (l0 ++ l), nt') /\ rep nt' (l0 ++ l).
Proof.
  induction l as [|[n v] l IH]; intros fuel b nt l0 Hr Hok Hb Hf Hmax Hpos.
  { rewrite (app_nil_r l0) in *. exists nt. split; [|done]. pose proof (rp_num _ _ Hr) as Hn.
    destruct fuel as [|fuel]; cbn [parse_loop]; [by rewrite Hn|].
    rewrite strstr_apart, strstr_message by done. cbn [fmap option_fmap option_map].
    destruct (Z.eqb_spec (num_nvp nt) 0); [lia|]. by rewrite Hn. }
  destruct fuel as [|fuel]; [cbn in Hf; lia|]. cbn [length] in Hf.
  apply list.Forall_cons_1 in Hok as [Hp Hok]. cbn [fst snd] in Hp. cbn [parse_loop].
  rewrite strstr_apart, strstr_message by done. cbn [fmap option_fmap option_map]. rewrite Nat.add_0_r.
  assert (Hm : message ((n, v) :: l) = sep ++ body n v ++ message l)
    by (unfold message; cbn [map concat fst snd]; unfold entry; by rewrite <- app_assoc).
  assert (Hidx : drop (length b + length sep) (b ++ message ((n, v) :: l)) = body n v ++ message l).
  { rewrite Hm. rewrite <- length_app, (app_assoc b). by rewrite drop_app_length. }
  rewrite Hidx. pose proof (body_apart n v Hp) as Hba.
  assert (Hroom : zlen l0 < MAX_CMD_NUM) by (rewrite length_app in Hmax; cbn [length] in Hmax; lia).
  pose proof (rp_num _ _ Hr) as Hnum. destruct (geti_nvp nt l0 (length l0) Hr Hroom) as (a & Hg & Hal & Hput).
  assert (Haz : a = zeroed MAX_DATA_LEN).
  { rewrite geti_of_nat in Hg. rewrite (rp_rest _ _ Hr (length l0)) in Hg by lia. by injection Hg. }
  destruct (memcpy_zeroed MAX_DATA_LEN (entry n v)) as (r & Hcp & Hrl); [apply Hp|].
  pose proof (entry_no_nul n v Hp) as Hnul.
  set (nt1 := (nt <| nvp := <[length l0 := entry n v ++ NUL :: r]> (nvp nt) |>) <| num_nvp := zlen l0 + 1 |>).
  assert (Hr1 : rep nt1 (l0 ++ [(n, v)])).
  { apply (pair_written nt l0 (length l0) n v (entry n v ++ NUL :: r)); try done.
    - by right.
    - rewrite length_app. cbn [length]. lia.
    - by apply text_here.
    - apply Hr.
    - cbn. rewrite length_app. cbn [length]. lia. }
  assert (Htake : forall k, k = length (entry n v) -> take k (drop (length b) (b ++ message ((n, v) :: l))) = entry n v).
  { intros k ->. rewrite drop_app_length, Hm. unfold entry. rewrite app_assoc. by rewrite take_app_length. }
  assert (Hcopy : forall k, k = length (entry n v) ->
    (a ← geti (nvp nt) (num_nvp nt); a ← memcpy a (take k (drop (length b) (b ++ message ((n, v) :: l))));
     nt ← set_area nt (num_nvp nt) a; Some (nt <| num_nvp := num_nvp nt + 1 |>)) = Some nt1).
  { intros k Hk. rewrite Hnum, Hg. cbn [mbind option_bind]. rewrite (Htake k Hk), Haz, Hcp. cbn [mbind option_bind].
    unfold set_area. rewrite Hput. cbn [mbind option_bind]. cbn [num_nvp alter_field]. by rewrite Hnum. }
  rewrite strstr_apart, strstr_message by done. pose proof (body_length n v) as Hbl.
  assert (Hel : length (entry n v) = (length sep + length (body n v))%nat) by (unfold entry; by rewrite length_app).
  destruct (IH fuel (body n v) nt1 (l0 ++ [(n, v)])) as (nt2 & Hp2 & Hr2);
    [done | done | done | lia | by rewrite <- app_assoc | rewrite !length_app; cbn; lia |].
  rewrite <- app_assoc in Hp2, Hr2. cbn [app] in Hp2, Hr2. exists nt2. split; [|exact Hr2]. rewrite <- Hp2.
  destruct l as [|p l]; cbn [fmap option_fmap option_map].
  - rewrite Hcopy; [done|]. rewrite Hm, !length_app. unfold message. cbn [map concat length]. lia.
  - rewrite Nat.add_0_r, (proj2 (Nat.ltb_lt _ _)) by lia. rewrite Hcopy; [done | lia].
Qed.

Lemma parse_message nt l0 l : rep nt l0 -> all_ok l -> l <> [] -> zlen l <= MAX_CMD_NUM ->
  exists nt', nvp_parse_string (Some (drop (length sep) (message l))) (At nt) = Ret (zlen l) (At nt') /\ rep nt' l.
Proof.
  intros Hr Hok Hne Hmax. pose proof (message_length l Hok) as Hlen. unfold nvp_parse_string.
  rewrite (with_nt_at _ _ _ nt l0 Hr) by done.
  assert (Hm : message l = sep ++ drop (length sep) (message l) /\ is_prefix sep (drop (length sep) (message l)) = false).
  { destruct l as [|[n v] l]; [done|]. unfold message. cbn [map concat fst snd]. unfold entry.
    rewrite <- app_assoc, drop_app_length. split; [done|]. apply list.Forall_cons_1 in Hok as [Hp _].
    destruct (is_prefix sep _) eqn:He; [|done]. pose proof (body_apart n v Hp) as Hb. pose proof (body_length n v).
    destruct (body n v) as [|c b]; [cbn in *; lia|]. destruct sep_first as (c' & s & Hs). rewrite Hs in *.
    cbn [app is_prefix] in He. destruct (Ascii.eqb_spec c' c) as [->|]; [|done].
    apply list.Forall_cons_1 in Hb as [Hb _]. destruct Hb. by left. }
  destruct Hm as [Hm Hpre]. set (str := drop (length sep) (message l)) in *.
  set (sz := MAX_CMD_NUM * MAX_DATA_LEN). assert (Hsz : sz = 5000) by done. unfold MAX_CMD_NUM in Hmax.
  assert (Hstr : zlen str + zlen sep = zlen (message l)) by (rewrite Hm, length_app; lia).
  rewrite (proj2 (Z.ltb_ge _ _)) by lia.
  destruct (clear_lookup (length l0) (nvp nt) 0) as (ar & Har & _);
    [pose proof (rp_len _ _ Hr); pose proof (rp_most _ _ Hr); lia|].
  assert (Hclear : clear_pairs (Z.to_nat (num_nvp nt)) (nvp nt) 0 = Some ar) by by rewrite (rp_num _ _ Hr), Nat2Z.id.
  rewrite (bind_access _ _ _ _ Hclear), (bind_access _ _ _ _ (rp_sep _ _ Hr)), Hpre.
  pose proof (memcpy_at_end [] sz sep ltac:(lia)) as H1. pose proof (memcpy_at_end sep (sz - zlen sep) str ltac:(lia)) as H2.
  rewrite <- Hm in H2. cbn [app] in H1.
  assert (Hcp : (b ← memcpy (zeroed sz) sep; memcpy_at b (zlen sep) str) =
    Some (message l ++ zeroed (sz - zlen sep - zlen str))).
  { assert (H1' : memcpy (zeroed sz) sep = Some (sep ++ zeroed (sz - zlen sep))).
    { unfold memcpy_at in H1. cbn [take drop app length] in H1. change (0 <=? 0) with true in H1.
      destruct (Z.leb_spec 0 (zlen (zeroed sz))); [|lia]. cbn [andb Z.to_nat Z.of_nat] in H1.
      rewrite drop_0 in H1. destruct (memcpy (zeroed sz) sep); [exact H1 | done]. }
    rewrite H1'. cbn [mbind option_bind]. exact H2. }
  rewrite (bind_access _ _ _ _ Hcp).
  assert (Ht : text (message l ++ zeroed (sz - zlen sep - zlen str)) = Some (message l))
    by (apply text_zeroed; [by apply message_no_nul | lia]).
  rewrite (bind_access _ _ _ _ Ht).
  edestruct (parse_spec l (Z.to_nat MAX_CMD_NUM) []) as (nt' & Hp & Hr');
    [eapply (cleared_rep nt l0 ar Hr Hclear) with (nt' := nt <| nvp := ar |> <| msg_buf := message l ++ zeroed (sz - zlen sep - zlen str) |> <| str_len := zlen (message l) |> <| num_nvp := 0 |>); try done; apply Hr
    | done | constructor | unfold MAX_CMD_NUM; lia | unfold MAX_CMD_NUM; cbn [app]; lia
    | destruct l; [done | cbn; lia] |].
  cbn [app] in Hp, Hr'. rewrite (bind_access _ _ _ _ Hp). exists nt'. by split.
Qed.

(** ** Runs of calls *)

Inductive nv_call :=
| Set_str n v | Set_int n (z : Z) | Get_str n (def : option cstr) | Get_int n (def : Z) | Count.

Definition run_call (c : nv_call) : M handle (Z + option cstr) :=
  match c with
  | Set_str n v => r ← nvp_set_pair_str (Some n) (Some v); mret (inl r)
  | Set_int n z => r ← nvp_set_pair_int (Some n) z; mret (inl r)
  | Get_str n def => r ← nvp_get_pair_str n def; mret (inr r)
  | Get_int n def => r ← nvp_get_pair_int n def; mret (inl r)
  | Count => r ← nvp_get_count; mret (inl r)
  end.

Fixpoint run_calls (cs : list nv_call) : M handle (list (Z + option cstr)) :=
  match cs with
  | [] => mret []
  | c :: cs => r ← run_call c; rs ← run_calls cs; mret (r :: rs)
  end.

(** The same on a list of pairs. *)
Definition int_or (o : option cstr) (def : Z) : Z :=
  match value_or o None with Some v => atoi v | None => def end.

Definition spec_call l (c : nv_call) : pairs * (Z + option cstr) :=
  match c with
  | Set_str n v => (pairs_set l n v, inl NVP_SUCCESS)
  | Set_int n z => (pairs_set l n (fmt_d 1 z), inl NVP_SUCCESS)
  | Get_str n def => (l, inr (value_or (pairs_get l n) def))
  | Get_int n def => (l, inl (int_or (pairs_get l n) def))
  | Count => (l, inl (zlen l))
  end.

Fixpoint spec_calls l (cs : list nv_call) : pairs * list (Z + option cstr) :=
  match cs with
  | [] => (l, [])
  | c :: cs => let '(l, r) := spec_call l c in let '(l, rs) := spec_calls l cs in (l, r :: rs)
  end.

(** What a call sets or asks for is well formed, and there is room for it. *)
Definition call_ok l (c : nv_call) : Prop :=
  match c with
  | Set_str n v => pair_ok n v
  | Set_int n z => pair_ok n (fmt_d 1 z)
  | Get_str n _ | Get_int n _ => name_ok n /\ zlen n <= MAX_DATA_LEN
  | Count => True
  end /\ zlen (fst (spec_call l c)) <= MAX_CMD_NUM.

Fixpoint calls_ok l (cs : list nv_call) : Prop :=
  match cs with [] => True | c :: cs => call_ok l c /\ calls_ok (fst (spec_call l c)) cs end.

Lemma room_for l n v : zlen (pairs_set l n v) <= MAX_CMD_NUM -> is_Some (pairs_index l n) \/ zlen l < MAX_CMD_NUM.
Proof.
  intros Hl. pose proof (pairs_set_index l n v) as Hs. destruct (pairs_index l n); [left; by eexists|right].
  rewrite Hs, length_app in Hl. cbn [length] in Hl. lia.
Qed.

Lemma call_refines c nt l : rep nt l -> call_ok l c ->
  exists nt', run_call c (At nt) = Ret (snd (spec_call l c)) (At nt') /\ rep nt' (fst (spec_call l c)).
Proof.
  intros Hr [Hc Hroom]. destruct c as [n v|n z|n def|n def|]; cbn [run_call spec_call fst snd] in *.
  - destruct (set_spec nt l n v Hr Hc (room_for _ _ _ Hroom)) as (nt' & H1 & H2). exists nt'.
    by rewrite (bind_ret _ _ _ _ _ H1).
  - destruct (set_spec nt l n (fmt_d 1 z) Hr Hc (room_for _ _ _ Hroom)) as (nt' & H1 & H2). exists nt'.
    unfold nvp_set_pair_int. by rewrite (bind_ret _ _ _ _ _ H1).
  - exists nt. rewrite (bind_ret _ _ _ _ _ (get_spec nt l n def Hr (proj1 Hc) (proj2 Hc))). by split.
  - exists nt. unfold nvp_get_pair_int. rewrite bind_assoc.
    rewrite (bind_ret _ _ _ _ _ (get_spec nt l n None Hr (proj1 Hc) (proj2 Hc))). unfold int_or.
    split; [by destruct (value_or _ None) | done].
  - exists nt. unfold nvp_get_count. assert (Hn : with_nt (- NVP_PARA_ERR) true (fun nt => mret (num_nvp nt)) (At nt)
      = Ret (zlen l) (At nt)) by (rewrite (with_nt_at _ _ _ nt l Hr) by done; by rewrite (rp_num _ _ Hr)).
    rewrite (bind_ret _ _ _ _ _ Hn). by split.
Qed.

Lemma nvp_calls_refine cs nt l : rep nt l -> calls_ok l cs ->
  exists nt', run_calls cs (At nt) = Ret (snd (spec_calls l cs)) (At nt') /\ rep nt' (fst (spec_calls l cs)).
Proof.
  revert nt l. induction cs as [|c cs IH]; intros nt l Hr Hok; cbn [run_calls spec_calls]; [by exists nt|].
  destruct Hok as [Hc Hok]. destruct (call_refines c nt l Hr Hc) as (nt1 & H1 & Hr1).
  rewrite (bind_ret _ _ _ _ _ H1). destruct (spec_call l c) as [l1 r]. cbn [fst snd] in *.
  destruct (IH nt1 l1 Hr1 Hok) as (nt2 & H2 & Hr2). rewrite (bind_ret _ _ _ _ _ H2).
  destruct (spec_calls l1 cs) as [l2 rs]. by exists nt2.
Qed.

(** A new structure, with a separator and a mark of one's own. *)
Definition new_structure (mem : NVP_T) : M handle Z :=
  nvp_create (Some mem) ;; nvp_set_equal_mark mark ;; nvp_set_seperator sep.

Lemma set_sep_spec nt (s : cstr) : magic nt = MAGIC -> zlen s < MAX_SEP_LEN ->
  exists r, nvp_set_seperator s (At nt) = Ret NVP_SUCCESS (At (nt <| seperator := s ++ NUL :: r |>)).
Proof.
  intros Hm Hl. destruct (memcpy_zeroed MAX_SEP_LEN s Hl) as (r & Hs & _). exists r.
  unfold nvp_set_seperator, with_nt. cbv [get_st mbind M_bind].
  rewrite (proj2 (Z.leb_le _ _)), Hm, Z.eqb_refl by lia. cbn [negb]. by rewrite Hs.
Qed.

Lemma set_mark_spec nt (s : cstr) : magic nt = MAGIC -> zlen s < MAX_MARK_LEN ->
  exists r, nvp_set_equal_mark s (At nt) = Ret 0 (At (nt <| equal_mark := s ++ NUL :: r |>)).
Proof.
  intros Hm Hl. destruct (memcpy_zeroed MAX_MARK_LEN s Hl) as (r & Hs & _). exists r.
  unfold nvp_set_equal_mark, with_nt. cbv [get_st mbind M_bind].
  rewrite (proj2 (Z.leb_le _ _)), Hm, Z.eqb_refl by lia. cbn [negb]. by rewrite Hs.
Qed.

Lemma new_spec mem h : exists nt, new_structure mem h = Ret 0 (At nt) /\ rep nt [].
Proof.
  destruct Hmarks as [[_ Hs] [_ Hm] [Hns Hnm] _].
  unfold new_structure, nvp_create. rewrite bind_assoc, bind_put. set (nt0 := alter_field str_len _ _ _).
  destruct (set_mark_spec nt0 nvp_default_equal_mark) as [r1 H1]; [done | done|].
  rewrite bind_assoc, (bind_ret _ _ _ _ _ H1). set (nt1 := alter_field equal_mark _ _ _).
  destruct (set_sep_spec nt1 nvp_default_seperator) as [r2 H2]; [done | done|].
  rewrite bind_assoc, (bind_ret _ _ _ _ _ H2). set (nt2 := alter_field seperator _ _ _).
  destruct (set_mark_spec nt2 mark) as [r3 H3]; [done | done|].
  rewrite (bind_ret (mret ()) _ (At nt2) () (At nt2) eq_refl). rewrite (bind_ret _ _ _ _ _ H3). set (nt3 := alter_field equal_mark _ _ nt2).
  destruct (set_sep_spec nt3 sep) as [r4 H4]; [done | done|]. eexists. split; [exact H4|].
  assert (Hareas : nvp (nt3 <| seperator := sep ++ NUL :: r4 |>) =
    replicate (Z.to_nat MAX_CMD_NUM) (zeroed MAX_DATA_LEN)) by reflexivity.
  split; try rewrite Hareas.
  - reflexivity.
  - by apply text_here.
  - by apply text_here.
  - reflexivity.
  - by rewrite length_replicate.
  - done.
  - by apply list.Forall_replicate.
  - intros k n v Hk. by rewrite lookup_nil in Hk.
  - intros k _ Hk. apply lookup_replicate. split; [done|]. unfold MAX_CMD_NUM in *. lia.
Qed.

(** What a run sets, in order. *)
Fixpoint sets_of (cs : list nv_call) : pairs :=
  match cs with
  | [] => []
  | Set_str n v :: cs => (n, v) :: sets_of cs
  | Set_int n z :: cs => (n, fmt_d 1 z) :: sets_of cs
  | _ :: cs => sets_of cs
  end.

Lemma spec_sets cs l :
  fst (spec_calls l cs) = fold_left (fun l c => pairs_set l (fst c) (snd c)) (sets_of cs) l.
Proof.
  revert l. induction cs as [|c cs IH]; intros l; [done|]. cbn [spec_calls].
  destruct c; cbn [spec_call sets_of fold_left fst snd]; rewrite <- IH; by destruct (spec_calls _ cs).
Qed.

(** C18. A structure with valid marks answers any run of calls as the list of the
    last value set for each name does: setting returns 0, a name that was not set, or
    was set to nothing, gives the default, and the number of pairs is that of the
    names. *)
Theorem structure_refines mem cs h : calls_ok [] cs ->
  exists nt, (new_structure mem ;; run_calls cs) h = Ret (snd (spec_calls [] cs)) (At nt) /\
    rep nt (fst (spec_calls [] cs)) /\
    forall n def, name_ok n -> zlen n <= MAX_DATA_LEN ->
      nvp_get_pair_str n def (At nt) = Ret (value_or (last_value (sets_of cs) n) def) (At nt).
Proof.
  intros Hok. destruct (new_spec mem h) as (nt0 & H0 & Hr0). rewrite (bind_ret _ _ _ _ _ H0).
  destruct (nvp_calls_refine cs nt0 [] Hr0 Hok) as (nt & H1 & Hr). exists nt. split_and!; [done..|].
  intros n def Hn Hl. rewrite (get_spec nt _ n def Hr Hn Hl). by rewrite spec_sets, pairs_set_calls.
Qed.

(** C19. What is set in a structure is read by whoever parses its text with the same
    separator and mark, whatever their structure held before: every name has the
    value last set for it, and a number its value. *)
Theorem message_read_back mem cs h nt0 l0 : calls_ok [] cs -> sets_of cs <> [] -> rep nt0 l0 ->
  exists s h1 nt k,
    (new_structure mem ;; run_calls cs ;; nvp_get_string) h = Ret (Some s) h1 /\
    nvp_parse_string (Some s) (At nt0) = Ret k (At nt) /\ 0 < k /\
    (forall n def, name_ok n -> zlen n <= MAX_DATA_LEN ->
      nvp_get_pair_str n def (At nt) = Ret (value_or (last_value (sets_of cs) n) def) (At nt)) /\
    forall n z def, name_ok n -> zlen n <= MAX_DATA_LEN -> - 2 ^ 31 <= z < 2 ^ 31 ->
      last_value (sets_of cs) n = Some (fmt_d 1 z) -> nvp_get_pair_int n def (At nt) = Ret z (At nt).
Proof.
  intros Hok Hne Hr0. destruct (new_spec mem h) as (nt1 & H1 & Hr1).
  destruct (nvp_calls_refine cs nt1 [] Hr1 Hok) as (nt2 & H2 & Hr2).
  destruct (string_spec nt2 _ Hr2) as (nt3 & H3 & Hr3). set (l := fst (spec_calls [] cs)) in *.
  assert (Hl : l = fold_left (fun l c => pairs_set l (fst c) (snd c)) (sets_of cs) []) by apply spec_sets.
  assert (Hlne : l <> []).
  { destruct (sets_of cs) as [|[n v] st _] eqn:Hst using rev_ind; [done|].
    rewrite Hl, fold_left_app. cbn [fold_left fst snd].
    destruct (fold_left _ st []) as [|[n' v'] r]; [done|]. cbn [pairs_set]. by destruct (decide (n' = n)). }
  destruct (parse_message nt0 l0 l Hr0 (rep_all_ok _ _ Hr3) Hlne (rp_most _ _ Hr3)) as (nt & Hp & Hr).
  assert (Hget : forall n def, name_ok n -> zlen n <= MAX_DATA_LEN ->
      nvp_get_pair_str n def (At nt) = Ret (value_or (last_value (sets_of cs) n) def) (At nt)).
  { intros n def Hn Hln. rewrite (get_spec nt l n def Hr Hn Hln). by rewrite Hl, pairs_set_calls. }
  exists (drop (length sep) (message l)), (At nt3), nt, (zlen l). split_and!; [ | done | | done |].
  - rewrite (bind_ret _ _ _ _ _ H1), (bind_ret _ _ _ _ _ H2). exact H3.
  - destruct l; [done | cbn [length]; lia].
  - intros n z def Hn Hln Hz Hv. unfold nvp_get_pair_int. rewrite (bind_ret _ _ _ _ _ (Hget n None Hn Hln)), Hv.
    destruct (fmt_d 1 z) as [|c v] eqn:Hf; [|cbn [value_or]; by rewrite <- Hf, atoi_fmt].
    pose proof (atoi_fmt 1 z Hz) as Ha. rewrite Hf in Ha. exfalso. revert Hf. unfold fmt_d.
    destruct (z <? 0) eqn:E; [done|]. apply Z.ltb_ge in E. intros Hf.
    destruct (fmt_d_spec 1 z) as (_ & _ & Hnn & _); [lia|]. apply Hnn. unfold fmt_d.
    by rewrite (proj2 (Z.ltb_ge _ _)).
Qed.
End Marks.

(** ** Deciding that calls are well formed *)

#[export] Instance no_nul_dec (s : cstr) : Decision (no_nul s).
Proof. unfold no_nul. apply _. Defined.
#[export] Instance pair_ok_dec sep mark n v : Decision (pair_ok sep mark n v).
Proof. unfold pair_ok, name_ok, value_ok. apply _. Defined.
#[export] Instance name_ok_dec sep mark n : Decision (name_ok sep mark n).
Proof. unfold name_ok. apply _. Defined.
#[export] Instance call_ok_dec sep mark l c : Decision (call_ok sep mark l c).
Proof. unfold call_ok. destruct c; apply _. Defined.
#[export] Instance calls_ok_dec sep mark cs : forall l, Decision (calls_ok sep mark l cs).
Proof. induction cs as [|c cs IH]; intros l; cbn [calls_ok]; apply _. Defined.

(** ** The set-up message of the test program *)

Definition test_sep : cstr := lit "&&".
Definition test_mark : cstr := lit "==".
Definition garbage : NVP_T :=
  {| magic := 7; str_len := 7; num_nvp := 7; seperator := []; equal_mark := []; nvp := []; msg_buf := [] |}.

Definition test_calls : list nv_call :=
  [Set_str (lit "cmd") (lit "set_factory"); Set_int (lit "seq") 209; Set_int (lit "seq") 210;
   Set_str (lit "board_seq") (lit "gt3.61"); Get_int (lit "seq") 0; Get_str (lit "batch") None; Count].

Lemma test_marks_ok : marks_ok test_sep test_mark.
Proof.
  split; [done | done | split; constructor; [done | by constructor | done | by constructor] |].
  apply (bool_decide_eq_true_1 (Forall _ _)). vm_compute. reflexivity.
Qed.

Lemma test_calls_ok : calls_ok test_sep test_mark [] test_calls.
Proof. apply (bool_decide_eq_true_1 (calls_ok _ _ _ _)). vm_compute. reflexivity. Qed.

Lemma structure_refines_witness :
  exists nt, (new_structure test_sep test_mark garbage ;; run_calls test_calls) Null =
    Ret [inl 0; inl 0; inl 0; inl 0; inl 210; inr None; inl 3] (At nt) /\ rep test_sep test_mark nt
      [(lit "cmd", lit "set_factory"); (lit "seq", lit "210"); (lit "board_seq", lit "gt3.61")].
Proof.
  destruct (structure_refines test_sep test_mark test_marks_ok garbage test_calls Null test_calls_ok)
    as (nt & H1 & H2 & _). exists nt.
  assert (Hs : spec_calls [] test_calls =
    ([(lit "cmd", lit "set_factory"); (lit "seq", lit "210"); (lit "board_seq", lit "gt3.61")],
     [inl 0; inl 0; inl 0; inl 0; inl 210; inr None; inl 3])) by (vm_compute; reflexivity).
  rewrite Hs in H1, H2. split; [exact H1 | exact H2].
Defined.

Lemma message_read_back_witness :
  exists nt0, new_structure test_sep test_mark garbage Freed = Ret 0 (At nt0) /\
  exists s h1 nt k,
    (new_structure test_sep test_mark garbage ;; run_calls test_calls ;; nvp_get_string) Null = Ret (Some s) h1 /\
    nvp_parse_string (Some s) (At nt0) = Ret k (At nt) /\
    nvp_get_pair_str (lit "cmd") None (At nt) = Ret (Some (lit "set_factory")) (At nt) /\
    nvp_get_pair_int (lit "seq") 0 (At nt) = Ret 210 (At nt).
Proof.
  destruct (new_spec test_sep test_mark test_marks_ok garbage Freed) as (nt0 & H0 & Hr0).
  exists nt0. split; [exact H0|].
  destruct (message_read_back test_sep test_mark test_marks_ok garbage test_calls Null nt0 [] test_calls_ok
    ltac:(done) Hr0) as (s & h1 & nt & k & H1 & H2 & _ & H3 & H4).
  exists s, h1, nt, k. split; [exact H1|]. split; [exact H2|]. split.
  - apply (H3 (lit "cmd") None); [|done]. apply (bool_decide_eq_true_1 (name_ok _ _ _)). vm_compute. reflexivity.
  - apply (H4 (lit "seq") 210 0); [| by vm_compute | lia | by vm_compute]. apply (bool_decide_eq_true_1 (name_ok _ _ _)). vm_compute. reflexivity.
Defined.
