(* ===== verification/Alarm.v ===== *)
(** * Alarm inputs (src/ipmain/alarm_process.c, hdmodapi.c; src/mp_hdmodule_m/process_modcmd.c)

    The main process reads the alarm inputs as bits, decides which of them are
    alarms - the input is armed and the time is in its interval - keeps the alarms in
    the device's trigger state, and on a change acts: relays, sounds, playback, and a
    message to the recorder, which starts a recording.  The state is the trigger state
    with what was sent; the mutexes are free when they are locked. *)

From S2P Require Import Prelude Update Ctime Recorder.

Definition MAX_TRIG_EVENT : Z := 10.

(** The linkage of an input or of a motion detector. *)
Record alarm_trigin_struct := {
  setalarm : Z; imact : list Z; ackact : list Z; rstact : list Z;
  starthour : Z; startmin : Z; endhour : Z; endmin : Z
}.

(** [quad_motion] are the hours of the motion detectors, as (start hour, start minute,
    end hour, end minute). *)
Record ipmain_para_struct := {
  trigin : list alarm_trigin_struct; motion : list alarm_trigin_struct;
  quad_motion : list (Z * Z * Z * Z); playback_enable : Z; alarm_trigin_video_ch : list Z;
  multi_channel_enable : Z
}.

(** What is sent to the rest of the system. *)
Inductive alarm_call :=
| Scr_full (n : Z) | Scr_quad | Relay_output (out value : Z)
| Aplay_rtimage (vch : Z) | Aplay_videoenc (vch : Z)
| Dev_trig (alarmstate : Z) | Alarm_log (alarmstate : Z)
| Trig_record (ch trig reclen : Z) | Playback (ch : Z).

(** [reg_trig_state] is the device's trigger state, a DWORD; [pb] the playback marks. *)
Record alarm_st := {
  reg_trig_state : Z; alarm_playback_ch : Z; pb : list Z; sent : list alarm_call
}.

#[export] Instance alarm_settable : Settable alarm_st := {| rebuild := fun s =>
  Build_alarm_st (reg_trig_state s) (alarm_playback_ch s) (pb s) (sent s) |}.

Definition send (c : alarm_call) : M alarm_st () := modify (fun s => s <| sent ::= fun l => l ++ [c] |>).

Section Alarm.
(** The numbers of inputs and of cameras, whether there is a quad, the zone, the time
    and how many alarm sounds play then, and the parameters. *)
Variables (trigin_num video_num : Z) (quad_flag : bool) (zone now trigger_playnum : Z) (para : ipmain_para_struct).

(** ** When an input is an alarm *)

(** The minutes of an interval, [start] and [stop] included; equal ends are the whole
    day. *)
Definition in_minutes (timestart timestop timenow : Z) : Z :=
  if (timestart <? timestop) && ((timestart <=? timenow) && (timenow <=? timestop)) then 1
  else if (timestop <? timestart) &&
          ((0 <=? timenow) && (timenow <=? 1440) && ((timenow <=? timestop) || (timestart <=? timenow))) then 1
  else if timestart =? timestop then 1 else 0.

Definition interval_at (h m h' m' : Z) : Z :=
  let p := localtime zone now in in_minutes (h * 60 + m) (h' * 60 + m') (tm_hour p * 60 + tm_min p).

Definition is_alarm_interval (type number : Z) : option Z :=
  if type =? 1 then
    if (trigin_num <=? number) || (number <? 0) then Some 0
    else t ← geti (trigin para) number;
      Some (interval_at (starthour t) (startmin t) (endhour t) (endmin t))
  else if type =? 2 then
    if (video_num <=? number) || (number <? 0) then Some 0
    else '(h, m, h', m') ← geti (quad_motion para) number; Some (interval_at h m h' m')
  else Some (- EINVAL).

(** ** What is linked to it *)

Definition get_alarm_event (ch type event : Z) : option Z :=
  if (trigin_num + video_num <=? ch) || (MAX_TRIG_EVENT <? event + 1) || (2 <? type) then Some 0
  else
    t ← (if ch <? trigin_num then geti (trigin para) ch else geti (motion para) (ch - trigin_num));
    if type =? 0 then geti (imact t) event
    else if type =? 1 then geti (ackact t) event
    else if type =? 2 then geti (rstact t) event else Some 0.

(** [/] and [%] of C. *)
Definition take_alarm_action (alarm_chn event : Z) : M alarm_st Z :=
  vch ← access (geti (alarm_trigin_video_ch para) alarm_chn);
  if (29 <? event) && (event <? 34) && quad_flag then send (Scr_full (event - 30)) ;; mret 0
  else if (event =? 34) && quad_flag then send Scr_quad ;; mret 0
  else if event =? 0 then mret 0
  else if (event <? 9) && (0 <? event) then
    send (Relay_output (Z.quot (event - 1) 2) (Z.rem event 2)) ;; mret 0
  else if event =? 40 then
    (if trigger_playnum =? 0 then send (Aplay_rtimage vch) ;; send (Aplay_videoenc vch) else mret ()) ;; mret 0
  else if (event <=? 58) && (50 <? event) then
    let out := Z.quot (event - 51) 2 in let value := Z.rem event 2 in
    send (Relay_output out value) ;; send (Relay_output out (1 - value)) ;;
    send (Relay_output out value) ;; mret 0
  else mret 0.

(** ** The inputs *)

(** The bit of input [i] in the trigger state. *)
Definition bit_of (i : Z) : Z := if i <? 10 then i else i + 16.
Definition bit (w i : Z) : Z := Z.land (Z.shiftr w i) 1.

(** The channel recorded for input [i]. *)
Definition video_of (i : Z) : option Z :=
  if multi_channel_enable para =? 0 then Some 0 else geti (alarm_trigin_video_ch para) i.

Fixpoint linked_actions (n : nat) (i j : Z) : M alarm_st () :=
  match n with
  | O => mret ()
  | S n =>
      event ← access (get_alarm_event i 0 j);
      take_alarm_action i event ;; linked_actions n i (j + 1)
  end.

(** One input of the loop: [actual] collects the alarms. *)
Definition input_round (trig oldtrig oldstate i actual : Z) : M alarm_st Z :=
  if bit trig i =? 0 then mret actual else
  t ← access (geti (trigin para) i);
  let quiet := (if bit oldtrig i =? 0
                then ch ← access (video_of i); send (Trig_record ch 0 0) else mret ()) ;; mret actual in
  if negb (setalarm t =? 1) then quiet else
  flag ← access (is_alarm_interval 1 i);
  if negb (flag =? 1) then quiet else
  let k := bit_of i in
  if 32 <=? k then undef else
  let actual := Z.lor actual (Z.shiftl 1 k) in
  if bit oldstate k =? 1 then mret actual
  else linked_actions (Z.to_nat MAX_TRIG_EVENT) i 0 ;; mret actual.

Fixpoint inputs_loop (n : nat) (trig oldtrig oldstate i actual : Z) : M alarm_st Z :=
  match n with
  | O => mret actual
  | S n => actual ← input_round trig oldtrig oldstate i actual;
      inputs_loop n trig oldtrig oldstate (i + 1) actual
  end.

(** ** Playback of the alarm *)

Definition set_pb (i : Z) : M alarm_st () :=
  s ← get_st; l ← access (seti (pb s) i 1); put_st (s <| pb := l |>).

(** A new alarm of input [i] with a camera that can be played back. *)
Definition new_playback (actual oldstate i : Z) : option (option Z) :=
  let k := bit_of i in
  if 32 <=? k then None
  else if (bit actual k =? 1) && negb (bit oldstate k =? 1) then
    ch ← geti (alarm_trigin_video_ch para) i;
    Some (if (0 <=? ch) && (ch <=? 4) then Some ch else None)
  else Some None.

(** One channel is recorded: the playback channel becomes 4 when there are several. *)
Fixpoint playback_loop (n : nat) (actual oldstate i count : Z) : M alarm_st Z :=
  match n with
  | O => mret count
  | S n =>
      c ← access (new_playback actual oldstate i);
      count ← (match c with
               | None => mret count
               | Some ch =>
                   set_pb i ;;
                   s ← get_st;
                   (if negb (alarm_playback_ch s =? -1) && negb (ch =? alarm_playback_ch s)
                    then put_st (s <| alarm_playback_ch := 4 |>)
                    else if negb (ch =? alarm_playback_ch s)
                    then put_st (s <| alarm_playback_ch := ch |>) else mret ()) ;;
                   mret (count + 1)
               end);
      playback_loop n actual oldstate (i + 1) count
  end.

(** Every camera is recorded; [reclen] is not set in this mode. *)
Fixpoint multi_loop (n : nat) (actual oldstate alarmstate reclen i : Z) : M alarm_st () :=
  match n with
  | O => mret ()
  | S n =>
      c ← access (new_playback actual oldstate i);
      (match c with
       | None => mret ()
       | Some ch =>
           set_pb i ;;
           (if negb (playback_enable para =? 0) then send (Playback ch) else mret ()) ;;
           send (Trig_record ch alarmstate reclen)
       end) ;;
      multi_loop n actual oldstate alarmstate reclen (i + 1)
  end.

(** [junk]: the value of [reclen], which is set only when one channel is recorded. *)
Definition process_trigin_event (junk trig oldtrig : Z) : M alarm_st Z :=
  let n := Z.to_nat trigin_num in
  oldstate ← gets reg_trig_state;
  actual ← inputs_loop n trig oldtrig oldstate 0 0;
  let diff := Z.lxor oldstate actual in
  (if negb (diff =? 0) then modify (fun s => s <| reg_trig_state := actual |>) else mret ()) ;;
  (if negb (actual =? 0) && negb (diff =? 0) then
     alarmstate ← gets reg_trig_state;
     send (Dev_trig alarmstate) ;; send (Alarm_log alarmstate) ;;
     if multi_channel_enable para =? 0 then
       send (Trig_record 0 alarmstate 0) ;;
       count ← playback_loop n actual oldstate 0 0;
       if (0 <? count) && negb (playback_enable para =? 0)
       then s ← get_st; send (Playback (alarm_playback_ch s)) else mret ()
     else multi_loop n actual oldstate alarmstate junk 0
   else mret ()) ;;
  mret 0.

End Alarm.

(** ** The recorder's side of the message *)

(** The trigger is a [WORD] there. *)
Definition process_trig_record_event (channel trig_flag reclen : Z) : M rec_st Z :=
  trig_record_event (get_hdch channel) (trig_flag mod 2 ^ 16) reclen.

Definition receive (c : alarm_call) : M rec_st () :=
  match c with
  | Trig_record ch trig reclen => process_trig_record_event ch trig reclen ;; mret ()
  | _ => mret ()
  end.
