(* ===== verification/AlarmThms.v ===== *)
(** * Alarms act on their edges, and are recorded

    An input's linked actions are carried out when it becomes an alarm, once until it
    is one again, whatever the other inputs do; a change of the alarms while there is
    one starts the recorder. *)

From S2P Require Import Prelude Update Ctime Recorder Alarm.

(** ** Intervals of the day *)

(** The minutes from the start to now are at most those from the start to the end,
    round the clock. *)
Lemma in_minutes_spec s e n : 0 <= s < 1440 -> 0 <= e < 1440 -> 0 <= n < 1440 ->
  in_minutes s e n = if (s =? e) || ((n - s) mod 1440 <=? (e - s) mod 1440) then 1 else 0.
Proof.
  intros Hs He Hn. unfold in_minutes.
  assert (Hmod : forall x, 0 <= x < 1440 -> (x - s) mod 1440 = if x <? s then x - s + 1440 else x - s).
  { intros x Hx. destruct (Z.ltb_spec x s).
    - rewrite <- (Z.mod_add (x - s) 1) by lia. apply Z.mod_small. lia.
    - apply Z.mod_small. lia. }
  rewrite !Hmod by done.
  destruct (Z.ltb_spec e s), (Z.ltb_spec n s); zcase; done.
Qed.

Lemma bit_testbit w i : 0 <= i -> bit w i = Z.b2z (Z.testbit w i).
Proof.
  intros Hi. unfold bit. change 1 with (Z.ones 1). rewrite Z.land_ones by lia. change (2 ^ 1) with 2.
  rewrite <- (Z.add_0_l i) at 2. rewrite <- Z.shiftr_spec by lia. by rewrite Z.bit0_mod.
Qed.

Section Inputs.
Variables (trigin_num video_num : Z) (quad_flag : bool) (zone : Z) (players : Z -> Z) (para : ipmain_para_struct).

(** The device has at most 16 inputs, and the parameters speak of them all. *)
Record para_ok : Prop := {
  po_num : 0 <= trigin_num <= 16;
  po_video : 0 <= video_num;
  po_trigin : trigin_num <= zlen (trigin para);
  po_events : Forall (fun t => length (imact t) = 10%nat) (trigin para);
  po_ch : trigin_num <= zlen (alarm_trigin_video_ch para)
}.
Context (Hpara : para_ok).
Implicit Types (s : alarm_st) (now trig w i : Z).

(** ** What the inputs mean *)

Definition inputs : list Z := seqZ 0 trigin_num.

Definition alarm_in now trig i : bool :=
  match geti (trigin para) i with
  | Some t => Z.testbit trig i && (setalarm t =? 1) &&
              (interval_at zone now (starthour t) (startmin t) (endhour t) (endmin t) =? 1)
  | None => false
  end.

Definition word_with now trig w i : Z := if alarm_in now trig i then Z.lor w (Z.shiftl 1 (bit_of i)) else w.
Definition alarm_word now trig : Z := fold_left (word_with now trig) inputs 0.

(** The calls of an event, and of the events linked to an input. *)
Definition action_calls (play vch event : Z) : list alarm_call :=
  if (29 <? event) && (event <? 34) && quad_flag then [Scr_full (event - 30)]
  else if (event =? 34) && quad_flag then [Scr_quad]
  else if event =? 0 then []
  else if (event <? 9) && (0 <? event) then [Relay_output (Z.quot (event - 1) 2) (Z.rem event 2)]
  else if event =? 40 then if play =? 0 then [Aplay_rtimage vch; Aplay_videoenc vch] else []
  else if (event <=? 58) && (50 <? event) then
    let out := Z.quot (event - 51) 2 in let value := Z.rem event 2 in
    [Relay_output out value; Relay_output out (1 - value); Relay_output out value]
  else [].

Definition linkage now i : list alarm_call :=
  match geti (trigin para) i, geti (alarm_trigin_video_ch para) i with
  | Some t, Some vch => flat_map (action_calls (players now) vch) (imact t)
  | _, _ => []
  end.

(** [s] after sending [l]. *)
Definition sending (l : list alarm_call) s : alarm_st :=
  Build_alarm_st (reg_trig_state s) (alarm_playback_ch s) (pb s) (sent s ++ l).

Lemma sending_nil s : sending [] s = s.
Proof. unfold sending. rewrite app_nil_r. by destruct s. Qed.
Lemma sending_app l l' s : sending l' (sending l s) = sending (l ++ l') s.
Proof. unfold sending. cbn. by rewrite app_assoc. Qed.

Lemma in_inputs i : In i inputs <-> 0 <= i < trigin_num.
Proof. rewrite <- list_elem_of_In. unfold inputs. rewrite elem_of_seqZ. lia. Qed.

Lemma input_para i : 0 <= i < trigin_num -> exists t vch,
  geti (trigin para) i = Some t /\ length (imact t) = 10%nat /\ geti (alarm_trigin_video_ch para) i = Some vch.
Proof.
  intros Hi. destruct Hpara. destruct (geti_is_Some (trigin para) i) as [t Ht]; [lia|].
  destruct (geti_is_Some (alarm_trigin_video_ch para) i) as [c Hc]; [lia|].
  exists t, c. split_and!; [done | | done]. rewrite geti_to_nat in Ht by lia.
  by apply (list.Forall_lookup_1 _ _ _ _ po_events0 Ht).
Qed.

(** ** What the code does *)

Lemma send_spec c s : send c s = Ret () (sending [c] s).
Proof. by destruct s. Qed.

Lemma action_spec play i vch event s : geti (alarm_trigin_video_ch para) i = Some vch ->
  take_alarm_action quad_flag play para i event s = Ret 0 (sending (action_calls play vch event) s).
Proof.
  intros Hv. unfold take_alarm_action, action_calls. rewrite (bind_access _ _ _ _ Hv).
  repeat match goal with |- context [if ?c then _ else _] => destruct c end;
    rewrite ?bind_assoc, ?(bind_ret _ _ _ _ _ (send_spec _ _)), ?bind_assoc, ?(bind_ret _ _ _ _ _ (send_spec _ _)), ?sending_app; cbn [app]; rewrite ?sending_nil; done.
Qed.

Lemma event_spec i t j : 0 <= i < trigin_num -> geti (trigin para) i = Some t -> 0 <= j < MAX_TRIG_EVENT ->
  get_alarm_event trigin_num video_num para i 0 j = geti (imact t) j.
Proof.
  intros Hi Ht Hj. destruct Hpara. unfold get_alarm_event.
  rewrite (proj2 (Z.leb_gt _ _)), (proj2 (Z.ltb_ge _ _)), (proj2 (Z.ltb_lt i trigin_num)) by lia.
  cbn [orb]. by rewrite Ht.
Qed.

Lemma linked_spec play i t vch n j s : 0 <= i < trigin_num ->
  geti (trigin para) i = Some t -> length (imact t) = 10%nat -> geti (alarm_trigin_video_ch para) i = Some vch ->
  (n + j = 10)%nat ->
  linked_actions trigin_num video_num quad_flag play para n i (Z.of_nat j) s =
    Ret () (sending (flat_map (action_calls play vch) (drop j (imact t))) s).
Proof.
  intros Hi Ht Hl Hv. revert j s. induction n as [|n IH]; intros j s Hj; cbn [linked_actions].
  { rewrite drop_ge by lia. by rewrite sending_nil. }
  destruct (lookup_lt_is_Some_2 (imact t) j) as [e He]; [lia|].
  rewrite (event_spec i t) by (done || unfold MAX_TRIG_EVENT; lia). rewrite geti_of_nat.
  rewrite (bind_access _ _ _ _ He), (bind_ret _ _ _ _ _ (action_spec play i vch e s Hv)).
  replace (Z.of_nat j + 1) with (Z.of_nat (S j)) by lia. rewrite IH by lia.
  by rewrite (drop_S _ _ _ He), sending_app.
Qed.

(** What one input sends. *)
Definition input_calls now trig oldtrig old i : list alarm_call :=
  if negb (Z.testbit trig i) then []
  else if alarm_in now trig i then (if Z.testbit old (bit_of i) then [] else linkage now i)
  else if Z.testbit oldtrig i then []
  else match video_of para i with Some ch => [Trig_record ch 0 0] | None => [] end.

Lemma video_of_Some i : 0 <= i < trigin_num -> is_Some (video_of para i).
Proof.
  intros Hi. unfold video_of. destruct (multi_channel_enable para =? 0); [by eexists|].
  destruct (input_para i Hi) as (t & c & _ & _ & ->). by eexists.
Qed.

Lemma bit_of_range i : 0 <= i < trigin_num -> 0 <= bit_of i < 32.
Proof. intros Hi. destruct Hpara. unfold bit_of. zcase. Qed.

Lemma input_spec now trig oldtrig old i w s : 0 <= i < trigin_num ->
  input_round trigin_num video_num quad_flag zone now (players now) para trig oldtrig old i w s =
    Ret (word_with now trig w i) (sending (input_calls now trig oldtrig old i) s).
Proof.
  intros Hi. destruct (input_para i Hi) as (t & vch & Ht & Hl & Hv). destruct (video_of_Some i Hi) as [ch Hch].
  pose proof (bit_of_range i Hi) as Hb.
  unfold input_round, word_with, input_calls, alarm_in, is_alarm_interval. rewrite Ht, Hch, !bit_testbit by lia.
  assert (Hquiet : ((if Z.b2z (Z.testbit oldtrig i) =? 0
                     then ch ← access (Some ch); send (Trig_record ch 0 0) else mret ()) ;; mret w) s =
    Ret w (sending (if Z.testbit oldtrig i then [] else [Trig_record ch 0 0]) s)).
  { destruct (Z.testbit oldtrig i); cbn [Z.b2z]; [by rewrite sending_nil | by destruct s]. }
  destruct (Z.testbit trig i); cbn [Z.b2z negb andb]; [|by rewrite sending_nil].
  change (1 =? 0) with false. cbv iota zeta.
  rewrite (bind_access _ _ _ _ eq_refl).
  destruct (setalarm t =? 1); cbn [negb andb]; [|exact Hquiet].
  change (1 =? 1) with true. cbv iota. rewrite (proj2 (Z.leb_gt trigin_num i)), (proj2 (Z.ltb_ge i 0)) by lia. cbn [orb].
  cbn [mbind option_bind]. rewrite (bind_access _ _ _ _ eq_refl).
  destruct (_ =? 1); cbn [negb]; [|exact Hquiet].
  rewrite (proj2 (Z.leb_gt 32 _)) by lia.
  destruct (Z.testbit old (bit_of i)); cbn [Z.b2z]; [by rewrite sending_nil|].
  pose proof (linked_spec (players now) i t vch 10 0 s Hi Ht Hl Hv eq_refl) as Hlk. change (Z.of_nat 0) with 0 in Hlk.
  change (Z.to_nat MAX_TRIG_EVENT) with 10%nat. change (0 =? 1) with false. cbv iota.
  rewrite (bind_ret _ _ _ _ _ Hlk). unfold linkage. by rewrite Ht, Hv, drop_0.
Qed.

Lemma loop_spec now trig oldtrig old n i w s : 0 <= i -> i + Z.of_nat n = trigin_num ->
  inputs_loop trigin_num video_num quad_flag zone now (players now) para n trig oldtrig old i w s =
    Ret (fold_left (word_with now trig) (seqZ i (Z.of_nat n)) w)
        (sending (flat_map (input_calls now trig oldtrig old) (seqZ i (Z.of_nat n))) s).
Proof.
  intros Hi. revert i w s Hi. induction n as [|n IH]; intros i w s Hi Hn; cbn [inputs_loop].
  { cbn. by rewrite sending_nil. }
  rewrite (bind_ret _ _ _ _ _ (input_spec now trig oldtrig old i w s ltac:(lia))), IH by lia.
  rewrite (seqZ_cons i) by lia. cbn [fold_left flat_map].
  replace (Z.pred (Z.of_nat (S n))) with (Z.of_nat n) by lia. change (Z.succ i) with (i + 1).
  by rewrite sending_app.
Qed.

(** The relays, screens and sounds among what was sent, and the messages. *)
Definition linked (c : alarm_call) : bool :=
  match c with Scr_full _ | Scr_quad | Relay_output _ _ | Aplay_rtimage _ | Aplay_videoenc _ => true | _ => false end.
Definition others_of (l : list alarm_call) : Prop := Forall (fun c => linked c = false) l.

Lemma filter_others l : others_of l -> List.filter linked l = [].
Proof. induction 1 as [|c l Hc _ IH]; [done|]. cbn. by rewrite Hc. Qed.

Lemma filter_linkage now i : List.filter linked (linkage now i) = linkage now i.
Proof.
  unfold linkage. destruct (geti (trigin para) i) as [t|]; [|done].
  destruct (geti _ i) as [vch|]; [|done].
  induction (imact t) as [|e l IH]; [done|]. cbn [flat_map]. rewrite filter_app, IH. f_equal.
  unfold action_calls. repeat match goal with |- context [if ?c then _ else _] => destruct c end; done.
Qed.

Lemma filter_input now trig oldtrig old i :
  List.filter linked (input_calls now trig oldtrig old i) =
    if alarm_in now trig i && negb (Z.testbit old (bit_of i)) then linkage now i else [].
Proof.
  unfold input_calls. destruct (Z.testbit trig i) eqn:Ht; cbn [negb].
  - destruct (alarm_in now trig i); cbn [andb].
    + destruct (Z.testbit old _); [done|]. apply filter_linkage.
    + destruct (Z.testbit oldtrig i); [done|]. by destruct (video_of para i).
  - assert (Ha : alarm_in now trig i = false).
    { unfold alarm_in. destruct (geti _ i); [|done]. by rewrite Ht. }
    by rewrite Ha.
Qed.

Lemma filter_flat {A} (f : A -> list alarm_call) l :
  List.filter linked (flat_map f l) = flat_map (fun a => List.filter linked (f a)) l.
Proof. induction l as [|a l IH]; [done|]. cbn [flat_map]. by rewrite filter_app, IH. Qed.

(** ** Playback *)

(** The trigger state and the linked calls stay. *)
Definition quieter s s' : Prop :=
  reg_trig_state s' = reg_trig_state s /\ length (pb s') = length (pb s) /\
  exists l, sent s' = sent s ++ l /\ others_of l.

Lemma quieter_refl s : quieter s s.
Proof. split; [done|]. split; [done|]. exists []. split; [by rewrite app_nil_r | constructor]. Qed.

Lemma quieter_trans s s1 s2 : quieter s s1 -> quieter s1 s2 -> quieter s s2.
Proof.
  intros (H1 & H2 & l & H3 & H4) (H5 & H6 & l' & H7 & H8). split; [congruence|]. split; [congruence|].
  exists (l ++ l'). split; [by rewrite H7, H3, app_assoc | by apply Forall_app].
Qed.

Lemma quieter_send c s : linked c = false -> quieter s (sending [c] s).
Proof. intros Hc. split; [done|]. split; [done|]. exists [c]. split; [done | by repeat constructor]. Qed.

Lemma set_pb_spec i s : 0 <= i < zlen (pb s) -> exists s', set_pb i s = Ret () s' /\ quieter s s' /\ sent s' = sent s.
Proof.
  intros Hi. unfold set_pb, seti. cbv [get_st mbind M_bind].
  rewrite (proj2 (Z.leb_le _ _)), (proj2 (Z.ltb_lt _ _)) by lia. cbn.
  eexists. split; [done|]. split; [|done]. split; [done|]. split; [apply length_insert|].
  exists []. split; [by rewrite app_nil_r | constructor].
Qed.

Lemma new_playback_Some actual old i : 0 <= i < trigin_num -> is_Some (new_playback para actual old i).
Proof.
  intros Hi. pose proof (bit_of_range i Hi). unfold new_playback. rewrite (proj2 (Z.leb_gt 32 _)) by lia.
  destruct (input_para i Hi) as (_ & c & _ & _ & ->). destruct (_ && _); by eexists.
Qed.

Lemma playback_spec n : forall actual old i count s, 0 <= i -> i + Z.of_nat n = trigin_num ->
  trigin_num <= zlen (pb s) ->
  exists count' s', playback_loop para n actual old i count s = Ret count' s' /\ quieter s s' /\ sent s' = sent s.
Proof.
  induction n as [|n IH]; intros actual old i count s Hi Hn Hpb; cbn [playback_loop].
  { exists count, s. split; [done|]. split; [apply quieter_refl | done]. }
  destruct (new_playback_Some actual old i ltac:(lia)) as [c Hc]. rewrite (bind_access _ _ _ _ Hc).
  destruct c as [ch|].
  2: { rewrite (bind_ret _ _ s count s) by done. apply IH; lia. }
  destruct (set_pb_spec i s ltac:(lia)) as (s1 & Hs1 & Hq1 & Hsent1). rewrite bind_assoc, (bind_ret _ _ _ _ _ Hs1).
  assert (Hif : exists s2, (s ← get_st;
     (if negb (alarm_playback_ch s =? -1) && negb (ch =? alarm_playback_ch s)
      then put_st (s <| alarm_playback_ch := 4 |>)
      else if negb (ch =? alarm_playback_ch s)
      then put_st (s <| alarm_playback_ch := ch |>) else mret ()) ;; mret (count + 1)) s1 = Ret (count + 1) s2 /\
    quieter s1 s2 /\ sent s2 = sent s1).
  { cbv [get_st mbind M_bind]. destruct (_ && _); [|destruct (negb _)]; cbn; eexists; (split; [done|]); split; try done;
      (split; [done|]; split; [done|]; exists []; split; [by rewrite app_nil_r | constructor]). }
  destruct Hif as (s2 & Hs2 & Hq2 & Hsent2). rewrite (bind_ret _ _ _ _ _ Hs2).
  pose proof (quieter_trans _ _ _ Hq1 Hq2) as Hq. pose proof (proj1 (proj2 Hq)) as Hlen.
  destruct (IH actual old (i + 1) (count + 1) s2) as (c' & s' & H1 & H2 & H3); [lia | lia | lia|].
  exists c', s'. split; [done|]. split; [by eapply quieter_trans | congruence].
Qed.

Lemma multi_spec n : forall actual old st len i s, 0 <= i -> i + Z.of_nat n = trigin_num ->
  trigin_num <= zlen (pb s) ->
  exists s', multi_loop para n actual old st len i s = Ret () s' /\ quieter s s'.
Proof.
  induction n as [|n IH]; intros actual old st len i s Hi Hn Hpb; cbn [multi_loop].
  { exists s. split; [done | apply quieter_refl]. }
  destruct (new_playback_Some actual old i ltac:(lia)) as [c Hc]. rewrite (bind_access _ _ _ _ Hc).
  destruct c as [ch|].
  2: { rewrite (bind_ret _ _ s () s) by done. apply IH; lia. }
  destruct (set_pb_spec i s ltac:(lia)) as (s1 & Hs1 & Hq1 & _). rewrite bind_assoc, (bind_ret _ _ _ _ _ Hs1).
  assert (Hsend : exists s2, ((if negb (playback_enable para =? 0) then send (Playback ch) else mret ()) ;;
      send (Trig_record ch st len)) s1 = Ret () s2 /\ quieter s1 s2).
  { destruct (negb _).
    - rewrite (bind_ret _ _ _ _ _ (send_spec _ _)), send_spec. eexists. split; [done|].
      eapply quieter_trans; by apply quieter_send.
    - rewrite (bind_ret _ _ s1 () s1), send_spec by done. eexists. split; [done | by apply quieter_send]. }
  destruct Hsend as (s2 & Hs2 & Hq2). rewrite (bind_ret _ _ _ _ _ Hs2).
  pose proof (quieter_trans _ _ _ Hq1 Hq2) as Hq. pose proof (proj1 (proj2 Hq)) as Hlen.
  destruct (IH actual old st len (i + 1) s2) as (s' & H1 & H2); [lia | lia | lia|].
  exists s'. split; [done | by eapply quieter_trans].
Qed.

(** ** A call *)

Lemma word_testbit now trig l w k : 0 <= k -> Forall (fun i => 0 <= bit_of i) l ->
  Z.testbit (fold_left (word_with now trig) l w) k =
    Z.testbit w k || existsb (fun i => (bit_of i =? k) && alarm_in now trig i) l.
Proof.
  intros Hk Hl. revert w. induction Hl as [|i l Hi Hl IH]; intros w; cbn [fold_left existsb]; [by rewrite orb_false_r|].
  rewrite IH, orb_assoc. f_equal. unfold word_with. destruct (alarm_in now trig i); [|by rewrite andb_false_r, orb_false_r].
  rewrite Z.lor_spec, Z.shiftl_spec, andb_true_r by lia. f_equal. destruct (Z.eqb_spec (bit_of i) k) as [<-|Hne].
  - by rewrite Z.sub_diag.
  - destruct (Z.ltb_spec k (bit_of i)); [by apply Z.testbit_neg_r; lia|].
    change 1 with (2 ^ 0). rewrite Z.pow2_bits_eqb by lia. apply Z.eqb_neq. lia.
Qed.

Lemma word_bit now trig i : 0 <= i < trigin_num ->
  Z.testbit (alarm_word now trig) (bit_of i) = alarm_in now trig i.
Proof.
  intros Hi. pose proof (bit_of_range i Hi). unfold alarm_word. rewrite word_testbit; [| lia |].
  - rewrite Z.bits_0. cbn [orb]. apply eq_true_iff_eq. rewrite existsb_exists. split.
    + intros (j & Hj & [He Ha]%andb_true_iff). apply in_inputs in Hj. apply Z.eqb_eq in He.
      assert (j = i) as ->; [|done]. revert He. unfold bit_of. zcase.
    + intros Ha. exists i. split; [by apply in_inputs|]. by rewrite Z.eqb_refl.
  - apply list.Forall_forall. intros j Hj%list_elem_of_In%in_inputs. by apply bit_of_range.
Qed.

(** The device's message, the log and, when one channel is recorded, its recording. *)
Definition change_calls old w : list alarm_call :=
  if negb (w =? 0) && negb (old =? w)
  then [Dev_trig w; Alarm_log w] ++ (if multi_channel_enable para =? 0 then [Trig_record 0 w 0] else [])
  else [].

Definition process now junk trig oldtrig : M alarm_st Z :=
  process_trigin_event trigin_num video_num quad_flag zone now (players now) para junk trig oldtrig.

Lemma process_spec now junk trig oldtrig s : trigin_num <= zlen (pb s) ->
  let w := alarm_word now trig in let old := reg_trig_state s in
  exists s' l, process now junk trig oldtrig s = Ret 0 s' /\ reg_trig_state s' = w /\ length (pb s') = length (pb s) /\
    sent s' = (sent s ++ flat_map (input_calls now trig oldtrig old) inputs ++ change_calls old w) ++ l /\
    others_of l /\ (multi_channel_enable para = 0 -> Forall (fun c => exists ch, c = Playback ch) l).
Proof.
  intros Hpb w old. pose proof (po_num Hpara) as Hnum. unfold process, process_trigin_event.
  rewrite (bind_ret _ _ s old s) by done.
  pose proof (loop_spec now trig oldtrig old (Z.to_nat trigin_num) 0 0 s ltac:(lia) ltac:(lia)) as Hloop.
  rewrite Z2Nat.id in Hloop by lia. change (fold_left _ _ 0) with w in Hloop.
  rewrite (bind_ret _ _ _ _ _ Hloop). cbv zeta. set (s1 := sending _ s).
  set (s2 := Build_alarm_st w (alarm_playback_ch s1) (pb s1) (sent s1)).
  assert (Hreg : (if negb (Z.lxor old w =? 0) then modify (fun s => s <| reg_trig_state := w |>) else mret ()) s1 = Ret () s2).
  { destruct (Z.eqb_spec (Z.lxor old w) 0) as [Hx|]; [|done]. apply Z.lxor_eq in Hx. unfold s2. rewrite <- Hx. done. }
  rewrite (bind_ret _ _ _ _ _ Hreg).
  assert (Hdiff : (Z.lxor old w =? 0) = (old =? w)).
  { apply eq_true_iff_eq. rewrite !Z.eqb_eq. split; [apply Z.lxor_eq | intros ->; apply Z.lxor_nilpotent]. }
  rewrite Hdiff. unfold change_calls. destruct (negb (w =? 0) && negb (old =? w)).
  2: { exists s2, []. split; [done|]. split; [done|]. split; [done|]. rewrite !app_nil_r.
       split; [done|]. split; constructor. }
  rewrite bind_assoc, (bind_ret _ _ s2 w s2) by done. rewrite bind_assoc, (bind_ret _ _ _ _ _ (send_spec _ _)).
  rewrite bind_assoc, (bind_ret _ _ _ _ _ (send_spec _ _)), sending_app. cbn [app].
  destruct (multi_channel_enable para =? 0) eqn:Hmulti.
  - rewrite bind_assoc, (bind_ret _ _ _ _ _ (send_spec _ _)), sending_app. cbn [app].
    set (s3 := sending _ s2). destruct (playback_spec (Z.to_nat trigin_num) w old 0 0 s3) as (c & s4 & Hp & Hq & Hsent);
      [lia | lia | done|]. rewrite bind_assoc, (bind_ret _ _ _ _ _ Hp). destruct Hq as (Hr & Hlen & _).
    assert (Hsent3 : sent s3 = sent s ++ flat_map (input_calls now trig oldtrig old) inputs ++ [Dev_trig w; Alarm_log w; Trig_record 0 w 0])
      by (unfold s3, sending, s2, s1; cbn; by rewrite <- app_assoc).
    destruct ((0 <? c) && negb (playback_enable para =? 0)).
    + exists (sending [Playback (alarm_playback_ch s4)] s4), [Playback (alarm_playback_ch s4)].
      split_and!; [by destruct s4 | done | done | | by repeat constructor | by repeat econstructor].
      unfold sending. cbn [sent]. by rewrite Hsent, Hsent3.
    + exists s4, []. rewrite app_nil_r, Hsent. split_and!; [done | done | done | exact Hsent3 | constructor | constructor].
  - set (s3 := sending _ s2).
    destruct (multi_spec (Z.to_nat trigin_num) w old w junk 0 s3) as (s4 & Hp & Hr & Hlen & l & Hl & Ho); [lia | lia | done|].
    rewrite (bind_ret _ _ _ _ _ Hp). exists s4, l. split_and!; [done | done | done | | done |].
    + rewrite Hl. unfold s3, sending, s2, s1. cbn. by rewrite <- !app_assoc.
    + intros H0. by rewrite H0 in Hmulti.
Qed.

(** ** Runs *)

(** The inputs at given times, one call after the other, as the board's thread makes
    them. *)
Fixpoint run_inputs (steps : list (Z * Z)) (junk oldtrig : Z) : M alarm_st () :=
  match steps with
  | [] => mret ()
  | (now, trig) :: steps => process now junk trig oldtrig ;; run_inputs steps junk trig
  end.

(** The actions of the inputs that become alarms, [prev] those that were. *)
Fixpoint edges (steps : list (Z * Z)) (prev : Z -> bool) : list alarm_call :=
  match steps with
  | [] => []
  | (now, trig) :: steps =>
      flat_map (fun i => if alarm_in now trig i && negb (prev i) then linkage now i else []) inputs ++
      edges steps (alarm_in now trig)
  end.

Lemma edges_ext steps prev prev' : (forall i, 0 <= i < trigin_num -> prev i = prev' i) ->
  edges steps prev = edges steps prev'.
Proof.
  intros Hp. destruct steps as [|[now trig] steps]; [done|]. cbn [edges]. f_equal.
  assert (Hin : Forall (fun i => 0 <= i < trigin_num) inputs)
    by (apply list.Forall_forall; by intros i Hi%list_elem_of_In%in_inputs).
  induction Hin as [|i l Hi _ IH]; [done|]. cbn [flat_map]. by rewrite IH, Hp.
Qed.

(** C28. Whatever the inputs do, in order and in time, the actions linked to an input
    are carried out exactly when it becomes an alarm: armed, in its interval, and not
    an alarm at the call before. *)
Theorem alarms_on_edges steps junk oldtrig s : trigin_num <= zlen (pb s) ->
  exists s', run_inputs steps junk oldtrig s = Ret () s' /\
    List.filter linked (sent s') =
      List.filter linked (sent s) ++ edges steps (fun i => Z.testbit (reg_trig_state s) (bit_of i)).
Proof.
  revert oldtrig s. induction steps as [|[now trig] steps IH]; intros oldtrig s Hpb; cbn [run_inputs edges].
  { exists s. by rewrite app_nil_r. }
  destruct (process_spec now junk trig oldtrig s Hpb) as (s1 & l & H1 & Hr & Hlen & Hs & Hl & _).
  rewrite (bind_ret _ _ _ _ _ H1). destruct (IH trig s1 ltac:(lia)) as (s2 & H2 & Hs2). exists s2. split; [done|].
  rewrite Hs2, Hs, !filter_app, (filter_others l Hl), app_nil_r, filter_flat.
  assert (Hc : List.filter linked (change_calls (reg_trig_state s) (alarm_word now trig)) = []).
  { unfold change_calls. destruct (_ && _); [|done]. by destruct (_ =? 0). }
  rewrite Hc, app_nil_r, <- app_assoc. f_equal. f_equal.
  - apply flat_map_ext. intros i. apply filter_input.
  - apply edges_ext. intros i Hi. rewrite Hr. by apply word_bit.
Qed.
End Inputs.

(** Two armed inputs, one around the clock and one from 8:00 to 18:30. *)
Definition example_trigin : list alarm_trigin_struct :=
  [Build_alarm_trigin_struct 1 [1; 40; 0; 0; 0; 0; 0; 0; 0; 0] [] [] 0 0 0 0;
   Build_alarm_trigin_struct 1 [51; 0; 0; 0; 0; 0; 0; 0; 0; 0] [] [] 8 0 18 30].

Definition example_para : ipmain_para_struct :=
  Build_ipmain_para_struct example_trigin [] [] 1 [0; -1] 0.

Definition example_alarm : alarm_st := Build_alarm_st 0 (-1) [0; 0] [].

Definition no_players : Z -> Z := fun _ => 0.

Lemma example_para_ok : para_ok 2 1 example_para.
Proof. split; [lia | lia | done | by repeat constructor | done]. Qed.

(** The second input is no alarm at 7:00; the first goes on while the second starts
    at 8:00, and starts again after a pause. *)
Lemma alarms_on_edges_witness :
  exists s', run_inputs 2 1 true 0 no_players example_para [(25200, 3); (28800, 3); (28801, 2); (28802, 3)] 0 0 example_alarm
      = Ret () s' /\
    List.filter linked (sent s') =
      [Relay_output 0 1; Aplay_rtimage 0; Aplay_videoenc 0; Relay_output 0 1; Relay_output 0 0; Relay_output 0 1; Relay_output 0 1; Aplay_rtimage 0; Aplay_videoenc 0].
Proof.
  destruct (alarms_on_edges 2 1 true 0 no_players example_para example_para_ok
    [(25200, 3); (28800, 3); (28801, 2); (28802, 3)] 0 0 example_alarm) as (s' & Hr & Hs).
  - vm_compute. discriminate.
  - exists s'. split; [exact Hr|]. rewrite Hs. vm_compute. reflexivity.
Defined.
