(* ===== verification/AlarmRecord.v ===== *)
(** * From an alarm input to the recording

    The main process's messages, received by the recorder: an input that becomes an
    alarm is recorded for its time. *)

From Stdlib Require Import Ascii String.
From S2P Require Import Prelude Update Ctime Cstring RecName AlarmLog AlarmLogThms Recorder RecorderSys RecorderSpec RecorderThms RecorderRuns Alarm AlarmThms.

(** What a message asks of the recorder. *)
Definition rcall_of (c : alarm_call) : option rcall :=
  match c with Trig_record ch tr reclen => Some (R_trig ch (tr mod 2 ^ 16) reclen) | _ => None end.

(** The recorder's loop takes the messages in their order. *)
Fixpoint deliver (l : list alarm_call) : M rec_st () :=
  match l with [] => mret () | c :: l => receive c ;; deliver l end.

Lemma omap_app {A B} (f : A -> option B) l l' : omap f (l ++ l') = omap f l ++ omap f l'.
Proof. apply list.omap_app. Qed.

Section Deliver.
Variables (zone : Z) (rename : cstr -> cstr -> cstr -> Z) (aenc_attrib venc_attrib : Z -> bool).
Variables (e : log_env) (part0 : list ascii).
Abbreviation run := (run_rcalls zone rename aenc_attrib venc_attrib e part0).

Lemma deliver_run l cs s : (deliver l ;; run cs) s = run (omap rcall_of l ++ cs) s.
Proof.
  revert s. induction l as [|c l IH]; intros s; [done|]. cbn [deliver]. rewrite bind_assoc.
  destruct c; cbn [omap list_omap rcall_of receive]; try exact (IH s).
  cbn [app run_rcalls run_rcall]. unfold process_trig_record_event.
  cbv [mbind M_bind]. cbv [mret M_ret]. destruct (trig_record_event _ _ _ s) as [a s1| | |]; try done.
  exact (IH s1).
Qed.
End Deliver.

Section Messages.
Variables (quad_flag : bool) (zone : Z) (players : Z -> Z) (para : ipmain_para_struct).
Context (Hone : multi_channel_enable para = 0).

Lemma linked_no_message l : Forall (fun c => linked c = true) l -> omap rcall_of l = [].
Proof. induction 1 as [|c l Hc _ IH]; [done|]. cbn. by destruct c. Qed.

Lemma linkage_linked now i : Forall (fun c => linked c = true) (linkage quad_flag players para now i).
Proof.
  rewrite <- filter_linkage. apply Forall_forall. intros c Hc. apply filter_In in Hc. apply Hc.
Qed.

(** The inputs ask the recorder only for motion, of channel 0. *)
Lemma input_messages now trig oldtrig old l :
  Forall (fun c => c = R_trig 0 0 0)
    (omap rcall_of (flat_map (input_calls quad_flag zone players para now trig oldtrig old) l)).
Proof.
  induction l as [|i l IH]; [constructor|]. cbn [flat_map]. rewrite omap_app. apply Forall_app. split; [|done].
  unfold input_calls. destruct (Z.testbit trig i); cbn [negb]; [|constructor].
  destruct (alarm_in _ _ _ _ _).
  - destruct (Z.testbit old _); [constructor|]. by rewrite linked_no_message by apply linkage_linked.
  - destruct (Z.testbit oldtrig i); [constructor|]. unfold video_of. rewrite Hone. by repeat constructor.
Qed.

Lemma playbacks_no_message l : Forall (fun c => exists ch, c = Playback ch) l -> omap rcall_of l = [].
Proof. induction 1 as [|c l [ch ->] _ IH]; [done|]. exact IH. Qed.
End Messages.

Lemma events_for_app i cs cs' : events_for i (cs ++ cs') = events_for i cs ++ events_for i cs'.
Proof. apply omap_app. Qed.

(** An alarm after other calls. *)
Lemma recorded_after zone rename aenc venc e part0 s ch tr reclen pre cs h :
  rec_ok zone part0 s -> 0 <= ch < 4 -> geti (g_hdenc s) ch = Some h -> enable h <> 0 ->
  0 < tr -> 0 <= reclen -> Forall rcall_ok pre -> Forall rcall_ok cs -> ~ In (R_clear ch) cs ->
  zlen (filter (fun c => c = R_second) cs) < reclen + dly_rec h ->
  exists s' h', run_rcalls zone rename aenc venc e part0 (pre ++ R_trig ch tr reclen :: cs) s = Ret () s' /\
    geti (g_hdenc s') ch = Some h' /\ state h' = 2 /\ Z.land (trig h') tr = tr.
Proof.
  intros Hok Hch Hh Hen Htr Hl Hpre Hcs Hclear Hn.
  assert (Hall : Forall rcall_ok (pre ++ R_trig ch tr reclen :: cs)).
  { apply Forall_app. split; [done|]. constructor; [cbn; lia | done]. }
  destruct (run_refines zone rename aenc venc e part0 _ s Hok Hall) as (s' & Hr & _ & H).
  destruct (H ch h Hch Hh) as (h' & Hh' & _ & Ht). exists s', h'. split; [done|]. split; [done|].
  destruct (Hok ch Hch) as (h0 & Hh0 & Hchan). assert (h0 = h) as -> by congruence.
  rewrite events_for_app in Ht. unfold t_run in Ht. rewrite fold_left_app in Ht.
  fold (t_run (config_of h) (events_for ch pre) (timer_of h)) in Ht. set (t0 := t_run _ _ _) in Ht.
  unfold events_for in Ht. cbn [omap list_omap event_for] in Ht. rewrite Z.eqb_refl in Ht.
  pose proof (alarm_raised (config_of h) tr reclen t0 (ok_config _ _ _ Hchan) Hen ltac:(lia) Hl) as Hal.
  apply (alarm_left_run (config_of h) (events_for ch cs) tr) in Hal; [| apply Hchan | by apply events_for_ok
    | intros Hin; by apply Hclear, events_for_clear | lia].
  rewrite events_for_seconds in Hal. destruct Hal as [_ Hal].
  change (timer_of h' = t_run (config_of h) (events_for ch cs)
    (t_step (config_of h) (Ev_trig tr reclen) t0)) in Ht.
  rewrite <- Ht in Hal. apply Hal. cbn. lia.
Qed.

Lemma land_self_bit a b i : Z.land a b = b -> Z.testbit b i = true -> Z.testbit a i = true.
Proof. intros <-. rewrite Z.land_spec. by intros []%andb_true_iff. Qed.

(** C12. With one recorded channel, an input below 10 that becomes an alarm is
    recorded: the main process's call and the recorder's handling of the messages it
    sends return, and then, whatever else is asked of the recorder, as long as the
    trigger is not cleared and fewer than [dly_rec] seconds pass, channel 0 records
    for an alarm and the input is among those it is marked with. *)
Theorem alarm_input_recorded trigin_num video_num quad_flag zone players para now junk ins oldins i a
    rzone rename aenc venc e part0 r h cs :
  para_ok trigin_num video_num para -> multi_channel_enable para = 0 -> trigin_num <= zlen (pb a) ->
  sent a = [] -> 0 <= i < 10 -> i < trigin_num ->
  alarm_in zone para now ins i = true -> Z.testbit (reg_trig_state a) i = false ->
  rec_ok rzone part0 r -> geti (g_hdenc r) 0 = Some h -> enable h <> 0 ->
  Forall rcall_ok cs -> ~ In (R_clear 0) cs -> zlen (filter (fun c => c = R_second) cs) < dly_rec h ->
  exists a' r' h',
    process_trigin_event trigin_num video_num quad_flag zone now (players now) para junk ins oldins a = Ret 0 a' /\
    (deliver (sent a') ;; run_rcalls rzone rename aenc venc e part0 cs) r = Ret () r' /\
    geti (g_hdenc r') 0 = Some h' /\ state h' = 2 /\ Z.testbit (trig h') i = true.
Proof.
  intros Hpara Hone Hpb Hsent Hi Hin Hal Hnew Hok Hh Hen Hcs Hclear Hsec.
  destruct (process_spec _ video_num quad_flag zone players para Hpara now junk ins oldins a Hpb)
    as (a' & l & Ha & _ & _ & Hs & _ & Hl). cbv zeta in Hs. set (w := alarm_word _ _ _ _ _) in Hs.
  assert (Hbit : Z.testbit w i = true).
  { pose proof (word_bit _ video_num zone para Hpara now ins i ltac:(lia)) as Hb.
    unfold bit_of in Hb. rewrite (proj2 (Z.ltb_lt _ _)) in Hb by lia. by rewrite <- Hal. }
  assert (Hmsg : omap rcall_of (sent a') = omap rcall_of
    (flat_map (input_calls quad_flag zone players para now ins oldins (reg_trig_state a)) (inputs trigin_num))
    ++ [R_trig 0 (w mod 2 ^ 16) 0]).
  { rewrite Hs, Hsent, !omap_app, (playbacks_no_message l) by auto. cbn [app omap list_omap]. rewrite app_nil_r.
    f_equal. unfold change_calls. rewrite Hone.
    assert (w <> 0) by (intros H0; by rewrite H0, Z.bits_0 in Hbit).
    assert (reg_trig_state a <> w) by (intros H0; congruence).
    by rewrite !(proj2 (Z.eqb_neq _ _)) by done. }
  set (pre := omap rcall_of (flat_map _ _)) in Hmsg.
  assert (Hpre : Forall rcall_ok pre).
  { eapply list.Forall_impl; [by apply input_messages | by intros c ->]. }
  assert (Hb' : Z.testbit (w mod 2 ^ 16) i = true) by (rewrite Z.mod_pow2_bits_low by lia; done).
  destruct (recorded_after rzone rename aenc venc e part0 r 0 (w mod 2 ^ 16) 0 pre cs h)
    as (r' & h' & Hr & Hh' & Hst & Htr); try done; try lia.
  { pose proof (Z.mod_pos_bound w (2 ^ 16) ltac:(lia)). destruct (Z.eq_dec (w mod 2 ^ 16) 0) as [H0|]; [|lia].
    by rewrite H0, Z.bits_0 in Hb'. }
  exists a', r', h'. split; [done|]. rewrite deliver_run, Hmsg, <- app_assoc. split; [exact Hr|].
  split; [done|]. split; [done|]. by eapply land_self_bit.
Qed.


(** The first input becomes an alarm; a start and a stop by hand follow. *)
Lemma alarm_input_recorded_witness :
  exists a' r' h',
    process_trigin_event 2 1 true 0 25200 0 example_para 0 1 0 example_alarm = Ret 0 a' /\
    (deliver (sent a') ;; run_rcalls 0 no_rename connected connected example_env []
       [R_start 0 5; R_second; R_stop 0]) example_rec = Ret () r' /\
    geti (g_hdenc r') 0 = Some h' /\ state h' = 2 /\ Z.testbit (trig h') 0 = true.
Proof.
  apply (alarm_input_recorded 2 1 true 0 no_players example_para 25200 0 1 0 0 example_alarm
    0 no_rename connected connected example_env [] example_rec (example_hd 0)
    [R_start 0 5; R_second; R_stop 0]).
  - exact example_para_ok.
  - reflexivity.
  - vm_compute. discriminate.
  - reflexivity.
  - lia.
  - lia.
  - vm_compute. reflexivity.
  - reflexivity.
  - apply example_rec_ok.
  - reflexivity.
  - cbn. lia.
  - repeat constructor; cbn; lia.
  - cbn. intros [H | [H | [H | []]]]; discriminate H.
  - vm_compute. reflexivity.
Defined.
