(* ===== verification/FileIndex.v ===== *)
(** * The index of recordings (src/libsrc/fileindex/fileindex.c)

    Each partition has a database with one row per recording: its name, and what the
    name says of it.  The calls here add, rename, lock, list and delete recordings, in
    the database and on the disk.  The state has the databases that are open, their
    rows, the files of the disk, and the codes [sqlite3_exec] gives next; the disk and
    SQLite's order of rows are a [disk_env]. *)

From Stdlib Require Import Ascii String.
From stdpp Require Import gmap strings sorting.
From S2P Require Import Prelude Update Ctime Cstring RecName.

Definition EIO : Z := 5.
Definition EACCES : Z := 13.
Definition DATABASE_MAX : Z := 4.
Definition AVIINDEX_DB_VERSION : Z := 1.
Definition INDEX_FILE_NAME : cstr := lit "index.db".
Definition SQLITE_BUSY : Z := 5.
Definition SQLITE_LOCKED : Z := 6.

(** A row of the table aviindex. *)
Record index_row := {
  r_name : cstr; r_start : Z; r_stop : Z; r_ch : Z; r_trig : Z; r_ing : Z; r_lock : Z; r_version : Z
}.

(** An open database: [db] is its place among the tables, [None] the null handle. *)
Record DB_INFO := { db : option nat; dbname : cstr }.

Abbreviation files_t := (gmap cstr cstr).

Record index_st := {
  db_info : list DB_INFO; tables : list (list index_row); files : files_t; answers : list Z
}.

#[export] Instance index_settable : Settable index_st := {| rebuild := fun s =>
  Build_index_st (db_info s) (tables s) (files s) (answers s) |}.

(** What SQLite and the file system do: the rows a query without an order finds and
    those it finds by [start], both among the rows that are asked for; the error of
    removing a file, of renaming it and of opening one to append; whether there is a
    disk; and the free megabytes of a partition, or an error. *)
Record disk_env := {
  sql_scan : list index_row -> list index_row;
  sql_by_start : list index_row -> list index_row;
  remove_errno : cstr -> Z; rename_errno : cstr -> cstr -> Z; append_ok : cstr -> bool;
  ide_flag : Z; free_of : files_t -> cstr -> Z
}.

(** The two orders have the same rows, and the second is one. *)
Class DiskLaws (e : disk_env) : Prop := {
  scan_perm rs : sql_scan e rs ≡ₚ rs;
  by_start_perm rs : sql_by_start e rs ≡ₚ rs;
  by_start_sorted rs : StronglySorted (fun r r' => r_start r <= r_start r') (sql_by_start e rs)
}.

Section Index.
(** The environment, the time zone, and what is on the stack where the parser leaves
    a field as it is. *)
Variables (e : disk_env) (tz : Z) (junk : file_info_struct).

(** ** Files *)

Definition exists_file (name : cstr) : M index_st bool := s ← get_st; mret (bool_decide (is_Some (files s !! name))).

(** [remove]: 0, or the error. *)
Definition remove (name : cstr) : M index_st Z :=
  if remove_errno e name =? 0 then modify (fun s : index_st => s <| files ::= fun f : files_t => delete name f |>) ;; mret 0
  else mret (remove_errno e name).

Definition rename (oldname newname : cstr) : M index_st Z :=
  if rename_errno e oldname newname =? 0 then
    s ← get_st; c ← access (files s !! oldname);
    put_st (s <| files := <[newname := c]> (delete oldname (files s)) |>) ;; mret 0
  else mret (-1).

(** A line at the end of a file. *)
Definition append_line (path line : cstr) : M index_st () :=
  modify (fun s : index_st => s <| files ::= fun f : files_t => <[path := (default [] (f !! path : option cstr) ++ line ++ [chr 10] : cstr)]> f |>).

(** The assignment in its third comparison makes every error one of the disk. *)
Definition is_disk_error (error : Z) : Z := if (error =? EIO) || (error =? EACCES) || negb (EBUSY =? 0) then 1 else 0.

(** Repairing a partition ends the process, by either of its branches. *)
Definition fix_disk (path : cstr) (diskerrno : Z) : M index_st () :=
  if ide_flag e =? 0 then mret ()
  else if is_disk_error diskerrno =? 0 then mret ()
  else exit_with 0.

Definition get_disk_free (mountpath : cstr) : M index_st Z := s ← get_st; mret (free_of e (files s) mountpath).

(** ** Databases *)

(** The [i]th character of a path and of a database's name, an area of 64 bytes. *)
Definition path_at (mountpath : cstr) (i : nat) : option ascii := (mountpath ++ [NUL]) !! i.
Definition dbname_at (d : DB_INFO) (i : nat) : ascii := default NUL (dbname d !! i).

Fixpoint database_in (l : list DB_INFO) (mountpath : cstr) : option (option (option nat)) :=
  match l with
  | [] => Some None
  | d :: l =>
      c10 ← path_at mountpath 10;
      if Ascii.eqb (dbname_at d 10) c10 then
        c11 ← path_at mountpath 11;
        if Ascii.eqb (dbname_at d 11) c11 then Some (Some (db d)) else database_in l mountpath
      else database_in l mountpath
  end.

(** [None] is -1. *)
Definition GetDabase (mountpath : cstr) : M index_st (option (option nat)) :=
  s ← get_st; access (database_in (db_info s) mountpath).

Definition pathname2indexname (mountpath : cstr) : cstr := mountpath ++ lit "/" ++ INDEX_FILE_NAME.

(** [sqlite3_exec] is called until it is neither busy nor locked.  After the answers
    that are listed it succeeds. *)
Fixpoint final_answer (l : list Z) : Z * list Z :=
  match l with
  | [] => (0, [])
  | a :: l => if (a =? SQLITE_BUSY) || (a =? SQLITE_LOCKED) then final_answer l else (a, l)
  end.

(** A statement [stmt] that fails does nothing: rows that a query gives to its callback
    before it fails are not modelled. *)
Definition exec_sqlcmd (h : option nat) (stmt : nat -> M index_st ()) : M index_st Z :=
  match h with
  | None => mret (- EINVAL)
  | Some d =>
      s ← get_st;
      let '(ret, l) := final_answer (answers s) in
      put_st (s <| answers := l |>) ;;
      if ret =? 0 then stmt d ;; mret 0 else mret ret
  end.

(** The statements: a query by [q] with a callback on each row, an insertion, and a
    deletion of the rows [f] does not keep. *)
Fixpoint each_row (callback : index_row -> M index_st ()) (rs : list index_row) : M index_st () :=
  match rs with [] => mret () | r :: rs => callback r ;; each_row callback rs end.

Definition select (q : list index_row -> list index_row) (callback : index_row -> M index_st ()) (d : nat)
    : M index_st () :=
  s ← get_st; t ← access (tables s !! d); each_row callback (q t).

Definition mod_table (f : list index_row -> list index_row) (d : nat) : M index_st () :=
  s ← get_st; t ← access (tables s !! d);
  put_st (s <| tables := <[d := f t]> (tables s) |>).

(** The text of a statement fits its 200 bytes and has no other quotes. *)
Definition fits (n : nat) (sql : cstr) : M index_st () := if (length sql <? n)%nat then mret () else undef.
Definition no_quote (name : cstr) : M index_st () :=
  match strchr name "'" with Some _ => undef | None => mret () end.

(** ** Adding, deleting and renaming *)

Definition quoted (s : cstr) : cstr := lit "'" ++ s ++ lit "'".

(** The columns of a recording's row. *)
Definition row_of (filename : cstr) (finfo : file_info_struct) : index_row :=
  {| r_name := filename; r_start := i32 (stime finfo); r_stop := i32 (i32 (stime finfo) + info_len finfo);
     r_ch := info_channel finfo; r_trig := info_trig finfo; r_ing := ing_flag finfo;
     r_lock := info_lock finfo; r_version := AVIINDEX_DB_VERSION |}.

Definition insert_text (r : index_row) : cstr :=
  lit "insert into aviindex values (" ++ quoted (r_name r) ++
  concat (map (fun z => lit "," ++ quoted (fmt_d 0 z))
    [r_start r; r_stop r; r_ch r; r_trig r; r_ing r; r_lock r; r_version r]) ++ lit ")".

Definition fileindex_add (h : option nat) (filename : cstr) : M index_st Z :=
  match h with
  | None => mret (- EINVAL)
  | Some _ =>
      '(_, finfo) ← access (hdutil_filename2finfo tz filename junk);
      let r := row_of filename finfo in
      no_quote filename ;; fits 200 (insert_text r) ;;
      exec_sqlcmd h (mod_table (fun t => t ++ [r]))
  end.

Definition fileindex_add_to_partition (mountpath filename : cstr) : M index_st Z :=
  h ← GetDabase mountpath;
  match h with
  | None => mret 0
  | Some h => fileindex_add h filename ;; mret 0
  end.

Definition named (name : cstr) (r : index_row) : bool := bool_decide (r_name r = name).

Definition delete_text (name : cstr) : cstr := lit "delete from aviindex where name = " ++ quoted name.

Definition fileindex_del_file (h : option nat) (filename : cstr) : M index_st Z :=
  match h with
  | None => mret (- EINVAL)
  | Some _ =>
      no_quote filename ;; fits 200 (delete_text filename) ;;
      exec_sqlcmd h (mod_table (List.filter (fun r => negb (named filename r))))
  end.

Definition fileindex_rename (h : option nat) (oldname newname : cstr) : M index_st Z :=
  match h with
  | None => mret (- EINVAL)
  | Some _ =>
      b ← exists_file oldname;
      if negb b then fileindex_del_file h oldname ;; mret (- EPERM)
      else fileindex_add h newname ;; rename oldname newname ;; fileindex_del_file h oldname
  end.

Definition fileindex_rename_in_partition (mountpath oldname newname : cstr) : M index_st Z :=
  h ← GetDabase mountpath;
  match h with None => mret 0 | Some h => fileindex_rename h oldname newname end.

(** ** Deleting the oldest *)

(** where lock = 0 and ing = 0 *)
Definition deletable (r : index_row) : bool := (r_lock r =? 0) && (r_ing r =? 0).

(** order by start limit [no] *)
Definition oldest (no : Z) (t : list index_row) : list index_row :=
  take (Z.to_nat no) (sql_by_start e (List.filter deletable t)).

Definition del_file_callback (r : index_row) : M index_st () :=
  b ← exists_file (r_name r);
  if negb b then mret ()
  else ret ← remove (r_name r); if negb (ret =? 0) then fix_disk (r_name r) ret else mret ().

(** where name in (select ...) *)
Definition name_in (l : list index_row) (r : index_row) : bool := existsb (named (r_name r)) l.

Definition fileindex_del_oldest (mountpath : cstr) (no : Z) : M index_st Z :=
  if no <=? 0 then mret (- EINVAL) else
  h ← GetDabase mountpath;
  match h with
  | None => mret 0
  | Some h =>
      exec_sqlcmd h (select (oldest no) del_file_callback) ;;
      exec_sqlcmd h (mod_table (fun t => List.filter (fun r => negb (name_in (oldest no t) r)) t))
  end.

Definition fileindex_get_oldest_file_time (mountpath : cstr) : M index_st Z :=
  h ← GetDabase mountpath;
  match h with
  | None => mret 0
  | Some None => mret 0
  | Some (Some d) =>
      s ← get_st; t ← access (tables s !! d);
      let '(ret, l) := final_answer (answers s) in
      put_st (s <| answers := l |>) ;;
      mret (if ret =? 0 then match oldest 1 t with r :: _ => r_start r | [] => 0 end else 0)
  end.

(** ** Locking by time *)

(** The name is the format of a [sprintf] into 200 bytes. *)
Definition lock_file_callback (indexname : cstr) (r : index_row) : M index_st () :=
  match strchr (r_name r) "%" with
  | Some _ => undef
  | None =>
      fits 200 (r_name r) ;;
      if append_ok e indexname then append_line indexname (r_name r) else mret ()
  end.

(** The condition [fileindex_lock_by_time] puts together. *)
Definition lock_query (flag starttime stoptime trig ch : Z) (r : index_row) : bool :=
  (r_lock r =? 1 - flag) && (r_ing r =? 0) &&
  ((starttime =? -1) || (r_start r <=? stoptime)) && ((stoptime =? -1) || (starttime <=? r_stop r)) &&
  ((trig =? -1) || (r_trig r =? trig)) && ((ch =? -1) || (r_ch r =? ch)).

(** [fgets] into [n + 1] bytes: at most [n] characters, with the end of the line. *)
Fixpoint fgets (n : nat) (s : cstr) : cstr * cstr :=
  match n, s with
  | S n, c :: s => if Ascii.eqb c (chr 10) then ([c], s) else let '(l, r) := fgets n s in (c :: l, r)
  | _, _ => ([], s)
  end.

(** The names of the list file, one after the other; the last character of each line
    is cut. *)
Fixpoint lock_loop (fuel : nat) (h : option nat) (flag : Z) (s : cstr) : M index_st () :=
  match fuel, s with
  | _, [] => mret ()
  | O, _ => blocked
  | S fuel, _ =>
      let '(line, s) := fgets 199 s in
      let oldname := take (length line - 1) line in
      let tname := if flag =? 0 then hdutil_unlock_filename oldname else hdutil_lock_filename oldname in
      fileindex_rename h oldname tname ;; lock_loop fuel h flag s
  end.

(** [sec] and [usec] are the time of the call, for the list file's name. *)
Definition lock_list_name (sec usec : Z) : cstr := lit "/hqdata/" ++ fmt_d 0 sec ++ lit "-" ++ fmt_d 6 usec ++ lit "-lockindex.txt".

Definition fileindex_lock_by_time (sec usec : Z) (mountpath : cstr) (flag starttime stoptime trig ch : Z) : M index_st Z :=
  h ← GetDabase mountpath;
  match h with
  | None => mret 0
  | Some h =>
      let indexname := lock_list_name sec usec in
      exec_sqlcmd h (select (fun t => sql_scan e (List.filter (lock_query flag starttime stoptime trig ch) t))
        (lock_file_callback indexname)) ;;
      s ← get_st;
      match (files s !! indexname : option cstr) with
      | None => mret 0
      | Some list => lock_loop (length list) h flag list ;; mret 0
      end
  end.

(** ** Listing *)

Record query_index_process_struct := { q_start : Z; q_stop : Z; q_ch : Z; q_trig_flag : Z }.

Definition index_query (q : query_index_process_struct) (r : index_row) : bool :=
  (r_start r <=? q_stop q) && (q_start q <=? r_stop r) && (r_ing r =? 0) &&
  ((q_trig_flag q =? -1) || (r_trig r =? q_trig_flag q)) && ((q_ch q =? -1) || (r_ch r =? q_ch q)).

(** The line of a row: the name without the 7 characters of "/hqdata", if the file
    is there; [fname] and [finalname] have 100 bytes. *)
Definition queryindex_callback (fp : cstr) (r : index_row) : M index_st () :=
  if (100 <=? length (r_name r))%nat || (length (r_name r) <? 7)%nat then undef else
  b ← exists_file (r_name r);
  if negb b then mret () else append_line fp (drop 7 (r_name r)).

Definition fileindex_query_index (mountpath fp : cstr) (q : query_index_process_struct) : M index_st Z :=
  h ← GetDabase mountpath;
  match h with
  | None => mret 0
  | Some h =>
      (if q_trig_flag q =? -1 then mret () else fits 20 (lit " and trig = " ++ fmt_d 0 (q_trig_flag q))) ;;
      (if q_ch q =? -1 then mret () else fits 20 (lit " and ch = " ++ fmt_d 0 (q_ch q))) ;;
      exec_sqlcmd h (select (fun t => sql_scan e (List.filter (index_query q) t)) (queryindex_callback fp)) ;;
      mret 0
  end.

End Index.
