(* ===== verification/FileIndexThms.v ===== *)
(** * The index deletes the oldest and keeps what is locked

    What deleting the oldest recordings removes, on the disk and from the index, and
    that a recording with the lock mark in its name is never among it. *)

From Stdlib Require Import Ascii String.
From stdpp Require Import gmap strings sorting.
From S2P Require Import Prelude Update Ctime Cstring RecName RecNameThms FileIndex.

Abbreviation names := (map r_name).

(** The files without those named. *)
Definition without (D : list cstr) (f : files_t) : files_t := fold_left (fun f n => delete n f) D f.

Lemma without_lookup D f n : without D f !! n = if decide (n ∈ D) then None else f !! n.
Proof.
  revert f. induction D as [|x D IH]; intros f; [done|]. cbn [without fold_left]. fold (without D (delete x f)).
  rewrite IH. destruct (decide (n ∈ D)) as [Hn | Hn]; [by rewrite decide_True by (by right)|].
  destruct (decide (n = x)) as [-> | Hne].
  - by rewrite lookup_delete_eq, decide_True by left.
  - rewrite lookup_delete_ne, decide_False; [done | by intros [-> | ?]%elem_of_cons | done].
Qed.

(** The codes of SQLite that are waited out. *)
Definition busy (a : Z) : Prop := a = SQLITE_BUSY \/ a = SQLITE_LOCKED.
Definition waits (s : index_st) : Prop := Forall busy (answers s).

Lemma final_busy l : Forall busy l -> final_answer l = (0, []).
Proof. induction 1 as [|a l [-> | ->] _ IH]; done. Qed.

Section Thms.
Variables (e : disk_env) (tz : Z) (junk : file_info_struct).
Context `{!DiskLaws e}.
Implicit Types (s : index_st) (t : list index_row) (m : cstr).

Definition opened s m (d : nat) (t : list index_row) : Prop :=
  database_in (db_info s) m = Some (Some (Some d)) /\ tables s !! d = Some t.

(** ** Statements *)

Lemma get_database s m d t : opened s m d t -> GetDabase m s = Ret (Some (Some d)) s.
Proof.
  intros [H _]. unfold GetDabase. rewrite (bind_ret _ _ s s s) by done. by rewrite H.
Qed.

Lemma exec_waits d stmt s : waits s ->
  exec_sqlcmd (Some d) stmt s = (stmt d ;; mret 0) (s <| answers := ([] : list Z) |>).
Proof.
  intros Hw. unfold exec_sqlcmd. rewrite (bind_ret _ _ s s s) by done. rewrite (final_busy _ Hw). by rewrite bind_put.
Qed.

Lemma mod_table_spec f d s t : tables s !! d = Some t ->
  mod_table f d s = Ret () (s <| tables := <[d := f t]> (tables s) |>).
Proof.
  intros Ht. unfold mod_table. rewrite (bind_ret _ _ s s s) by done. by rewrite (bind_access _ _ _ _ Ht).
Qed.

(** A change of a table. *)
Definition table_set (d : nat) (t : list index_row) s : index_st := s <| tables := <[d := t]> (tables s) |> <| answers := ([] : list Z) |>.

Lemma exec_mod d f s t : waits s -> tables s !! d = Some t ->
  exec_sqlcmd (Some d) (mod_table f) s = Ret 0 (table_set d (f t) s).
Proof.
  intros Hw Ht. rewrite exec_waits by done.
  by rewrite (bind_ret _ _ _ _ _ (mod_table_spec f d (s <| answers := ([] : list Z) |>) t Ht)).
Qed.

Lemma exec_select d q callback s t s' : waits s -> tables s !! d = Some t ->
  each_row callback (q t) (s <| answers := ([] : list Z) |>) = Ret () s' ->
  exec_sqlcmd (Some d) (select q callback) s = Ret 0 s'.
Proof.
  intros Hw Ht Hr. rewrite exec_waits by done.
  assert (Hs : select q callback d (s <| answers := ([] : list Z) |>) = Ret () s').
  { unfold select. cbv [get_st mbind M_bind access]. cbn [tables]. simpl. by rewrite Ht. }
  by rewrite (bind_ret _ _ _ _ _ Hs).
Qed.

(** ** Deleting the oldest *)

Lemma oldest_in no t r : r ∈ oldest e no t -> r ∈ t /\ r_lock r = 0 /\ r_ing r = 0.
Proof.
  intros (i & Hi%list_elem_of_lookup_2 & _)%elem_of_take. rename Hi into Hr.
  rewrite (by_start_perm (e := e)) in Hr. apply list_elem_of_In, filter_In in Hr as [Hr Hd].
  unfold deletable in Hd. apply andb_true_iff in Hd. split; [by apply list_elem_of_In | lia].
Qed.

Definition removable (l : list index_row) : Prop := Forall (fun r => remove_errno e (r_name r) = 0) l.

Lemma del_loop rs s : removable rs ->
  each_row (del_file_callback e) rs s = Ret () (s <| files := without (names rs) (files s) |>).
Proof.
  intros Hrs. revert s. induction Hrs as [|r rs Hr _ IH]; intros s; [by destruct s|].
  cbn [each_row map without fold_left]. fold (without (names rs) (delete (r_name r) (files s))).
  assert (Hcb : del_file_callback e r s = Ret () (s <| files := delete (r_name r) (files s) |>)).
  { unfold del_file_callback, exists_file. rewrite bind_assoc, (bind_ret _ _ s s s) by done.
    rewrite (bind_ret _ _ s _ s) by done. case_bool_decide as Hx; cbn [negb].
    - unfold remove. rewrite Hr. cbn. by destruct s.
    - rewrite delete_id by (by apply eq_None_not_Some). by destruct s. }
  rewrite (bind_ret _ _ _ _ _ Hcb), IH. by destruct s.
Qed.

(** The rows a deletion of the oldest leaves. *)
Definition rest no t : list index_row := List.filter (fun r => negb (name_in (oldest e no t) r)) t.

Definition cleaned no d t s : index_st :=
  s <| tables := <[d := rest no t]> (tables s) |> <| files := without (names (oldest e no t)) (files s) |> <| answers := ([] : list Z) |>.

Lemma del_oldest_run m no d t s : opened s m d t -> waits s -> 0 < no -> removable (oldest e no t) ->
  fileindex_del_oldest e m no s = Ret 0 (cleaned no d t s).
Proof.
  intros Ho Hw Hno Hrm. unfold fileindex_del_oldest. rewrite (proj2 (Z.leb_gt _ _)) by lia.
  rewrite (bind_ret _ _ _ _ _ (get_database _ _ _ _ Ho)). destruct Ho as [_ Ht].
  set (s1 := s <| answers := ([] : list Z) |> <| files := without (names (oldest e no t)) (files s) |>).
  assert (H1 : exec_sqlcmd (Some d) (select (oldest e no) (del_file_callback e)) s = Ret 0 s1).
  { apply (exec_select d (oldest e no) _ s t); [done | done | by apply del_loop]. }
  rewrite (bind_ret _ _ _ _ _ H1). rewrite (exec_mod _ _ s1 t); [done | constructor | exact Ht].
Qed.

Lemma name_in_names l r : name_in l r = true <-> r_name r ∈ names l.
Proof.
  unfold name_in, named. rewrite existsb_exists, list_elem_of_In, in_map_iff.
  split; intros (x & H1 & H2); exists x; rewrite ?bool_decide_spec in *; try (case_bool_decide); naive_solver.
Qed.

Lemma rest_in no t r : r ∈ rest no t <-> r ∈ t /\ r_name r ∉ names (oldest e no t).
Proof.
  unfold rest. rewrite !list_elem_of_In, filter_In, negb_true_iff, <- not_true_iff_false, name_in_names.
  by rewrite list_elem_of_In.
Qed.

Lemma oldest_first no t r r' : r ∈ oldest e no t -> r' ∈ rest no t -> r_lock r' = 0 -> r_ing r' = 0 ->
  r_start r <= r_start r'.
Proof.
  intros Hr [Hr' Hn]%rest_in Hl Hi.
  assert (Hd : r' ∈ sql_by_start e (List.filter deletable t)).
  { rewrite (by_start_perm (e := e)). apply list_elem_of_In, filter_In. split; [by apply list_elem_of_In|].
    unfold deletable. by rewrite Hl, Hi. }
  unfold oldest in *. pose proof (by_start_sorted (e := e) (List.filter deletable t)) as Hs.
  rewrite <- (take_drop (Z.to_nat no)) in Hd, Hs. apply elem_of_app in Hd as [Hd | Hd].
  - destruct Hn. apply list_elem_of_In, in_map, list_elem_of_In, Hd.
  - exact (StronglySorted_app_1_elem_of (fun r r' => r_start r <= r_start r') _ _ _ _ Hs Hr Hd).
Qed.

Lemma oldest_length no t : length (oldest e no t) = Nat.min (Z.to_nat no) (length (List.filter deletable t)).
Proof. unfold oldest. by rewrite length_take, (Permutation_length (by_start_perm (e := e) _)). Qed.

(** ** What is locked stays *)

(** [P] holds wherever the call comes to: back, waiting for ever, or at an exit. *)
Definition keeps {A} (P : index_st -> Prop) (c : M index_st A) : Prop := forall s, P s ->
  match c s with Ret _ s' | Blocked s' | Exited _ s' => P s' | Undef => True end.

Lemma keeps_ret {A} P (a : A) : keeps P (mret a).
Proof. by intros s. Qed.
Lemma keeps_undef {A} P : keeps P (undef : M index_st A).
Proof. by intros s. Qed.
Lemma keeps_blocked {A} P : keeps P (blocked : M index_st A).
Proof. by intros s. Qed.
Lemma keeps_exit {A} P c : keeps P (exit_with c : M index_st A).
Proof. by intros s. Qed.
Lemma keeps_access {A} P (o : option A) : keeps P (access o).
Proof. intros s Hs. by destruct o. Qed.
Lemma keeps_bind {A B} P (c : M index_st A) (f : A -> M index_st B) :
  keeps P c -> (forall a, keeps P (f a)) -> keeps P (c ≫= f).
Proof.
  intros Hc Hf s Hs. specialize (Hc s Hs). cbv [mbind M_bind]. destruct (c s) as [a s'| | |]; try done.
  by apply Hf.
Qed.
Lemma keeps_get {A} P (f : index_st -> M index_st A) : (forall s, P s -> keeps P (f s)) -> keeps P (get_st ≫= f).
Proof. intros Hf s Hs. exact (Hf s Hs s Hs). Qed.
Lemma keeps_access_bind {A B} P (o : option A) (f : A -> M index_st B) :
  (forall a, o = Some a -> keeps P (f a)) -> keeps P (access o ≫= f).
Proof. intros Hf s Hs. destruct o as [a|]; [exact (Hf a eq_refl s Hs) | done]. Qed.
Lemma keeps_put P s' : P s' -> keeps P (put_st s').
Proof. by intros Hs' s _. Qed.
Lemma keeps_modify P f : (forall s, P s -> P (f s)) -> keeps P (modify f).
Proof. intros Hf s Hs. by apply Hf. Qed.
Lemma keeps_gets {A} P (o : index_st -> option A) : keeps P (s ← get_st; access (o s)).
Proof. apply keeps_get. intros s _. apply keeps_access. Qed.

Definition marked (f : cstr) : bool := bool_decide (is_Some (strchr f LOCK_FILE_FLAG)).

(** The column lock of a recording says whether its name has the mark. *)
Definition row_true (r : index_row) : Prop := (length (r_name r) <= 100)%nat -> r_lock r = bool01 (marked (r_name r)).
Definition rows_true s : Prop := forall d t r, tables s !! d = Some t -> r ∈ t -> row_true r.

Lemma rows_true_insert s s' d t : rows_true s -> is_Some (tables s !! d) -> Forall row_true t ->
  tables s' = <[d := t]> (tables s) -> rows_true s'.
Proof.
  intros Hr [t0 Hd0] Ht Hs d' t' r Hd Hin. rewrite Hs in Hd. destruct (decide (d = d')) as [<- | Hne].
  - rewrite list_lookup_insert_eq in Hd by (by eapply lookup_lt_Some). injection Hd as <-.
    revert r Hin. by apply list.Forall_forall.
  - rewrite list_lookup_insert_ne in Hd by done. by eapply Hr.
Qed.

(** A recording with its mark, and what is in it. *)
Definition locked_file (f c : cstr) s : Prop := rows_true s /\ files s !! f = Some c.

(** The scan of a name leaves the flags as they were read. *)
Lemma set_field_flags i field rst i' : set_field tz i field rst = Some i' -> info_lock i' = info_lock i.
Proof.
  destruct field as [|x p]; cbn [set_field]; [by intros [= <-]|]. repeat case_match; try (by intros [= <-]).
  intros Hx. apply bind_Some in Hx as (? & _ & Hx). by injection Hx as <-.
Qed.

Lemma finfo_loop_flags fuel name b i k i' : finfo_loop fuel tz name b i = Some (k, i') -> info_lock i' = info_lock i.
Proof.
  revert name b i. induction fuel as [|fuel IH]; intros name b i; cbn [finfo_loop]; [done|].
  destruct name as [|x name]; [by intros [= _ <-]|]. destruct (Ascii.eqb _ _); [by intros [= _ <-]|].
  destruct (negb b); [apply IH|]. destruct (get_strtail _); [|by intros [= _ <-]].
  intros H. apply bind_Some in H as (i1 & H1 & H). by rewrite (IH _ _ _ H), (set_field_flags _ _ _ _ H1).
Qed.

Lemma row_of_true name k i : hdutil_filename2finfo tz name junk = Some (k, i) -> row_true (row_of name i).
Proof.
  unfold hdutil_filename2finfo, row_true. cbn [row_of r_name r_lock]. intros H Hlen.
  destruct (Nat.ltb_spec 100 (length name)); [lia|]. apply bind_Some in H as (part & _ & H).
  by rewrite (finfo_loop_flags _ _ _ _ _ _ H).
Qed.
End Thms.

#[export] Hint Resolve keeps_ret keeps_undef keeps_blocked keeps_exit keeps_access keeps_gets : cmem.

(** Splits a call into the calls it makes. *)
Ltac keep := repeat match goal with
  | |- keeps _ (match ?x with _ => _ end) => destruct x
  | |- keeps _ (if ?x then _ else _) => destruct x
  | |- keeps _ (get_st ≫= _) => apply keeps_get; intros ? ?
  | |- keeps _ (_ ≫= _) => apply keeps_bind; [|intros ?]
  | |- keeps _ (let _ := _ in _) => cbv zeta
  end; eauto with cmem.

(** What the other modules ask of the index, locking and unlocking apart. *)
Inductive index_call :=
| I_add (m name : cstr)
| I_rename (m old new : cstr)
| I_del_oldest (m : cstr) (no : Z)
| I_query (m fp : cstr) (q : query_index_process_struct)
| I_oldest_time (m : cstr).

(** It renames neither [f] nor a file to [f], and lists into another file. *)
Definition spares (f : cstr) (call : index_call) : Prop :=
  match call with
  | I_rename _ old new => old <> f /\ new <> f
  | I_query _ fp _ => fp <> f
  | _ => True
  end.

Section Locked.
Variables (e : disk_env) (tz : Z) (junk : file_info_struct) (f c : cstr).
Context `{!DiskLaws e}.
Hypotheses (Hmark : marked f = true) (Hlen : (length f <= 100)%nat).
Abbreviation P := (locked_file f c).

Lemma keeps_answers l s : P s -> keeps P (put_st (s <| answers := l |>)).
Proof. intros [Hr Hf]. by apply keeps_put. Qed.

Lemma keeps_exec h stmt : (forall d, keeps P (stmt d)) -> keeps P (exec_sqlcmd h stmt).
Proof.
  intros Hs. unfold exec_sqlcmd. keep. by apply keeps_answers.
Qed.

Lemma keeps_table g d : (forall t, Forall row_true t -> Forall row_true (g t)) -> keeps P (mod_table g d).
Proof.
  intros Hg. unfold mod_table. apply keeps_get. intros s [Hr Hf].
  apply keeps_access_bind. intros t Ht. apply keeps_put. split; [|exact Hf].
  apply (rows_true_insert s _ d (g t)); [done | by exists t | | done].
  apply Hg, list.Forall_forall. intros r. by apply (Hr d t).
Qed.

Lemma keeps_filter (p : index_row -> bool) d : keeps P (mod_table (List.filter p) d).
Proof.
  apply keeps_table. intros t Ht. rewrite list.Forall_forall in *. intros r Hr. apply Ht.
  apply list_elem_of_In, filter_In in Hr as [Hr _]. by apply list_elem_of_In.
Qed.

Lemma keeps_add h name : keeps P (fileindex_add tz junk h name).
Proof.
  unfold fileindex_add, no_quote, fits. destruct h as [d|]; [|keep].
  apply keeps_access_bind. intros [k i] Hi. keep. apply keeps_exec. intros d'.
  apply keeps_table. intros t Ht. apply Forall_app. split; [done|]. constructor; [|constructor].
  by eapply row_of_true.
Qed.

Lemma keeps_del h name : keeps P (fileindex_del_file h name).
Proof. unfold fileindex_del_file, no_quote, fits. keep. apply keeps_exec. intros. apply keeps_filter. Qed.

Lemma keeps_rename h old new : old <> f -> new <> f -> keeps P (fileindex_rename e tz junk h old new).
Proof.
  intros Ho Hn. unfold fileindex_rename, exists_file, rename. destruct h as [d|]; [|keep].
  keep; try apply keeps_del; try apply keeps_add. apply keeps_put. destruct H as [Hr Hf]. split; [exact Hr|].
  cbn. by rewrite lookup_insert_ne, lookup_delete_ne by done.
Qed.

Lemma keeps_callback r : r_name r <> f -> keeps P (del_file_callback e r).
Proof.
  intros Hn. unfold del_file_callback, exists_file, remove, fix_disk. keep.
  apply keeps_modify. intros s [Hr Hf]. split; [exact Hr|]. cbn. by rewrite lookup_delete_ne.
Qed.

Lemma keeps_rows cb rs : Forall (fun r => keeps P (cb r)) rs -> keeps P (each_row cb rs).
Proof. induction 1 as [|r rs Hr _ IH]; cbn [each_row]; keep. Qed.

Lemma keeps_select q cb d :
  (forall t r, Forall row_true t -> r ∈ q t -> keeps P (cb r)) -> keeps P (select q cb d).
Proof.
  intros Hq. unfold select. apply keeps_get. intros s [Hr Hf]. apply keeps_access_bind. intros t Ht.
  apply keeps_rows, list.Forall_forall. intros r. apply Hq, list.Forall_forall. intros r'. by apply (Hr d t).
Qed.

Lemma oldest_other no t r : Forall row_true t -> r ∈ oldest e no t -> r_name r <> f.
Proof.
  intros Ht (Hin & Hl & _)%oldest_in Hn; [|done]. rewrite list.Forall_forall in Ht. specialize (Ht r Hin).
  unfold row_true in Ht. rewrite Hn, Hmark, Hl in Ht. by specialize (Ht Hlen).
Qed.

Lemma keeps_get_database m : keeps P (GetDabase m).
Proof. apply keeps_gets. Qed.

Lemma keeps_del_oldest m no : keeps P (fileindex_del_oldest e m no).
Proof.
  unfold fileindex_del_oldest. keep; try apply keeps_get_database; apply keeps_exec; intros d.
  - apply keeps_select. intros t r Ht Hr. apply keeps_callback. by eapply oldest_other.
  - apply keeps_table. intros t Ht. rewrite list.Forall_forall in *. intros r Hr. apply Ht.
    apply list_elem_of_In, filter_In in Hr as [Hr _]. by apply list_elem_of_In.
Qed.

Lemma keeps_append path line : path <> f -> keeps P (append_line path line).
Proof.
  intros Hp. unfold append_line. apply keeps_modify. intros s [Hr Hf]. split; [exact Hr|]. cbn.
  by rewrite lookup_insert_ne.
Qed.

Lemma keeps_query m fp q : fp <> f -> keeps P (fileindex_query_index e m fp q).
Proof.
  intros Hp. unfold fileindex_query_index, fits. keep; try apply keeps_get_database.
  apply keeps_exec. intros d. apply keeps_select. intros t r _ _. unfold queryindex_callback, exists_file. keep.
  by apply keeps_append.
Qed.

Lemma keeps_oldest_time m : keeps P (fileindex_get_oldest_file_time e m).
Proof.
  unfold fileindex_get_oldest_file_time. apply keeps_bind; [apply keeps_get_database|]. intros [[d|]|]; [|keep..].
  apply keeps_get. intros s Hs. keep. by apply keeps_answers.
Qed.

(** ** Runs of calls *)

Definition run_index_call (call : index_call) : M index_st () :=
  match call with
  | I_add m name => fileindex_add_to_partition tz junk m name ;; mret ()
  | I_rename m old new => fileindex_rename_in_partition e tz junk m old new ;; mret ()
  | I_del_oldest m no => fileindex_del_oldest e m no ;; mret ()
  | I_query m fp q => fileindex_query_index e m fp q ;; mret ()
  | I_oldest_time m => fileindex_get_oldest_file_time e m ;; mret ()
  end.

Lemma keeps_call call : spares f call -> keeps P (run_index_call call).
Proof.
  intros Hc. destruct call; cbn [run_index_call spares] in *; (apply keeps_bind; [|intros ?; apply keeps_ret]).
  - unfold fileindex_add_to_partition. keep; (apply keeps_get_database || apply keeps_add).
  - unfold fileindex_rename_in_partition. keep; (apply keeps_get_database || by (destruct Hc; apply keeps_rename)).
  - apply keeps_del_oldest.
  - by apply keeps_query.
  - apply keeps_oldest_time.
Qed.
End Locked.

(** Calls with what each of them meets: the disk as it then is, and what the database
    answers to its statements. *)
Record met_call := { mc_disk : disk_env; mc_answers : list Z; mc_call : index_call }.

Fixpoint run_index (tz : Z) (junk : file_info_struct) (calls : list met_call) : M index_st () :=
  match calls with
  | [] => mret ()
  | k :: calls =>
      modify (fun s : index_st => s <| answers := mc_answers k |>) ;;
      run_index_call (mc_disk k) tz junk (mc_call k) ;;
      run_index tz junk calls
  end.

Lemma keeps_run tz junk f c calls : marked f = true -> (length f <= 100)%nat ->
  Forall (fun k => DiskLaws (mc_disk k) /\ spares f (mc_call k)) calls -> keeps (locked_file f c) (run_index tz junk calls).
Proof.
  intros Hm Hl. induction 1 as [|k calls [Hlaws Hc] _ IH]; cbn [run_index]; [apply keeps_ret|].
  apply keeps_bind; [apply keeps_modify; by intros s [Hr Hf]|]. intros _. apply keeps_bind; [|done]. by apply keeps_call.
Qed.
