(* ===== verification/FileIndexLock.v ===== *)
(** * Locking recordings by time

    [fileindex_lock_by_time] writes the names of the recordings to a list file and
    renames them one by one; each keeps what is in it, under its name with the lock
    mark. *)

From Stdlib Require Import Ascii String.
From stdpp Require Import gmap strings sorting.
From S2P Require Import Prelude Update Ctime Cstring RecName RecNameThms FileIndex FileIndexThms.

(** The names the recorder gives, before they are locked. *)
Definition unlocked_name (tz : Z) (n : cstr) : Prop :=
  exists disk part i remote, info_ok disk part i /\ n = flagged (finfo_base tz i) remote false.

Lemma fmt_len z k : 0 <= z < 2 ^ 32 -> (0 < k)%nat -> z < 10 ^ Z.of_nat k -> (length (fmt_d 0 z) <= k)%nat.
Proof. intros Hz Hk Hlt. destruct (fmt_d_spec 0 z Hz) as (_ & _ & _ & _ & H). apply H; [done | lia | done]. Qed.

Lemma fmt_len_int z : - 2 ^ 31 <= z < 2 ^ 31 -> (length (fmt_d 0 z) <= 11)%nat.
Proof.
  intros Hz. destruct (Z.ltb_spec z 0) as [Hneg|Hpos].
  - unfold fmt_d. rewrite (proj2 (Z.ltb_lt _ _)) by done. cbn [length].
    destruct (fmt_spec 10 0 (- z)) as (_ & _ & _ & _ & H); [lia | lia|].
    specialize (H 10%nat ltac:(lia) ltac:(lia) ltac:(cbn; lia)). change (0 - 1)%nat with 0%nat. lia.
  - pose proof (fmt_len z 11 ltac:(lia) ltac:(lia) ltac:(cbn; lia)). lia.
Qed.

Lemma strchr_none s x : Forall (fun c => c <> x) s -> strchr s x = None.
Proof.
  induction 1 as [|c s Hc _ IH]; [done|]. cbn. rewrite (proj2 (Ascii.eqb_neq c x)) by done. by rewrite IH.
Qed.

(** A row's statement fits its 200 bytes. *)
Lemma insert_fits name i l g : (length name <= 100)%nat -> 0 <= info_channel i < 2 ^ 31 -> 0 <= info_trig i < 2 ^ 16 ->
  info_lock i = bool01 l -> ing_flag i = bool01 g -> (length (insert_text (row_of name i)) < 200)%nat.
Proof.
  intros Hn Hc Ht Hl Hi. unfold insert_text. cbn [row_of r_name r_start r_stop r_ch r_trig r_ing r_lock r_version map concat].
  rewrite Hl, Hi. unfold quoted. repeat (progress (rewrite ?length_app; cbn [length list_ascii_of_string])).
  pose proof (fmt_len_int _ (i32_range (stime i))). pose proof (fmt_len_int _ (i32_range (i32 (stime i) + info_len i))).
  pose proof (fmt_len (info_channel i) 10 ltac:(lia) ltac:(lia) ltac:(cbn; lia)).
  pose proof (fmt_len (info_trig i) 5 ltac:(lia) ltac:(lia) ltac:(cbn; lia)).
  assert (Hb : forall b, length (fmt_d 0 (bool01 b)) = 1%nat) by by intros [].
  rewrite !Hb. change (length (fmt_d 0 AVIINDEX_DB_VERSION)) with 1%nat. unfold cstr in *. lia.
Qed.

Section Names.
Variables (tz : Z).
Hypothesis Htz : - 86400 <= tz <= 86400.
Variables (disk part : ascii) (i : file_info_struct) (r l : bool).
Hypothesis Hok : info_ok disk part i.
Abbreviation name := (flagged (finfo_base tz i) r l).

Lemma name_length : (length name <= 81)%nat.
Proof.
  pose proof (base_length tz disk part i Htz Hok). unfold flagged. rewrite length_app. destruct r, l; cbn; lia.
Qed.

Lemma name_without x : plain x = false -> x <> REMOTE_TRIG_FLAG -> x <> LOCK_FILE_FLAG -> ~ In x IMG_FILE_EXT ->
  Forall (fun c => c <> x) name.
Proof.
  intros Hx Hr Hl He. unfold flagged. apply Forall_app. split.
  { eapply list.Forall_impl; [by eapply base_plain|]. intros c Hc ->. by rewrite Hc in Hx. }
  apply list.Forall_forall. intros c Hc ->. rewrite !elem_of_app in Hc.
  destruct Hc as [Hc | [Hc | Hc]]; [destruct r | destruct l | by apply He, list_elem_of_In];
    (by apply list_elem_of_singleton in Hc) || by apply not_elem_of_nil in Hc.
Qed.

Lemma name_marked : marked name = l.
Proof.
  unfold marked, flagged. rewrite strchr_skip by (done || by eapply base_plain). by destruct r, l.
Qed.

Variable junk : file_info_struct.
Hypothesis Hjunk : length (info_partition junk) = 16%nat.

Lemma name_decoded : exists i', hdutil_filename2finfo tz name junk = Some (0, i') /\
  (length (insert_text (row_of name i')) < 200)%nat.
Proof.
  destruct (parse_flagged tz disk part i Htz Hok r l junk Hjunk) as (i' & Hp & _ & Hc & _ & Ht & Hl & Hi).
  exists i'. split; [exact Hp|]. pose proof name_length as Hn. destruct Hok.
  by apply (insert_fits name i' l false); [lia | rewrite Hc | rewrite Ht | |].
Qed.
End Names.

(** The text of a file of names. *)
Definition lines (ns : list cstr) : cstr := concat (map (fun n => n ++ [chr 10]) ns).

Lemma lines_cons n ns : lines (n :: ns) = n ++ chr 10 :: lines ns.
Proof. unfold lines. cbn [map concat]. by rewrite <- app_assoc. Qed.

Lemma fgets_line a b k : Forall (fun x => x <> chr 10) a -> (length a + 1 <= k)%nat ->
  fgets k (a ++ chr 10 :: b) = (a ++ [chr 10], b).
Proof.
  intros Ha. revert k. induction Ha as [|x a Hx _ IH]; intros [|k] Hk; cbn [length app] in *; try lia; [done|].
  cbn [fgets]. rewrite (proj2 (Ascii.eqb_neq _ _)) by done. by rewrite IH by lia.
Qed.

Section Lock.
Variables (e : disk_env) (tz : Z) (junk : file_info_struct).
Hypotheses (Htz : - 86400 <= tz <= 86400) (Hjunk : length (info_partition junk) = 16%nat).
Hypothesis Hrename : forall old new, rename_errno e old new = 0.
Implicit Types (s : index_st) (t : list index_row) (n : cstr).

Abbreviation lock := hdutil_lock_filename.

(** ** Names *)

Lemma lock_name n : unlocked_name tz n -> marked n = false /\ marked (lock n) = true /\ hdutil_unlock_filename (lock n) = n /\
  (length n <= 81)%nat /\ (length (lock n) <= 100)%nat /\ Forall (fun c => c <> chr 10) n /\
  strchr n "'" = None /\ strchr (lock n) "'" = None /\ strchr n "%" = None /\
  exists i', hdutil_filename2finfo tz (lock n) junk = Some (0, i') /\ (length (insert_text (row_of (lock n) i')) < 200)%nat.
Proof.
  intros (disk & part & i & r & Hok & ->). pose proof (base_plain tz disk part i Htz Hok) as Hp.
  rewrite lock_flagged, unlock_flagged by done.
  assert (Hw : forall x l, plain x = false -> x <> REMOTE_TRIG_FLAG -> x <> LOCK_FILE_FLAG -> ~ In x IMG_FILE_EXT ->
    Forall (fun c => c <> x) (flagged (finfo_base tz i) r l)) by (intros x l; by eapply name_without).
  pose proof (name_length tz Htz disk part i r true Hok).
  split; [by eapply name_marked|]. split; [by eapply name_marked|]. split; [done|].
  split; [by eapply name_length|]. split; [lia|].
  split; [apply Hw; try done; cbn; intuition discriminate|].
  split; [apply strchr_none, Hw; try done; cbn; intuition discriminate|].
  split; [apply strchr_none, Hw; try done; cbn; intuition discriminate|].
  split; [apply strchr_none, Hw; try done; cbn; intuition discriminate|].
  by eapply name_decoded.
Qed.

(** ** One recording *)

(** [s] with the recording [old] renamed [new], in the database [d] with rows [t]. *)
Definition renamed s d t old new i c : index_st :=
  s <| tables := <[d := List.filter (fun r => negb (named old r)) (t ++ [row_of new i])]> (tables s) |>
    <| files := <[new := c]> (delete old (files s)) |> <| answers := ([] : list Z) |>.

Lemma add_run d n i s t : waits s -> tables s !! d = Some t -> strchr n "'" = None ->
  hdutil_filename2finfo tz n junk = Some (0, i) -> (length (insert_text (row_of n i)) < 200)%nat ->
  fileindex_add tz junk (Some d) n s = Ret 0 (table_set d (t ++ [row_of n i]) s).
Proof.
  intros Hw Ht Hq Hi Hl. unfold fileindex_add. rewrite (bind_access _ _ _ _ Hi). cbv beta iota zeta.
  unfold no_quote. rewrite Hq. rewrite (bind_ret _ _ s () s) by done.
  unfold fits. rewrite (proj2 (Nat.ltb_lt _ _) Hl). rewrite (bind_ret _ _ s () s) by done.
  by apply (exec_mod d (fun t => t ++ [row_of n i])).
Qed.

Lemma del_run d n s t : waits s -> tables s !! d = Some t -> strchr n "'" = None -> (length n <= 100)%nat ->
  fileindex_del_file (Some d) n s = Ret 0 (table_set d (List.filter (fun r => negb (named n r)) t) s).
Proof.
  intros Hw Ht Hq Hl. unfold fileindex_del_file, no_quote. rewrite Hq, (bind_ret _ _ s () s) by done.
  assert (Hfit : (length (delete_text n) < 200)%nat).
  { unfold delete_text, quoted. rewrite !length_app. cbn. lia. }
  unfold fits. rewrite (proj2 (Nat.ltb_lt _ _) Hfit). rewrite (bind_ret _ _ s () s) by done.
  by apply (exec_mod d (List.filter (fun r => negb (named n r)))).
Qed.

Lemma rename_run d s t n c : waits s -> tables s !! d = Some t -> unlocked_name tz n -> files s !! n = Some c ->
  exists i, hdutil_filename2finfo tz (lock n) junk = Some (0, i) /\
    fileindex_rename e tz junk (Some d) n (lock n) s = Ret 0 (renamed s d t n (lock n) i c).
Proof.
  intros Hw Ht Hn Hc. destruct (lock_name n Hn) as (_ & _ & _ & Hl & _ & _ & Hq & Hq' & _ & i & Hi & Hfit).
  exists i. split; [done|]. unfold fileindex_rename.
  assert (Hex : exists_file n s = Ret true s).
  { unfold exists_file. rewrite (bind_ret _ _ s s s) by done. by rewrite Hc. }
  rewrite (bind_ret _ _ _ _ _ Hex). cbn [negb]. rewrite (bind_ret _ _ _ _ _ (add_run d (lock n) i s t Hw Ht Hq' Hi Hfit)).
  set (s1 := table_set d _ s). unfold rename. rewrite Hrename. change (0 =? 0) with true. cbv iota.
  rewrite bind_assoc, (bind_ret _ _ s1 s1 s1) by done. rewrite bind_assoc, (bind_access _ _ _ c) by exact Hc.
  rewrite bind_assoc, bind_put. match goal with |- (_ ≫= _) ?x = _ => set (s2 := x) end. rewrite (bind_ret _ _ s2 0 s2) by done.
  rewrite (del_run d n s2 (t ++ [row_of (lock n) i])); [|constructor| |done|lia].
  - unfold table_set, renamed. cbn. by rewrite list_insert_insert_eq.
  - cbn. apply list_lookup_insert_eq. by eapply lookup_lt_Some.
Qed.

Lemma renamed_true d t n i c s : rows_true s -> tables s !! d = Some t ->
  hdutil_filename2finfo tz (lock n) junk = Some (0, i) -> rows_true (renamed s d t n (lock n) i c).
Proof.
  intros Hr Ht Hi. eapply rows_true_insert; [exact Hr | by exists t | | done].
  apply list.Forall_forall. intros r Hin. apply list_elem_of_In, filter_In in Hin as [Hin _].
  apply in_app_iff in Hin as [Hin | [<- | []]]; [|by eapply row_of_true].
  by eapply Hr; [|apply list_elem_of_In].
Qed.

Lemma renamed_row d t n i c s : tables s !! d = Some t ->
  exists t', tables (renamed s d t n (lock n) i c) !! d = Some t' /\
    forall r, r ∈ t' <-> (r ∈ t \/ r = row_of (lock n) i) /\ r_name r <> n.
Proof.
  intros Ht. eexists. split; [cbn; apply list_lookup_insert_eq; by eapply lookup_lt_Some|].
  intros r. rewrite list_elem_of_In, filter_In, in_app_iff, <- list_elem_of_In. unfold named.
  rewrite negb_true_iff, bool_decide_eq_false. cbn. intuition.
Qed.

(** ** The list file *)

Lemma list_run idx rs s : append_ok e idx = true -> Forall (fun n => unlocked_name tz n) (names rs) ->
  each_row (lock_file_callback e idx) rs s =
    Ret () (match rs with [] => s | _ => s <| files := <[idx := (default [] (files s !! idx : option cstr) ++ lines (names rs) : cstr)]> (files s) |> end).
Proof.
  intros Ha. revert s. induction rs as [|r rs IH]; intros s Hrs; [done|]. apply list.Forall_cons in Hrs as [Hr Hrs].
  destruct (lock_name _ Hr) as (_ & _ & _ & Hl & _ & _ & _ & _ & Hp & _).
  set (s1 := s <| files := <[idx := (default [] (files s !! idx : option cstr) ++ r_name r ++ [chr 10] : cstr)]> (files s) |>).
  assert (H1 : lock_file_callback e idx r s = Ret () s1).
  { unfold lock_file_callback. rewrite Hp. unfold fits. rewrite (proj2 (Nat.ltb_lt _ _)) by lia.
    rewrite (bind_ret _ _ s () s) by done. by rewrite Ha. }
  cbn [each_row]. rewrite (bind_ret _ _ _ _ _ H1), IH by done. f_equal.
  unfold lines. cbn [map concat]. destruct rs as [|r' rs]; [unfold s1; cbn; by rewrite app_nil_r|].
  unfold s1. cbn. rewrite lookup_insert_eq, insert_insert_eq. cbn. rewrite <- !app_assoc. reflexivity.
Qed.

(** ** All recordings of the list *)

Definition locked_in d ns s s' : Prop :=
  (forall n, n ∈ ns -> files s' !! lock n = files s !! n /\ files s' !! n = None) /\
  (forall n, n ∉ ns -> n ∉ map lock ns -> files s' !! n = files s !! n) /\
  exists t t', tables s !! d = Some t /\ tables s' !! d = Some t' /\
    (forall n, n ∈ ns -> exists r, r ∈ t' /\ r_name r = lock n) /\
    (forall r, r ∈ t -> r_name r ∉ ns -> r ∈ t').

Definition list_ok ns s : Prop :=
  Forall (unlocked_name tz) ns /\ NoDup ns /\ (forall n, n ∈ ns -> is_Some (files s !! n)) /\
  (forall n, n ∈ ns -> files s !! lock n = None).

Lemma lock_inj n n' : unlocked_name tz n -> unlocked_name tz n' -> lock n = lock n' -> n = n'.
Proof.
  intros Hn Hn' Hl. destruct (lock_name n Hn) as (_ & _ & <- & _). destruct (lock_name n' Hn') as (_ & _ & <- & _).
  by rewrite Hl.
Qed.

Lemma lock_fresh n n' : unlocked_name tz n -> unlocked_name tz n' -> lock n <> n'.
Proof.
  intros Hn Hn' Hl. destruct (lock_name n Hn) as (_ & Hm & _). destruct (lock_name n' Hn') as (Hm' & _).
  congruence.
Qed.

(** The first of the list does not meet the others. *)
Lemma list_apart n ns s : list_ok (n :: ns) s ->
  unlocked_name tz n /\ forall n', n' ∈ ns -> lock n <> n' /\ lock n' <> n /\ lock n' <> lock n /\ n' <> n.
Proof.
  intros (Hns & Hnd & _). apply list.Forall_cons in Hns as [Hn Hns]. apply list.NoDup_cons in Hnd as [Hnin _].
  rewrite list.Forall_forall in Hns. split; [done|].
  intros n' Hn'. split_and!; [apply lock_fresh; auto | apply lock_fresh; auto | | by intros ->].
  intros Heq. apply lock_inj in Heq as ->; auto.
Qed.

Lemma list_ok_renamed d t n ns i c s : list_ok (n :: ns) s -> list_ok ns (renamed s d t n (lock n) i c).
Proof.
  intros Hok. destruct (list_apart n ns s Hok) as [Hn Hap]. destruct Hok as (Hns & Hnd & Hex & Hfree).
  apply list.Forall_cons in Hns as [_ Hns]. apply list.NoDup_cons in Hnd as [_ Hnd].
  split_and!; [done | done | |]; intros n' Hn'; destruct (Hap n' Hn') as (? & ? & ? & ?); cbn;
    rewrite lookup_insert_ne, lookup_delete_ne by congruence; [apply Hex | apply Hfree]; by right.
Qed.

Lemma locked_in_cons d t n ns i c s s' : list_ok (n :: ns) s -> tables s !! d = Some t -> files s !! n = Some c ->
  locked_in d ns (renamed s d t n (lock n) i c) s' -> locked_in d (n :: ns) s s'.
Proof.
  intros Hok Ht Hc (Hloc & Hkeep & t1' & t' & Ht1' & Ht' & Hrows & Hold).
  destruct (renamed_row d t n i c s Ht) as (t1 & Ht1 & Hin1). assert (t1' = t1) as -> by congruence.
  destruct (list_apart n ns s Hok) as [Hn Hap]. split_and!.
  - intros n' [-> | Hn']%elem_of_cons.
    + assert (Hln : lock n ∉ ns) by (intros Hx; by destruct (Hap _ Hx) as (? & _)).
      assert (Hnn : n ∉ ns) by (intros Hx; by destruct (Hap _ Hx) as (_ & _ & _ & ?)).
      assert (Hl : forall x, x ∈ map lock ns -> x <> n /\ x <> lock n).
      { intros x Hx. apply list_elem_of_In, in_map_iff in Hx as (y & <- & Hy). apply list_elem_of_In in Hy.
        by destruct (Hap y Hy) as (_ & ? & ? & _). }
      rewrite !Hkeep by (done || by intros []%Hl). cbn. split; [by rewrite lookup_insert_eq, Hc|].
      rewrite lookup_insert_ne, lookup_delete_eq; [done|]. by apply lock_fresh.
    + destruct (Hap n' Hn') as (? & ? & ? & ?). destruct (Hloc n' Hn') as [-> ->]. split; [|done].
      cbn. by rewrite lookup_insert_ne, lookup_delete_ne by congruence.
  - intros n' [Hne Hn']%not_elem_of_cons [Hne' Hl']%not_elem_of_cons. rewrite Hkeep by done.
    cbn. by rewrite lookup_insert_ne, lookup_delete_ne by congruence.
  - exists t, t'. split_and!; [done | done | |].
    + intros n' [-> | Hn']%elem_of_cons; [|by apply Hrows]. exists (row_of (lock n) i). split; [|done].
      apply Hold; [apply Hin1; split; [by right|]; cbn; by apply lock_fresh|].
      cbn. intros Hx. by destruct (Hap _ Hx) as (? & _).
    + intros r Hrt [Hne Hrn]%not_elem_of_cons. apply Hold; [|done]. apply Hin1. split; [by left | done].
Qed.

Lemma loop_run d ns : forall fuel s, (length (lines ns) <= fuel)%nat -> waits s -> is_Some (tables s !! d) ->
  rows_true s -> list_ok ns s ->
  exists s', lock_loop e tz junk fuel (Some d) 1 (lines ns) s = Ret () s' /\
    rows_true s' /\ waits s' /\ db_info s' = db_info s /\ locked_in d ns s s'.
Proof.
  induction ns as [|n ns IH]; intros fuel s Hfuel Hw [t Ht] Hr Hok.
  { exists s. split; [by destruct fuel|]. split_and!; try done. split; [intros n Hn; by apply not_elem_of_nil in Hn|].
    split; [done|]. exists t, t. split_and!; try done. intros n Hn. by apply not_elem_of_nil in Hn. }
  destruct (list_apart n ns s Hok) as [Hn _]. destruct (lock_name n Hn) as (_ & _ & _ & Hl & _ & Hnl & _).
  destruct (proj1 (proj2 (proj2 Hok)) n) as [c Hc]; [by left|].
  destruct (rename_run d s t n c Hw Ht Hn Hc) as (i & Hi & Hren).
  rewrite lines_cons, length_app in Hfuel. cbn [length] in Hfuel. destruct fuel as [|fuel]; [lia|].
  destruct (IH fuel (renamed s d t n (lock n) i c)) as (s' & Hrun & Hr' & Hw' & Hdb & Hloc);
    [lia | constructor | | by eapply renamed_true | by apply list_ok_renamed|].
  { destruct (renamed_row d t n i c s Ht) as (t1 & Ht1 & _). by exists t1. }
  exists s'. split_and!; [| done | done | done | by eapply locked_in_cons].
  rewrite lines_cons. cbn [lock_loop]. destruct (n ++ chr 10 :: lines ns) as [|x l] eqn:Hx; [by destruct n|].
  rewrite <- Hx, fgets_line by (done || lia). cbv beta iota zeta.
  rewrite length_app. cbn [length]. rewrite Nat.add_sub, take_app_length. change (1 =? 0) with false. cbv iota.
  by rewrite (bind_ret _ _ _ _ _ Hren).
Qed.

(** ** The call *)

Context `{!DiskLaws e}.

(** The recordings a call locks. *)
Definition chosen start stop trig ch t : list index_row :=
  sql_scan e (List.filter (lock_query 1 start stop trig ch) t).

Lemma chosen_in start stop trig ch t r : r ∈ chosen start stop trig ch t <-> r ∈ t /\ lock_query 1 start stop trig ch r = true.
Proof. unfold chosen. rewrite (scan_perm (e := e)), !list_elem_of_In. apply filter_In. Qed.

Lemma list_name_apart sec usec n : unlocked_name tz n -> n <> lock_list_name sec usec /\ lock n <> lock_list_name sec usec.
Proof.
  intros (disk & part & i & r & Hok & ->). rewrite lock_flagged by (by eapply base_plain).
  assert (Hd : forall l, flagged (finfo_base tz i) r l <> lock_list_name sec usec); [|by split].
  intros l Heq. pose proof (name_without tz Htz disk part i r l Hok "-"%char eq_refl) as Hw.
  rewrite Heq in Hw. specialize (Hw ltac:(done) ltac:(done) ltac:(cbn; intuition discriminate)).
  rewrite list.Forall_forall in Hw. apply (Hw "-"%char); [|done].
  unfold lock_list_name. rewrite !elem_of_app. right. right. left. by left.
Qed.

Lemma lock_by_time_run sec usec m start stop trig ch d t s : opened s m d t -> waits s -> rows_true s ->
  append_ok e (lock_list_name sec usec) = true -> files s !! lock_list_name sec usec = None ->
  list_ok (names (chosen start stop trig ch t)) s ->
  exists s', fileindex_lock_by_time e tz junk sec usec m 1 start stop trig ch s = Ret 0 s' /\
    rows_true s' /\ waits s' /\ db_info s' = db_info s /\
    exists s1, locked_in d (names (chosen start stop trig ch t)) s1 s' /\ tables s1 = tables s /\
      forall n, n <> lock_list_name sec usec -> files s1 !! n = files s !! n.
Proof.
  intros Ho Hw Hr Ha Hfree Hlist. unfold fileindex_lock_by_time.
  rewrite (bind_ret _ _ _ _ _ (get_database _ _ _ _ Ho)). destruct Ho as [Hdb Ht]. cbv zeta.
  pose proof (list_name_apart sec usec) as Hapart. set (idx := lock_list_name sec usec) in *. clearbody idx. set (rs := chosen start stop trig ch t) in *.
  pose proof (list_run idx rs (s <| answers := ([] : list Z) |>) Ha (proj1 Hlist)) as Hrun.
  pose proof (exec_select d (fun t => chosen start stop trig ch t) _ s t _ Hw Ht Hrun) as Hsel.
  unfold chosen in Hsel. rewrite (bind_ret _ _ _ _ _ Hsel). clear Hsel Hrun.
  set (s1 := match rs with [] => _ | _ => _ end).
  assert (Hs1 : rows_true s1 /\ waits s1 /\ db_info s1 = db_info s /\ tables s1 = tables s /\
    (forall n, n <> idx -> files s1 !! n = files s !! n) /\
    files s1 !! idx = match rs with [] => None | _ => Some (lines (names rs)) end).
  { unfold s1. destruct rs; (split_and!; [exact Hr | constructor | done | done | |]).
    - done.
    - exact Hfree.
    - intros n Hn. cbn. by rewrite lookup_insert_ne.
    - cbn. by rewrite lookup_insert_eq, Hfree. }
  destruct Hs1 as (Hr1 & Hw1 & Hdb1 & Ht1 & Hf1 & Hidx). rewrite (bind_ret _ _ s1 s1 s1) by done.
  assert (Hlist1 : list_ok (names rs) s1).
  { destruct Hlist as (Hns & Hnd & Hex & Hfr). split_and!; [done | done | |]; intros n Hn;
      (destruct (Hapart n); [by apply (proj1 (list.Forall_forall _ _) Hns)|]); rewrite Hf1 by done; auto. }
  destruct (loop_run d (names rs) (length (lines (names rs))) s1) as (s' & Hrun & Hr' & Hw' & Hdb' & Hloc);
    [done | done | by exists t; rewrite Ht1 | done | done|].
  exists s'. split_and!; [| done | done | by rewrite Hdb' | by exists s1].
  rewrite Hidx. destruct rs as [|r rs']; [cbn in Hrun; by injection Hrun as <-|]. by rewrite (bind_ret _ _ _ _ _ Hrun).
Qed.
End Lock.

(** ** Listing *)

Section Query.
Variables (e : disk_env) (q : query_index_process_struct) (fp : cstr).
Context `{!DiskLaws e}.
Implicit Types (s : index_st) (t rs : list index_row).

Definition on_disk s (r : index_row) : bool := bool_decide (is_Some (files s !! r_name r)).

(** [s] with the lines of [rs] at the end of the list. *)
Definition listed rs s : index_st :=
  match rs with
  | [] => s
  | _ => s <| files := <[fp := (default [] (files s !! fp : option cstr) ++ lines (map (drop 7) (names rs)) : cstr)]> (files s) |>
  end.

Lemma listed_lookup rs s n : n <> fp -> files (listed rs s) !! n = files s !! n.
Proof. intros Hn. destruct rs; [done|]. cbn. by rewrite lookup_insert_ne. Qed.

Lemma listed_text rs s : default [] (files (listed rs s) !! fp : option cstr) =
  default [] (files s !! fp : option cstr) ++ lines (map (drop 7) (names rs)).
Proof. destruct rs; [by rewrite app_nil_r|]. cbn. by rewrite lookup_insert_eq. Qed.

Definition name_fits (r : index_row) : Prop := (7 <= length (r_name r) < 100)%nat /\ r_name r <> fp.

Lemma query_rows rs s : Forall name_fits rs ->
  exists s', each_row (queryindex_callback fp) rs s = Ret () s' /\
    db_info s' = db_info s /\ tables s' = tables s /\ answers s' = answers s /\
    (forall n, n <> fp -> files s' !! n = files s !! n) /\
    default [] (files s' !! fp : option cstr) =
      default [] (files s !! fp : option cstr) ++ lines (map (drop 7) (names (List.filter (on_disk s) rs))).
Proof.
  intros Hrs. revert s. induction Hrs as [|r rs [Hl Hne] Hrs IH]; intros s.
  { exists s. by rewrite app_nil_r. }
  cbn [each_row]. set (s1 := listed (List.filter (on_disk s) [r]) s).
  assert (H1 : queryindex_callback fp r s = Ret () s1).
  { unfold queryindex_callback. rewrite (proj2 (Nat.leb_gt _ _)), (proj2 (Nat.ltb_ge _ _)) by lia. cbn [orb].
    unfold exists_file. rewrite bind_assoc, (bind_ret _ _ s s s), (bind_ret _ _ s (on_disk s r) s) by done.
    unfold s1. cbn [List.filter]. destruct (on_disk s r); cbn; [|done].
    unfold append_line, modify, listed. cbn. by rewrite app_nil_r. }
  rewrite (bind_ret _ _ _ _ _ H1). destruct (IH s1) as (s' & Hrun & Hdb & Ht & Ha & Hf & Htext).
  exists s'. split; [done|]. assert (Hs1 : db_info s1 = db_info s /\ tables s1 = tables s /\ answers s1 = answers s)
    by (unfold s1, listed; by destruct (List.filter _ _)).
  destruct Hs1 as (? & ? & ?). split_and!; [congruence.. | |].
  - intros n Hn. rewrite Hf by done. by apply listed_lookup.
  - rewrite Htext. unfold s1 at 1. rewrite listed_text, <- app_assoc. f_equal.
    assert (Hsame : List.filter (on_disk s1) rs = List.filter (on_disk s) rs).
    { apply filter_ext_in. intros r' Hr'%list_elem_of_In. rewrite list.Forall_forall in Hrs.
      unfold on_disk, s1. by rewrite listed_lookup by apply (Hrs _ Hr'). }
    rewrite Hsame. cbn [List.filter]. unfold lines. destruct (on_disk s r); [|done]. cbn [map concat].
    by rewrite app_nil_r.
Qed.

(** The numbers the query prints fit its 20 bytes. *)
Definition query_fits : Prop := -1 <= q_trig_flag q < 2 ^ 16 /\ -1 <= q_ch q < 2 ^ 16.

Lemma fits_run (s : index_st) n text : (length text < n)%nat -> fits n text s = Ret () s.
Proof. intros H. unfold fits. by rewrite (proj2 (Nat.ltb_lt _ _) H). Qed.

Lemma number_fits (s : index_st) z text : 0 <= z < 2 ^ 16 -> (length text <= 12)%nat ->
  fits 20 (text ++ fmt_d 0 z) s = Ret () s.
Proof.
  intros Hz Hl. apply fits_run. rewrite length_app.
  pose proof (fmt_len z 5 ltac:(lia) ltac:(lia) ltac:(cbn; lia)). lia.
Qed.

Definition found s t : list index_row := List.filter (on_disk s) (sql_scan e (List.filter (index_query q) t)).

Lemma query_run m d t s : opened s m d t -> waits s -> query_fits -> Forall name_fits t ->
  exists s', fileindex_query_index e m fp q s = Ret 0 s' /\ (forall n, n <> fp -> files s' !! n = files s !! n) /\
    default [] (files s' !! fp : option cstr) =
      default [] (files s !! fp : option cstr) ++ lines (map (drop 7) (names (found s t))) /\
    db_info s' = db_info s /\ tables s' = tables s /\ waits s'.
Proof.
  intros Ho Hw [Ht Hc] Hnames. unfold fileindex_query_index.
  rewrite (bind_ret _ _ _ _ _ (get_database _ _ _ _ Ho)). destruct Ho as [_ Htab].
  assert (H1 : (if q_trig_flag q =? -1 then mret () else fits 20 (lit " and trig = " ++ fmt_d 0 (q_trig_flag q))) s = Ret () s).
  { destruct (Z.eqb_spec (q_trig_flag q) (-1)); [done|]. apply number_fits; [lia | cbn; lia]. }
  assert (H2 : (if q_ch q =? -1 then mret () else fits 20 (lit " and ch = " ++ fmt_d 0 (q_ch q))) s = Ret () s).
  { destruct (Z.eqb_spec (q_ch q) (-1)); [done|]. apply number_fits; [lia | cbn; lia]. }
  rewrite (bind_ret _ _ _ _ _ H1), (bind_ret _ _ _ _ _ H2).
  assert (Hrs : Forall name_fits (sql_scan e (List.filter (index_query q) t))).
  { rewrite list.Forall_forall in *. intros r Hr. apply Hnames. rewrite (scan_perm (e := e)) in Hr.
    apply list_elem_of_In, filter_In in Hr as [Hr _]. by apply list_elem_of_In. }
  destruct (query_rows _ (s <| answers := ([] : list Z) |>) Hrs) as (s' & Hrun & Hdb & Htb & Hans & Hf & Htext).
  exists s'. split; [|split_and!; try done; unfold waits; by rewrite Hans].
  by rewrite (bind_ret _ _ _ _ _ (exec_select d (fun t => sql_scan e (List.filter (index_query q) t)) _ s t s' Hw Htab Hrun)).
Qed.

Lemma found_in s t r : r ∈ found s t <-> r ∈ t /\ index_query q r = true /\ is_Some (files s !! r_name r).
Proof.
  unfold found. rewrite list_elem_of_In, filter_In, <- list_elem_of_In, (scan_perm (e := e)), list_elem_of_In, filter_In.
  unfold on_disk. rewrite bool_decide_eq_true, list_elem_of_In. tauto.
Qed.
End Query.
