(* ===== verification/DiskMan.v ===== *)
(** * The disk manager (src/mp_diskman_m/diskmanager.c; mpdisk.c, hdutil.c of libsrc)

    Every ten seconds it looks at the partitions: one with too little room has its
    oldest recordings deleted until there is enough; when that is not possible the
    disk is full, and after a day of it every recording is unlocked.  The state is the
    index's, with the flags and counters of the process. *)

From Stdlib Require Import Ascii String.
From stdpp Require Import gmap strings sorting.
From S2P Require Import Prelude Update Ctime Cstring RecName FileIndex.

Definition HD_RMVAL : Z := 280.
Definition HD_RM_STOP : Z := 450.
Definition CF_RMVAL : Z := 80.
Definition CF_RM_STOP : Z := 150.
Definition MAX_PARTITION_NUM : Z := 16.
Definition DISK_MAN_LOOP : Z := 10.
Definition HDERR_RBT_FILE : cstr := lit "/log/hderr_reboot.txt".
Definition HDERR_RBT_TIME : Z := 3600.
Definition MPGDIR : cstr := lit "/hqdata/iframe".
Definition MPGNUMBER : Z := 40.
Definition RM_MPG_ONCE : Z := 15.
Definition PICINDEXDIR : cstr := lit "/hqdata/picindex".
Definition PICINDEXNUMBER : Z := 40.
Definition RM_PICINDEX_ONCE : Z := 15.
Definition INDEXDIR : cstr := lit "/hqdata/index".
Definition INDEXNUMBER : Z := 40.
Definition RM_INDEX_ONCE : Z := 15.
Definition UPDATEDIR : cstr := lit "/log/update".
Definition UPDATENUMBER : Z := 30.
Definition RM_UPDATE_ONCE : Z := 10.

(** What the disk manager sends or starts. *)
Inductive dm_call := Send_state | Hwrbt | Ftw_clean (partition : cstr) | Mkdir (path : cstr).

(** [disktotal] is the thread's; the flags of [diskman_state] have one bit. *)
Record dm_st := {
  dm_index : index_st; cf_err : Z; disk_full_flag : Z; fulllock : Z;
  diskfull_counter : list Z; disktotal : Z; dm_calls : list dm_call
}.

#[export] Instance dm_settable : Settable dm_st := {| rebuild := fun s =>
  Build_dm_st (dm_index s) (cf_err s) (disk_full_flag s) (fulllock s) (diskfull_counter s)
    (disktotal s) (dm_calls s) |}.

(** The disks: their sizes, the number of partitions of each, the device of a
    partition, and the size of what is mounted; what [scandir] finds in a directory;
    and whether a path can be used. *)
Record dm_env := {
  disk_sizes : list Z; part_num : nat -> Z; part_device : nat -> Z -> cstr; total_of : cstr -> Z;
  listing : files_t -> cstr -> option (list cstr); usable : cstr -> bool
}.

Section DiskMan.
Variables (e : disk_env) (v : dm_env) (tz : Z) (junk : file_info_struct).
(** The kind of disk (1 a hard disk), and the parameters of the file. *)
Variables (hd_type auto_unlock_time hderr_reboot_enable : Z).

(** A call on the index. *)
Definition on_index {A} (m : M index_st A) : M dm_st A := fun s =>
  match m (dm_index s) with
  | Ret a i => Ret a (s <| dm_index := i |>)
  | Blocked i => Blocked (s <| dm_index := i |>)
  | Exited c i => Exited c (s <| dm_index := i |>)
  | Undef => Undef
  end.

Definition dm_emit (c : dm_call) : M dm_st () := modify (fun s : dm_st => s <| dm_calls ::= fun l => l ++ [c] |>).

Definition get_hd_rmval : Z := if hd_type =? 1 then HD_RMVAL else CF_RMVAL.
Definition rm_stop : Z := if hd_type =? 1 then HD_RM_STOP else CF_RM_STOP.

(** ** The flags *)

Definition set_cferr_flag (flag : Z) : M dm_st () :=
  if ide_flag e =? 0 then mret () else
  s ← get_st;
  if cf_err s =? flag then mret ()
  else put_st (s <| cf_err := flag mod 2 |>) ;; dm_emit Send_state.

Definition set_disk_full_flag (flag : Z) : M dm_st () :=
  if ide_flag e =? 0 then mret () else
  s ← get_st;
  if disk_full_flag s =? flag then mret ()
  else put_st (s <| disk_full_flag := flag mod 2 |>) ;; dm_emit Send_state.

(** ** Partitions *)

Definition partitionname2mountpath (devname : cstr) : option cstr :=
  match strstr devname (lit "/sd") with
  | Some p => Some (HDMOUNT_PATH ++ drop p devname)
  | None => None
  end.

(** The mount point of partition [j] of disk [i]; an area of zeros when the device's
    name is not a disk's. *)
Definition mount_path (i : nat) (j : Z) : cstr := default [] (partitionname2mountpath (part_device v i j)).

Fixpoint process_partitions {St} (n : nat) (i : nat) (j : Z) (fn : cstr -> M St Z) : M St Z :=
  match n with
  | O => mret 0
  | S n => r ← fn (mount_path i j); r' ← process_partitions n i (j + 1) fn; mret (r + r')
  end.

Fixpoint process_disks {St} (n : nat) (i : nat) (fn : cstr -> M St Z) : M St Z :=
  match n with
  | O => mret 0
  | S n =>
      r ← process_partitions (Z.to_nat (part_num v i)) i 1 fn;
      r' ← process_disks n (S i) fn; mret (r + r')
  end.

(** The sum of what [fn] returns for the partitions, on the state of any process. *)
Definition mpdisk_process_all_partitions {St} (fn : cstr -> M St Z) : M St Z :=
  process_disks (length (disk_sizes v)) 0 fn.

(** [mpdisk_get_sys_disktotal] adds up through a pointer. *)
Definition mpdisk_get_sys_disktotal : M dm_st Z := mpdisk_process_all_partitions (fun path => mret (total_of v path)).

(** ** Deleting the oldest *)

(** The loop: until deleting changes nothing or there is room. *)
Fixpoint remove_loop (fuel : nat) (partition : cstr) (occupied : Z) : M dm_st () :=
  match fuel with
  | O => blocked
  | S fuel =>
      on_index (fileindex_del_oldest e partition 10) ;;
      disk_free ← on_index (get_disk_free e partition);
      if (occupied =? disk_free) || (rm_stop <=? disk_free) then mret ()
      else remove_loop fuel partition disk_free
  end.

Definition remove_oldest_from_partition (fuel : nat) (partition : cstr) : M dm_st Z :=
  occupied ← on_index (get_disk_free e partition);
  if occupied <? 0 then mret (-1) else
  remove_loop fuel partition occupied ;;
  dm_emit (Ftw_clean partition) ;;
  disk_free ← on_index (get_disk_free e partition);
  mret (if rm_stop <=? disk_free then 0 else - EPERM).

(** ** A full disk *)

(** [++diskfull_counter[partitionindex]] *)
Definition disk_full (sec usec : Z) (mountpath : cstr) (partitionindex : Z) : M dm_st Z :=
  set_disk_full_flag 1 ;;
  s ← get_st;
  c ← access (geti (diskfull_counter s) partitionindex);
  l ← access (seti (diskfull_counter s) partitionindex (c + 1));
  put_st (s <| diskfull_counter := l |>) ;;
  (if Z.quot auto_unlock_time DISK_MAN_LOOP <=? c + 1 then
     s ← get_st;
     l ← access (seti (diskfull_counter s) partitionindex 0);
     put_st (s <| diskfull_counter := l |>) ;;
     on_index (fileindex_lock_by_time e tz junk sec usec mountpath 0 (-1) (-1) (-1) (-1)) ;; mret ()
   else mret ()) ;;
  mret 0.

(** One partition of the thread's loop. *)
Definition partition_round (fuel : nat) (sec usec : Z) (j : Z) : M dm_st () :=
  let path := mount_path 0 j in
  partition_free ← on_index (get_disk_free e path);
  if partition_free <? get_hd_rmval then
    ret ← remove_oldest_from_partition fuel path;
    if negb (ret =? 0) then
      disk_full sec usec path j ;;
      s ← get_st; put_st (s <| fulllock := 1 |>)
    else
      s ← get_st; put_st (s <| fulllock := 0 |>) ;; set_disk_full_flag 0
  else
    set_disk_full_flag 0 ;;
    s ← get_st; l ← access (seti (diskfull_counter s) j 0);
    put_st (s <| diskfull_counter := l |>).

Fixpoint partitions_round (n : nat) (fuel : nat) (sec usec : Z) (j : Z) : M dm_st () :=
  match n with
  | O => mret ()
  | S n => partition_round fuel sec usec j ;; partitions_round n fuel sec usec (j + 1)
  end.

(** ** A disk in trouble *)

(** At most one restart an hour. *)
Definition hdutil_get_hderr_reboot_flag (timenow : Z) : M dm_st Z :=
  let write : M index_st Z :=
    (if append_ok e HDERR_RBT_FILE
     then modify (fun s : index_st => s <| files ::= fun f : files_t => <[HDERR_RBT_FILE := fmt_d 0 timenow]> f |>)
     else mret ()) ;; mret 1 in
  on_index (
    s ← get_st;
    match (files s !! HDERR_RBT_FILE : option cstr) with
    | None => write
    | Some text =>
        if negb (append_ok e HDERR_RBT_FILE) then write else
        match text with
        | [] => undef
        | _ =>
            let time_lastrbt := atoi (fst (fgets 39 text)) in
            if (time_lastrbt <=? 0) || (timenow - time_lastrbt <? HDERR_RBT_TIME) then mret 0 else write
        end
    end).

(** Restart, or say that the disk is in trouble. *)
Definition reboot_or_flag (timenow : Z) : M dm_st () :=
  if negb (hderr_reboot_enable =? 0) then
    b ← hdutil_get_hderr_reboot_flag timenow;
    if b =? 1 then dm_emit Hwrbt else set_cferr_flag 1
  else set_cferr_flag 1.

(** [scandir] gives -1 on an error, and the names are freed downwards from there. *)
Definition check_disk_status_fn (timenow : Z) (mountpath : cstr) : M dm_st Z :=
  diskfree ← on_index (get_disk_free e mountpath);
  if 1024 <? total_of v mountpath - diskfree then
    s ← get_st;
    match listing v (files (dm_index s)) mountpath with
    | None => undef
    | Some [] => reboot_or_flag timenow ;; mret 0
    | Some _ => mret 0
    end
  else mret 0.

(** The sizes are added to what they were the time before. *)
Definition check_mounted (timenow : Z) : M dm_st () :=
  s ← get_st;
  put_st (s <| disktotal := disktotal s + foldr Z.add 0 (disk_sizes v) |>) ;;
  parttotal ← mpdisk_get_sys_disktotal;
  s ← get_st;
  if (1000 <=? disktotal s) && (parttotal <? 1000) then reboot_or_flag timenow else mret ().

(** ** Directories of small files *)

Definition path_is (a b : cstr) : bool := bool_decide (a = b).

Definition get_remove_number (dirname : cstr) : Z :=
  if path_is dirname MPGDIR then RM_MPG_ONCE
  else if path_is dirname PICINDEXDIR then RM_PICINDEX_ONCE
  else if path_is dirname INDEXDIR then RM_INDEX_ONCE
  else if path_is dirname UPDATEDIR then RM_UPDATE_ONCE else 0.

Definition get_filenumber_limit (dirname : cstr) : Z :=
  if path_is dirname MPGDIR then MPGNUMBER * 2
  else if path_is dirname PICINDEXDIR then PICINDEXNUMBER
  else if path_is dirname INDEXDIR then INDEXNUMBER
  else if path_is dirname UPDATEDIR then UPDATENUMBER else 0.

(** The names from the third on: the first two are "." and "..". *)
Fixpoint remove_names (n : nat) (path : cstr) (namelist : list cstr) (i : nat) (no : Z) : M dm_st Z :=
  match n with
  | O => mret no
  | S n =>
      name ← access (namelist !! (i + 2)%nat);
      let filename := path ++ lit "/" ++ name in
      if (100 <=? length filename)%nat then undef else
      ret ← on_index (remove e filename);
      remove_names n path namelist (S i) (if ret =? 0 then no + 1 else no)
  end.

Definition remove_oldest_smallfiles (path : cstr) (number : Z) : M dm_st Z :=
  dm_emit (Mkdir path) ;;
  if negb (usable v path) then mret (-1) else
  s ← get_st;
  match listing v (files (dm_index s)) path with
  | None => mret (-1)
  | Some namelist => remove_names (Z.to_nat number) path namelist 0 0
  end.

Definition manage_dir (dirname : cstr) : M dm_st () :=
  (if usable v dirname then mret () else dm_emit (Mkdir dirname)) ;;
  s ← get_st;
  match listing v (files (dm_index s)) dirname with
  | None => mret ()
  | Some namelist =>
      if get_filenumber_limit dirname <? zlen namelist - 2
      then remove_oldest_smallfiles dirname (get_remove_number dirname) ;; mret () else mret ()
  end.

(** ** The thread *)

(** One round, at second [sec] of the clock. *)
Definition diskman_round (fuel : nat) (sec usec : Z) : M dm_st () :=
  manage_dir MPGDIR ;; manage_dir PICINDEXDIR ;; manage_dir UPDATEDIR ;; manage_dir INDEXDIR ;;
  mpdisk_process_all_partitions (check_disk_status_fn sec) ;;
  check_mounted sec ;;
  partitions_round (Z.to_nat (part_num v 0)) fuel sec usec 1.

(** ** Locking on request *)

Record gt_time_struct := { gt_year : Z; gt_month : Z; gt_day : Z; gt_hour : Z; gt_minute : Z; gt_second : Z }.

Definition gttime2tm (t : gt_time_struct) : tm :=
  {| tm_year := gt_year t - 1900; tm_mon := gt_month t - 1; tm_mday := gt_day t;
     tm_hour := gt_hour t; tm_min := gt_minute t; tm_sec := gt_second t |}.

Record usr_lock_file_time_struct := { lk_mode : Z; lk_ch : Z; lk_start : gt_time_struct; lk_stop : gt_time_struct }.

Fixpoint usr_lock_loop (n : nat) (sec usec mode ch start stop : Z) (i result : Z) : M dm_st Z :=
  match n with
  | O => mret result
  | S n =>
      result ← (if Z.land ch (Z.shiftl 1 i) =? 1 then
        let path := lit "/hqdata/sda" ++ fmt_d 0 (i + 1) in
        if stop <=? start
        then on_index (fileindex_lock_by_time e tz junk sec usec path mode (-1) (-1) (-1) i)
        else on_index (fileindex_lock_by_time e tz junk sec usec path mode start stop (-1) i)
      else mret result);
      usr_lock_loop n sec usec mode ch start stop (i + 1) result
  end.

Definition usr_lock_file_time (sec usec : Z) (lockfile : usr_lock_file_time_struct) : M dm_st Z :=
  usr_lock_loop 4 sec usec (lk_mode lockfile) (lk_ch lockfile mod 2 ^ 16)
    (mktime tz (gttime2tm (lk_start lockfile))) (mktime tz (gttime2tm (lk_stop lockfile))) 0 0.

Definition lock_file_by_time (sec usec start_time stop_time mode channel : Z) : M dm_st Z :=
  mpdisk_process_all_partitions (fun path =>
    on_index (fileindex_lock_by_time e tz junk sec usec path mode start_time stop_time (-1) channel) ;; mret 0).

Definition hdutil_lock_all_files (sec usec mode : Z) : M dm_st Z :=
  mpdisk_process_all_partitions (fun path =>
    on_index (fileindex_lock_by_time e tz junk sec usec path mode (-1) (-1) (-1) (-1))).

End DiskMan.
