(* ===== verification/DiskManThms.v ===== *)
(** * Making room on a partition

    Deleting the oldest recordings of a partition ends, by having made room or by
    having nothing left that deleting frees; what it deletes is older than what it
    leaves, and it deletes no more than it must. *)

From Stdlib Require Import Ascii String.
From stdpp Require Import gmap strings sorting.
From S2P Require Import Prelude Update Ctime Cstring RecName FileIndex FileIndexThms DiskMan.

Section Lists.
Context {A : Type}.
Implicit Types (f g : A -> bool) (l : list A).

Lemma filter_comm f g l : List.filter f (List.filter g l) = List.filter (fun x => g x && f x) l.
Proof.
  induction l as [|x l IH]; [done|]. cbn. destruct (g x); cbn; [|done]. by destruct (f x); rewrite IH.
Qed.

Lemma filter_fewer f g l : (length (List.filter f (List.filter g l)) <= length (List.filter f l))%nat.
Proof. induction l as [|x l IH]; [done|]. cbn. destruct (g x), (f x) eqn:E; cbn; rewrite ?E; cbn; lia. Qed.

Lemma filter_fewer_lt f g l x : x ∈ l -> f x = true -> g x = false ->
  (length (List.filter f (List.filter g l)) < length (List.filter f l))%nat.
Proof.
  intros Hx Hf Hg. induction l as [|y l IH]; [by apply not_elem_of_nil in Hx|].
  pose proof (filter_fewer f g l). apply elem_of_cons in Hx as [<- | Hx].
  - cbn. rewrite Hg, Hf. cbn. lia.
  - specialize (IH Hx). cbn. destruct (g y), (f y) eqn:E; cbn; rewrite ?E; cbn; lia.
Qed.
End Lists.

Section Room.
Variables (e : disk_env) (hd_type : Z).
Context `{!DiskLaws e}.
Implicit Types (s : dm_st) (t D : list index_row) (p : cstr).

(** The rows without those of [D], and the index without them and their files. *)
Definition rest_of D t : list index_row := List.filter (fun r => negb (name_in D r)) t.
Definition reduced D (d : nat) t (i : index_st) : index_st :=
  Build_index_st (db_info i) (<[d := rest_of D t]> (tables i)) (without (names D) (files i)) [].

Lemma rest_of_app D D' t : rest_of D' (rest_of D t) = rest_of (D ++ D') t.
Proof.
  unfold rest_of. rewrite filter_comm. apply filter_ext. intros r. unfold name_in. by rewrite existsb_app, negb_orb.
Qed.

Lemma without_app D D' (f : files_t) : without (names (D ++ D')) f = without (names D') (without (names D) f).
Proof. unfold without. by rewrite map_app, fold_left_app. Qed.

Lemma reduced_app D D' d t i : reduced D' d (rest_of D t) (reduced D d t i) = reduced (D ++ D') d t i.
Proof.
  unfold reduced. cbn. by rewrite rest_of_app, list_insert_insert_eq, without_app.
Qed.

Lemma reduced_opened D p d t i : opened i p d t -> opened (reduced D d t i) p d (rest_of D t).
Proof. intros [Hdb Ht]. split; [exact Hdb|]. cbn. apply list_lookup_insert_eq. by eapply lookup_lt_Some. Qed.

Definition all_removable t : Prop := forall r, r ∈ t -> deletable r = true -> remove_errno e (r_name r) = 0.

Lemma all_removable_rest D t : all_removable t -> all_removable (rest_of D t).
Proof.
  intros Hr r Hin. apply Hr. apply list_elem_of_In, filter_In in Hin as [Hin _]. by apply list_elem_of_In.
Qed.

Lemma deletable_oldest no t r : r ∈ oldest e no t -> r ∈ t /\ deletable r = true.
Proof. intros (Hin & Hl & Hi)%oldest_in; [|done]. split; [done|]. unfold deletable. by rewrite Hl, Hi. Qed.

Lemma oldest_removable no t : all_removable t -> removable e (oldest e no t).
Proof.
  intros Hr. apply list.Forall_forall. intros r Hin. by destruct (deletable_oldest no t r Hin) as [? ?%Hr].
Qed.

Lemma del_round p d t s : opened (dm_index s) p d t -> waits (dm_index s) -> all_removable t ->
  on_index (fileindex_del_oldest e p 10) s = Ret 0 (s <| dm_index := reduced (oldest e 10 t) d t (dm_index s) |>).
Proof.
  intros Ho Hw Hr. unfold on_index. rewrite (del_oldest_run e p 10 d t) by (done || by apply oldest_removable).
  done.
Qed.

(** Deletions that take the oldest first, and stop as soon as there is room. *)
Definition oldest_first_of D t : Prop :=
  (forall r, r ∈ D -> r ∈ t /\ r_lock r = 0 /\ r_ing r = 0) /\
  (forall r r', r ∈ D -> r' ∈ rest_of D t -> r_lock r' = 0 -> r_ing r' = 0 -> r_start r <= r_start r').

Definition no_more p D (i : index_st) : Prop :=
  (length D <= 10)%nat \/
  exists D0 D1, D = D0 ++ D1 /\ (length D1 <= 10)%nat /\ free_of e (without (names D0) (files i)) p < rm_stop hd_type.

(** There is room, or the last round deleted the oldest and freed nothing. *)
Definition gives_up p D t (i : index_st) : Prop :=
  rm_stop hd_type <= free_of e (without (names D) (files i)) p \/
  exists D0, D = D0 ++ oldest e 10 (rest_of D0 t) /\
    free_of e (without (names D) (files i)) p = free_of e (without (names D0) (files i)) p.

Lemma rest_of_nil t : rest_of [] t = t.
Proof. induction t as [|r t IH]; [done|]. change (rest_of [] (r :: t)) with (r :: rest_of [] t). by rewrite IH. Qed.

Lemma rest_of_in D t r : r ∈ rest_of D t -> r ∈ t.
Proof. intros Hin. apply list_elem_of_In, filter_In in Hin as [Hin _]. by apply list_elem_of_In. Qed.

Lemma oldest_first_round no t : oldest_first_of (oldest e no t) t.
Proof.
  split; [by intros r Hr%oldest_in|]. intros r r' Hr Hr' Hl Hi. by eapply (oldest_first e no t).
Qed.

Lemma oldest_first_app no D t : oldest_first_of D (rest_of (oldest e no t) t) -> oldest_first_of (oldest e no t ++ D) t.
Proof.
  intros [H1 H2]. destruct (oldest_first_round no t) as [H3 H4]. split.
  - intros r [Hr | Hr]%elem_of_app; [by apply H3|]. destruct (H1 r Hr) as [Hin ?]. split; [|done]. by apply rest_of_in in Hin.
  - intros r r' [Hr | Hr]%elem_of_app Hr'; rewrite <- rest_of_app in Hr'; [|by apply H2].
    apply H4; [done|]. by apply rest_of_in in Hr'.
Qed.

Lemma oldest_ten t : (length (oldest e 10 t) <= 10)%nat.
Proof. rewrite oldest_length by done. lia. Qed.

Lemma oldest_none t : List.filter deletable t = [] -> oldest e 10 t = [].
Proof.
  intros H. pose proof (oldest_length e 10 t) as Hl. rewrite H in Hl. cbn in Hl. by destruct (oldest e 10 t).
Qed.

(** The loop ends: each round but the last takes a recording from those that can be
    deleted. *)
Lemma loop_ends p d : forall fuel t s, (length (List.filter deletable t) < fuel)%nat ->
  opened (dm_index s) p d t -> waits (dm_index s) -> all_removable t ->
  exists D, remove_loop e hd_type fuel p (free_of e (files (dm_index s)) p) s =
      Ret () (s <| dm_index := reduced D d t (dm_index s) |>) /\
    oldest_first_of D t /\ no_more p D (dm_index s) /\ gives_up p D t (dm_index s).
Proof.
  induction fuel as [|fuel IH]; intros t s Hf Ho Hw Hr; [lia|]. cbn [remove_loop].
  rewrite (bind_ret _ _ _ _ _ (del_round p d t s Ho Hw Hr)). set (D := oldest e 10 t).
  set (s1 := s <| dm_index := reduced D d t (dm_index s) |>).
  rewrite (bind_ret _ _ s1 (free_of e (without (names D) (files (dm_index s))) p) s1) by by destruct s.
  destruct ((_ =? _) || (_ <=? _)) eqn:Hstop.
  { exists D. split; [done|]. split; [apply oldest_first_round|]. split; [left; apply oldest_ten|].
    apply orb_true_iff in Hstop as [Hsame | Hroom]; [right | left; lia].
    exists []. rewrite rest_of_nil. split; [done|]. cbn. lia. }
  apply orb_false_iff in Hstop as [Hne Hlt].
  assert (Hfew : (length (List.filter deletable (rest_of D t)) < length (List.filter deletable t))%nat).
  { destruct D as [|r D'] eqn:HD; [cbn in Hne; by rewrite Z.eqb_refl in Hne|]. rewrite <- HD.
    destruct (deletable_oldest 10 t r) as [Hin Hd]; [fold D; rewrite HD; by left|].
    eapply filter_fewer_lt; [exact Hin | done|]. apply negb_false_iff, name_in_names. rewrite HD. by left. }
  destruct (IH (rest_of D t) s1) as (D' & Hrun & Hold & Hmore & Hup);
    [lia | by apply reduced_opened | constructor | by apply all_removable_rest|].
  exists (D ++ D'). split; [|split; [|split]].
  - change (files (dm_index s1)) with (without (names D) (files (dm_index s))) in Hrun. rewrite Hrun.
    unfold s1. cbn. by rewrite reduced_app.
  - by apply oldest_first_app.
  - right. destruct Hmore as [Hten | (D0 & D1 & -> & Hten & Hfull)].
    + exists D, D'. split_and!; [done | done | lia].
    + exists (D ++ D0), D1. rewrite app_assoc, without_app. by split_and!.
  - destruct Hup as [Hup | (D0 & -> & Hup)]; [left; by rewrite without_app | right].
    exists (D ++ D0). rewrite <- rest_of_app, <- app_assoc. split; [done|]. rewrite !without_app in *. exact Hup.
Qed.
End Room.
