(* ===== verification/DiskManRuns.v ===== *)
(** * Recordings are found, kept and deleted as asked

    The properties of the index and of the disk manager, with a disk on which they are
    seen. *)

From Stdlib Require Import Ascii String.
From stdpp Require Import gmap strings sorting.
From S2P Require Import Prelude Update Ctime Cstring RecName RecNameThms FileIndex FileIndexThms FileIndexLock DiskMan DiskManThms.


(** C14. Recordings that are locked by time stay: where the locking can rename its files,
    those of the index that are chosen are, after the call, under their names with the lock
    mark, with what was in them; and whatever is then asked of the index - additions,
    renamings of other files, deletions of any number of the oldest, listings into other
    files, but no locking or unlocking -, whatever disk each of these calls meets, with
    renamings and deletions that fail, and whatever the database answers to its
    statements, they are still there, unless a call does what the language leaves
    undefined. *)
Theorem locked_stay e tz junk sec usec m start stop trig ch d t s : DiskLaws e ->
  - 86400 <= tz <= 86400 -> length (info_partition junk) = 16%nat ->
  (forall old new, rename_errno e old new = 0) -> append_ok e (lock_list_name sec usec) = true ->
  opened s m d t -> waits s -> rows_true s -> files s !! lock_list_name sec usec = None ->
  list_ok tz (names (chosen e start stop trig ch t)) s ->
  exists s', fileindex_lock_by_time e tz junk sec usec m 1 start stop trig ch s = Ret 0 s' /\
    forall r, r ∈ t -> lock_query 1 start stop trig ch r = true ->
      let f := hdutil_lock_filename (r_name r) in
      files s' !! f = files s !! r_name r /\
      forall calls, Forall (fun k => DiskLaws (mc_disk k) /\ spares f (mc_call k)) calls ->
        match run_index tz junk calls s' with
        | Ret _ s'' | Blocked s'' | Exited _ s'' => files s'' !! f = files s !! r_name r
        | Undef => True
        end.
Proof.
  intros Hlaws Htz Hj Hren Ha Ho Hw Hr Hfree Hok.
  destruct (lock_by_time_run e tz junk Htz Hj Hren sec usec m start stop trig ch d t s Ho Hw Hr Ha Hfree Hok)
    as (s' & Hrun & Hr' & _ & _ & s1 & (Hloc & _) & _ & Hsame).
  exists s'. split; [done|]. intros r Hin Hq f.
  assert (Hn : r_name r ∈ names (chosen e start stop trig ch t)).
  { apply list_elem_of_In, in_map, list_elem_of_In. by apply chosen_in. }
  destruct Hok as (Hns & _ & Hex & _). rewrite list.Forall_forall in Hns. pose proof (Hns _ Hn) as Hname.
  assert (Hf : files s' !! f = files s !! r_name r).
  { unfold f. destruct (Hloc _ Hn) as [-> _]. apply Hsame. by apply (list_name_apart tz Htz sec usec). }
  split; [done|]. intros calls Hcalls. destruct (Hex _ Hn) as [c Hc]. rewrite Hc in *.
  destruct (lock_name tz junk Htz Hj _ Hname) as (_ & Hm & _ & _ & Hl & _).
  pose proof (keeps_run tz junk f c calls Hm Hl Hcalls s' (conj Hr' Hf)) as Hk.
  by destruct (run_index _ _ _ _) as [? ?|?|? ?|]; try apply Hk.
Qed.

(** When a query finds the row of a recording. *)
Lemma window_spec disk part q name i i' : info_ok disk part i -> stime i + info_len i < 2 ^ 31 ->
  stime i' = stime i -> info_channel i' = info_channel i -> info_len i' = info_len i ->
  info_trig i' = info_trig i -> ing_flag i' = 0 ->
  index_query q (row_of name i') = true <->
    stime i <= q_stop q /\ q_start q <= stime i + info_len i /\
    (q_trig_flag q = -1 \/ q_trig_flag q = info_trig i) /\ (q_ch q = -1 \/ q_ch q = info_channel i).
Proof.
  intros [] Hend Hst Hch Hlen Htr Hing. unfold index_query. cbn. rewrite Hst, Hch, Hlen, Htr, Hing.
  rewrite (i32_small (stime i)), i32_small by lia. lia.
Qed.

(** C15. What is recorded is found: a recording that is added to the index of its partition is
    listed, without its first 7 characters, by every query whose window it overlaps and
    whose trigger and channel are its own or -1, and by no other; the list gets the
    lines of the recordings that are found and of no file that is not there. *)
Theorem recordings_are_found e tz junk disk part i q m fp d t s : DiskLaws e ->
  - 86400 <= tz <= 86400 -> length (info_partition junk) = 16%nat -> info_ok disk part i ->
  stime i + info_len i < 2 ^ 31 -> opened s m d t -> waits s -> query_fits q -> Forall (name_fits fp) t ->
  let name := finfo2filename tz i in
  name <> fp -> name ∉ names t -> is_Some (files s !! name) ->
  exists s1 s2 l, fileindex_add_to_partition tz junk m name s = Ret 0 s1 /\
    fileindex_query_index e m fp q s1 = Ret 0 s2 /\
    default [] (files s2 !! fp : option cstr) = default [] (files s !! fp : option cstr) ++ lines (map (drop 7) l) /\
    (forall n, n ∈ l -> is_Some (files s !! n)) /\
    (name ∈ l <-> stime i <= q_stop q /\ q_start q <= stime i + info_len i /\
       (q_trig_flag q = -1 \/ q_trig_flag q = info_trig i) /\ (q_ch q = -1 \/ q_ch q = info_channel i)).
Proof.
  intros Hlaws Htz Hj Hok Hend Ho Hw Hq Hnames name Hfp Hnew Hex.
  set (rm := info_remote i =? 1). set (lk := (info_remote i =? 1) || negb (info_trig i =? 0)).
  assert (Hname : name = flagged (finfo_base tz i) rm lk) by apply filename_flagged.
  destruct (parse_flagged tz disk part i Htz Hok rm lk junk Hj) as (i' & Hp & Hst & Hch & Hlen & Htr & _ & Hing).
  destruct (name_decoded tz Htz disk part i rm lk Hok junk Hj) as (i2 & Hp2 & Hfit).
  assert (i2 = i') as -> by congruence. rewrite <- Hname in *.
  pose proof (name_length tz Htz disk part i rm lk Hok) as Hl81. rewrite <- Hname in Hl81.
  assert (Hquote : strchr name "'" = None).
  { rewrite Hname. apply strchr_none. eapply name_without; try done. cbn. intuition discriminate. }
  set (r := row_of name i'). destruct (Ho) as [Hdb Ht].
  pose proof (add_run tz junk d name i' s t Hw Ht Hquote Hp Hfit) as Hadd. fold r in Hadd.
  set (s1 := table_set d (t ++ [r]) s) in *.
  assert (Ho1 : opened s1 m d (t ++ [r])).
  { split; [exact Hdb|]. cbn. apply list_lookup_insert_eq. by eapply lookup_lt_Some. }
  assert (Hl7 : (7 <= length name)%nat).
  { rewrite Hname. unfold flagged, finfo_base. rewrite (ok_partition _ _ _ Hok), !length_app. cbn. lia. }
  assert (Hn1 : Forall (name_fits fp) (t ++ [r])).
  { apply Forall_app. split; [done|]. constructor; [|constructor]. split; [cbn; lia | done]. }
  destruct (query_run e q fp m d (t ++ [r]) s1 Ho1 (Forall_nil_2 _) Hq Hn1) as (s2 & Hrun & _ & Htext & _).
  exists s1, s2, (names (found e q s1 (t ++ [r]))). split.
  { unfold fileindex_add_to_partition. rewrite (bind_ret _ _ _ _ _ (get_database _ _ _ _ Ho)).
    by rewrite (bind_ret _ _ _ _ _ Hadd). }
  split; [done|]. split; [done|]. split.
  - intros n Hn. apply list_elem_of_In, in_map_iff in Hn as (x & <- & Hx). apply list_elem_of_In, found_in in Hx; [|done].
    apply Hx.
  - rewrite <- (window_spec disk part q name i i' Hok Hend Hst Hch Hlen Htr Hing). fold r. split.
    + intros Hn. apply list_elem_of_In, in_map_iff in Hn as (x & Hx & Hin). apply list_elem_of_In, found_in in Hin; [|done].
      destruct Hin as (Hin & Hquery & _). apply elem_of_app in Hin as [Hin | ->%list_elem_of_singleton]; [|done].
      destruct Hnew. rewrite <- Hx. by apply list_elem_of_In, in_map, list_elem_of_In.
    + intros Hquery. change name with (r_name r). apply list_elem_of_In, in_map, list_elem_of_In, found_in; [done|].
      split_and!; [|done | exact Hex]. apply elem_of_app. right. by apply list_elem_of_singleton.
Qed.

(** ** A concrete disk *)

(** Rows in their order or sorted, files that can all be changed, and 60 megabytes
    free for each of eight recordings that is not there. *)
Definition earlier (r r' : index_row) : Prop := r_start r <= r_start r'.
#[export] Instance earlier_dec : RelDecision earlier := fun r r' => decide (r_start r <= r_start r').
#[export] Instance earlier_trans : Transitive earlier.
Proof. intros r1 r2 r3. unfold earlier. lia. Qed.
#[export] Instance earlier_total : Total earlier.
Proof. intros r1 r2. unfold earlier. lia. Qed.

Definition example_disk : disk_env :=
  {| sql_scan := fun rs => rs; sql_by_start := merge_sort earlier; remove_errno := fun _ => 0;
     rename_errno := fun _ _ => 0; append_ok := fun _ => true; ide_flag := 1;
     free_of := fun f _ => 60 * (8 - Z.of_nat (size f)) |}.

#[export] Instance example_disk_laws : DiskLaws example_disk.
Proof.
  split; [done | intros; apply merge_sort_Permutation|]. intros rs. apply (StronglySorted_merge_sort earlier).
Qed.

(** A minute recorded by channel [ch] from [t] on. *)
Definition example_recording (t ch : Z) : file_info_struct :=
  {| stime := t; info_channel := ch; info_type := 0; info_len := 60; info_trig := 0; info_remote := 0;
     info_lock := 0; ing_flag := 0; info_partition := lit "/hqdata/sda1" ++ replicate 4 NUL |}.

Definition example_name (t ch : Z) : cstr := flagged (finfo_base 28800 (example_recording t ch)) false false.
Definition example_row (t ch : Z) : index_row := row_of (example_name t ch) (example_recording t ch).

Definition sda1 : cstr := lit "/hqdata/sda1".
Definition example_table : list index_row := [example_row 1145588764 1; example_row 1145588704 0].

(** A database that is busy for one call. *)
Definition example_index : index_st :=
  Build_index_st [Build_DB_INFO (Some 0%nat) sda1] [example_table]
    (<[example_name 1145588704 0 := lit "zero"]> (<[example_name 1145588764 1 := lit "one"]> ∅)) [SQLITE_BUSY].


Lemma example_info_ok t ch : - 2 ^ 31 <= t < 2 ^ 31 -> 0 <= ch < 2 ^ 31 -> info_ok "a" "1" (example_recording t ch).
Proof. intros Ht Hch. by split. Qed.

Lemma example_opened : opened example_index sda1 0 example_table.
Proof. split; reflexivity. Qed.

Lemma example_waits : waits example_index.
Proof. repeat constructor. Qed.

Lemma example_true : rows_true example_index.
Proof.
  intros [|d] t r; [|done]. intros [= <-] Hr _. repeat (apply elem_of_cons in Hr as [-> | Hr]; [vm_compute; reflexivity|]).
  by apply not_elem_of_nil in Hr.
Qed.


(** Where no file can be renamed or removed. *)
Definition read_only_disk : disk_env :=
  {| sql_scan := fun rs => rs; sql_by_start := merge_sort earlier; remove_errno := fun _ => EACCES;
     rename_errno := fun _ _ => EACCES; append_ok := fun _ => true; ide_flag := 1; free_of := fun _ _ => 0 |}.

#[export] Instance read_only_disk_laws : DiskLaws read_only_disk.
Proof.
  split; [done | intros; apply merge_sort_Permutation|]. intros rs. apply (StronglySorted_merge_sort earlier).
Qed.

(** Channel 0 is locked from its start to a minute later, then another recording cannot be
    renamed, the oldest are deleted with a statement that fails, and the locked recording
    is asked for. *)
Lemma locked_stay_witness :
  exists s', fileindex_lock_by_time example_disk 28800 (example_recording 0 0) 1145590000 5 sda1 1 1145588704 1145588764 (-1) 0
      example_index = Ret 0 s' /\
    match run_index 28800 (example_recording 0 0)
      [Build_met_call read_only_disk [] (I_rename sda1 (example_name 1145588764 1) (example_name 1145588824 1)); Build_met_call example_disk [0; 1] (I_del_oldest sda1 10);
       Build_met_call example_disk [] (I_query sda1 (lit "/tmp/list") (Build_query_index_process_struct 0 2000000000 0 (-1)))] s' with
    | Ret _ s'' | Blocked s'' | Exited _ s'' =>
        files s'' !! hdutil_lock_filename (example_name 1145588704 0) = Some (lit "zero")
    | Undef => True
    end.
Proof.
  destruct (locked_stay example_disk 28800 (example_recording 0 0) 1145590000 5 sda1 1145588704 1145588764 (-1) 0 0
    example_table example_index example_disk_laws) as (s' & Hrun & H).
  - lia.
  - reflexivity.
  - reflexivity.
  - reflexivity.
  - exact example_opened.
  - exact example_waits.
  - exact example_true.
  - vm_compute. reflexivity.
  - assert (Hch : names (chosen example_disk 1145588704 1145588764 (-1) 0 example_table) = [example_name 1145588704 0])
      by (vm_compute; reflexivity).
    rewrite Hch. split_and!.
    + constructor; [|constructor]. exists "a"%char, "1"%char, (example_recording 1145588704 0), false.
      split; [|reflexivity]. apply example_info_ok; lia.
    + repeat constructor. apply not_elem_of_nil.
    + intros n ->%list_elem_of_singleton. exists (lit "zero"). vm_compute. reflexivity.
    + intros n ->%list_elem_of_singleton. vm_compute. reflexivity.
  - destruct (H (example_row 1145588704 0)) as [_ Hstay].
    + right. left.
    + vm_compute. reflexivity.
    + exists s'. split; [exact Hrun|].
      assert (Hzero : files example_index !! r_name (example_row 1145588704 0) = Some (lit "zero")) by (vm_compute; reflexivity).
      rewrite <- Hzero. apply Hstay.
      constructor; [split; [exact read_only_disk_laws | split; intros Heq; vm_compute in Heq; discriminate Heq]|]. constructor; [exact (conj example_disk_laws I)|].
      constructor; [|constructor]. split; [exact example_disk_laws|]. intros Heq. vm_compute in Heq. discriminate Heq.
Defined.

Lemma recordings_are_found_witness : exists s1 s2 l,
  fileindex_add_to_partition 28800 (example_recording 0 0) sda1 (example_name 1145588704 0)
    (Build_index_st (db_info example_index) [[]] (files example_index) []) = Ret 0 s1 /\
  fileindex_query_index example_disk sda1 (lit "/tmp/list") (Build_query_index_process_struct 1145588760 1145588800 (-1) (-1)) s1
    = Ret 0 s2 /\
  default [] (files s2 !! lit "/tmp/list" : option cstr) = lines (map (drop 7) l) /\ example_name 1145588704 0 ∈ l.
Proof.
  destruct (recordings_are_found example_disk 28800 (example_recording 0 0) "a" "1" (example_recording 1145588704 0)
    (Build_query_index_process_struct 1145588760 1145588800 (-1) (-1)) sda1 (lit "/tmp/list") 0 []
    (Build_index_st (db_info example_index) [[]] (files example_index) []) example_disk_laws)
    as (s1 & s2 & l & Hadd & Hquery & Htext & _ & Hin).
  - lia.
  - reflexivity.
  - apply example_info_ok; lia.
  - cbn. lia.
  - split; reflexivity.
  - constructor.
  - split; cbn; lia.
  - constructor.
  - intros Heq. vm_compute in Heq. discriminate Heq.
  - apply not_elem_of_nil.
  - exists (lit "zero"). vm_compute. reflexivity.
  - assert (Hl : example_name 1145588704 0 ∈ l) by (apply Hin; cbn; lia).
    exists s1, s2, l. split; [exact Hadd|]. split; [exact Hquery|]. split; [|exact Hl].
    etransitivity; [exact Htext|]. match goal with |- ?x ++ _ = _ => assert (Hnone : x = []) by (vm_compute; reflexivity) end.
    rewrite Hnone. reflexivity.
Defined.
