(* ===== verification/RecordSort.v ===== *)
(** * The list of recordings in order of time (src/tools/common/record_sort.c)

    The program that sorts the lines of a list of recordings into another file: the
    recorder and the playback server start it.  [qsort] is the C library's: an argument,
    with its laws as the class [QsortLaws]. *)

From Stdlib Require Import Ascii String.
From stdpp Require Import gmap strings sorting.
From S2P Require Import Prelude Update Ctime Cstring RecName RecNameThms FileIndex.

(** The sign is that of the first byte that differs. *)
Fixpoint memcmp (a b : cstr) : Z :=
  match a, b with
  | x :: a, y :: b => if ord x =? ord y then memcmp a b else ord x - ord y
  | _, _ => 0
  end.

(** [key] holds the line and its NUL; what follows it was never written. *)
Definition record_compare (k1 k2 : cstr) : Z :=
  let num_1 := atoi (drop 44 k1) in
  let num_2 := atoi (drop 44 k2) in
  let ret := memcmp (take 14 (drop 28 k1)) (take 14 (drop 28 k2)) in
  if ret <? 0 then -1
  else if 0 <? ret then 1
  else if num_1 <? num_2 then -1
  else if num_2 <? num_1 then 1
  else 0.

(** The lines, each at most 79 characters of the file. *)
Fixpoint record_getnames (fuel : nat) (s : cstr) : list cstr :=
  match fuel, s with
  | S fuel, _ :: _ => let '(rec, s) := fgets 79 s in rec :: record_getnames fuel s
  | _, _ => []
  end.

(** An order that [qsort] can use on a list. *)
Record comparison {A} (c : A -> A -> Z) (l : list A) : Prop := {
  cmp_total x y : x ∈ l -> y ∈ l -> c x y <= 0 \/ c y x <= 0;
  cmp_trans x y z : x ∈ l -> y ∈ l -> z ∈ l -> c x y <= 0 -> c y z <= 0 -> c x z <= 0;
  cmp_sign x y : x ∈ l -> y ∈ l -> 0 < c x y <-> c y x < 0
}.

Class QsortLaws (qsort : (cstr -> cstr -> Z) -> list cstr -> list cstr) : Prop := {
  qsort_perm c l : comparison c l -> qsort c l ≡ₚ l;
  qsort_sorted c l : comparison c l -> StronglySorted (fun x y => c x y <= 0) (qsort c l)
}.

Section Sort.
Variables (e : disk_env) (qsort : (cstr -> cstr -> Z) -> list cstr -> list cstr).

(** Comparing reads 44 characters of each line. *)
Definition record_sort (keys : list cstr) : M index_st cstr :=
  if (length keys <=? 1)%nat then mret (concat keys)
  else if forallb (fun k => (44 <=? length k)%nat) keys then mret (concat (qsort record_compare keys))
  else undef.

Definition put_file (name text : cstr) : M index_st () :=
  modify (fun s : index_st => s <| files ::= fun f : files_t => <[name := text]> f |>).

(** The program with its two arguments. *)
Definition record_sort_main (argv1 argv2 : cstr) : M index_st () :=
  if bool_decide (argv1 = argv2) then exit_with 1 else
  s ← get_st;
  match (files s !! argv1 : option cstr) with
  | None => exit_with 1
  | Some text =>
      if negb (append_ok e argv2) then exit_with 1 else
      put_file argv2 [] ;;
      out ← record_sort (record_getnames (length text) text);
      put_file argv2 out ;;
      exit_with 0
  end.
End Sort.

(** ** The comparison is that of two numbers *)

(** Strings of equal length compare as the numbers of their characters do. *)
Fixpoint number (base : Z) (f : ascii -> Z) (s : cstr) : Z :=
  match s with [] => 0 | c :: s => f c * base ^ zlen s + number base f s end.

Section Memcmp.
Variables (base : Z) (f : ascii -> Z) (P : ascii -> Prop).
Hypotheses (Hbase : 0 < base) (Hrange : forall c, P c -> 0 <= f c < base)
  (Hmono : forall c d, P c -> P d -> ord c < ord d <-> f c < f d).

Lemma number_range s : Forall P s -> 0 <= number base f s < base ^ zlen s.
Proof.
  induction 1 as [|c s Hc _ IH]; cbn [number length]; [by change (Z.of_nat 0) with 0; rewrite Z.pow_0_r|].
  specialize (Hrange c Hc). rewrite Nat2Z.inj_succ, Z.pow_succ_r by lia. nia.
Qed.

Lemma memcmp_number a b : Forall P a -> Forall P b -> length a = length b ->
  (memcmp a b < 0 <-> number base f a < number base f b) /\ (0 < memcmp a b <-> number base f b < number base f a).
Proof.
  intros Ha. revert b. induction Ha as [|x a Hx Ha IH]; intros [|y b] Hb Hlen; try discriminate; [cbn; lia|].
  apply list.Forall_cons in Hb as [Hy Hb]. injection Hlen as Hlen. destruct (IH b Hb Hlen) as [IH1 IH2].
  cbn [memcmp number]. pose proof (number_range a Ha). pose proof (number_range b Hb).
  pose proof (Hmono x y Hx Hy). pose proof (Hmono y x Hy Hx). pose proof (Hrange x Hx). pose proof (Hrange y Hy).
  rewrite <- Hlen in *. set (B := base ^ zlen a) in *. zcase_in Hlen; destruct (Z.eqb_spec (ord x) (ord y)); nia.
Qed.
End Memcmp.

Definition byte_number (s : cstr) : Z := number 256 ord s.

Lemma ord_range c : 0 <= ord c < 256.
Proof. unfold ord. pose proof (nat_ascii_bounded c). lia. Qed.

(** The numbers a line is sorted by. *)
Definition line_date (k : cstr) : Z := byte_number (take 14 (drop 28 k)).
Definition line_num (k : cstr) : Z := atoi (drop 44 k).

Lemma compare_numbers k1 k2 : (44 <= length k1)%nat -> (44 <= length k2)%nat ->
  (record_compare k1 k2 <= 0 <-> line_date k1 < line_date k2 \/ line_date k1 = line_date k2 /\ line_num k1 <= line_num k2) /\
  (0 < record_compare k1 k2 <-> line_date k2 < line_date k1 \/ line_date k1 = line_date k2 /\ line_num k2 < line_num k1) /\
  (record_compare k1 k2 < 0 <-> line_date k1 < line_date k2 \/ line_date k1 = line_date k2 /\ line_num k1 < line_num k2).
Proof.
  intros H1 H2. unfold record_compare, line_date, byte_number. fold (line_num k1) (line_num k2).
  destruct (memcmp_number 256 ord (fun _ => True) ltac:(lia) (fun c _ => ord_range c) (fun _ _ _ _ => iff_refl _)
    (take 14 (drop 28 k1)) (take 14 (drop 28 k2))) as [Hlt Hgt].
  1, 2: by apply list.Forall_true. { rewrite !length_take, !length_drop. lia. }
  set (m := memcmp _ _) in *. cbv zeta. zcase.
Qed.

Lemma compare_comparison l : Forall (fun k => (44 <= length k)%nat) l -> comparison record_compare l.
Proof.
  rewrite list.Forall_forall. intros Hl. split.
  - intros x y Hx Hy. destruct (compare_numbers x y (Hl x Hx) (Hl y Hy)) as [-> _].
    destruct (compare_numbers y x (Hl y Hy) (Hl x Hx)) as [-> _]. lia.
  - intros x y z Hx Hy Hz. destruct (compare_numbers x y (Hl x Hx) (Hl y Hy)) as [-> _].
    destruct (compare_numbers y z (Hl y Hy) (Hl z Hz)) as [-> _].
    destruct (compare_numbers x z (Hl x Hx) (Hl z Hz)) as [-> _]. lia.
  - intros x y Hx Hy. destruct (compare_numbers x y (Hl x Hx) (Hl y Hy)) as (_ & -> & _).
    destruct (compare_numbers y x (Hl y Hy) (Hl x Hx)) as (_ & _ & ->). lia.
Qed.
