(* ===== verification/RecordSortThms.v ===== *)
(** * The list is in order of time

    The comparison reads the start's digits and the length in the names, and the digits
    are in the order of the times; so the sorted list has the same recordings, by start
    and length. *)

From Stdlib Require Import Ascii String.
From stdpp Require Import gmap strings sorting.
From S2P Require Import Prelude Update Ctime Cstring RecName RecNameThms FileIndex FileIndexThms FileIndexLock RecordSort.

(** A recording on the disk: what its name says of it, with the flags it has. *)
Record clip := { c_info : file_info_struct; c_remote : bool; c_lock : bool }.

Section Clips.
Variable tz : Z.
Hypothesis Htz : - 86400 <= tz <= 86400.
Implicit Types c : clip.

Definition clip_name c : cstr := flagged (finfo_base tz (c_info c)) (c_remote c) (c_lock c).
(** Its line in a list, without "/hqdata". *)
Definition clip_path c : cstr := drop 7 (clip_name c).
Definition clip_line c : cstr := clip_path c ++ [chr 10].
Definition clip_ok c : Prop := exists disk part, info_ok disk part (c_info c) /\ info_channel (c_info c) < 100.

Definition start_of c : Z := stime (c_info c).
Definition len_of c : Z := info_len (c_info c).

Lemma number_val base s : number base digit_val s = val base s.
Proof.
  induction s as [|c s IH]; [done|]. cbn [number]. rewrite IH. change (c :: s) with ([c] ++ s).
  rewrite val_app. unfold val at 2. cbn. lia.
Qed.

Lemma date_str_number p : tm_ok p -> val 10 (date_str p) = date_number p.
Proof.
  intros (? & ? & ? & ? & ? & ?). unfold date_str.
  destruct (fmt_4 (1900 + tm_year p)) as (_ & V1 & L1); [lia|].
  destruct (fmt_2 (tm_mon p + 1)) as (_ & V2 & L2); [lia|].
  destruct (fmt_2 (tm_mday p)) as (_ & V3 & L3); [lia|].
  destruct (fmt_2 (tm_hour p)) as (_ & V4 & L4); [lia|].
  destruct (fmt_2 (tm_min p)) as (_ & V5 & L5); [lia|].
  destruct (fmt_2 (tm_sec p)) as (_ & V6 & L6); [lia|].
  rewrite !val_app, !length_app, V1, V2, V3, V4, V5, V6, L2, L3, L4, L5, L6. unfold date_number. cbn. lia.
Qed.

(** The parts of a name around its date and its length. *)
Lemma name_parts c : clip_ok c -> exists a b,
  clip_name c = a ++ date_str (localtime tz (start_of c)) ++ lit "_L" ++ fmt_d 2 (len_of c) ++ "_"%char :: b /\
  length a = 35%nat.
Proof.
  intros (disk & part & [Hp Hd Hpt Hs Hc Hl Ht] & Hch). unfold clip_name, flagged, finfo_base, date_str, start_of, len_of.
  pose proof (localtime_ok tz (stime (c_info c)) Hs Htz) as (? & ? & ? & ? & ? & ?).
  set (p := localtime tz (stime (c_info c))) in *.
  destruct (fmt_4 (1900 + tm_year p)) as (_ & _ & L1); [lia|].
  destruct (fmt_2 (tm_mon p + 1)) as (_ & _ & L2); [lia|].
  destruct (fmt_2 (tm_mday p)) as (_ & _ & L3); [lia|].
  destruct (fmt_2 (tm_hour p)) as (_ & _ & L4); [lia|].
  destruct (fmt_2 (info_channel (c_info c))) as (_ & _ & L5); [lia|].
  cbv zeta. set (y := fmt_d 4 _) in *. set (mo := fmt_d 2 (tm_mon p + 1)) in *. set (da := fmt_d 2 (tm_mday p)) in *.
  set (h := fmt_d 2 (tm_hour p)) in *. set (ch := fmt_d 2 (info_channel _)) in *.
  exists (cstring (info_partition (c_info c)) ++ lit "/" ++ y ++ lit "/" ++ mo ++ lit "/" ++ da ++ lit "/" ++ h
    ++ lit "/HQ_C" ++ ch ++ lit "_D"). eexists. split.
  - rewrite <- !app_assoc. cbn [app list_ascii_of_string]. reflexivity.
  - rewrite !length_app, Hp, L1, L2, L3, L4, L5. reflexivity.
Qed.

Lemma clip_line_facts c : clip_ok c -> (44 <= length (clip_line c))%nat /\ (length (clip_line c) <= 75)%nat /\
  Forall (fun x => x <> chr 10) (clip_path c) /\ clip_name c = lit "/hqdata" ++ clip_path c /\
  take 14 (drop 28 (clip_line c)) = date_str (localtime tz (start_of c)) /\ line_num (clip_line c) = len_of c.
Proof.
  intros Hc. destruct (name_parts c Hc) as (a & b & Hn & Ha). destruct (Hc) as (disk & part & Hok & _).
  destruct (date_str_digits (localtime tz (start_of c))) as [_ Hd]; [apply localtime_ok; [apply Hok | done]|].
  destruct (fmt_d_spec 2 (len_of c)) as (Hdig & Hval & Hne & _); [apply (ok_len _ _ _) in Hok; unfold len_of; lia|].
  pose proof (name_length tz Htz disk part (c_info c) (c_remote c) (c_lock c) Hok) as Hlen. fold (clip_name c) in Hlen.
  assert (Hdrop : forall n, (n <= 28)%nat -> drop n (clip_line c) =
    drop (7 + n) a ++ date_str (localtime tz (start_of c)) ++ (lit "_L" ++ fmt_d 2 (len_of c) ++ "_"%char :: b) ++ [chr 10]).
  { intros n Hle. unfold clip_line, clip_path. rewrite Hn, (drop_app_le a) by lia.
    rewrite <- !app_assoc. rewrite drop_app_le, drop_drop by (rewrite length_drop; lia).
    cbn [app]. rewrite <- ?app_assoc. cbn [app]. reflexivity. }
  split_and!.
  - unfold clip_line, clip_path. rewrite length_app, length_drop, Hn, !length_app, Ha, Hd. cbn. lia.
  - unfold clip_line, clip_path. rewrite length_app, length_drop. cbn. unfold cstr in *. lia.
  - apply list.Forall_drop. apply (name_without tz Htz disk part); [done..|]. cbn. intuition discriminate.
  - unfold clip_path, clip_name, flagged, finfo_base. rewrite (ok_partition _ _ _ Hok). reflexivity.
  - rewrite Hdrop by lia. rewrite drop_ge by lia. cbn [app]. by rewrite take_app_length'.
  - unfold line_num. replace 44%nat with (28 + 16)%nat by lia. rewrite <- drop_drop, Hdrop by lia.
    rewrite (drop_ge a) by lia. cbn [app]. rewrite drop_app_ge by lia. rewrite Hd. cbn [app Nat.sub list_ascii_of_string drop].
    rewrite drop_0, <- app_assoc. cbn [app]. by rewrite (atoi_val (fmt_d 2 (len_of c)) ("_"%char :: b ++ [chr 10])).
Qed.

(** Comparing the dates of two lines compares the starts. *)
Lemma date_order c c' : clip_ok c -> clip_ok c' ->
  (line_date (clip_line c) < line_date (clip_line c') <-> start_of c < start_of c') /\
  (line_date (clip_line c) = line_date (clip_line c') <-> start_of c = start_of c').
Proof.
  intros Hc Hc'. pose proof (clip_line_facts c Hc) as (_ & _ & _ & _ & Hd & _).
  pose proof (clip_line_facts c' Hc') as (_ & _ & _ & _ & Hd' & _).
  destruct Hc as (disk & part & Hok & _). destruct Hc' as (disk' & part' & Hok' & _).
  pose proof (localtime_ok tz _ (ok_stime _ _ _ Hok) Htz) as Htm. pose proof (localtime_ok tz _ (ok_stime _ _ _ Hok') Htz) as Htm'.
  fold (start_of c) in Htm. fold (start_of c') in Htm'.
  destruct (date_str_digits _ Htm) as [Hg Hl]. destruct (date_str_digits _ Htm') as [Hg' Hl'].
  destruct (memcmp_number 256 ord (fun _ => True) ltac:(lia) (fun x _ => ord_range x) (fun _ _ _ _ => iff_refl _)
    (date_str (localtime tz (start_of c))) (date_str (localtime tz (start_of c')))) as [B1 B2].
  1, 2: by apply list.Forall_true. { congruence. }
  destruct (memcmp_number 10 digit_val (is_digit 10) ltac:(lia)) with
    (a := date_str (localtime tz (start_of c))) (b := date_str (localtime tz (start_of c'))) as [D1 D2]; try done; [..|congruence|].
  { intros x (d & Hx & ->). destruct (digit_facts d ltac:(lia)) as (-> & _). lia. }
  { intros x y (d & Hx & ->) (d' & Hx' & ->). destruct (digit_facts d ltac:(lia)) as (-> & _).
    destruct (digit_facts d' ltac:(lia)) as (-> & _). unfold digit. rewrite !(proj2 (Z.ltb_lt _ _)) by lia.
    unfold ord, chr. rewrite !nat_ascii_embedding by lia. lia. }
  rewrite !number_val, !date_str_number in D1, D2 by done. unfold line_date, byte_number. rewrite Hd, Hd'.
  assert (Hmono : start_of c < start_of c' -> date_number (localtime tz (start_of c)) < date_number (localtime tz (start_of c')))
    by apply localtime_mono.
  assert (Hmono' : start_of c' < start_of c -> date_number (localtime tz (start_of c')) < date_number (localtime tz (start_of c)))
    by apply localtime_mono.
  assert (Hsame : start_of c = start_of c' -> date_number (localtime tz (start_of c)) = date_number (localtime tz (start_of c')))
    by by intros ->.
  lia.
Qed.
End Clips.

(** ** The program *)

(** By start, then by length. *)
Definition clip_le (c c' : clip) : Prop := start_of c < start_of c' \/ start_of c = start_of c' /\ len_of c <= len_of c'.

Section Sorting.
Variables (e : disk_env) (qsort : (cstr -> cstr -> Z) -> list cstr -> list cstr) (tz : Z).
Context `{!QsortLaws qsort}.
Hypothesis Htz : - 86400 <= tz <= 86400.
Implicit Types cs : list clip.

Lemma lines_clips cs : lines (map (clip_path tz) cs) = concat (map (clip_line tz) cs).
Proof. unfold lines. by rewrite map_map. Qed.

Lemma getnames_lines cs : Forall clip_ok cs -> forall fuel, (length (lines (map (clip_path tz) cs)) <= fuel)%nat ->
  record_getnames fuel (lines (map (clip_path tz) cs)) = map (clip_line tz) cs.
Proof.
  induction 1 as [|c cs Hc _ IH]; intros fuel Hfuel; [by destruct fuel|]. cbn [map] in *.
  destruct (clip_line_facts tz Htz c Hc) as (_ & Hl & Hnl & _). unfold clip_line in Hl. rewrite length_app in Hl.
  rewrite lines_cons in *. rewrite length_app in Hfuel. cbn [length] in *. destruct fuel as [|fuel]; [lia|].
  cbn [record_getnames]. destruct (clip_path tz c ++ _) as [|x r] eqn:Hx; [by destruct (clip_path tz c)|].
  rewrite <- Hx, fgets_line by (done || (unfold cstr in *; lia)). f_equal. apply IH. lia.
Qed.

Lemma clips_sorted cs : Forall clip_ok cs ->
  StronglySorted (fun x y => record_compare x y <= 0) (map (clip_line tz) cs) -> StronglySorted clip_le cs.
Proof.
  induction 1 as [|c cs Hc Hcs IH]; intros Hs; [constructor|]. cbn [map] in Hs.
  apply StronglySorted_inv in Hs as [Hs Hall]. constructor; [by apply IH|].
  rewrite list.Forall_forall in Hcs |- *. pose proof (proj1 (List.Forall_forall _ _) Hall) as Hle.
  intros c' Hc'. specialize (Hcs c' Hc').
  assert (Hcmp : record_compare (clip_line tz c) (clip_line tz c') <= 0)
    by (by apply Hle, in_map, list_elem_of_In).
  destruct (clip_line_facts tz Htz c Hc) as (Hl & _ & _ & _ & _ & Hn).
  destruct (clip_line_facts tz Htz c' Hcs) as (Hl' & _ & _ & _ & _ & Hn').
  apply (compare_numbers _ _ Hl Hl') in Hcmp. rewrite Hn, Hn' in Hcmp.
  destruct (date_order tz Htz c c' Hc Hcs). unfold clip_le. lia.
Qed.

Lemma sort_lines cs s : Forall clip_ok cs -> exists cs', cs' ≡ₚ cs /\ StronglySorted clip_le cs' /\
  record_sort qsort (map (clip_line tz) cs) s = Ret (lines (map (clip_path tz) cs')) s.
Proof.
  intros Hcs. unfold record_sort. rewrite length_map.
  destruct (Nat.leb_spec (length cs) 1) as [Hone | Hmany].
  { exists cs. split; [done|]. rewrite lines_clips. split; [|done]. destruct cs as [|c [|]]; cbn in *; try lia; repeat constructor. }
  assert (Hlen : Forall (fun k => (44 <= length k)%nat) (map (clip_line tz) cs)).
  { apply list.Forall_forall. intros k Hk. apply list_elem_of_In, in_map_iff in Hk as (c & <- & Hc%list_elem_of_In).
    rewrite list.Forall_forall in Hcs. by apply clip_line_facts, Hcs. }
  assert (Hb : forallb (fun k => (44 <=? length k)%nat) (map (clip_line tz) cs) = true).
  { apply forallb_forall. intros k Hk%list_elem_of_In. rewrite list.Forall_forall in Hlen. apply Nat.leb_le, Hlen, Hk. }
  rewrite Hb. pose proof (compare_comparison _ Hlen) as Hcmp.
  destruct (Permutation_map_inv _ _ (qsort_perm _ _ Hcmp)) as (cs' & Heq & Hperm). exists cs'. split; [by symmetry|].
  split; [|by rewrite lines_clips, Heq]. apply clips_sorted; [by rewrite <- Hperm|]. rewrite <- Heq. by apply qsort_sorted.
Qed.

Lemma sort_main_run cs src dst s : Forall clip_ok cs -> src <> dst -> append_ok e dst = true ->
  files s !! src = Some (lines (map (clip_path tz) cs)) ->
  exists cs', cs' ≡ₚ cs /\ StronglySorted clip_le cs' /\
    record_sort_main e qsort src dst s =
      Exited 0 (s <| files := <[dst := (lines (map (clip_path tz) cs') : cstr)]> (files s) |>).
Proof.
  intros Hcs Hne Ha Hsrc. unfold record_sort_main. rewrite bool_decide_eq_false_2 by done.
  rewrite (bind_ret _ _ s s s) by done. rewrite Hsrc, Ha. cbn [negb].
  set (s1 := s <| files := <[dst := ([] : cstr)]> (files s) |>).
  rewrite (bind_ret _ _ s () s1) by done. rewrite getnames_lines by done.
  destruct (sort_lines cs s1 Hcs) as (cs' & Hperm & Hsort & Hrun). exists cs'. split; [done|]. split; [done|].
  rewrite (bind_ret _ _ _ _ _ Hrun).
  transitivity (Exited (A := ()) 0 (s1 <| files := <[dst := (lines (map (clip_path tz) cs') : cstr)]> (files s1) |>)); [done|].
  unfold s1. cbn. by rewrite insert_insert_eq.
Qed.
End Sorting.

(** ** A [qsort] *)

Fixpoint insert_by {A} (c : A -> A -> Z) (x : A) (l : list A) : list A :=
  match l with [] => [x] | y :: l' => if c x y <=? 0 then x :: l else y :: insert_by c x l' end.

Definition insertion_sort {A} (c : A -> A -> Z) (l : list A) : list A := fold_right (insert_by c) [] l.

Lemma insert_by_perm {A} (c : A -> A -> Z) x l : insert_by c x l ≡ₚ x :: l.
Proof.
  induction l as [|y l IH]; [done|]. cbn [insert_by]. destruct (_ <=? 0); [done|]. rewrite IH. apply Permutation_swap.
Qed.

Lemma insertion_sort_perm {A} (c : A -> A -> Z) l : insertion_sort c l ≡ₚ l.
Proof. induction l as [|x l IH]; [done|]. cbn. by rewrite insert_by_perm, IH. Qed.

Lemma insert_by_sorted {A} (c : A -> A -> Z) x l : comparison c (x :: l) ->
  StronglySorted (fun y z => c y z <= 0) l -> StronglySorted (fun y z => c y z <= 0) (insert_by c x l).
Proof.
  induction l as [|y l IH]; intros Hc Hs; cbn [insert_by]; [by repeat constructor|].
  apply StronglySorted_inv in Hs as [Hs Hall]. pose proof (proj1 (List.Forall_forall _ _) Hall) as Hle.
  destruct (Z.leb_spec (c x y) 0) as [Hxy | Hxy].
  - constructor; [by constructor|]. constructor; [done|]. apply List.Forall_forall. intros z Hz.
    apply (cmp_trans _ _ Hc x y z); [by left | by right; left | by right; right; apply list_elem_of_In | done | by apply Hle].
  - assert (Hc' : comparison c (x :: l)).
    { destruct Hc as [H1 H2 H3]. assert (Hin : forall z, z ∈ x :: l -> z ∈ x :: y :: l).
      { intros z [-> | Hz]%elem_of_cons; [by left | by right; right]. }
      split; intros; [apply H1 | eapply (H2 x0 y0 z) | apply H3]; auto. }
    constructor; [by apply IH|]. apply List.Forall_forall. intros z Hz%list_elem_of_In. rewrite insert_by_perm in Hz.
    apply elem_of_cons in Hz as [-> | Hz]; [|by apply Hle, list_elem_of_In].
    apply Z.lt_le_incl. destruct (cmp_total _ _ Hc x y) as [? | Hyx]; [by left | by right; left | lia|].
    pose proof (proj1 (cmp_sign _ _ Hc x y ltac:(by left) ltac:(by right; left)) Hxy). lia.
Qed.

#[export] Instance insertion_sort_laws : QsortLaws insertion_sort.
Proof.
  split; [intros; apply insertion_sort_perm|]. intros c l. induction l as [|x l IH]; intros Hc; [constructor|].
  cbn. apply insert_by_sorted.
  - destruct Hc as [H1 H2 H3]. assert (Hin : forall z, z ∈ x :: insertion_sort c l -> z ∈ x :: l)
      by (intros z; by rewrite insertion_sort_perm).
    split; intros; [apply H1 | eapply (H2 x0 y z) | apply H3]; auto.
  - apply IH. destruct Hc as [H1 H2 H3]. split; intros; [apply H1 | eapply (H2 x0 y z) | apply H3]; try (by right); done.
Qed.
