(* ===== verification/Double.v ===== *)
(** * The type double

    The standard's binary64 numbers, as the Standard Library specifies them, with the
    operations the code uses, and that whole numbers stay exact. *)

From Stdlib Require Import SpecFloat.
From S2P Require Import Prelude.

Definition double : Type := spec_float.
#[export] Instance double_dec : EqDecision double.
Proof. unfold double. solve_decision. Defined.

(** From an int. *)
Definition dbl (z : Z) : double := binary_normalize 53 1024 z 0 false.
Definition dbl_add : double -> double -> double := SFadd 53 1024.
Definition dbl_mul : double -> double -> double := SFmul 53 1024.
Definition dbl_div : double -> double -> double := SFdiv 53 1024.

(** To an int: towards zero; there is no value outside the type. *)
Definition int_of_dbl (x : double) : option Z :=
  match x with
  | S754_zero _ => Some 0
  | S754_finite s m e =>
      let v := if 0 <=? e then Z.pos m * 2 ^ e else Z.pos m / 2 ^ (- e) in
      let v := if s then - v else v in
      if (- 2 ^ 31 <=? v) && (v <? 2 ^ 31) then Some v else None
  | _ => None
  end.

(** [x] is the whole number [n]. *)
Definition dbl_is (x : double) (n : Z) : Prop :=
  match x with
  | S754_zero false => n = 0
  | S754_finite false m e => -53 < e <= 0 /\ Z.pos m = n * 2 ^ (- e)
  | _ => False
  end.

Lemma dbl_is_nonneg x n : dbl_is x n -> 0 <= n.
Proof.
  destruct x as [[]| | |[] m e]; cbn; try done; [lia|]. intros [He Hm].
  pose proof (Z.pow_pos_nonneg 2 (- e) ltac:(lia) ltac:(lia)). nia.
Qed.

Lemma int_of_dbl_is x n : dbl_is x n -> n < 2 ^ 31 -> int_of_dbl x = Some n.
Proof.
  intros Hx Hn. pose proof (dbl_is_nonneg _ _ Hx). destruct x as [[]| | |[] m e]; cbn in *; try done; [by subst|].
  destruct Hx as [He Hm]. pose proof (Z.pow_pos_nonneg 2 (- e) ltac:(lia) ltac:(lia)).
  assert (Hv : (if 0 <=? e then Z.pos m * 2 ^ e else Z.pos m / 2 ^ (- e)) = n).
  { destruct (Z.leb_spec 0 e) as [Hle | Hlt]; [replace e with 0 in * by lia; cbn in *; lia|]. rewrite Hm. by apply Z.div_mul; lia. }
  rewrite Hv. rewrite (proj2 (Z.leb_le _ _)), (proj2 (Z.ltb_lt _ _)) by lia. done.
Qed.

(** ** Shifting out zeros loses nothing *)

Lemma shr_zeros p a : 0 <= a ->
  SpecFloat.iter_pos shr_1 p (Build_shr_record (a * 2 ^ Z.pos p) false false) = Build_shr_record a false false.
Proof.
  assert (H1 : forall b, 0 <= b -> shr_1 (Build_shr_record (b * 2) false false) = Build_shr_record b false false).
  { intros [|b|b] Hb; [done | | lia]. rewrite Z.mul_comm. done. }
  revert a. induction p as [p IH|p IH|]; intros a Ha; cbn [SpecFloat.iter_pos].
  - replace (Z.pos p~1) with (Z.pos p + Z.pos p + 1) by lia. rewrite !Z.pow_add_r, !Z.mul_assoc by lia. change (2 ^ 1) with 2.
    pose proof (Z.pow_pos_nonneg 2 (Z.pos p) ltac:(lia) ltac:(lia)).
    rewrite H1 by nia. rewrite IH by nia. by apply IH.
  - replace (Z.pos p~0) with (Z.pos p + Z.pos p) by lia. rewrite Z.pow_add_r, Z.mul_assoc by lia.
    pose proof (Z.pow_pos_nonneg 2 (Z.pos p) ltac:(lia) ltac:(lia)). rewrite IH by nia. by apply IH.
  - change (2 ^ 1) with 2. by apply H1.
Qed.

Lemma digits_bounds m : 2 ^ (Zdigits2 (Z.pos m) - 1) <= Z.pos m < 2 ^ Zdigits2 (Z.pos m).
Proof.
  cbn [Zdigits2]. induction m as [m IH|m IH|]; cbn [digits2_pos]; [| |cbn; lia];
    rewrite Pos2Z.inj_succ; unfold Z.succ; rewrite Z.add_simpl_r, Z.pow_add_r by lia;
    change (2 ^ 1) with 2; replace (2 ^ Z.pos (digits2_pos m)) with (2 * 2 ^ (Z.pos (digits2_pos m) - 1)) in *
      by (rewrite <- Z.pow_succ_r by lia; f_equal; lia); lia.
Qed.

Lemma digits_unique m d : 0 < d -> 2 ^ (d - 1) <= Z.pos m < 2 ^ d -> Zdigits2 (Z.pos m) = d.
Proof.
  intros Hd [Hl Hu]. pose proof (digits_bounds m) as [Hl' Hu']. pose proof (Pos2Z.is_pos (digits2_pos m)). cbn [Zdigits2] in *.
  apply Z.le_antisymm; apply Z.lt_succ_r; unfold Z.succ.
  - assert (2 ^ (Z.pos (digits2_pos m) - 1) < 2 ^ d) as Hlt%Z.pow_lt_mono_r_iff by lia; lia.
  - assert (2 ^ (d - 1) < 2 ^ Z.pos (digits2_pos m)) as Hlt%Z.pow_lt_mono_r_iff by lia; lia.
Qed.

(** Rounding an exact mantissa that is a whole number of less than 53 bits. *)
Lemma round_exact m e n : Z.pos m = n * 2 ^ (- e) -> -110 < e <= 0 -> 0 < n < 2 ^ 53 ->
  dbl_is (binary_round_aux 53 1024 false (Z.pos m) e loc_Exact) n.
Proof.
  intros Hm He Hn. set (d := Zdigits2 (Z.pos m)). pose proof (digits_bounds m) as Hd. fold d in Hd.
  assert (Hd0 : 0 < d) by (unfold d; cbn; lia).
  assert (Hfexp : forall q, d <= q -> fexp 53 1024 (d + e) = d + e - 53).
  { intros. unfold fexp, emin. lia. }
  pose proof (Hfexp d ltac:(lia)) as Hf. clear Hfexp.
  assert (Hde : - e < d).
  { assert (2 ^ (- e) < 2 ^ d) as Hlt%Z.pow_lt_mono_r_iff by nia; lia. }
  assert (Hshift : d - 53 <= - e).
  { assert (Hlt : 2 ^ (d - 1) < 2 ^ (53 - e)).
    { replace (53 - e) with (53 + - e) by lia. rewrite Z.pow_add_r by lia. pose proof (Z.pow_pos_nonneg 2 (- e) ltac:(lia) ltac:(lia)). nia. }
    apply Z.pow_lt_mono_r_iff in Hlt; lia. }
  assert (Hround : forall m' e', Z.pos m' = n * 2 ^ (- e') -> -53 < e' <= 0 -> fexp 53 1024 (Zdigits2 (Z.pos m') + e') - e' <= 0 ->
    dbl_is (let '(mrs'', e'') := shr_fexp 53 1024 (Z.pos m') e' loc_Exact in
      match shr_m mrs'' with Z0 => S754_zero false | Zpos m => if e'' <=? 1024 - 53 then S754_finite false m e'' else S754_infinity false | _ => S754_nan end) n).
  { intros m' e' Hm' He' Hs. unfold shr_fexp. destruct (_ - e') eqn:Hz; [| lia |]; cbn [shr shr_m shr_record_of_loc];
      (rewrite (proj2 (Z.leb_le _ _)) by lia); cbn; (split; [lia | done]). }
  unfold binary_round_aux. unfold shr_fexp at 1. fold d. rewrite Hf. cbn [shr_record_of_loc].
  destruct (d + e - 53 - e) as [|p|p] eqn:Hp; cbn [shr]; cbn [loc_of_shr_record round_nearest_even shr_m].
  - apply Hround; [done | lia | fold d; lia].
  - replace (d + e - 53 - e) with (d - 53) in Hp by lia.
    assert (Hdiv : Z.pos m = n * 2 ^ (- (e + Z.pos p)) * 2 ^ Z.pos p).
    { rewrite Hm, <- Z.mul_assoc, <- Z.pow_add_r by lia. do 2 f_equal. lia. }
    pose proof (Z.pow_pos_nonneg 2 (- (e + Z.pos p)) ltac:(lia) ltac:(lia)) as Hpow.
    rewrite Hdiv, shr_zeros by nia. cbn [loc_of_shr_record round_nearest_even shr_m].
    destruct (n * 2 ^ (- (e + Z.pos p))) as [|m'|m'] eqn:Hm'; [nia | | nia].
    apply Hround; [done | lia|].
    assert (Hdig : Zdigits2 (Z.pos m') = d - Z.pos p).
    { apply digits_unique; [lia|]. pose proof (Z.pow_pos_nonneg 2 (Z.pos p) ltac:(lia) ltac:(lia)).
      split.
      - replace (2 ^ (d - 1)) with (2 ^ (d - Z.pos p - 1) * 2 ^ Z.pos p) in Hd by (rewrite <- Z.pow_add_r by lia; f_equal; lia). nia.
      - replace (2 ^ d) with (2 ^ (d - Z.pos p) * 2 ^ Z.pos p) in Hd by (rewrite <- Z.pow_add_r by lia; f_equal; lia). nia. }
    rewrite Hdig. unfold fexp, emin. lia.
  - apply Hround; [done | lia | fold d; lia].
Qed.

(** ** Whole numbers stay exact *)

Lemma dbl_mul_is x y a b : dbl_is x a -> dbl_is y b -> a * b < 2 ^ 53 -> dbl_is (dbl_mul x y) (a * b).
Proof.
  intros Hx Hy Hab. pose proof (dbl_is_nonneg _ _ Hx). pose proof (dbl_is_nonneg _ _ Hy).
  destruct x as [[]| | |[] m e]; try done; destruct y as [[]| | |[] m' e']; try done; cbn in *; try (subst; cbn; lia).
  destruct Hx as [He1 Hm1], Hy as [He2 Hm2].
  pose proof (Z.pow_pos_nonneg 2 (- e) ltac:(lia) ltac:(lia)). pose proof (Z.pow_pos_nonneg 2 (- e') ltac:(lia) ltac:(lia)).
  apply round_exact; [|lia|nia].
  rewrite Pos2Z.inj_mul, Hm1, Hm2. replace (- (e + e')) with (- e + - e') by lia. rewrite Z.pow_add_r by lia. lia.
Qed.

Lemma dbl_int_is n : 0 <= n < 2 ^ 53 -> dbl_is (dbl n) n.
Proof.
  intros Hn. destruct n as [|m|m]; [done | | lia]. unfold dbl, binary_normalize, binary_round.
  pose proof (digits_bounds m) as Hd. cbn [Zdigits2] in Hd. set (d := Z.pos (digits2_pos m)) in *.
  assert (Hd53 : d - 1 < 53) by (apply (Z.pow_lt_mono_r_iff 2); lia).
  assert (Hf : fexp 53 1024 (d + 0) = d - 53) by (unfold fexp, emin; lia). rewrite Hf.
  unfold shl_align. rewrite Z.sub_0_r. destruct (d - 53) as [|p|p] eqn:Hp; [apply round_exact; [cbn; lia | lia | lia] | lia|].
  apply round_exact; [|unfold d in *; lia | lia].
  assert (Hit : forall q, Z.pos (Pos.iter xO m q) = Z.pos m * 2 ^ Z.pos q).
  { intros q. rewrite <- Pos2Z.inj_pow. change (2 ^ q)%positive with (Pos.pow 2 q). rewrite <- Pos2Z.inj_mul. f_equal.
    induction q using Pos.peano_ind; [cbn; lia|]. rewrite Pos.iter_succ, IHq, Pos.pow_succ_r. lia. }
  by rewrite Hit.
Qed.

(** The rates of frames there can be are written and read back exactly: the writer's
    10000 times the rate, and half of one, over the reader's scale. *)
Lemma frame_rate_exact n : 0 < n <= 1000 ->
  int_of_dbl (dbl_add (dbl_mul (dbl 10000) (dbl n)) (dbl_div (dbl 1) (dbl 2))) = Some (10000 * n) /\
  dbl_div (dbl (10000 * n)) (dbl 10000) = dbl n.
Proof.
  intros Hn. assert (Hall : forallb (fun k => bool_decide (int_of_dbl (dbl_add (dbl_mul (dbl 10000) (dbl (Z.of_nat k))) (dbl_div (dbl 1) (dbl 2))) = Some (10000 * Z.of_nat k))
    && bool_decide (dbl_div (dbl (10000 * Z.of_nat k)) (dbl 10000) = dbl (Z.of_nat k))) (seq 1 1000) = true) by by vm_compute.
  rewrite forallb_forall in Hall. specialize (Hall (Z.to_nat n)). rewrite in_seq, Z2Nat.id in Hall by lia. specialize (Hall ltac:(lia)).
  apply andb_true_iff in Hall as [Ha Hb]. by apply bool_decide_eq_true in Ha, Hb.
Qed.

(** ** A quotient of whole numbers, cut to one *)

Lemma shr_div p r : 0 <= shr_m r -> shr_m (SpecFloat.iter_pos shr_1 p r) = shr_m r / 2 ^ Z.pos p /\ 0 <= shr_m (SpecFloat.iter_pos shr_1 p r).
Proof.
  assert (H1 : forall r, 0 <= shr_m r -> shr_m (shr_1 r) = shr_m r / 2 /\ 0 <= shr_m (shr_1 r)).
  { intros [m x y] Hm. cbn [shr_m] in *. destruct m as [|[m|m|]|m]; cbn [shr_1 shr_m]; try lia; split; try lia.
    - done.
    - apply Z.div_unique with 1; lia.
    - apply Z.div_unique with 0; lia.
    - done. }
  revert r. induction p as [p IH|p IH|]; intros r Hr; cbn [SpecFloat.iter_pos].
  - destruct (H1 r Hr) as [E1 P1]. destruct (IH _ P1) as [E2 P2]. destruct (IH _ P2) as [E3 P3]. split; [|done].
    rewrite E3, E2, E1, !Z.div_div by lia. f_equal. replace (Z.pos p~1) with (1 + Z.pos p + Z.pos p) by lia. rewrite !Z.pow_add_r by lia. lia.
  - destruct (IH _ Hr) as [E2 P2]. destruct (IH _ P2) as [E3 P3]. split; [|done].
    rewrite E3, E2, Z.div_div by lia. f_equal. replace (Z.pos p~0) with (Z.pos p + Z.pos p) by lia. rewrite Z.pow_add_r by lia. lia.
  - by apply H1.
Qed.

Lemma even_nearest m l : exists s, round_nearest_even m l = m + s /\ 0 <= s <= 1.
Proof. destruct l as [|[| |]]; cbn; [exists 0 | destruct (Z.even m); [exists 0 | exists 1] | exists 0 | exists 1]; lia. Qed.

Lemma shr_start m l : shr_m (shr_record_of_loc m l) = m.
Proof. by destruct l as [|[]]. Qed.

Lemma shr_again m e : 0 < m <= 2 ^ 53 -> -1000 < e -> exists m' t, shr_fexp 53 1024 m e loc_Exact = (Build_shr_record (Z.pos m') false false, e + t) /\
  0 <= t <= 1 /\ Z.pos m' * 2 ^ t = m.
Proof.
  intros Hm He. destruct m as [|m|m]; [lia | | lia]. pose proof (digits_bounds m) as Hd. set (d := Zdigits2 (Z.pos m)) in *.
  assert (Hd0 : 0 < d) by (unfold d; cbn; lia). assert (Hd54 : d - 1 < 54) by (apply (Z.pow_lt_mono_r_iff 2); lia).
  unfold shr_fexp. fold d. replace (fexp 53 1024 (d + e) - e) with (d - 53) by (unfold fexp, emin; lia).
  destruct (Z.eq_dec d 54) as [H54 | H54].
  - rewrite H54 in *. assert (Hm53 : Z.pos m = 2 ^ 53) by lia. rewrite Hm53. change (54 - 53) with 1. cbn [shr_record_of_loc shr SpecFloat.iter_pos].
    exists (2 ^ 52)%positive, 1. split; [done|]. split; [lia | done].
  - exists m, 0. destruct (d - 53) eqn:Hd53; [| lia |]; cbn [shr shr_record_of_loc]; rewrite Z.add_0_r, Z.mul_1_r; (split; [done | lia]).
Qed.

Lemma round_near q e l : let p := Z.max 0 (Zdigits2 (Z.pos q) - 53) in -110 < e <= 0 -> e + p <= -22 ->
  exists m t s, binary_round_aux 53 1024 false (Z.pos q) e l = S754_finite false m (e + p + t) /\
    Z.pos m * 2 ^ t = Z.pos q / 2 ^ p + s /\ 0 <= t <= 1 /\ 0 <= s <= 1.
Proof.
  intros p He Hp. pose proof (digits_bounds q) as Hd. set (d := Zdigits2 (Z.pos q)) in *. assert (Hd0 : 0 < d) by (unfold d; cbn; lia).
  assert (Hfirst : exists r, shr_fexp 53 1024 (Z.pos q) e l = (r, e + p) /\ shr_m r = Z.pos q / 2 ^ p).
  { unfold shr_fexp. fold d. replace (fexp 53 1024 (d + e) - e) with (d - 53) by (unfold fexp, emin; lia).
    destruct (d - 53) as [|k|k] eqn:Hk; cbn [shr].
    - exists (shr_record_of_loc (Z.pos q) l). unfold p. change (Z.max 0 0) with 0. by rewrite Z.add_0_r, shr_start, Z.div_1_r.
    - eexists. split; [by replace p with (Z.pos k) by lia|]. rewrite (proj1 (shr_div k (shr_record_of_loc (Z.pos q) l) ltac:(by rewrite shr_start))), shr_start. by replace p with (Z.pos k) by lia.
    - exists (shr_record_of_loc (Z.pos q) l). replace p with 0 by lia. by rewrite Z.add_0_r, shr_start, Z.div_1_r. }
  destruct Hfirst as (r & Hr & Hm). unfold binary_round_aux. rewrite Hr. destruct (even_nearest (shr_m r) (loc_of_shr_record r)) as (s & -> & Hs). rewrite Hm.
  assert (Hpow : 2 ^ d <= 2 ^ (53 + p)) by (apply Z.pow_le_mono_r; lia). rewrite Z.pow_add_r in Hpow by lia.
  assert (Hq53 : Z.pos q / 2 ^ p < 2 ^ 53) by (apply Z.div_lt_upper_bound; lia).
  assert (Hq1 : 1 <= Z.pos q / 2 ^ p).
  { apply Z.div_le_lower_bound; [lia|]. rewrite Z.mul_1_r. etransitivity; [|apply Hd]. apply Z.pow_le_mono_r; lia. }
  destruct (shr_again (Z.pos q / 2 ^ p + s) (e + p)) as (m & t & -> & Ht & Hmt); [lia | lia|].
  cbn [shr_m]. rewrite (proj2 (Z.leb_le _ _)) by lia. by exists m, t, s.
Qed.

(** The parts of a whole number's double. *)
Lemma dbl_parts n : 0 < n < 2 ^ 53 -> exists m e, dbl n = S754_finite false m e /\ -53 < e <= 0 /\ Z.pos m = n * 2 ^ (- e) /\
  forall d, 0 < d -> n < 2 ^ d -> 2 ^ (d - 1) <= n -> Zdigits2 (Z.pos m) + e = d.
Proof.
  intros Hn. pose proof (dbl_int_is n ltac:(lia)) as H. destruct (dbl n) as [[]| | |[] m e]; cbn in H; try done; [lia|].
  destruct H as [He Hm]. exists m, e. split; [done|]. split; [done|]. split; [done|]. intros d Hd Hu Hl.
  pose proof (Z.pow_pos_nonneg 2 (- e) ltac:(lia) ltac:(lia)) as Hpow. rewrite (digits_unique m (d - e)); [lia | lia|]. rewrite Hm.
  replace (d - e - 1) with (d - 1 + - e) by lia. replace (d - e) with (d + - e) by lia. rewrite !Z.pow_add_r by lia. nia.
Qed.

(** [(int) (n / r)], the division that of doubles. *)
Lemma int_of_quotient n r : 0 < n < 2 ^ 31 -> 0 < r <= 2 ^ 20 -> int_of_dbl (dbl_div (dbl n) (dbl r)) = Some (n / r).
Proof.
  intros Hn Hr. destruct (dbl_parts n ltac:(lia)) as (m1 & e1 & -> & He1 & Hm1 & Hd1). destruct (dbl_parts r ltac:(lia)) as (m2 & e2 & -> & He2 & Hm2 & Hd2).
  destruct n as [|n|]; [lia | | lia]. destruct r as [|r|]; [lia | | lia].
  pose proof (digits_bounds n) as Hn'. pose proof (digits_bounds r) as Hr'. set (dn := Zdigits2 (Z.pos n)) in *. set (dr := Zdigits2 (Z.pos r)) in *.
  assert (Hdn : 0 < dn /\ dn - 1 < 31) by (split; [unfold dn; cbn; lia | apply (Z.pow_lt_mono_r_iff 2); lia]).
  assert (Hdr : 0 < dr /\ dr - 1 < 21) by (split; [unfold dr; cbn; lia | apply (Z.pow_lt_mono_r_iff 2); lia]).
  specialize (Hd1 dn ltac:(lia) ltac:(lia) ltac:(lia)). specialize (Hd2 dr ltac:(lia) ltac:(lia) ltac:(lia)).
  unfold dbl_div, SFdiv, SFdiv_core_binary. rewrite Hd1, Hd2. set (e := Z.min _ _).
  assert (He : -110 < e <= dn - dr - 53 /\ e <= e1 - e2) by (unfold e, fexp, emin; lia).
  match goal with |- context [Z.div_eucl ?x _] => replace x with (Z.pos n * 2 ^ (- e2 - e)) end.
  2: { destruct (e1 - e2 - e) as [|s|s] eqn:Hs; [| | lia].
    - rewrite Hm1. do 2 f_equal. lia.
    - rewrite Z.shiftl_mul_pow2, Hm1, <- Z.mul_assoc, <- Z.pow_add_r by lia. do 2 f_equal. lia. }
  pose proof (Z.pow_pos_nonneg 2 (- e2) ltac:(lia) ltac:(lia)) as Hp2. pose proof (Z.pow_pos_nonneg 2 (- e) ltac:(lia) ltac:(lia)) as Hpe.
  assert (Hq : Z.pos n * 2 ^ (- e2 - e) / Z.pos m2 = Z.pos n * 2 ^ (- e) / Z.pos r).
  { rewrite Hm2. replace (- e2 - e) with (- e + - e2) by lia. rewrite Z.pow_add_r, Z.mul_assoc by lia. apply Z.div_mul_cancel_r; lia. }
  unfold Z.div in Hq at 1. destruct (Z.div_eucl (Z.pos n * 2 ^ (- e2 - e)) (Z.pos m2)) as [q rm]. subst q. cbn [xorb].
  assert (Hq1 : 1 <= Z.pos n * 2 ^ (- e) / Z.pos r).
  { apply Z.div_le_lower_bound; [lia|]. assert (2 ^ dr <= 2 ^ (dn - 1 - e)) by (apply Z.pow_le_mono_r; lia).
    replace (dn - 1 - e) with (dn - 1 + - e) in * by lia. rewrite Z.pow_add_r in * by lia. nia. }
  destruct (Z.pos n * 2 ^ (- e) / Z.pos r) as [|q|q] eqn:Hqv; [lia | | lia].
  set (p := Z.max 0 (Zdigits2 (Z.pos q) - 53)).
  assert (Hqd : Zdigits2 (Z.pos q) - 1 < 31 - e).
  { apply (Z.pow_lt_mono_r_iff 2); [lia | lia|]. eapply Z.le_lt_trans; [apply digits_bounds|]. rewrite <- Hqv.
    apply Z.div_lt_upper_bound; [lia|]. replace (31 - e) with (31 + - e) by lia. rewrite Z.pow_add_r by lia. nia. }
  destruct (round_near q e (new_location (Z.pos m2) rm)) as (m & t & s & -> & Hmt & Ht & Hs); [lia | fold p; lia|]. fold p in Hmt |- *.
  rewrite <- Hqv, Z.div_div in Hmt by lia.
  assert (Hcut : Z.pos n * 2 ^ (- e) / (Z.pos r * 2 ^ p) = Z.pos n * 2 ^ (- e - p) / Z.pos r).
  { replace (- e) with (- e - p + p) at 1 by lia. rewrite Z.pow_add_r, Z.mul_assoc by lia. apply Z.div_mul_cancel_r; lia. }
  rewrite Hcut in Hmt. set (big := 2 ^ (- e - p)) in *.
  assert (Hbig : 2 ^ 22 <= big) by (apply Z.pow_le_mono_r; lia).
  assert (Hv : Z.pos m / 2 ^ (- (e + p + t)) = Z.pos n / Z.pos r).
  { rewrite <- (Z.div_mul_cancel_r _ _ (2 ^ t)) by lia. rewrite <- Z.pow_add_r by lia. replace (- (e + p + t) + t) with (- e - p) by lia. fold big.
    rewrite Hmt. pose proof (Z.div_mod (Z.pos n) (Z.pos r) ltac:(lia)) as D1. pose proof (Z.mod_pos_bound (Z.pos n) (Z.pos r) ltac:(lia)) as M1.
    pose proof (Z.div_mod (Z.pos n * big) (Z.pos r) ltac:(lia)) as D2. pose proof (Z.mod_pos_bound (Z.pos n * big) (Z.pos r) ltac:(lia)) as M2.
    symmetry. apply (Z.div_unique_pos _ _ _ (Z.pos n * big / Z.pos r + s - big * (Z.pos n / Z.pos r))); [nia | lia]. }
  assert (Hneg : e + p + t < 0) by lia. cbn [int_of_dbl]. rewrite (proj2 (Z.leb_gt 0 _) Hneg), Hv.
  assert (Hle : 0 <= Z.pos n / Z.pos r <= Z.pos n) by (split; [apply Z.div_pos; lia | apply Z.div_le_upper_bound; nia]).
  rewrite (proj2 (Z.leb_le _ _)), (proj2 (Z.ltb_lt _ _)) by lia. done.
Qed.
