(* ===== verification/Avi.v ===== *)
(** * AVI files (src/libsrc/avilib/avilib.c)

    The container of the recordings, byte by byte: a header of 2048 bytes, the chunks of
    frames and sound, and an index of them at the end.  An [avi_t] carries the file it has
    open: its bytes and the position of its descriptor.  [malloc] gives what it is asked
    for, but not 2 GB. *)

From Stdlib Require Import Ascii String SpecFloat.
From stdpp Require Import gmap strings.
From S2P Require Import Prelude Update Cstring Double.

Definition HEADERBYTES : Z := 2048.
Definition AVI_MAX_LEN : Z := 2 ^ 32 - 1 - 2 ^ 20 * 16 - HEADERBYTES.
Definition PAD_EVEN (x : Z) : Z := Z.land (x + 1) (Z.lnot 1).

Definition AVI_MODE_WRITE : Z := 0.
Definition AVI_MODE_READ : Z := 1.
Definition AVI_ERR_READ : Z := 3.
Definition AVI_ERR_NO_MEM : Z := 8.
Definition AVI_ERR_NO_AVI : Z := 9.
Definition AVI_ERR_NO_HDRL : Z := 10.
Definition AVI_ERR_NO_MOVI : Z := 11.
Definition AVI_ERR_NO_VIDS : Z := 12.

(** ** Numbers and tags in bytes *)

(** The byte of [n] that begins at bit [k]. *)
Definition byte_of (n k : Z) : ascii := chr (Z.land (Z.shiftr n k) 255).
Definition long2str (n : Z) : cstr := [byte_of n 0; byte_of n 8; byte_of n 16; byte_of n 24].
Definition shrt2str (n : Z) : cstr := [byte_of n 0; byte_of n 8].

Definition str2ulong (s : cstr) : option Z :=
  match s with
  | a :: b :: c :: d :: _ => Some (Z.lor (Z.lor (Z.lor (ord a) (Z.shiftl (ord b) 8)) (Z.shiftl (ord c) 16)) (Z.shiftl (ord d) 24))
  | _ => None
  end.
Definition str2ushort (s : cstr) : option Z :=
  match s with a :: b :: _ => Some (Z.lor (ord a) (Z.shiftl (ord b) 8)) | _ => None end.

Definition tolower (c : ascii) : ascii := if isupper c then chr (ord c + 32) else c.

(** [strncasecmp(a, b, n) == 0]: [None] when it leaves an array. *)
Fixpoint strncaseeq (n : nat) (a b : cstr) : option bool :=
  match n, a, b with
  | O, _, _ => Some true
  | S n, x :: a, y :: b =>
      if Ascii.eqb (tolower x) (tolower y) then if Ascii.eqb x NUL then Some true else strncaseeq n a b else Some false
  | _, _, _ => None
  end.

(** The array [h] from [i] on. *)
Definition from {A} (h : list A) (i : Z) : list A := drop (Z.to_nat i) h.
Definition tag_at (h : cstr) (i : Z) (tag : cstr) : option bool := if i <? 0 then None else strncaseeq 4 (from h i) tag.
Definition ulong_at (h : cstr) (i : Z) : option Z := if i <? 0 then None else str2ulong (from h i).
Definition ushort_at (h : cstr) (i : Z) : option Z := if i <? 0 then None else str2ushort (from h i).
(** The [n] bytes at [i]. *)
Definition bytes_at (h : cstr) (i n : Z) : option cstr :=
  if (i <? 0) || (zlen h <? i + n) then None else Some (take (Z.to_nat n) (from h i)).

(** ** Files *)

(** [f_writes] is what the next calls of [write] return, -1 for an error; when it is empty
    they write everything. *)
Record file := { f_bytes : cstr; f_pos : Z; f_writes : list Z }.

Record video_index_entry := { ix_key : Z; ix_pos : Z; ix_len : Z }.
Record audio_index_entry := { ax_pos : Z; ax_len : Z; ax_tot : Z }.

(** [fp_idx] is the text of the index file while it is open; [idx] has the entries in
    memory, 16 bytes each. *)
Record avi_t := {
  fdes : file; mode : Z; fp_idx : option cstr; width : Z; height : Z; fps : double; compressor : cstr;
  video_strn : Z; video_frames : Z; video_tag : cstr; video_pos : Z; max_len : Z;
  a_fmt : Z; a_chans : Z; a_rate : Z; a_bits : Z; mp3rate : Z; audio_strn : Z; audio_bytes : Z; audio_chunks : Z;
  audio_tag : cstr; pos : Z; n_idx : Z; idx : option (list cstr); video_index : option (list video_index_entry);
  audio_index : option (list audio_index_entry); last_pos : Z; last_len : Z; must_use_index : Z; movi_start : Z
}.

#[export] Instance file_settable : Settable file := {| rebuild := fun f => Build_file (f_bytes f) (f_pos f) (f_writes f) |}.
#[export] Instance avi_settable : Settable avi_t := {| rebuild := fun a =>
  Build_avi_t (fdes a) (mode a) (fp_idx a) (width a) (height a) (fps a) (compressor a) (video_strn a) (video_frames a)
    (video_tag a) (video_pos a) (max_len a) (a_fmt a) (a_chans a) (a_rate a) (a_bits a) (mp3rate a) (audio_strn a)
    (audio_bytes a) (audio_chunks a) (audio_tag a) (pos a) (n_idx a) (idx a) (video_index a) (audio_index a)
    (last_pos a) (last_len a) (must_use_index a) (movi_start a) |}.

(** [memset] of an [avi_t] that opens [f]. *)
Definition avi_zero (f : file) (m : Z) : avi_t :=
  Build_avi_t f m None 0 0 (S754_zero false) [NUL; NUL; NUL; NUL] 0 0 [] 0 0 0 0 0 0 0 0 0 0 [] 0 0 None None None 0 0 0 0.

Definition on_file (g : file -> file) : M avi_t () := modify (fun a : avi_t => a <| fdes ::= g |>).

(** Up to [len] bytes; a negative length is a huge one. *)
Definition avi_read (len : Z) : M avi_t cstr :=
  a ← get_st;
  let rest := from (f_bytes (fdes a)) (f_pos (fdes a)) in
  let data := if len <? 0 then rest else take (Z.to_nat len) rest in
  on_file (fun f => f <| f_pos ::= fun p => p + zlen data |>) ;;
  mret data.

(** [lseek] to [p]: -1, and no move, outside the range of offsets. *)
Definition lseek (p : Z) : M avi_t Z :=
  if (p <? 0) || (2 ^ 31 <=? p) then mret (-1) else on_file (fun f => f <| f_pos := p |>) ;; mret p.
Definition tell : M avi_t Z := gets (fun a : avi_t => f_pos (fdes a)).
Definition lseek_cur (n : Z) : M avi_t Z := p ← tell; lseek (p + n).

(** The bytes of a file after a write at [p]; a gap is filled with zeros. *)
Definition overwrite (bytes b : cstr) (p : Z) : cstr :=
  take (Z.to_nat p) (bytes ++ replicate (Z.to_nat p - length bytes) NUL) ++ b ++ drop (Z.to_nat p + length b) bytes.
Definition put_bytes (b : cstr) (f : file) : file :=
  f <| f_bytes ::= fun bytes => overwrite bytes b (f_pos f) |> <| f_pos ::= fun p => p + zlen b |>.

(** [off_t] has 32 bits and files are opened without O_LARGEFILE (avilib.c:249): nothing is
    written from this position on. *)
Definition MAX_NON_LFS : Z := 2 ^ 31 - 1.

(** What a [write] returns that could return [n]: it writes up to the last position, and
    from there on it fails. *)
Definition granted (f : file) (n : Z) : Z :=
  if n <? 0 then n else if MAX_NON_LFS <=? f_pos f then -1 else Z.min n (MAX_NON_LFS - f_pos f).

(** [n < 0] never holds of a [size_t]: an error takes one from what is written.  Where the
    rest does not fit, [write] fails until that makes [r] a huge number. *)
Fixpoint write_loop (ws : list Z) (b : cstr) (r : Z) (f : file) : Z * file :=
  if zlen b <=? r then (r, f <| f_writes := ws |>) else
  match ws with
  | [] =>
      let room := MAX_NON_LFS - f_pos f in
      if zlen b - r <=? room then (zlen b, (put_bytes (from b r) f) <| f_writes := ([] : list Z) |>)
      else (u32 (-1), (put_bytes (take (Z.to_nat room) (from b r)) f) <| f_writes := ([] : list Z) |>)
  | n :: ws =>
      let n := granted f n in
      write_loop ws b (u32 (r + n)) (if n <? 0 then f else put_bytes (take (Z.to_nat n) (from b r)) f)
  end.

Definition avi_write (b : cstr) : M avi_t Z :=
  a ← get_st;
  let '(r, f) := write_loop (f_writes (fdes a)) b 0 (fdes a) in
  on_file (fun _ => f) ;; mret r.

(** ** Writing *)

Definition avi_sampsize (a : avi_t) : Z :=
  let s := ((a_bits a + 7) ÷ 8) * a_chans a in if s <? 4 then 4 else s.

(** [data] is the memory from the pointer on: a chunk of odd length gets one byte more
    than it has. *)
Definition avi_add_chunk (tag data : cstr) (length : Z) : M avi_t Z :=
  a ← get_st;
  let failed := lseek (pos a) ;; mret (-1) in
  let c := tag ++ long2str length in
  let length := PAD_EVEN length in
  r ← avi_write c;
  if negb (r =? 8) then failed else
  data ← access (bytes_at data 0 length);
  r ← avi_write data;
  if negb (r =? length) then failed else
  modify (fun a : avi_t => a <| pos ::= fun p => i32 (p + 8 + length) |>) ;; mret 0.

Definition idx_entry (tag : cstr) (flags pos len : Z) : cstr := take 4 tag ++ long2str flags ++ long2str pos ++ long2str len.

Definition avi_add_index_entry (tag : cstr) (flags pos len : Z) : M avi_t Z :=
  let e := idx_entry tag flags pos len in
  modify (fun a : avi_t =>
    match fp_idx a with
    | None => a <| idx := Some (default [] (idx a) ++ [e]) |>
    | Some text => a <| fp_idx := Some (text ++ e) |>
    end) ;;
  modify (fun a : avi_t => a <| n_idx ::= Z.succ |>) ;;
  modify (fun a : avi_t => a <| max_len ::= fun m => if m <? len then len else m |>) ;;
  mret 0.

(** The file has what an earlier one left, [None] when it cannot be opened; [widx]: an
    index file can be made. *)
Definition AVI_open_output_file (old : option cstr) (writes : list Z) (widx : bool) : outcome () (option avi_t) :=
  match old with None => Ret None () | Some old =>
  let AVI := avi_zero {| f_bytes := old; f_pos := 0; f_writes := writes |} AVI_MODE_WRITE in
  match avi_write (replicate (Z.to_nat HEADERBYTES) NUL) AVI with
  | Ret i AVI =>
      if negb (i =? HEADERBYTES) then Ret None () else
      Ret (Some (AVI <| pos := HEADERBYTES |> <| fp_idx := if widx then Some ([] : cstr) else None |>)) ()
  | Blocked _ => Blocked ()
  | Exited c _ => Exited c ()
  | Undef => Undef
  end
  end.

Definition AVI_set_video (w h : Z) (rate : double) (tag : cstr) : M avi_t () :=
  a ← get_st;
  if mode a =? AVI_MODE_READ then mret () else
  modify (fun a : avi_t => a <| width := w |> <| height := h |> <| fps := rate |>
    <| compressor := if bool_decide (take 3 tag = lit "RGB") then [NUL; NUL; NUL; NUL] else take 4 tag |>).

Definition AVI_set_audio (channels rate bits format mp3 : Z) : M avi_t () :=
  a ← get_st;
  if mode a =? AVI_MODE_READ then mret () else
  modify (fun a : avi_t => a <| a_chans := channels |> <| a_rate := rate |> <| a_bits := bits |> <| a_fmt := format |> <| mp3rate := mp3 |>).

(** The index file in blocks of 1024 bytes: how many bytes. *)
Fixpoint copy_index (fuel : nat) (text : cstr) (bytes : Z) : M avi_t Z :=
  match fuel, text with
  | S fuel, _ :: _ => avi_write (take 1024 text) ;; copy_index fuel (drop 1024 text) (bytes + zlen (take 1024 text))
  | _, _ => mret bytes
  end.

(** The index at the end of the file; true when it is there. *)
Definition write_index : M avi_t bool :=
  a ← get_st;
  match fp_idx a with
  | None => r ← avi_add_chunk (lit "idx1") (concat (default [] (idx a))) (n_idx a * 16); mret (r =? 0)
  | Some text =>
      modify (fun a : avi_t => a <| fp_idx := (None : option cstr) |>) ;;
      avi_write (lit "idx1" ++ long2str (n_idx a * 16)) ;;
      modify (fun a : avi_t => a <| pos ::= Z.add 8 |>) ;;
      ret ← (if mode a =? AVI_MODE_READ then mret (-1) else copy_index (length text) text 0);
      if 0 <? ret then modify (fun a : avi_t => a <| pos ::= Z.add ret |>) ;; mret true else mret false
  end.

(** The words of the header; a division by zero has none. *)
Definition div (a b : Z) : option Z := if b =? 0 then None else Some (a ÷ b).

Definition video_strl (a : avi_t) (frate : Z) : list cstr :=
  [ lit "strl";
    lit "strh"; long2str 64; lit "vids"; compressor a; long2str 0; long2str 0; long2str 0; long2str 10000; long2str frate;
    long2str 0; long2str (video_frames a); long2str 0; long2str (-1); long2str 0; long2str 0; long2str 0; long2str 0; long2str 0;
    lit "strf"; long2str 40; long2str 40; long2str (width a); long2str (height a); shrt2str 1 ++ shrt2str 24; compressor a;
    long2str (width a * height a * 3); long2str 0; long2str 0; long2str 0; long2str 0 ].

Definition audio_strl (a : avi_t) : option (list cstr) :=
  let sampsize := avi_sampsize a in
  rate ← div (i32 (a_rate a * (sampsize ÷ 4))) (a_chans a);
  srate ← div rate (a_chans a);
  per_bit ← div (a_rate a) (a_bits a);
  samples ← div (i32 (per_bit * 8)) (a_chans a);
  Some [ lit "strl";
    lit "strh"; long2str 64; lit "auds"; long2str 0; long2str 0; long2str 0; long2str 0; long2str (sampsize ÷ 4); long2str srate;
    long2str 0; long2str (i32 (4 * audio_bytes a) ÷ sampsize); long2str (1024 * 2 * a_chans a); long2str (-1); long2str (sampsize ÷ 4);
    long2str 0; long2str 0; long2str 0; long2str 0;
    lit "strf"; long2str 16; shrt2str (a_fmt a) ++ shrt2str (a_chans a); long2str samples; long2str rate;
    shrt2str (sampsize ÷ 4) ++ shrt2str (a_bits a) ].

(** A list with its length before it. *)
Definition riff_list (words : list cstr) : list cstr := lit "LIST" :: long2str (zlen (concat words)) :: words.

Definition main_header (a : avi_t) (hasIndex : bool) (ms_per_frame : Z) : list cstr :=
  [ lit "avih"; long2str 56; long2str ms_per_frame; long2str 0; long2str 0;
    long2str (256 + (if hasIndex then 16 else 0) + (if hasIndex && negb (must_use_index a =? 0) then 32 else 0));
    long2str (video_frames a); long2str 0; long2str (if audio_bytes a =? 0 then 1 else 2); long2str 0;
    long2str (width a); long2str (height a); long2str 0; long2str 0; long2str 0; long2str 0 ].

Definition hdrl_words (a : avi_t) (hasIndex : bool) (ms_per_frame frate : Z) : option (list cstr) :=
  audio ← (if a_chans a =? 0 then Some [] else riff_list <$> audio_strl a);
  Some (lit "hdrl" :: main_header a hasIndex ms_per_frame ++ riff_list (video_strl a frate) ++ audio).

(** Microseconds per frame, and 10000 times the rate. *)
Definition rates (rate : double) : option (Z * Z) :=
  if SFltb rate (dbl_div (dbl 1) (dbl 1000)) then Some (0, 0) else
  let half := dbl_div (dbl 1) (dbl 2) in
  frate ← int_of_dbl (dbl_add (dbl_mul (dbl 10000) rate) half);
  ms ← int_of_dbl (dbl_add (dbl_div (dbl 1000000) rate) half);
  Some (ms, frate).

Definition header_bytes (riff_len movi_len : Z) (hdrl : list cstr) : option cstr :=
  let words := lit "RIFF" :: long2str riff_len :: lit "AVI " :: riff_list hdrl in
  let njunk := HEADERBYTES - zlen (concat words) - 8 - 12 in
  if njunk <=? 0 then None else
  Some (concat words ++ lit "JUNK" ++ long2str njunk ++ (if 16 <? njunk then lit "AVI file" ++ replicate (Z.to_nat njunk - 8) NUL else replicate (Z.to_nat njunk) NUL)
    ++ lit "LIST" ++ long2str movi_len ++ lit "movi").

(** The header over the first bytes. *)
Definition put_header (hasIndex : bool) (movi_len : Z) : M avi_t Z :=
  a ← get_st;
  '(ms_per_frame, frate) ← access (rates (fps a));
  hdrl ← access (hdrl_words a hasIndex ms_per_frame frate);
  match header_bytes (i32 (pos a - 8)) movi_len hdrl with
  | None => exit_with 1
  | Some AVI_header =>
      lseek 0 ;;
      r ← avi_write AVI_header;
      mret (if r =? HEADERBYTES then 0 else -1)
  end.

Definition AVI_fix_header (writeindex : bool) : M avi_t Z :=
  a ← get_st;
  let movi_len := i32 (pos a - HEADERBYTES + 4) in
  hasIndex ← (if writeindex then write_index else mret false);
  put_header hasIndex movi_len.

(** [ftruncate] to [n] bytes. *)
Definition ftruncate (n : Z) : M avi_t Z :=
  if n <? 0 then mret (-1) else
  on_file (fun f => f <| f_bytes ::= fun b => take (Z.to_nat n) (b ++ replicate (Z.to_nat n - length b) NUL) |>) ;; mret 0.

Definition avi_close_output_file : M avi_t Z :=
  AVI_fix_header true ;;
  a ← get_st;
  r ← ftruncate (pos a);
  mret (if r <? 0 then -1 else 0).

Definition AVI_close : M avi_t Z := a ← get_st; if mode a =? AVI_MODE_WRITE then avi_close_output_file else mret 0.

Definition avi_write_data (data : cstr) (length : Z) (audio keyframe : bool) : M avi_t Z :=
  a ← get_st;
  if AVI_MAX_LEN <? u32 (pos a + 8 + length + 8 + (n_idx a + 1) * 16) then mret (-1) else
  (if audio then avi_add_index_entry (lit "01wb") 0 (pos a) length
   else avi_add_index_entry (lit "00dc") (if keyframe then 16 else 0) (pos a) length) ;;
  n ← (if audio then avi_add_chunk (lit "01wb") data length else avi_add_chunk (lit "00dc") data length);
  mret (if n =? 0 then 0 else -1).

Definition AVI_write_frame (data : cstr) (bytes : Z) (keyframe : bool) : M avi_t Z :=
  a ← get_st;
  if mode a =? AVI_MODE_READ then mret (-1) else
  r ← avi_write_data data bytes false keyframe;
  if negb (r =? 0) then mret (-1) else
  modify (fun a' : avi_t => a' <| last_pos := pos a |> <| last_len := bytes |> <| video_frames ::= Z.succ |>) ;;
  mret 0.

Definition AVI_dup_frame : M avi_t Z :=
  a ← get_st;
  if mode a =? AVI_MODE_READ then mret (-1) else
  if last_pos a =? 0 then mret 0 else
  avi_add_index_entry (lit "00dc") 16 (last_pos a) (last_len a) ;;
  modify (fun a : avi_t => a <| video_frames ::= Z.succ |> <| must_use_index := 1 |>) ;;
  mret 0.

Definition AVI_write_audio (data : cstr) (bytes : Z) : M avi_t Z :=
  a ← get_st;
  if mode a =? AVI_MODE_READ then mret (-1) else
  r ← avi_write_data data bytes true false;
  if negb (r =? 0) then mret (-1) else
  modify (fun a : avi_t => a <| audio_bytes ::= fun n => i32 (n + bytes) |>) ;; mret 0.

(** ** Reading *)

(** A tag of the 8 bytes that are at a chunk. *)
Definition is_tag (data tag : cstr) : bool := default false (strncaseeq 4 data tag).
Definition is_video (data tag : cstr) : bool := default false (strncaseeq 3 data tag).
Definition size_of (data : cstr) : Z := i32 (default 0 (ulong_at data 4)).

(** The chunks of the file: the header list, the place of the frames and the index.
    What the loop does next depends on where it is only: longer than there are places it
    runs for ever.  An error is [inl]. *)
Fixpoint scan_chunks (fuel : nat) (hdrl : option cstr) : M avi_t (Z + option cstr) :=
  match fuel with
  | O => blocked
  | S fuel =>
      data ← avi_read 8;
      if negb (zlen data =? 8) then mret (inr hdrl) else
      let n := i32 (PAD_EVEN (size_of data)) in
      if is_tag data (lit "LIST") then
        data ← avi_read 4;
        if negb (zlen data =? 4) then mret (inl (- AVI_ERR_READ)) else
        let n := n - 4 in
        if is_tag data (lit "hdrl") then
          if n <? 0 then mret (inl (- AVI_ERR_NO_MEM)) else
          hdrl_data ← avi_read n;
          if negb (zlen hdrl_data =? n) then mret (inl (- AVI_ERR_READ)) else scan_chunks fuel (Some hdrl_data)
        else if is_tag data (lit "movi") then
          p ← tell; modify (fun a : avi_t => a <| movi_start := p |>) ;; lseek_cur n ;; scan_chunks fuel hdrl
        else lseek_cur n ;; scan_chunks fuel hdrl
      else if is_tag data (lit "idx1") then
        if n <? 0 then mret (inl (- AVI_ERR_NO_MEM)) else
        entries ← avi_read n;
        let count := n ÷ 16 in
        modify (fun a : avi_t => a <| n_idx := count |>
          <| idx := Some (map (fun k => take 16 (drop (16 * k) entries)) (seq 0 (Z.to_nat count))) |>) ;;
        if negb (zlen entries =? n) then mret (inl (- AVI_ERR_READ)) else scan_chunks fuel hdrl
      else lseek_cur n ;; scan_chunks fuel hdrl
  end.

(** What has been seen of the header list. *)
Record strm := { lasttag : Z; vids_strh_seen : bool; vids_strf_seen : bool; auds_strh_seen : bool; num_stream : Z }.
#[export] Instance strm_settable : Settable strm := {| rebuild := fun k =>
  Build_strm (lasttag k) (vids_strh_seen k) (vids_strf_seen k) (auds_strh_seen k) (num_stream k) |}.

Definition read_video_strh (h : cstr) (i strn : Z) : M avi_t () :=
  c ← access (bytes_at h (i + 4) 4);
  scale ← access (ulong_at h (i + 20));
  rate ← access (ulong_at h (i + 24));
  frames ← access (ulong_at h (i + 32));
  modify (fun a : avi_t => a <| compressor := c |> <| video_frames := i32 frames |> <| video_strn := strn |> <| max_len := 0 |>) ;;
  if i32 scale =? 0 then mret () else modify (fun a : avi_t => a <| fps := dbl_div (dbl (i32 rate)) (dbl (i32 scale)) |>).

Definition read_audio_strh (h : cstr) (i strn : Z) : M avi_t () :=
  len ← access (ulong_at h (i + 32));
  modify (fun a : avi_t => a <| audio_bytes := i32 (len * avi_sampsize a) |> <| audio_strn := strn |>).

Definition read_video_strf (h : cstr) (i : Z) : M avi_t () :=
  w ← access (ulong_at h (i + 4));
  ht ← access (ulong_at h (i + 8));
  c ← access (bytes_at h (i + 16) 4);
  modify (fun a : avi_t => a <| width := i32 w |> <| height := i32 ht |>).

Definition read_audio_strf (h : cstr) (i : Z) : M avi_t () :=
  format ← access (ushort_at h i);
  chans ← access (ushort_at h (i + 2));
  rate ← access (ulong_at h (i + 4));
  bitrate ← access (ulong_at h (i + 8));
  bits ← access (ushort_at h (i + 14));
  modify (fun a : avi_t => a <| a_fmt := format |> <| a_chans := chans |> <| a_rate := i32 rate |> <| mp3rate := i32 (8 * bitrate) |>
    <| a_bits := bits |>).

(** The header list [h] from [i] on. *)
Fixpoint read_hdrl (fuel : nat) (h : cstr) (i : Z) (k : strm) : M avi_t strm :=
  match fuel with
  | O => blocked
  | S fuel =>
      if zlen h <=? i then mret k else
      list ← access (tag_at h i (lit "LIST"));
      if list : bool then read_hdrl fuel h (i + 12) k else
      n ← access (ulong_at h (i + 4));
      let n := i32 (PAD_EVEN (i32 n)) in
      strh ← access (tag_at h i (lit "strh"));
      strf ← access (tag_at h i (lit "strf"));
      let i := i + 8 in
      if strh : bool then
        vids ← access (tag_at h i (lit "vids"));
        auds ← access (tag_at h i (lit "auds"));
        k ← (if vids && negb (vids_strh_seen k) then
               read_video_strh h i (num_stream k) ;; mret (k <| vids_strh_seen := true |> <| lasttag := 1 |>)
             else if auds && negb (auds_strh_seen k) then
               read_audio_strh h i (num_stream k) ;; mret (k <| auds_strh_seen := true |> <| lasttag := 2 |>)
             else mret (k <| lasttag := 0 |>));
        read_hdrl fuel h (i + n) (k <| num_stream ::= Z.succ |>)
      else if strf : bool then
        k ← (if lasttag k =? 1 then read_video_strf h i ;; mret (k <| vids_strf_seen := true |>)
             else if lasttag k =? 2 then read_audio_strf h i ;; mret k
             else mret k);
        read_hdrl fuel h (i + n) (k <| lasttag := 0 |>)
      else read_hdrl fuel h (i + n) (k <| lasttag := 0 |>)
  end.

(** A number of two digits, then the two letters. *)
Definition stream_tag (strn : Z) (letters : cstr) : cstr := chr (u8 (strn ÷ 10 + 48)) :: chr (u8 (Z.rem strn 10 + 48)) :: letters.

(** Whether the index gives the places from the start of the file (1), from the list of
    frames (2), or neither (0); an error is [inl]. *)
Definition index_type : M avi_t (Z + Z) :=
  a ← get_st;
  match idx a with
  | None => mret (inr 0)
  | Some entries =>
      match List.find (fun e => is_video e (video_tag a)) entries with
      | None => mret (inl (- AVI_ERR_NO_VIDS))
      | Some e =>
          p ← access (ulong_at e 8); len ← access (ulong_at e 12);
          let same data := default false (strncaseeq 4 data e) && bool_decide (ulong_at data 4 = Some len) in
          lseek (i32 p) ;;
          data ← avi_read 8;
          if negb (zlen data =? 8) then mret (inl (- AVI_ERR_READ)) else
          if same data then mret (inr 1) else
          lseek (i32 (p + movi_start a - 4)) ;;
          data ← avi_read 8;
          if negb (zlen data =? 8) then mret (inl (- AVI_ERR_READ)) else
          mret (inr (if same data then 2 else 0))
      end
  end.

(** ##db, ##dc and ##wb *)
Definition stream_chunk (data : cstr) : bool :=
  match data with
  | _ :: _ :: x :: y :: _ =>
      let x := tolower x in let y := tolower y in
      (Ascii.eqb x "d" && (Ascii.eqb y "b" || Ascii.eqb y "c")) || (Ascii.eqb x "w" && Ascii.eqb y "b")
  | _ => false
  end.

(** The index of a file that has none. *)
Fixpoint search_index (fuel : nat) : M avi_t () :=
  match fuel with
  | O => blocked
  | S fuel =>
      data ← avi_read 8;
      if negb (zlen data =? 8) then mret () else
      let n := size_of data in
      if is_tag data (lit "LIST") then lseek_cur 4 ;; search_index fuel else
      p ← tell;
      (if stream_chunk data then avi_add_index_entry data 0 (p - 8) n ;; mret () else mret ()) ;;
      lseek_cur (i32 (PAD_EVEN n)) ;;
      search_index fuel
  end.

Definition long_at (e : cstr) (i : Z) : Z := i32 (default 0 (ulong_at e i)).

Definition video_entry (ioff : Z) (e : cstr) : video_index_entry :=
  {| ix_key := long_at e 4; ix_pos := i32 (long_at e 8 + ioff); ix_len := long_at e 12 |}.

Fixpoint audio_entries (ioff tot : Z) (es : list cstr) : list audio_index_entry :=
  match es with
  | [] => []
  | e :: es => {| ax_pos := i32 (long_at e 8 + ioff); ax_len := long_at e 12; ax_tot := tot |} :: audio_entries ioff (i32 (tot + long_at e 12)) es
  end.

(** The two arrays of the index. *)
Definition make_indexes (idx_type : Z) : M avi_t Z :=
  a ← get_st;
  let entries := default [] (idx a) in
  let videos := List.filter (fun e => is_video e (video_tag a)) entries in
  let audios := List.filter (fun e => is_tag e (audio_tag a)) entries in
  modify (fun a : avi_t => a <| video_frames := zlen videos |> <| audio_chunks := zlen audios |>) ;;
  if zlen videos =? 0 then mret (- AVI_ERR_NO_VIDS) else
  let ioff := if idx_type =? 1 then 8 else movi_start a + 4 in
  modify (fun a : avi_t => a <| video_index := Some (map (video_entry ioff) videos) |>
    <| audio_index := match audios with [] => None | _ => Some (audio_entries ioff 0 audios) end |>
    <| audio_bytes := fold_left (fun t e => i32 (t + long_at e 12)) audios 0 |> <| video_pos := 0 |>) ;;
  lseek (movi_start a) ;;
  mret 0.

Definition AVI_parse_input_file (getIndex : bool) : M avi_t Z :=
  a ← get_st;
  let fuel := (2 + length (f_bytes (fdes a)))%nat in
  data ← avi_read 12;
  if negb (zlen data =? 12) then mret (- AVI_ERR_READ) else
  if negb (is_tag data (lit "RIFF") && is_tag (from data 8) (lit "AVI ")) then mret (- AVI_ERR_NO_AVI) else
  scanned ← scan_chunks fuel None;
  match scanned with
  | inl err => mret err
  | inr None => mret (- AVI_ERR_NO_HDRL)
  | inr (Some hdrl_data) =>
      k ← read_hdrl (2 + 12 * length hdrl_data) hdrl_data 0 (Build_strm 0 false false false 0);
      if negb (vids_strh_seen k && vids_strf_seen k) then mret (- AVI_ERR_NO_VIDS) else
      modify (fun a : avi_t => a <| video_tag := stream_tag (video_strn a) (lit "db") |>) ;;
      modify (fun a : avi_t => if a_chans a =? 0 then a <| audio_strn := 99 |> else a) ;;
      modify (fun a : avi_t => a <| audio_tag := stream_tag (audio_strn a) (lit "wb") |>) ;;
      if negb getIndex then mret 0 else
      a ← get_st;
      if movi_start a =? 0 then mret (- AVI_ERR_NO_MOVI) else
      lseek (movi_start a) ;;
      found ← index_type;
      match found with
      | inl err => mret err
      | inr idx_type =>
          (if idx_type =? 0 then
             lseek (movi_start a) ;;
             modify (fun a : avi_t => a <| n_idx := 0 |> <| idx := Some ([] : list cstr) |>) ;;
             search_index fuel
           else mret ()) ;;
          make_indexes (if idx_type =? 0 then 1 else idx_type)
      end
  end.

(** The file's bytes, [None] when it cannot be opened; a null pointer is [None]. *)
Definition AVI_open_input_file (bytes : option cstr) (getIndex : bool) : outcome () (option avi_t) :=
  match bytes with
  | None => Ret None ()
  | Some bytes =>
      match AVI_parse_input_file getIndex (avi_zero {| f_bytes := bytes; f_pos := 0; f_writes := [] |} AVI_MODE_READ) with
      | Ret r AVI => Ret (if r <? 0 then None else Some AVI) ()
      | Blocked _ => Blocked ()
      | Exited c _ => Exited c ()
      | Undef => Undef
      end
  end.

(** The next frame (1) or sound (2), 0 at the end, -1 and -2 when it does not fit. *)
Fixpoint read_data_loop (fuel : nat) (max_vidbuf max_audbuf : Z) : M avi_t (Z * cstr) :=
  match fuel with
  | O => blocked
  | S fuel =>
      a ← get_st;
      data ← avi_read 8;
      if negb (zlen data =? 8) then mret (0, []) else
      if is_tag data (lit "LIST") then lseek_cur 4 ;; read_data_loop fuel max_vidbuf max_audbuf else
      let n := i32 (PAD_EVEN (size_of data)) in
      let read (max toobig result : Z) :=
        if max <? n then lseek_cur n ;; mret (toobig, [])
        else
          data ← avi_read n;
          if max <? zlen data then undef
          else if negb (zlen data =? n) then mret (0, []) else mret (result, data) in
      if is_video data (video_tag a) then modify (fun a : avi_t => a <| video_pos ::= Z.succ |>) ;; read max_vidbuf (-1) 1
      else if is_tag data (audio_tag a) then read max_audbuf (-2) 2
      else p ← lseek_cur n; if p <? 0 then mret (0, []) else read_data_loop fuel max_vidbuf max_audbuf
  end.

Definition AVI_read_data (max_vidbuf max_audbuf : Z) : M avi_t (Z * cstr) :=
  a ← get_st;
  if mode a =? AVI_MODE_WRITE then mret (0, []) else
  read_data_loop (2 + length (f_bytes (fdes a))) max_vidbuf max_audbuf.

(** ** Repairing a recording that was interrupted *)

(** The entries of the index as text, how many frames and how many sounds. *)
Fixpoint gen_index_loop (fuel : nat) (text : cstr) (videos audios : Z) : M avi_t (cstr * Z * Z) :=
  match fuel with
  | O => blocked
  | S fuel =>
      a ← get_st;
      data ← avi_read 8;
      if negb (zlen data =? 8) then mret (text, videos, audios) else
      if is_tag data (lit "LIST") then lseek_cur 4 ;; gen_index_loop fuel text videos audios else
      let n := i32 (PAD_EVEN (size_of data)) in
      p ← tell;
      if p <? 8 then mret (text, videos, audios) else
      let go text videos audios n := r ← lseek_cur n; if r <? 0 then mret (text, videos, audios) else gen_index_loop fuel text videos audios in
      if is_video data (video_tag a) then
        data ← avi_read 4;
        if negb (zlen data =? 4) then mret (text, videos + 1, audios) else
        let keyflag := if bool_decide (ulong_at data 0 = Some 0xb0010000) then 1 else 0 in
        go (text ++ idx_entry (lit "00dc") keyflag (p - 8) n) (videos + 1) audios (n - 4)
      else if is_tag data (audio_tag a) then go (text ++ idx_entry (lit "01wb") 0 (p - 8) n) videos (audios + 1) n
      else go text videos audios n
  end.

Definition gen_index_from_file (bytes : cstr) : outcome () (option (cstr * Z * Z)) :=
  match AVI_open_input_file (Some bytes) false with
  | Ret None _ => Ret None ()
  | Ret (Some ravi) _ =>
      match (lseek HEADERBYTES ;; gen_index_loop (2 + length bytes) [] 0 0) ravi with
      | Ret r _ => Ret (Some r) ()
      | Blocked _ => Blocked ()
      | Exited c _ => Exited c ()
      | Undef => Undef
      end
  | Blocked _ => Blocked ()
  | Exited c _ => Exited c ()
  | Undef => Undef
  end.

(** Whether the file can be opened for writing and the index file made; when that one
    cannot, a number that was never set is used.  The seconds of the recording and the
    file. *)
Definition avi_fix_bad_file (bytes : cstr) (writes : list Z) (writable widx : bool) : outcome () (Z * cstr) :=
  match AVI_open_input_file (Some bytes) true with
  | Ret None _ => Ret (-1, bytes) ()
  | Ret (Some AVI) _ =>
      if negb writable then Ret (0, bytes) () else
      match gen_index_from_file bytes with
      | Ret (Some (text, videos, audios)) _ =>
          if negb widx then Undef else
          let size := zlen bytes in
          let size := if Z.odd size then size + 1 else size in
          let AVI := AVI <| fdes := {| f_bytes := bytes; f_pos := size; f_writes := writes |} |> <| mode := AVI_MODE_WRITE |>
            <| pos := size |> <| n_idx := videos + audios |> <| fp_idx := Some text |> in
          match (if SFeqb (fps AVI) (dbl 0) then Some 0 else int_of_dbl (dbl_div (dbl videos) (fps AVI))) with
          | None => Undef
          | Some ret =>
              match AVI_close AVI with
              | Ret _ AVI => Ret (ret, f_bytes (fdes AVI)) ()
              | Blocked _ => Blocked ()
              | Exited c _ => Exited c ()
              | Undef => Undef
              end
          end
      | Ret None _ => Undef
      | Blocked _ => Blocked ()
      | Exited c _ => Exited c ()
      | Undef => Undef
      end
  | Blocked _ => Blocked ()
  | Exited c _ => Exited c ()
  | Undef => Undef
  end.
