(* ===== verification/AviBytes.v ===== *)
(** * The bytes of an AVI file

    Numbers read back, tags, the rest of a file from a place on, and what the calls on
    files do to it. *)

From Stdlib Require Import Ascii String SpecFloat.
From stdpp Require Import gmap strings.
From S2P Require Import Prelude Update Cstring Double Avi.

(** ** Numbers *)

Lemma ord_chr z : 0 <= z < 256 -> ord (chr z) = z.
Proof. intros. unfold ord, chr. rewrite nat_ascii_embedding by lia. lia. Qed.

Lemma mod_bits n k i : 0 <= k -> 0 <= i -> Z.testbit (n mod 2 ^ k) i = (i <? k) && Z.testbit n i.
Proof. intros. rewrite <- Z.land_ones, Z.land_spec, Z.testbit_ones_nonneg by lia. apply andb_comm. Qed.

Lemma byte_of_bits n k i : 0 <= k -> 0 <= i -> Z.testbit (ord (byte_of n k)) i = (i <? 8) && Z.testbit n (i + k).
Proof.
  intros Hk Hi. unfold byte_of. change 255 with (Z.ones 8).
  rewrite ord_chr by (rewrite Z.land_ones by lia; apply Z.mod_pos_bound; lia).
  rewrite Z.land_spec, Z.testbit_ones_nonneg, Z.shiftr_spec by lia. apply andb_comm.
Qed.

Lemma byte_of_range n k : 0 <= ord (byte_of n k) < 256.
Proof. unfold ord. pose proof (nat_ascii_bounded (byte_of n k)). lia. Qed.

Lemma str2ulong_long2str n s : str2ulong (long2str n ++ s) = Some (u32 n).
Proof.
  cbn [long2str app str2ulong]. f_equal. apply Z.bits_inj'. intros i Hi. unfold u32.
  rewrite !Z.lor_spec, mod_bits by lia.
  assert (Hsh : forall k, 0 <= k -> Z.testbit (Z.shiftl (ord (byte_of n k)) k) i = (k <=? i) && (i <? k + 8) && Z.testbit n i).
  { intros k Hk. rewrite Z.shiftl_spec by lia. destruct (Z.leb_spec k i) as [Hle | Hlt]; [|by rewrite Z.testbit_neg_r by lia].
    rewrite byte_of_bits by lia. rewrite Z.sub_add. destruct (Z.ltb_spec (i - k) 8), (Z.ltb_spec i (k + 8)); try lia; done. }
  rewrite (Hsh 8), (Hsh 16), (Hsh 24), byte_of_bits, Z.add_0_r by lia. destruct (Z.testbit n i); zcase.
Qed.

Lemma str2ushort_shrt2str n s : str2ushort (shrt2str n ++ s) = Some (n mod 2 ^ 16).
Proof.
  cbn [shrt2str app str2ushort]. f_equal. apply Z.bits_inj'. intros i Hi.
  rewrite Z.lor_spec, mod_bits, Z.shiftl_spec, byte_of_bits, Z.add_0_r by lia.
  destruct (Z.leb_spec 8 i) as [Hle | Hlt].
  - rewrite byte_of_bits, Z.sub_add by lia. destruct (Z.testbit n i); zcase.
  - rewrite (Z.testbit_neg_r _ (i - 8)) by lia. destruct (Z.testbit n i); zcase.
Qed.

Lemma length_long2str n : length (long2str n) = 4%nat.
Proof. done. Qed.

Lemma pad_even x : PAD_EVEN x = 2 * ((x + 1) / 2).
Proof.
  unfold PAD_EVEN. rewrite <- Z.ldiff_land. change 1 with (Z.ones 1) at 2.
  rewrite Z.ldiff_ones_r by lia. rewrite Z.shiftl_mul_pow2, Z.shiftr_div_pow2 by lia. change (2 ^ 1) with 2. lia.
Qed.

Lemma pad_even_bounds x : x <= PAD_EVEN x <= x + 1.
Proof. rewrite pad_even. pose proof (Z.div_mod (x + 1) 2 ltac:(lia)). pose proof (Z.mod_pos_bound (x + 1) 2 ltac:(lia)). lia. Qed.

Lemma pad_even_twice x : PAD_EVEN (PAD_EVEN x) = PAD_EVEN x.
Proof. rewrite !pad_even. f_equal. rewrite Z.mul_comm, Z.div_add_l by lia. by rewrite Z.add_0_r. Qed.

(** ** The rest of a file *)

Section From.
Context {A : Type}.
Implicit Types (b d r : list A) (p : Z).

Lemma from_all b : from b 0 = b.
Proof. done. Qed.

Lemma from_app b r p : p = zlen b -> from (b ++ r) p = r.
Proof. intros ->. unfold from. by rewrite Nat2Z.id, drop_app_length. Qed.

Lemma from_next b p d r n : 0 <= p -> from b p = d ++ r -> n = zlen d -> from b (p + n) = r.
Proof.
  intros Hp H ->. unfold from in *. rewrite Z2Nat.inj_add, <- drop_drop, H, Nat2Z.id by lia. apply drop_app_length.
Qed.

Lemma from_length b p : 0 <= p -> zlen (from b p) = Z.max 0 (zlen b - p).
Proof. intros. unfold from. rewrite length_drop. lia. Qed.

Lemma from_beyond b p : zlen b <= p -> from b p = [].
Proof. intros. apply drop_ge. lia. Qed.
End From.

(** ** The calls on a file *)

(** With the descriptor at [p]. *)
Definition at_pos (a : avi_t) (p : Z) : avi_t := a <| fdes ::= fun f => f <| f_pos := p |> |>.
Abbreviation bytes_of a := (f_bytes (fdes a)).

Lemma at_pos_twice a p q : at_pos (at_pos a p) q = at_pos a q.
Proof. done. Qed.

Lemma read_run a p d r n : 0 <= p -> from (bytes_of a) p = d ++ r -> n = zlen d ->
  avi_read n (at_pos a p) = Ret d (at_pos a (p + n)).
Proof.
  intros Hp Hf ->. unfold avi_read, get_st, on_file, modify. cbv [mbind M_bind mret M_ret].
  change (f_pos (fdes (at_pos a p))) with p. change (bytes_of (at_pos a p)) with (bytes_of a). rewrite Hf.
  rewrite (proj2 (Z.ltb_ge _ _)), Nat2Z.id, take_app_length by lia. done.
Qed.

(** Fewer bytes than asked for. *)
Lemma read_short a p n : 0 <= p -> zlen (from (bytes_of a) p) < n ->
  exists d q, avi_read n (at_pos a p) = Ret d (at_pos a q) /\ zlen d < n /\ p <= q.
Proof.
  intros Hp Hf. exists (from (bytes_of a) p), (p + zlen (from (bytes_of a) p)). split; [|split; [done | lia]].
  unfold avi_read, get_st, on_file, modify. cbv [mbind M_bind mret M_ret].
  change (f_pos (fdes (at_pos a p))) with p. change (bytes_of (at_pos a p)) with (bytes_of a).
  rewrite (proj2 (Z.ltb_ge _ _)), take_ge by lia. done.
Qed.

Lemma lseek_run a p q : 0 <= q < 2 ^ 31 -> lseek q (at_pos a p) = Ret q (at_pos a q).
Proof. intros. unfold lseek. rewrite (proj2 (Z.ltb_ge _ _)), (proj2 (Z.leb_gt _ _)) by lia. done. Qed.

Lemma lseek_cur_run a p n : 0 <= p + n < 2 ^ 31 -> lseek_cur n (at_pos a p) = Ret (p + n) (at_pos a (p + n)).
Proof.
  intros. unfold lseek_cur, tell, gets. rewrite (bind_ret _ _ (at_pos a p) p (at_pos a p)) by done. by apply lseek_run.
Qed.

Lemma tell_run a p : tell (at_pos a p) = Ret p (at_pos a p).
Proof. done. Qed.

(** ** A tag and a length *)

Lemma size_of_head tag n s : length tag = 4%nat -> 0 <= n < 2 ^ 31 -> size_of (tag ++ long2str n ++ s) = n.
Proof.
  intros Ht Hn. unfold size_of, ulong_at. cbn [Z.ltb Z.compare]. rewrite from_app by lia. rewrite str2ulong_long2str.
  cbn [default from_option id]. unfold u32. rewrite Z.mod_small by lia. by apply i32_small; lia.
Qed.

Lemma size_of_head_nil tag n : length tag = 4%nat -> 0 <= n < 2 ^ 31 -> size_of (tag ++ long2str n) = n.
Proof. intros. rewrite <- (app_nil_r (long2str n)). by apply size_of_head. Qed.
