(* ===== verification/AviFile.v ===== *)
(** * What the writer makes

    The frames and sounds that are written as a list of items, the bytes they become, and
    the file during the recording and after it. *)

From Stdlib Require Import Ascii String SpecFloat.
From stdpp Require Import gmap strings.
From S2P Require Import Prelude Update Cstring Double Avi AviBytes.

(** ** Items *)

(** A frame or a sound: the key flags of its entry in the index, the memory at the pointer
    it was written from, and the length. *)
Record item := { it_audio : bool; it_key : Z; it_mem : cstr; it_len : Z }.

Definition item_ok (it : item) : Prop := 0 <= it_len it /\ PAD_EVEN (it_len it) <= zlen (it_mem it) /\ 0 <= it_key it < 2 ^ 31.
(** The flags that the writer gives: a key frame or not. *)
Definition key_ok (it : item) : Prop := it_key it = 0 \/ it_key it = 16.
Definition it_data (it : item) : cstr := take (Z.to_nat (PAD_EVEN (it_len it))) (it_mem it).
Definition it_tag (it : item) : cstr := if it_audio it then lit "01wb" else lit "00dc".
Definition it_flags (it : item) : Z := if it_audio it then 0 else it_key it.
(** A chunk: of the memory [mem] the bytes that its length gives. *)
Definition raw_chunk (tag mem : cstr) (len : Z) : cstr := tag ++ long2str len ++ take (Z.to_nat (PAD_EVEN len)) mem.
Definition chunk_bytes (it : item) : cstr := raw_chunk (it_tag it) (it_mem it) (it_len it).
Definition body (its : list item) : cstr := concat (map chunk_bytes its).

Definition entry_of (p : Z) (it : item) : cstr := idx_entry (it_tag it) (it_flags it) p (it_len it).
Fixpoint entries (p : Z) (its : list item) : list cstr :=
  match its with [] => [] | it :: its => entry_of p it :: entries (p + zlen (chunk_bytes it)) its end.

Definition videos (its : list item) : list item := List.filter (fun it => negb (it_audio it)) its.
Definition sounds (its : list item) : list item := List.filter it_audio its.

Definition write_item (it : item) : M avi_t Z :=
  if it_audio it then AVI_write_audio (it_mem it) (it_len it) else AVI_write_frame (it_mem it) (it_len it) (negb (it_key it =? 0)).
Fixpoint write_items (its : list item) : M avi_t () :=
  match its with [] => mret () | it :: its => write_item it ;; write_items its end.

Lemma raw_chunk_length tag mem len : length tag = 4%nat -> 0 <= len -> PAD_EVEN len <= zlen mem ->
  zlen (raw_chunk tag mem len) = 8 + PAD_EVEN len.
Proof.
  intros Ht Hl Hm. pose proof (pad_even_bounds len). unfold raw_chunk. rewrite !length_app, length_long2str, length_take, Ht. lia.
Qed.

Lemma tag_length it : length (it_tag it) = 4%nat.
Proof. unfold it_tag. by destruct (it_audio it). Qed.

Lemma it_data_length it : item_ok it -> zlen (it_data it) = PAD_EVEN (it_len it).
Proof. intros [Hl Hm]. pose proof (pad_even_bounds (it_len it)). unfold it_data. rewrite length_take. lia. Qed.

Lemma chunk_length it : item_ok it -> zlen (chunk_bytes it) = 8 + PAD_EVEN (it_len it).
Proof. intros (Hl & Hm & _). apply raw_chunk_length; [apply tag_length | done | done]. Qed.

Lemma body_app its its' : body (its ++ its') = body its ++ body its'.
Proof. unfold body. by rewrite map_app, concat_app. Qed.

Lemma entry_length p it : length (entry_of p it) = 16%nat.
Proof. unfold entry_of, it_tag. by destruct (it_audio it). Qed.

Lemma entries_app p its it : entries p (its ++ [it]) = entries p its ++ [entry_of (p + zlen (body its)) it].
Proof.
  revert p. induction its as [|x its IH]; intros p; cbn [entries app]; [cbn; by rewrite Z.add_0_r|].
  rewrite IH. cbn [app]. do 4 f_equal. unfold body. cbn [map concat]. rewrite length_app. lia.
Qed.

Lemma entries_length p its : length (entries p its) = length its.
Proof. revert p. induction its as [|x its IH]; intros p; cbn; [done|]. by rewrite IH. Qed.

Lemma concat_length k (l : list cstr) : Forall (fun x => length x = k) l -> length (concat l) = (k * length l)%nat.
Proof. induction 1 as [|x l Hx _ IH]; cbn; [lia|]. rewrite length_app, Hx, IH. lia. Qed.

Lemma entries_text_length p its : zlen (concat (entries p its)) = 16 * zlen its.
Proof.
  rewrite (concat_length 16), entries_length; [lia|]. revert p.
  induction its as [|x its IH]; intros p; constructor; [apply entry_length | apply IH].
Qed.

(** ** The header *)

Definition words (l : list cstr) : Prop := Forall (fun w => length w = 4%nat) l.

Lemma words_length l : words l -> zlen (concat l) = 4 * zlen l.
Proof. intros Hl. rewrite (concat_length 4) by done. lia. Qed.

(** The settings of a recording: what its header shows. *)
Record settings := {
  st_width : Z; st_height : Z; st_rate : Z; st_compressor : cstr; st_chans : Z; st_arate : Z; st_bits : Z; st_fmt : Z
}.

Record settings_ok (c : settings) : Prop := {
  so_width : 0 <= st_width c < 2 ^ 31;
  so_height : 0 <= st_height c < 2 ^ 31;
  so_rate : 0 < st_rate c <= 1000;
  so_compressor : length (st_compressor c) = 4%nat /\ take 3 (st_compressor c) <> lit "RGB";
  so_audio : 0 <= st_chans c < 2 ^ 16 /\ (st_chans c <> 0 -> st_bits c <> 0)
}.

Record has_settings (c : settings) (a : avi_t) : Prop := {
  hs_width : width a = st_width c;
  hs_height : height a = st_height c;
  hs_rate : fps a = dbl (st_rate c);
  hs_compressor : compressor a = st_compressor c;
  hs_audio : a_chans a = st_chans c /\ a_rate a = st_arate c /\ a_bits a = st_bits c /\ a_fmt a = st_fmt c
}.

Lemma rates_run n : 0 < n <= 1000 -> exists ms, rates (dbl n) = Some (ms, 10000 * n).
Proof.
  intros Hn. assert (Hall : forallb (fun k => match rates (dbl (Z.of_nat k)) with Some (_, r) => r =? 10000 * Z.of_nat k | None => false end) (seq 1 1000) = true)
    by by vm_compute.
  rewrite forallb_forall in Hall. specialize (Hall (Z.to_nat n)). rewrite in_seq, Z2Nat.id in Hall by lia. specialize (Hall ltac:(lia)).
  destruct (rates (dbl n)) as [[ms r]|]; [|done]. exists ms. apply Z.eqb_eq in Hall. by subst.
Qed.

Lemma hdrl_words_run c a hasIndex ms frate : settings_ok c -> has_settings c a ->
  exists audio, hdrl_words a hasIndex ms frate = Some (lit "hdrl" :: main_header a hasIndex ms ++ riff_list (video_strl a frate) ++ audio) /\
    words (lit "hdrl" :: main_header a hasIndex ms ++ riff_list (video_strl a frate) ++ audio) /\ (length audio <= 40)%nat /\
    (if st_chans c =? 0 then audio = [] else exists strl, audio_strl a = Some strl /\ audio = riff_list strl).
Proof.
  intros [_ _ _ [Hc _] [Hch Hbits]] [_ _ _ Hcomp (Hchans & Har & Hb & Hf)]. unfold hdrl_words. rewrite Hchans.
  assert (Hv : words (lit "hdrl" :: main_header a hasIndex ms ++ riff_list (video_strl a frate))).
  { unfold video_strl. rewrite Hcomp. repeat (constructor; [done|]). constructor. }
  destruct (Z.eqb_spec (st_chans c) 0) as [H0 | H0].
  - exists []. split; [done|]. rewrite app_nil_r. split; [done|]. split; [cbn; lia | done].
  - destruct (audio_strl a) as [strl|] eqn:Hs.
    + exists (riff_list strl). split; [done|].
      assert (Hw : words (riff_list strl) /\ length strl = 25%nat).
      { revert Hs. unfold audio_strl, div. rewrite Hchans, Hb. rewrite (proj2 (Z.eqb_neq _ _)) by done.
        rewrite (proj2 (Z.eqb_neq (st_bits c) 0)) by auto. cbn [mbind option_bind]. intros [= <-].
        split; [|done]. repeat (constructor; [done|]). constructor. }
      split; [|split; [cbn; lia | by exists strl]]. rewrite app_comm_cons, app_assoc. apply Forall_app. split; [exact Hv | apply Hw].
    + exfalso. revert Hs. unfold audio_strl, div. rewrite Hchans, Hb. rewrite (proj2 (Z.eqb_neq _ _)) by done.
      rewrite (proj2 (Z.eqb_neq (st_bits c) 0)) by auto. done.
Qed.

(** The bytes of the header. *)
Definition header (riff_len movi_len : Z) (hdrl : list cstr) (junk : cstr) : cstr :=
  lit "RIFF" ++ long2str riff_len ++ lit "AVI " ++ lit "LIST" ++ long2str (4 * zlen hdrl) ++ concat hdrl ++
  lit "JUNK" ++ long2str (zlen junk) ++ junk ++ lit "LIST" ++ long2str movi_len ++ lit "movi".

Lemma header_run riff_len movi_len hdrl : words hdrl -> (length hdrl <= 120)%nat ->
  exists junk, header_bytes riff_len movi_len hdrl = Some (header riff_len movi_len hdrl junk) /\
    zlen junk = 2008 - 4 * zlen hdrl.
Proof.
  intros Hw Hlen. pose proof (words_length _ Hw) as Hl. unfold header_bytes.
  assert (Hw' : words (lit "RIFF" :: long2str riff_len :: lit "AVI " :: riff_list hdrl)) by (repeat (constructor; [done|]); exact Hw).
  assert (Hn : zlen (concat (lit "RIFF" :: long2str riff_len :: lit "AVI " :: riff_list hdrl)) = 20 + 4 * zlen hdrl).
  { rewrite (words_length _ Hw'). cbn [length riff_list]. lia. }
  rewrite Hn. unfold HEADERBYTES. rewrite (proj2 (Z.leb_gt _ _)), (proj2 (Z.ltb_lt 16 _)) by lia.
  set (junk := lit "AVI file" ++ replicate _ NUL). exists junk.
  assert (Hj : zlen junk = 2008 - 4 * zlen hdrl).
  { unfold junk. rewrite length_app, length_replicate. cbn [length list_ascii_of_string]. lia. }
  split; [|done]. unfold header. replace (2048 - (20 + 4 * zlen hdrl) - 8 - 12) with (zlen junk) by lia.
  unfold riff_list. rewrite Hl. cbn [concat]. rewrite <- !app_assoc. done.
Qed.

Lemma header_length riff_len movi_len hdrl junk : words hdrl -> zlen junk = 2008 - 4 * zlen hdrl ->
  zlen (header riff_len movi_len hdrl junk) = HEADERBYTES.
Proof.
  intros Hw Hj. unfold header. rewrite !length_app, !length_long2str. pose proof (words_length _ Hw). cbn [length list_ascii_of_string].
  unfold HEADERBYTES. lia.
Qed.

(** ** Writing to the file *)

Lemma overwrite_run (pre tl b : cstr) : overwrite (pre ++ tl) b (zlen pre) = pre ++ b ++ drop (length b) tl.
Proof.
  unfold overwrite. rewrite Nat2Z.id. rewrite length_app. replace (length pre - (length pre + length tl))%nat with 0%nat by lia.
  cbn [replicate]. rewrite app_nil_r, take_app_length. by rewrite <- drop_drop, drop_app_length.
Qed.

(** With the file [b] and the descriptor at [p]. *)
Definition with_file (a : avi_t) (b : cstr) (p : Z) : avi_t := a <| fdes := Build_file b p [] |>.

Lemma write_run a (pre tl b : cstr) p : p = zlen pre -> p + zlen b < 2 ^ 31 ->
  avi_write b (with_file a (pre ++ tl) p) = Ret (zlen b) (with_file a (pre ++ b ++ drop (length b) tl) (p + zlen b)).
Proof.
  intros -> Hfit. unfold avi_write, get_st, on_file, modify. cbv [mbind M_bind mret M_ret].
  change (f_writes (fdes (with_file a (pre ++ tl) (zlen pre)))) with (@nil Z). cbn [write_loop].
  destruct (Z.leb_spec (zlen b) 0) as [Hle | Hlt].
  - destruct b as [|x b]; [|cbn in Hle; lia]. cbn [length]. rewrite drop_0, Z.add_0_r. done.
  - change (f_pos (fdes (with_file a (pre ++ tl) (zlen pre)))) with (zlen pre). cbv zeta.
    rewrite (proj2 (Z.leb_le _ _)) by (unfold MAX_NON_LFS; lia). rewrite from_all. by rewrite <- overwrite_run.
Qed.

Lemma with_file_twice a b p b' p' : with_file (with_file a b p) b' p' = with_file a b' p'.
Proof. done. Qed.

(** The text of the index so far. *)
Definition index_text (a : avi_t) : cstr := match fp_idx a with Some t => t | None => concat (default [] (idx a)) end.

Record writing (h : cstr) (its : list item) (c : settings) (tl : cstr) (a : avi_t) : Prop := {
  wr_mode : mode a = AVI_MODE_WRITE;
  wr_file : fdes a = Build_file (h ++ body its ++ tl) (HEADERBYTES + zlen (body its)) [];
  wr_header : zlen h = HEADERBYTES;
  wr_pos : pos a = HEADERBYTES + zlen (body its);
  wr_idx : index_text a = concat (entries HEADERBYTES its);
  wr_n : n_idx a = zlen its;
  wr_frames : video_frames a = zlen (videos its);
  wr_must : must_use_index a = 0;
  wr_settings : has_settings c a
}.

(** The file, its index and what follows fit 2 GB. *)
Definition small (its : list item) : Prop := HEADERBYTES + zlen (body its) + 16 * zlen its + 64 < 2 ^ 31.

Lemma add_entry_run tag flags p len a : exists a', avi_add_index_entry tag flags p len a = Ret 0 a' /\
  mode a' = mode a /\ fdes a' = fdes a /\ pos a' = pos a /\ index_text a' = index_text a ++ idx_entry tag flags p len /\
  n_idx a' = n_idx a + 1 /\ video_frames a' = video_frames a /\ must_use_index a' = must_use_index a /\
  forall c, has_settings c a -> has_settings c a'.
Proof.
  unfold avi_add_index_entry, modify. cbv [mbind M_bind mret M_ret]. eexists. split; [done|]. unfold index_text.
  destruct (fp_idx a) eqn:Hfp; cbn -[idx_entry concat]; rewrite ?Hfp; split_and!; try done; try (by intros ? []).
  rewrite concat_app. cbn [concat]. by rewrite app_nil_r.
Qed.

Lemma add_chunk_run tag mem len a (pre tl : cstr) p :
  length tag = 4%nat -> 0 <= len -> PAD_EVEN len <= zlen mem -> p = zlen pre -> pos a = p -> p + 16 + len < 2 ^ 31 ->
  avi_add_chunk tag mem len (with_file a (pre ++ tl) p) =
    Ret 0 ((with_file a (pre ++ raw_chunk tag mem len ++ drop (length (raw_chunk tag mem len)) tl) (p + 8 + PAD_EVEN len)) <| pos := p + 8 + PAD_EVEN len |>).
Proof.
  intros Ht Hlen Hmem Hp Hpos Hsmall. pose proof (pad_even_bounds len) as Hpad. pose proof (raw_chunk_length tag mem len Ht Hlen Hmem) as Hc.
  unfold avi_add_chunk. set (a0 := with_file a (pre ++ tl) p). rewrite (bind_ret _ _ a0 a0 a0) by done. cbv zeta. subst a0.
  assert (Hh : zlen (tag ++ long2str len) = 8) by (rewrite length_app, length_long2str; lia).
  rewrite (bind_ret _ _ _ _ _ (write_run a pre tl (tag ++ long2str len) p Hp ltac:(lia))), Hh. change (negb (8 =? 8)) with false. cbv iota.
  set (d := take (Z.to_nat (PAD_EVEN len)) mem). assert (Hd : zlen d = PAD_EVEN len) by (unfold d; rewrite length_take; lia).
  assert (Hdata : bytes_at mem 0 (PAD_EVEN len) = Some d).
  { unfold bytes_at. change (0 <? 0) with false. cbn [orb]. rewrite (proj2 (Z.ltb_ge _ _)) by lia. done. }
  rewrite (bind_access _ _ _ _ Hdata), app_assoc.
  assert (Hp8 : p + 8 = zlen (pre ++ tag ++ long2str len)) by (rewrite length_app; lia).
  rewrite (bind_ret _ _ _ _ _ (write_run a _ _ d _ Hp8 ltac:(lia))), Hd, Z.eqb_refl. cbn [negb]. unfold modify. cbv [mbind M_bind mret M_ret]. f_equal.
  match goal with |- alter_field pos ?s ?f ?r = _ => change (alter_field pos s f r) with (r <| pos := i32 (pos a + 8 + PAD_EVEN len) |>) end.
  rewrite Hpos, i32_small by lia. do 2 f_equal. unfold raw_chunk. fold d. rewrite <- !app_assoc, drop_drop, !length_app. by rewrite Nat.add_assoc.
Qed.

Lemma body_snoc_length its it : zlen (body (its ++ [it])) = zlen (body its) + zlen (chunk_bytes it).
Proof. rewrite body_app, length_app. unfold body at 2. cbn [map concat]. rewrite app_nil_r. lia. Qed.

Lemma videos_snoc its it : videos (its ++ [it]) = videos its ++ if it_audio it then [] else [it].
Proof. unfold videos. rewrite filter_app. cbn. by destruct (it_audio it). Qed.

Lemma write_data_run h its c tl a it : writing h its c tl a -> item_ok it -> key_ok it -> small (its ++ [it]) ->
  exists a', avi_write_data (it_mem it) (it_len it) (it_audio it) (negb (it_key it =? 0) && negb (it_audio it)) a = Ret 0 a' /\
    writing h (its ++ [it]) c (drop (length (chunk_bytes it)) tl) (a' <| video_frames := zlen (videos (its ++ [it])) |>) /\ video_frames a' = video_frames a.
Proof.
  intros [Hm Hf Hh Hp Hi Hn Hfr Hmu Hset] Hit Hkey Hsmall. pose proof (chunk_length it Hit) as Hc. pose proof (pad_even_bounds (it_len it)) as Hpad.
  pose proof Hit as (Hlen & Hmem & _). unfold small, HEADERBYTES in *. rewrite body_snoc_length in Hsmall. rewrite length_app in Hsmall. cbn [length] in Hsmall.
  unfold avi_write_data. rewrite (bind_ret _ _ a a a) by done. rewrite Hp, Hn.
  rewrite (proj2 (Z.ltb_ge _ _)) by (rewrite u32_small; unfold AVI_MAX_LEN, HEADERBYTES; lia).
  set (key := negb (it_key it =? 0) && negb (it_audio it)).
  assert (Hentry : (if it_audio it then avi_add_index_entry (lit "01wb") 0 (2048 + zlen (body its)) (it_len it)
      else avi_add_index_entry (lit "00dc") (if key then 16 else 0) (2048 + zlen (body its)) (it_len it)) =
    avi_add_index_entry (it_tag it) (it_flags it) (2048 + zlen (body its)) (it_len it)).
  { unfold it_tag, it_flags, key. destruct (it_audio it); [done|]. by destruct Hkey as [-> | ->]. }
  rewrite Hentry. destruct (add_entry_run (it_tag it) (it_flags it) (2048 + zlen (body its)) (it_len it) a)
    as (a1 & He & Hm1 & Hf1 & Hp1 & Hi1 & Hn1 & Hv1 & Hmu1 & Hs1).
  rewrite (bind_ret _ _ _ _ _ He). fold (entry_of (2048 + zlen (body its)) it) in Hi1.
  assert (Ha1 : a1 = with_file a1 ((h ++ body its) ++ tl) (2048 + zlen (body its))).
  { unfold with_file. rewrite <- app_assoc, <- Hf, <- Hf1. by destruct a1. }
  assert (Hchunk : (if it_audio it then avi_add_chunk (lit "01wb") (it_mem it) (it_len it) else avi_add_chunk (lit "00dc") (it_mem it) (it_len it)) =
    avi_add_chunk (it_tag it) (it_mem it) (it_len it)) by (unfold it_tag; by destruct (it_audio it)).
  rewrite Hp in Hp1.
  rewrite Hchunk, Ha1.
  rewrite (bind_ret _ _ _ _ _ (add_chunk_run (it_tag it) (it_mem it) (it_len it) a1 (h ++ body its) tl (2048 + zlen (body its))
    (tag_length it) Hlen Hmem ltac:(rewrite length_app; lia) Hp1 ltac:(lia))).
  fold (chunk_bytes it). replace (2048 + zlen (body its) + 8 + PAD_EVEN (it_len it)) with (2048 + zlen (body its) + zlen (chunk_bytes it)) by lia.
  eexists. split; [done|]. split.
  - assert (Hb : (h ++ body its) ++ chunk_bytes it ++ drop (length (chunk_bytes it)) tl = h ++ body (its ++ [it]) ++ drop (length (chunk_bytes it)) tl).
    { rewrite body_app. unfold body at 3. cbn [map concat]. by rewrite app_nil_r, <- !app_assoc. }
    rewrite Hb. split; unfold HEADERBYTES; cbn; rewrite ?body_snoc_length.
    + by rewrite Hm1.
    + f_equal. lia.
    + exact Hh.
    + lia.
    + rewrite entries_app, concat_app. cbn [concat]. rewrite app_nil_r, <- Hi. exact Hi1.
    + rewrite length_app, Hn1, Hn. cbn [length]. lia.
    + done.
    + by rewrite Hmu1.
    + destruct (Hs1 _ Hset). by split.
  - exact Hv1.
Qed.

Lemma write_item_run h its c tl a it : writing h its c tl a -> item_ok it -> key_ok it -> small (its ++ [it]) ->
  exists a', write_item it a = Ret 0 a' /\ writing h (its ++ [it]) c (drop (length (chunk_bytes it)) tl) a'.
Proof.
  intros Hw Hit Hkey Hsmall. destruct (write_data_run h its c tl a it Hw Hit Hkey Hsmall) as (a1 & Hrun & Hw1 & Hv).
  pose proof (wr_mode _ _ _ _ _ Hw) as Hm. pose proof (wr_frames _ _ _ _ _ Hw) as Hf.
  destruct Hw1 as [H1 H2 H3 H4 H5 H6 H7 H8 [S1 S2 S3 S4 S5]].
  unfold write_item, AVI_write_audio, AVI_write_frame. destruct (it_audio it) eqn:Ha.
  - rewrite andb_false_r in Hrun. rewrite (bind_ret _ _ a a a) by done. rewrite Hm. change (AVI_MODE_WRITE =? AVI_MODE_READ) with false. cbv iota.
    rewrite (bind_ret _ _ _ _ _ Hrun). change (negb (0 =? 0)) with false. cbv iota. eexists. split; [done|].
    split; try done; first [by split | cbn; by rewrite Hv, Hf, videos_snoc, Ha, app_nil_r].
  - rewrite andb_true_r in Hrun. rewrite (bind_ret _ _ a a a) by done. rewrite Hm. change (AVI_MODE_WRITE =? AVI_MODE_READ) with false. cbv iota.
    rewrite (bind_ret _ _ _ _ _ Hrun). change (negb (0 =? 0)) with false. cbv iota. eexists. split; [done|].
    split; try done; first [by split | cbn; rewrite Hv, Hf, videos_snoc, Ha, length_app; cbn; lia].
Qed.

Lemma body_incl its its' : zlen (body its) <= zlen (body (its ++ its')).
Proof. rewrite body_app, length_app. lia. Qed.

Lemma write_items_run h its its' c tl a : writing h its c tl a -> Forall item_ok its' -> Forall key_ok its' -> small (its ++ its') ->
  exists a', write_items its' a = Ret () a' /\ writing h (its ++ its') c (drop (length (body its')) tl) a'.
Proof.
  intros Hw Hok. revert its tl a Hw. induction Hok as [|it its' Hit _ IH]; intros its tl a Hw Hkey Hsmall.
  - exists a. rewrite app_nil_r. done.
  - replace (its ++ it :: its') with ((its ++ [it]) ++ its') in * by by rewrite <- app_assoc.
    apply Forall_cons_1 in Hkey as [Hk Hkey].
    destruct (write_item_run h its c tl a it Hw Hit Hk) as (a1 & Hrun & Hw1).
    { unfold small in *. pose proof (body_incl (its ++ [it]) its'). rewrite length_app in Hsmall. lia. }
    destruct (IH _ _ _ Hw1 Hkey Hsmall) as (a' & Hrun' & Hw'). exists a'. rewrite drop_drop, <- length_app in Hw'. split; [|exact Hw'].
    cbn [write_items]. by rewrite (bind_ret _ _ _ _ _ Hrun).
Qed.

(** ** Opening, and the first header *)

(** The calls that begin a recording: [create_record_file] makes them.  Of a recording
    without sound it leaves out the second; then its numbers are 0, as they were. *)
Definition begin (c : settings) : M avi_t Z :=
  AVI_set_video (st_width c) (st_height c) (dbl (st_rate c)) (st_compressor c) ;;
  AVI_set_audio (st_chans c) (st_arate c) (st_bits c) (st_fmt c) (st_bits c * st_arate c) ;;
  AVI_fix_header false.

(** The headers that [AVI_fix_header] writes for the settings. *)
Definition header_of (c : settings) (movi_len : Z) (h : cstr) : Prop :=
  exists a hasIndex ms riff_len audio junk, has_settings c a /\
    let hdrl := lit "hdrl" :: main_header a hasIndex ms ++ riff_list (video_strl a (10000 * st_rate c)) ++ audio in
    words hdrl /\ (length hdrl <= 100)%nat /\
    (if st_chans c =? 0 then audio = [] else exists strl, audio_strl a = Some strl /\ audio = riff_list strl) /\
    zlen junk = 2008 - 4 * zlen hdrl /\ h = header riff_len movi_len hdrl junk.

(** The end of [AVI_fix_header]: the header over the first bytes. *)
Lemma put_header_run c a hasIndex movi_len (old tl : cstr) p : settings_ok c -> has_settings c a -> zlen old = HEADERBYTES ->
  fdes a = Build_file (old ++ tl) p [] -> exists h, header_of c movi_len h /\ zlen h = HEADERBYTES /\
  put_header hasIndex movi_len a = Ret 0 (with_file a (h ++ tl) HEADERBYTES).
Proof.
  intros Hc Hset Hold Hf. destruct (rates_run (st_rate c) (so_rate _ Hc)) as (ms & Hr).
  destruct (hdrl_words_run c a hasIndex ms (10000 * st_rate c) Hc Hset) as (audio & Hh & Hwords & Hlen & Haudio).
  set (hdrl := lit "hdrl" :: _) in *.
  assert (Hlen' : (length hdrl <= 100)%nat).
  { unfold hdrl. rewrite app_comm_cons, app_assoc, !length_app. change (length (lit "hdrl" :: main_header a hasIndex ms)) with 17%nat.
    change (length (riff_list _)) with 33%nat. lia. }
  assert (Hlen2 : (length hdrl <= 120)%nat) by (clear - Hlen'; lia).
  destruct (header_run (i32 (pos a - 8)) movi_len hdrl Hwords Hlen2) as (junk & Hhb & Hjunk).
  set (h := header _ _ hdrl junk) in *. exists h.
  assert (Hh2048 : zlen h = HEADERBYTES) by by apply header_length.
  split; [by exists a, hasIndex, ms, (i32 (pos a - 8)), audio, junk|]. split; [done|].
  unfold put_header. rewrite (bind_ret _ _ a a a) by done. rewrite (hs_rate _ _ Hset). rewrite (bind_access _ _ _ _ Hr). cbv beta iota.
  rewrite (bind_access _ _ _ _ Hh), Hhb.
  assert (Ha : a = with_file a (old ++ tl) p) by (unfold with_file; rewrite <- Hf; by destruct a).
  rewrite (bind_ret _ _ a 0 (with_file a ([] ++ old ++ tl) 0)) by by rewrite Ha.
  rewrite (bind_ret _ _ _ _ _ (write_run a [] (old ++ tl) h 0 eq_refl ltac:(unfold HEADERBYTES in *; lia))). rewrite Hh2048, Z.eqb_refl.
  replace (length h) with (length old) by lia. rewrite drop_app_length. done.
Qed.

(** ** From opening to closing *)

Lemma open_output_run old widx : exists a, AVI_open_output_file (Some old) [] widx = Ret (Some a) () /\
  fdes a = Build_file (replicate (Z.to_nat HEADERBYTES) NUL ++ drop (Z.to_nat HEADERBYTES) old) HEADERBYTES [] /\
  mode a = AVI_MODE_WRITE /\ pos a = HEADERBYTES /\ index_text a = [] /\ n_idx a = 0 /\ video_frames a = 0 /\ must_use_index a = 0.
Proof.
  unfold AVI_open_output_file. set (zeros := replicate (Z.to_nat HEADERBYTES) NUL).
  assert (Hz : zlen zeros = HEADERBYTES) by by vm_compute.
  change (avi_zero {| f_bytes := old; f_pos := 0; f_writes := [] |} AVI_MODE_WRITE) with
    (with_file (avi_zero {| f_bytes := old; f_pos := 0; f_writes := [] |} AVI_MODE_WRITE) ([] ++ old) 0).
  rewrite (write_run _ [] old zeros 0 eq_refl ltac:(unfold HEADERBYTES in *; lia)), Hz, Z.eqb_refl. cbn [negb]. eexists. split; [done|].
  replace (length zeros) with (Z.to_nat HEADERBYTES) by (unfold zeros; by rewrite length_replicate).
  split_and!; try done. by destruct widx.
Qed.

Lemma with_file_settings c a b p : has_settings c a -> has_settings c (with_file a b p).
Proof. intros [S1 S2 S3 S4 S5]. split; [exact S1 | exact S2 | exact S3 | exact S4 | exact S5]. Qed.

Lemma with_file_writing h c a tl : zlen h = HEADERBYTES -> has_settings c a -> mode a = AVI_MODE_WRITE -> pos a = HEADERBYTES ->
  index_text a = [] -> n_idx a = 0 -> video_frames a = 0 -> must_use_index a = 0 -> writing h [] c tl (with_file a (h ++ tl) HEADERBYTES).
Proof.
  intros Hlen Hset Hm Hp Hi Hn Hv Hmu. split; [exact Hm | | exact Hlen | | exact Hi | exact Hn | exact Hv | exact Hmu | by apply with_file_settings].
  - change (zlen (body [])) with 0. by rewrite Z.add_0_r.
  - change (zlen (body [])) with 0. rewrite Z.add_0_r. exact Hp.
Qed.

Lemma begin_fix c a tl : settings_ok c -> has_settings c a -> mode a = AVI_MODE_WRITE ->
  fdes a = Build_file (replicate (Z.to_nat HEADERBYTES) NUL ++ tl) HEADERBYTES [] -> pos a = HEADERBYTES ->
  index_text a = [] -> n_idx a = 0 -> video_frames a = 0 -> must_use_index a = 0 ->
  exists a' h, AVI_fix_header false a = Ret 0 a' /\ header_of c 4 h /\ writing h [] c tl a'.
Proof.
  intros Hc Hset Hm Hf Hp Hi Hn Hv Hmu. unfold AVI_fix_header. rewrite (bind_ret _ _ a a a) by done. rewrite Hp. cbv zeta.
  change (i32 (HEADERBYTES - HEADERBYTES + 4)) with 4. rewrite (bind_ret _ _ a false a) by done.
  assert (Hz : zlen (replicate (Z.to_nat HEADERBYTES) NUL) = HEADERBYTES) by by vm_compute.
  destruct (put_header_run c a false 4 _ tl HEADERBYTES Hc Hset Hz Hf) as (h & Hh & Hlen & Hrun).
  exists (with_file a (h ++ tl) HEADERBYTES), h. split; [exact Hrun|]. split; [exact Hh|]. by apply with_file_writing.
Qed.

Lemma begin_run c old widx : settings_ok c -> exists a0 a h, AVI_open_output_file (Some old) [] widx = Ret (Some a0) () /\
  begin c a0 = Ret 0 a /\ header_of c 4 h /\ writing h [] c (drop (Z.to_nat HEADERBYTES) old) a.
Proof.
  intros Hc. destruct (open_output_run old widx) as (a0 & Hopen & Hf & Hm & Hp & Hi & Hn & Hv & Hmu). exists a0.
  destruct (so_compressor _ Hc) as [H4 Hrgb].
  unfold begin, AVI_set_video, AVI_set_audio, modify, get_st. cbv [mbind M_bind mret M_ret]. rewrite Hm.
  change (AVI_MODE_WRITE =? AVI_MODE_READ) with false. cbv iota beta.
  rewrite (bool_decide_eq_false_2 _ Hrgb), (take_ge (st_compressor c)) by lia.
  match goal with |- context [if ?b =? _ then _ else _] => change b with (mode a0) end. rewrite Hm.
  change (AVI_MODE_WRITE =? AVI_MODE_READ) with false. cbv iota beta.
  match goal with |- context [AVI_fix_header false ?x] => set (a1 := x) end.
  assert (Hset : has_settings c a1) by by split.
  assert (Hsame : mode a1 = AVI_MODE_WRITE /\ fdes a1 = fdes a0 /\ pos a1 = HEADERBYTES /\ index_text a1 = [] /\ n_idx a1 = 0 /\
    video_frames a1 = 0 /\ must_use_index a1 = 0) by exact (conj Hm (conj eq_refl (conj Hp (conj Hi (conj Hn (conj Hv Hmu)))))).
  clearbody a1. destruct Hsame as (Hm1 & Hf1 & Hp1 & Hi1 & Hn1 & Hv1 & Hmu1). rewrite Hf in Hf1.
  destruct (begin_fix c a1 (drop (Z.to_nat HEADERBYTES) old) Hc Hset Hm1 Hf1 Hp1 Hi1 Hn1 Hv1 Hmu1) as (a & h & Hrun & Hh & Hw).
  by exists a, h.
Qed.

Lemma copy_index_run n a : forall text fuel (pre tl : cstr) p bytes, (length text <= n)%nat -> (length text <= fuel)%nat -> p = zlen pre -> p + zlen text < 2 ^ 31 ->
  copy_index fuel text bytes (with_file a (pre ++ tl) p) =
    Ret (bytes + zlen text) (with_file a (pre ++ text ++ drop (length text) tl) (p + zlen text)).
Proof.
  induction n as [|n IH]; intros text fuel pre tl p bytes Hn Hfuel Hp Hfit.
  - destruct text; [|cbn in Hn; lia]. cbn [length]. rewrite drop_0, !Z.add_0_r. by destruct fuel.
  - destruct text as [|x text]; [cbn [length]; rewrite drop_0, !Z.add_0_r; by destruct fuel|].
    destruct fuel as [|fuel]; [cbn in Hfuel; lia|]. cbn [copy_index]. set (t := x :: text) in *.
    rewrite (bind_ret _ _ _ _ _ (write_run a pre tl (take 1024 t) p Hp ltac:(rewrite length_take; lia))). rewrite app_assoc.
    assert (Hlt : (length (drop 1024 t) <= n)%nat /\ (length (drop 1024 t) <= fuel)%nat).
    { rewrite length_drop. assert (1 <= length t)%nat by (unfold t; cbn; lia). lia. }
    rewrite (IH (drop 1024 t) fuel) by (rewrite ?length_app, ?length_take, ?length_drop; lia || apply Hlt).
    assert (Hl : zlen (take 1024 t) + zlen (drop 1024 t) = zlen t) by (rewrite length_take, length_drop; lia).
    replace (bytes + zlen (take 1024 t) + zlen (drop 1024 t)) with (bytes + zlen t) by lia.
    replace (p + zlen (take 1024 t) + zlen (drop 1024 t)) with (p + zlen t) by lia.
    do 2 f_equal. rewrite <- app_assoc. rewrite (app_assoc (take 1024 t)), take_drop. do 2 f_equal. rewrite drop_drop. f_equal. lia.
Qed.

(** The index of the items, as a chunk. *)
Definition index_chunk (its : list item) : cstr := lit "idx1" ++ long2str (16 * zlen its) ++ concat (entries HEADERBYTES its).

Lemma index_chunk_length its : zlen (index_chunk its) = 8 + 16 * zlen its.
Proof. unfold index_chunk. rewrite !length_app, length_long2str. pose proof (entries_text_length HEADERBYTES its). cbn [length list_ascii_of_string]. lia. Qed.

Lemma pad_even_16 n : PAD_EVEN (n * 16) = n * 16.
Proof. rewrite pad_even. replace (n * 16 + 1) with (1 + (n * 8) * 2) by lia. rewrite Z.div_add by lia. change (1 / 2) with 0. lia. Qed.

(** The end of a recording: its bytes are there, and the index of [ixs] is kept. *)
Record ending (h : cstr) (its ixs : list item) (c : settings) (tl : cstr) (a : avi_t) : Prop := {
  en_mode : mode a = AVI_MODE_WRITE;
  en_file : fdes a = Build_file (h ++ body its ++ tl) (HEADERBYTES + zlen (body its)) [];
  en_header : zlen h = HEADERBYTES;
  en_pos : pos a = HEADERBYTES + zlen (body its);
  en_idx : index_text a = concat (entries HEADERBYTES ixs);
  en_n : n_idx a = zlen ixs /\ length ixs = length its;
  en_settings : has_settings c a
}.

Lemma writing_ending h its c tl a : writing h its c tl a -> ending h its its c tl a.
Proof. intros [Hm Hf Hh Hp Hi Hn _ _ Hset]. by split. Qed.

Lemma write_index_run h its ixs c tl a : ending h its ixs c tl a -> its <> [] -> small its ->
  exists a' tl', write_index a = Ret true a' /\ mode a' = AVI_MODE_WRITE /\ has_settings c a' /\
    fdes a' = Build_file (h ++ body its ++ index_chunk ixs ++ tl') (HEADERBYTES + zlen (body its) + 8 + 16 * zlen its) [] /\
    pos a' = HEADERBYTES + zlen (body its) + 8 + 16 * zlen its.
Proof.
  intros [Hm Hf Hh Hp Hi [Hn Hsame] Hset] Hne Hsmall. assert (Hzs : zlen ixs = zlen its) by by rewrite Hsame. rewrite Hzs in Hn. unfold small, HEADERBYTES in *. unfold write_index.
  assert (Hpos : 0 < zlen its) by (destruct its; [done | cbn; lia]).
  rewrite (bind_ret _ _ a a a) by done. pose proof (entries_text_length 2048 ixs) as Hel. rewrite Hzs in Hel. unfold index_text in Hi.
  assert (Hpre : 2048 + zlen (body its) = zlen (h ++ body its)) by (rewrite length_app; lia).
  assert (Ha : forall a1 : avi_t, fdes a1 = fdes a -> a1 = with_file a1 ((h ++ body its) ++ tl) (2048 + zlen (body its))).
  { intros a1 H1. unfold with_file. rewrite <- app_assoc, <- Hf, <- H1. by destruct a1. }
  destruct (fp_idx a) as [text|] eqn:Hfp.
  - rewrite Hi. set (text' := concat (entries 2048 ixs)) in *. set (a1 := a <| fp_idx := (None : option cstr) |>).
    rewrite (bind_ret _ _ a () a1) by done. rewrite (Ha a1 eq_refl), Hn.
    rewrite (bind_ret _ _ _ _ _ (write_run a1 (h ++ body its) tl (lit "idx1" ++ long2str (zlen its * 16)) _ Hpre
      ltac:(rewrite length_app, length_long2str; cbn [length list_ascii_of_string]; lia))).
    match goal with |- context [with_file a1 ?b (?p + zlen ?w)] => set (b1 := b); set (p1 := p + zlen w) end.
    set (a2 := ((with_file a1 b1 p1) <| pos ::= Z.add 8 |>)). rewrite (bind_ret _ _ _ () a2) by done.
    change (mode a2) with (mode a). rewrite Hm. change (AVI_MODE_WRITE =? AVI_MODE_READ) with false. cbv iota.
    assert (Hb1 : b1 = ((h ++ body its) ++ lit "idx1" ++ long2str (zlen its * 16)) ++ drop 8 tl) by (unfold b1; by rewrite <- !app_assoc).
    assert (Ha2 : a2 = with_file a2 b1 p1) by done. rewrite Hb1 in Ha2.
    assert (Hp1 : p1 = zlen ((h ++ body its) ++ lit "idx1" ++ long2str (zlen its * 16))) by (unfold p1; rewrite Hpre, <- Nat2Z.inj_add, <- length_app; done).
    rewrite Ha2. rewrite (bind_ret _ _ _ _ _ (copy_index_run (length text') a2 text' (length text') _ (drop 8 tl) p1 0 ltac:(lia) ltac:(lia) Hp1
      ltac:(unfold p1; rewrite length_app, length_long2str; cbn [length list_ascii_of_string]; lia))).
    rewrite Z.add_0_l, Hel, (proj2 (Z.ltb_lt _ _)) by lia. eexists _, _. split; [done|]. split; [exact Hm|].
    split; [destruct Hset as [S1 S2 S3 S4 S5]; split; [exact S1 | exact S2 | exact S3 | exact S4 | exact S5]|]. split.
    + match goal with |- fdes _ = ?x => change (Build_file (((h ++ body its) ++ lit "idx1" ++ long2str (zlen its * 16)) ++ text' ++ drop (length text') (drop 8 tl)) (p1 + 16 * zlen its) [] = x) end.
      apply (f_equal2 (fun b p => Build_file b p [])).
      { unfold index_chunk. fold text'. rewrite <- !app_assoc. by rewrite Hzs, (Z.mul_comm 16). }
      unfold p1. rewrite length_app, length_long2str. cbn [length list_ascii_of_string]. lia.
    + match goal with |- pos _ = ?x => change (16 * zlen its + (8 + pos a) = x) end. lia.
  - rewrite Hi. set (text' := concat (entries 2048 ixs)) in *.
    assert (Hpad : PAD_EVEN (n_idx a * 16) = n_idx a * 16) by apply pad_even_16.
    pose proof (add_chunk_run (lit "idx1") text' (n_idx a * 16) a (h ++ body its) tl _ eq_refl ltac:(lia) ltac:(lia) Hpre Hp ltac:(lia)) as Hrun.
    rewrite <- (Ha a eq_refl) in Hrun. rewrite (bind_ret _ _ _ _ _ Hrun). change (0 =? 0) with true. eexists _, _. split; [done|].
    split; [exact Hm|]. split; [destruct Hset as [S1 S2 S3 S4 S5]; split; [exact S1 | exact S2 | exact S3 | exact S4 | exact S5]|].
    assert (Hc : raw_chunk (lit "idx1") text' (n_idx a * 16) = index_chunk ixs).
    { unfold index_chunk, raw_chunk. fold text'. rewrite take_ge by lia. by rewrite Hzs, Hn, (Z.mul_comm 16). }
    rewrite Hc, Hpad. split; [|cbn; lia].
    match goal with |- fdes _ = ?x => change (Build_file ((h ++ body its) ++ index_chunk ixs ++ drop (length (index_chunk ixs)) tl) (2048 + zlen (body its) + 8 + n_idx a * 16) [] = x) end.
    apply (f_equal2 (fun b p => Build_file b p [])); [by rewrite <- app_assoc | lia].
Qed.

(** A recording with an index after it, and one that has been closed. *)
Definition with_index_of (h : cstr) (its ixs : list item) : cstr := h ++ body its ++ index_chunk ixs.
Definition closed (h : cstr) (its : list item) : cstr := with_index_of h its its.

Lemma closed_length h its : zlen h = HEADERBYTES -> zlen (closed h its) = HEADERBYTES + zlen (body its) + 8 + 16 * zlen its.
Proof. intros Hh. unfold closed, with_index_of. rewrite !length_app. pose proof (index_chunk_length its). lia. Qed.

Lemma close_ending h its ixs c tl a : ending h its ixs c tl a -> settings_ok c -> its <> [] -> small its ->
  exists a' h', AVI_close a = Ret 0 a' /\ header_of c (zlen (body its) + 4) h' /\ zlen h' = HEADERBYTES /\ bytes_of a' = with_index_of h' its ixs.
Proof.
  intros Hw Hc Hne Hsmall. pose proof (en_header _ _ _ _ _ _ Hw) as Hh. pose proof (en_pos _ _ _ _ _ _ Hw) as Hp. pose proof (en_mode _ _ _ _ _ _ Hw) as Hm.
  assert (Hzs : zlen ixs = zlen its) by by rewrite (proj2 (en_n _ _ _ _ _ _ Hw)).
  destruct (write_index_run h its ixs c tl a Hw Hne Hsmall) as (a1 & tl' & Hrun & Hm1 & Hset & Hf & Hp1).
  destruct (put_header_run c a1 true (zlen (body its) + 4) h (body its ++ index_chunk ixs ++ tl') _ Hc Hset Hh Hf) as (h' & Hof & Hlen & Hput).
  unfold AVI_close. rewrite (bind_ret _ _ a a a) by done. rewrite Hm. change (AVI_MODE_WRITE =? AVI_MODE_WRITE) with true. cbv iota.
  unfold avi_close_output_file, AVI_fix_header.
  assert (Hfix : (a0 ← get_st; let movi_len := i32 (pos a0 - HEADERBYTES + 4) in hasIndex ← write_index; put_header hasIndex movi_len) a =
    Ret 0 (with_file a1 (h' ++ body its ++ index_chunk ixs ++ tl') HEADERBYTES)).
  { rewrite (bind_ret _ _ a a a) by done. cbv zeta. rewrite Hp. unfold small, HEADERBYTES in *. rewrite i32_small by lia.
    rewrite (bind_ret _ _ _ _ _ Hrun). by replace (2048 + zlen (body its) - 2048 + 4) with (zlen (body its) + 4) by lia. }
  rewrite (bind_ret _ _ _ _ _ Hfix). set (a2 := with_file a1 _ HEADERBYTES). rewrite (bind_ret _ _ a2 a2 a2) by done.
  change (pos a2) with (pos a1). rewrite Hp1. unfold ftruncate. rewrite (proj2 (Z.ltb_ge _ _)) by (unfold HEADERBYTES; lia).
  eexists _, h'. split; [done|]. split; [exact Hof|]. split; [exact Hlen|].
  set (bs := h' ++ body its ++ index_chunk ixs ++ tl') in *. set (q := HEADERBYTES + zlen (body its) + 8 + 16 * zlen its).
  change (take (Z.to_nat q) (bs ++ replicate (Z.to_nat q - length bs) NUL) = with_index_of h' its ixs). unfold bs, q.
  pose proof (index_chunk_length ixs) as Hxl. rewrite Hzs in Hxl. rewrite take_app_le by (rewrite !length_app; lia).
  unfold with_index_of. replace (h' ++ body its ++ index_chunk ixs ++ tl') with ((h' ++ body its ++ index_chunk ixs) ++ tl') by by rewrite <- !app_assoc.
  rewrite take_app_length'; [done|]. rewrite !length_app. lia.
Qed.

Lemma avi_close_run h its c tl a : writing h its c tl a -> settings_ok c -> its <> [] -> small its ->
  exists a' h', AVI_close a = Ret 0 a' /\ header_of c (zlen (body its) + 4) h' /\ zlen h' = HEADERBYTES /\ bytes_of a' = closed h' its.
Proof. intros Hw%writing_ending. exact (close_ending h its its c tl a Hw). Qed.

(** The bytes of a recording: closed, or as they are when the writer stops. *)
Definition recorded (c : settings) (widx : bool) (old : cstr) (its : list item) (finish : bool) : option cstr :=
  match AVI_open_output_file (Some old) [] widx with
  | Ret (Some a) _ =>
      match (begin c ;; write_items its ;; if finish then AVI_close ;; mret () else mret ()) a with
      | Ret _ a => Some (bytes_of a)
      | _ => None
      end
  | _ => None
  end.

Section Recorded.
Context (c : settings) (widx : bool) (its : list item).
Context (Hc : settings_ok c) (Hok : Forall item_ok its) (Hkeys : Forall key_ok its) (Hsmall : small its).

Lemma recorded_run old : exists h a, header_of c 4 h /\ writing h its c (drop (length (body its)) (drop (Z.to_nat HEADERBYTES) old)) a /\
  recorded c widx old its false = Some (bytes_of a) /\
  forall a', AVI_close a = Ret 0 a' -> recorded c widx old its true = Some (bytes_of a').
Proof.
  destruct (begin_run c old widx Hc) as (a0 & a1 & h & Hopen & Hbegin & Hh & Hw).
  destruct (write_items_run h [] its c _ a1 Hw Hok Hkeys Hsmall) as (a & Hitems & Hw1). cbn [app] in Hw1.
  exists h, a. split; [done|]. split; [done|]. unfold recorded. rewrite Hopen, !(bind_ret _ _ _ _ _ Hbegin), !(bind_ret _ _ _ _ _ Hitems).
  split; [done|]. intros a' Hclose. by rewrite (bind_ret _ _ _ _ _ Hclose).
Qed.

Lemma recorded_closed old : its <> [] -> exists h, header_of c (zlen (body its) + 4) h /\ zlen h = HEADERBYTES /\ recorded c widx old its true = Some (closed h its).
Proof.
  intros Hne. destruct (recorded_run old) as (h & a & _ & Hw & _ & Hrun). destruct (avi_close_run h its c _ a Hw Hc Hne Hsmall) as (a' & h' & Hclose & Hh & Hlen & Hb).
  exists h'. split; [done|]. split; [done|]. by rewrite (Hrun a' Hclose), Hb.
Qed.

(** A file that was new is as far as it was written. *)
Lemma recorded_interrupted old : zlen old <= HEADERBYTES -> exists h, header_of c 4 h /\ zlen h = HEADERBYTES /\ recorded c widx old its false = Some (h ++ body its ++ []).
Proof.
  intros Hold. destruct (recorded_run old) as (h & a & Hh & Hw & Hrun & _). exists h. split; [done|]. split; [apply (wr_header _ _ _ _ _ Hw)|].
  rewrite Hrun, (wr_file _ _ _ _ _ Hw). cbn [f_bytes]. by rewrite (drop_ge old), drop_nil by lia.
Qed.
End Recorded.
