(* ===== verification/AviParse.v ===== *)
(** * What the reader finds

    The header of a recording read back, the chunks found after it, and the frames given
    in their order. *)

From Stdlib Require Import Ascii String SpecFloat.
From stdpp Require Import gmap strings.
From S2P Require Import Prelude Update Cstring Double Avi AviBytes AviFile.

(** ** Words of an array *)

(** The words [ws] are at [i] of [h], and nothing else. *)
Definition at_words (h : cstr) (i : Z) (ws : list cstr) : Prop := 0 <= i /\ from h i = concat ws /\ zlen h = i + zlen (concat ws).

Lemma at_words_next h i w ws n : at_words h i (w :: ws) -> n = zlen w -> at_words h (i + n) ws.
Proof.
  intros (Hi & Hf & Hl) ->. cbn [concat] in Hf, Hl. rewrite length_app in Hl. split; [lia|]. split; [|lia]. by apply (from_next h i w _ _ Hi Hf).
Qed.

Lemma at_words_skip h i ws ws' n : at_words h i (ws ++ ws') -> n = zlen (concat ws) -> at_words h (i + n) ws'.
Proof.
  revert i n. induction ws as [|w ws IH]; intros i n H ->; cbn [concat app length] in *; [by rewrite Z.add_0_r|].
  rewrite length_app, Nat2Z.inj_add, Z.add_assoc. eapply IH; [|done]. by apply (at_words_next h i w).
Qed.

Lemma strncaseeq_words tag w s : length tag = 4%nat -> length w = 4%nat -> strncaseeq 4 (w ++ s) tag = strncaseeq 4 w tag.
Proof.
  intros Ht Hw. do 5 (destruct tag as [|? tag]; try done). do 5 (destruct w as [|? w]; try done).
Qed.

Lemma tag_word h i w ws tag : at_words h i (w :: ws) -> length tag = 4%nat -> length w = 4%nat -> tag_at h i tag = strncaseeq 4 w tag.
Proof. intros (Hi & Hf & _) Ht Hw. unfold tag_at. rewrite (proj2 (Z.ltb_ge _ _)), Hf by lia. by apply strncaseeq_words. Qed.

Lemma long_word h i n ws : at_words h i (long2str n :: ws) -> ulong_at h i = Some (u32 n).
Proof. intros (Hi & Hf & _). unfold ulong_at. rewrite (proj2 (Z.ltb_ge _ _)), Hf by lia. apply str2ulong_long2str. Qed.

Lemma ushort_word h i n w ws : at_words h i ((shrt2str n ++ w) :: ws) -> ushort_at h i = Some (n mod 2 ^ 16).
Proof.
  intros (Hi & Hf & _). unfold ushort_at. rewrite (proj2 (Z.ltb_ge _ _)), Hf by lia. cbn [concat]. rewrite <- app_assoc. apply str2ushort_shrt2str.
Qed.

Lemma ushort_word2 h i n m ws : at_words h i ((shrt2str n ++ shrt2str m) :: ws) -> ushort_at h (i + 2) = Some (m mod 2 ^ 16).
Proof.
  intros H. apply (ushort_word _ _ m [] ws). rewrite app_nil_r. apply (at_words_next h i (shrt2str n)); [|done].
  destruct H as (Hi & Hf & Hl). split; [done|]. cbn [concat] in *. by rewrite app_assoc.
Qed.

Lemma bytes_word h i w ws n : at_words h i (w :: ws) -> n = zlen w -> bytes_at h i n = Some w.
Proof.
  intros (Hi & Hf & Hl) ->. cbn [concat] in *. rewrite length_app in Hl. unfold bytes_at.
  rewrite (proj2 (Z.ltb_ge i 0)), (proj2 (Z.ltb_ge (zlen h) _)), Hf by lia. cbn [orb]. by rewrite Nat2Z.id, take_app_length.
Qed.

Lemma at_words_long h i w ws : at_words h i (w :: ws) -> w <> [] -> (zlen h <=? i) = false.
Proof. intros (Hi & Hf & Hl) Hw. cbn [concat] in Hl. rewrite length_app in Hl. destruct w; [done|]. cbn [length] in Hl. apply Z.leb_gt. lia. Qed.

(** ** The header list *)

Lemma hdrl_list fuel h i l t ws k a : at_words h i (lit "LIST" :: l :: t :: ws) -> length l = 4%nat -> length t = 4%nat ->
  read_hdrl (S fuel) h i k a = read_hdrl fuel h (i + 12) k a /\ at_words h (i + 12) ws.
Proof.
  intros H Hl Ht. split.
  - cbn [read_hdrl]. rewrite (at_words_long _ _ _ _ H) by done. by rewrite (bind_access _ _ _ true) by by rewrite (tag_word _ _ _ _ _ H).
  - replace (i + 12) with (i + zlen (lit "LIST") + zlen l + zlen t) by (cbn [length list_ascii_of_string]; lia).
    by repeat (eapply at_words_next; [|reflexivity]).
Qed.

(** A chunk with nothing in it that is kept. *)
Lemma hdrl_other fuel h i tag n ws ws' k a : at_words h i (tag :: long2str n :: ws ++ ws') -> length tag = 4%nat ->
  strncaseeq 4 tag (lit "LIST") = Some false -> strncaseeq 4 tag (lit "strh") = Some false -> strncaseeq 4 tag (lit "strf") = Some false ->
  n = zlen (concat ws) -> PAD_EVEN n = n -> n < 2 ^ 31 ->
  read_hdrl (S fuel) h i k a = read_hdrl fuel h (i + 8 + n) (k <| lasttag := 0 |>) a /\ at_words h (i + 8 + n) ws'.
Proof.
  intros H Htag H1 H2 H3 Hn Hpad Hsmall. pose proof (at_words_next _ _ _ _ 4 H ltac:(lia)) as Hlen. split.
  - cbn [read_hdrl]. rewrite (at_words_long _ _ _ _ H) by (by destruct tag).
    rewrite (bind_access _ _ _ false) by by rewrite (tag_word _ _ _ _ _ H).
    rewrite (bind_access _ _ _ _ (long_word _ _ _ _ Hlen)).
    rewrite (bind_access _ _ _ false) by by rewrite (tag_word _ _ _ _ _ H).
    rewrite (bind_access _ _ _ false) by by rewrite (tag_word _ _ _ _ _ H).
    cbv zeta iota. unfold u32. rewrite Z.mod_small, (i32_small n), Hpad, i32_small by lia. done.
  - replace (i + 8 + n) with (i + 4 + 4 + n) by lia. eapply at_words_skip; [|exact Hn]. by eapply at_words_next; [exact Hlen|].
Qed.

Lemma at_words_nth h i ws j : at_words h i ws -> words ws -> (j <= length ws)%nat -> at_words h (i + 4 * Z.of_nat j) (drop j ws).
Proof.
  intros H Hw Hj. apply (at_words_skip h i (take j ws)); [by rewrite take_drop|].
  rewrite words_length by by apply Forall_take. rewrite length_take. lia.
Qed.

(** The head of a chunk of the header list: its tag and its length. *)
Lemma hdrl_head fuel h i tag n ws k a : at_words h i (tag :: long2str n :: ws) -> length tag = 4%nat ->
  strncaseeq 4 tag (lit "LIST") = Some false ->
  read_hdrl (S fuel) h i k a =
  (strh ← access (strncaseeq 4 tag (lit "strh")); strf ← access (strncaseeq 4 tag (lit "strf"));
   let n := i32 (PAD_EVEN (i32 (u32 n))) in
   let i := i + 8 in
   if strh : bool then
        vids ← access (tag_at h i (lit "vids"));
        auds ← access (tag_at h i (lit "auds"));
        k ← (if vids && negb (vids_strh_seen k) then
               read_video_strh h i (num_stream k) ;; mret (k <| vids_strh_seen := true |> <| lasttag := 1 |>)
             else if auds && negb (auds_strh_seen k) then
               read_audio_strh h i (num_stream k) ;; mret (k <| auds_strh_seen := true |> <| lasttag := 2 |>)
             else mret (k <| lasttag := 0 |>));
        read_hdrl fuel h (i + n) (k <| num_stream ::= Z.succ |>)
      else if strf : bool then
        k ← (if lasttag k =? 1 then read_video_strf h i ;; mret (k <| vids_strf_seen := true |>)
             else if lasttag k =? 2 then read_audio_strf h i ;; mret k
             else mret k);
        read_hdrl fuel h (i + n) (k <| lasttag := 0 |>)
      else read_hdrl fuel h (i + n) (k <| lasttag := 0 |>)) a.
Proof.
  intros H Htag Hlist. pose proof (at_words_next _ _ _ _ 4 H ltac:(lia)) as Hlen.
  cbn [read_hdrl]. rewrite (at_words_long _ _ _ _ H) by (by destruct tag).
  rewrite (bind_access _ _ _ false) by by rewrite (tag_word _ _ _ _ _ H).
  rewrite (bind_access _ _ _ _ (long_word _ _ _ _ Hlen)). by rewrite !(tag_word _ _ _ _ _ H) by done.
Qed.

Lemma video_words w frate : length (compressor w) = 4%nat -> words (video_strl w frate).
Proof. intros Hc. unfold video_strl. repeat (constructor; [done|]). constructor. Qed.

(** A step over the fields before the one that is read. *)
Ltac word_at j := match goal with Hat : at_words ?h ?i ?ws, Hw : words ?ws |- at_words ?h ?p _ =>
  replace p with (i + 4 * Z.of_nat j) by lia; exact (at_words_nth h i ws j Hat Hw ltac:(cbn [length]; lia)) end.

Lemma vids_strh fuel h i c w2 w3 w4 scale rate w7 frames r1 r2 r3 r4 r5 r6 r7 ws k a :
  let l := lit "strh" :: long2str 64 :: lit "vids" :: c :: w2 :: w3 :: w4 :: long2str scale :: long2str rate :: w7 :: long2str frames ::
    r1 :: r2 :: r3 :: r4 :: r5 :: r6 :: r7 :: ws in
  at_words h i l -> words l -> vids_strh_seen k = false -> (i32 (u32 scale) =? 0) = false ->
  read_hdrl (S fuel) h i k a = read_hdrl fuel h (i + 72) (Build_strm 1 true (vids_strf_seen k) (auds_strh_seen k) (Z.succ (num_stream k)))
    (a <| compressor := c |> <| video_frames := i32 (u32 frames) |> <| video_strn := num_stream k |> <| max_len := 0 |>
       <| fps := dbl_div (dbl (i32 (u32 rate))) (dbl (i32 (u32 scale))) |>) /\ at_words h (i + 72) ws.
Proof.
  intros l H Hw Hk Hscale. unfold l in *. clear l. split; [|word_at 18%nat].
  rewrite (hdrl_head fuel h i _ _ _ k a H) by done. rewrite (bind_access _ _ _ true), (bind_access _ _ _ false) by done. cbv zeta iota.
  rewrite (bind_access _ _ _ true) by (erewrite (tag_word h (i + 8) (lit "vids")); [done | word_at 2%nat | done | done]).
  rewrite (bind_access _ _ _ false) by (erewrite (tag_word h (i + 8) (lit "vids")); [done | word_at 2%nat | done | done]).
  rewrite Hk. cbn [andb negb]. unfold read_video_strh.
  assert (Hcl : length c = 4%nat) by exact (Forall_lookup_1 _ _ 3 c Hw eq_refl).
  assert (Hc : bytes_at h (i + 8 + 4) 4 = Some c) by (eapply bytes_word; [word_at 3%nat | lia]).
  assert (Hs : ulong_at h (i + 8 + 20) = Some (u32 scale)) by (eapply long_word; word_at 7%nat).
  assert (Hr : ulong_at h (i + 8 + 24) = Some (u32 rate)) by (eapply long_word; word_at 8%nat).
  assert (Hf : ulong_at h (i + 8 + 32) = Some (u32 frames)) by (eapply long_word; word_at 10%nat).
  rewrite Hc, Hs, Hr, Hf. cbn [access]. cbv [mbind M_bind mret M_ret modify]. rewrite Hscale.
  change (i + 8 + i32 (PAD_EVEN (i32 (u32 64)))) with (i + 8 + 64). by replace (i + 8 + 64) with (i + 72) by lia.
Qed.

Lemma vids_strf fuel h i w0 wd ht w3 c r1 r2 r3 r4 r5 ws k a :
  let l := lit "strf" :: long2str 40 :: w0 :: long2str wd :: long2str ht :: w3 :: c :: r1 :: r2 :: r3 :: r4 :: r5 :: ws in
  at_words h i l -> words l -> lasttag k = 1 ->
  read_hdrl (S fuel) h i k a = read_hdrl fuel h (i + 48) (Build_strm 0 (vids_strh_seen k) true (auds_strh_seen k) (num_stream k))
    (a <| width := i32 (u32 wd) |> <| height := i32 (u32 ht) |>) /\ at_words h (i + 48) ws.
Proof.
  intros l H Hw Hk. unfold l in *. clear l. split; [|word_at 12%nat].
  rewrite (hdrl_head fuel h i _ _ _ k a H) by done. rewrite (bind_access _ _ _ false), (bind_access _ _ _ true) by done. cbv zeta iota.
  rewrite Hk. change (1 =? 1) with true. cbv iota. unfold read_video_strf.
  assert (Hcl : length c = 4%nat) by exact (Forall_lookup_1 _ _ 6 c Hw eq_refl).
  assert (Hc : bytes_at h (i + 8 + 16) 4 = Some c) by (eapply bytes_word; [word_at 6%nat | lia]).
  assert (Hwd : ulong_at h (i + 8 + 4) = Some (u32 wd)) by (eapply long_word; word_at 3%nat).
  assert (Hht : ulong_at h (i + 8 + 8) = Some (u32 ht)) by (eapply long_word; word_at 4%nat).
  rewrite Hc, Hwd, Hht. cbn [access]. cbv [mbind M_bind mret M_ret modify].
  change (i + 8 + i32 (PAD_EVEN (i32 (u32 40)))) with (i + 8 + 40). by replace (i + 8 + 40) with (i + 48) by lia.
Qed.

Lemma auds_strh fuel h i w1 w2 w3 w4 w5 w6 w7 len r1 r2 r3 r4 r5 r6 r7 ws k a :
  let l := lit "strh" :: long2str 64 :: lit "auds" :: w1 :: w2 :: w3 :: w4 :: w5 :: w6 :: w7 :: long2str len ::
    r1 :: r2 :: r3 :: r4 :: r5 :: r6 :: r7 :: ws in
  at_words h i l -> words l -> auds_strh_seen k = false ->
  read_hdrl (S fuel) h i k a = read_hdrl fuel h (i + 72) (Build_strm 2 (vids_strh_seen k) (vids_strf_seen k) true (Z.succ (num_stream k)))
    (a <| audio_bytes := i32 (u32 len * avi_sampsize a) |> <| audio_strn := num_stream k |>) /\ at_words h (i + 72) ws.
Proof.
  intros l H Hw Hk. unfold l in *. clear l. split; [|word_at 18%nat].
  rewrite (hdrl_head fuel h i _ _ _ k a H) by done. rewrite (bind_access _ _ _ true), (bind_access _ _ _ false) by done. cbv zeta iota.
  rewrite (bind_access _ _ _ false) by (erewrite (tag_word h (i + 8) (lit "auds")); [done | word_at 2%nat | done | done]).
  rewrite (bind_access _ _ _ true) by (erewrite (tag_word h (i + 8) (lit "auds")); [done | word_at 2%nat | done | done]).
  rewrite Hk. cbn [andb negb]. unfold read_audio_strh.
  assert (Hl : ulong_at h (i + 8 + 32) = Some (u32 len)) by (eapply long_word; word_at 10%nat).
  rewrite Hl. cbn [access]. cbv [mbind M_bind mret M_ret modify].
  change (i + 8 + i32 (PAD_EVEN (i32 (u32 64)))) with (i + 8 + 64). by replace (i + 8 + 64) with (i + 72) by lia.
Qed.

Lemma auds_strf fuel h i fmt chans samples rate w bits ws k a :
  let l := lit "strf" :: long2str 16 :: (shrt2str fmt ++ shrt2str chans) :: long2str samples :: long2str rate :: (shrt2str w ++ shrt2str bits) :: ws in
  at_words h i l -> words l -> lasttag k = 2 ->
  read_hdrl (S fuel) h i k a = read_hdrl fuel h (i + 24) (Build_strm 0 (vids_strh_seen k) (vids_strf_seen k) (auds_strh_seen k) (num_stream k))
    (a <| a_fmt := fmt mod 2 ^ 16 |> <| a_chans := chans mod 2 ^ 16 |> <| a_rate := i32 (u32 samples) |> <| mp3rate := i32 (8 * u32 rate) |>
       <| a_bits := bits mod 2 ^ 16 |>) /\ at_words h (i + 24) ws.
Proof.
  intros l H Hw Hk. unfold l in *. clear l. split; [|word_at 6%nat].
  rewrite (hdrl_head fuel h i _ _ _ k a H) by done. rewrite (bind_access _ _ _ false), (bind_access _ _ _ true) by done. cbv zeta iota.
  rewrite Hk. change (2 =? 1) with false. change (2 =? 2) with true. cbv iota. unfold read_audio_strf.
  assert (Hf : ushort_at h (i + 8) = Some (fmt mod 2 ^ 16)) by (eapply ushort_word; word_at 2%nat).
  assert (Hc : ushort_at h (i + 8 + 2) = Some (chans mod 2 ^ 16)) by (eapply ushort_word2; word_at 2%nat).
  assert (Hs : ulong_at h (i + 8 + 4) = Some (u32 samples)) by (eapply long_word; word_at 3%nat).
  assert (Hr : ulong_at h (i + 8 + 8) = Some (u32 rate)) by (eapply long_word; word_at 4%nat).
  assert (Hb : ushort_at h (i + 8 + 14) = Some (bits mod 2 ^ 16)).
  { replace (i + 8 + 14) with (i + 20 + 2) by lia. eapply ushort_word2. word_at 5%nat. }
  rewrite Hf, Hc, Hs, Hr, Hb. cbn [access]. cbv [mbind M_bind mret M_ret modify].
  change (i + 8 + i32 (PAD_EVEN (i32 (u32 16)))) with (i + 8 + 16). by replace (i + 8 + 16) with (i + 24) by lia.
Qed.

(** What the header list gives of the settings, and what it leaves. *)
Record parsed (c : settings) (a a' : avi_t) : Prop := {
  ps_file : fdes a' = fdes a;
  ps_mode : mode a' = mode a;
  ps_movi : movi_start a' = movi_start a;
  ps_idx : idx a' = idx a;
  ps_n_idx : n_idx a' = n_idx a;
  ps_fp : fp_idx a' = fp_idx a;
  ps_width : width a' = st_width c;
  ps_height : height a' = st_height c;
  ps_fps : fps a' = dbl (st_rate c);
  ps_compressor : compressor a' = st_compressor c;
  ps_video : video_strn a' = 0;
  ps_chans : a_chans a' = st_chans c;
  ps_audio : st_chans c <> 0 -> audio_strn a' = 1 /\ a_fmt a' = st_fmt c mod 2 ^ 16 /\ a_bits a' = st_bits c mod 2 ^ 16
}.

#[export] Instance settings_settable : Settable settings := {| rebuild := fun c => Build_settings (st_width c) (st_height c) (st_rate c) (st_compressor c) (st_chans c) (st_arate c) (st_bits c) (st_fmt c) |}.

Lemma i32_u32 n : 0 <= n < 2 ^ 31 -> i32 (u32 n) = n.
Proof. intros. unfold u32. rewrite Z.mod_small by lia. by apply i32_small; lia. Qed.

Lemma hdrl_end fuel h i k a : at_words h i [] -> read_hdrl (S fuel) h i k a = Ret k a.
Proof. intros (_ & _ & Hl). cbn [concat length] in Hl. cbn [read_hdrl]. rewrite (proj2 (Z.leb_le _ _)) by lia. done. Qed.

(** The reader after the video's list, and after the sound's. *)
Definition after_video (w : avi_t) (frate : Z) (a : avi_t) : avi_t :=
  a <| compressor := compressor w |> <| video_frames := i32 (u32 (video_frames w)) |> <| video_strn := 0 |> <| max_len := 0 |>
    <| fps := dbl_div (dbl (i32 (u32 frate))) (dbl (i32 (u32 10000))) |>
    <| width := i32 (u32 (width w)) |> <| height := i32 (u32 (height w)) |>.

Lemma video_run w hasIndex ms frate audio fuel a :
  let hdrl := main_header w hasIndex ms ++ riff_list (video_strl w frate) ++ audio in
  words hdrl -> read_hdrl (4 + fuel) (concat hdrl) 0 (Build_strm 0 false false false 0) a =
    read_hdrl fuel (concat hdrl) 196 (Build_strm 0 true true false 1) (after_video w frate a) /\
  at_words (concat hdrl) 196 audio /\ words audio.
Proof.
  intros hdrl Hw. unfold hdrl in *. clear hdrl. set (h := concat _).
  assert (H0 : at_words h 0 (main_header w hasIndex ms ++ riff_list (video_strl w frate) ++ audio)) by (by split).
  assert (Hw1 : words (riff_list (video_strl w frate) ++ audio)) by by apply Forall_app in Hw as [_ Hw].
  assert (Hwa : words audio) by by apply Forall_app in Hw1 as [_ Hw1].
  unfold main_header in H0. cbn [app] in H0.
  match type of H0 with at_words _ _ (_ :: _ :: ?x1 :: ?x2 :: ?x3 :: ?x4 :: ?x5 :: ?x6 :: ?x7 :: ?x8 :: ?x9 :: ?x10 :: ?x11 :: ?x12 :: ?x13 :: ?x14 :: _) =>
    destruct (hdrl_other (3 + fuel) h 0 (lit "avih") 56 [x1; x2; x3; x4; x5; x6; x7; x8; x9; x10; x11; x12; x13; x14] _
      (Build_strm 0 false false false 0) a H0 eq_refl eq_refl eq_refl eq_refl eq_refl eq_refl eq_refl) as [E1 H1] end.
  clear H0. unfold video_strl in *.
  destruct (hdrl_list (2 + fuel) h _ _ _ _ (Build_strm 0 false false false 0) a H1 eq_refl eq_refl) as [E2 H2]. clear H1. cbn [app] in H2.
  assert (Hw2 : words _) by exact (Forall_drop _ 3 _ Hw1). cbn [riff_list app drop] in Hw2.
  destruct (vids_strh (1 + fuel) h _ _ _ _ _ _ _ _ _ _ _ _ _ _ _ _ _ (Build_strm 0 false false false 0) a H2 Hw2 eq_refl eq_refl) as [E3 H3]. clear H2.
  assert (Hw3 : words _) by exact (Forall_drop _ 18 _ Hw2). cbn [drop] in Hw3.
  match type of E3 with _ = read_hdrl _ _ _ ?k ?b => destruct (vids_strf fuel h _ _ _ _ _ _ _ _ _ _ _ _ k b H3 Hw3 eq_refl) as [E4 H4] end.
  split; [exact (eq_trans E1 (eq_trans E2 (eq_trans E3 E4)))|]. split; [exact H4 | exact Hwa].
Qed.

Definition after_audio (c : settings) (samples rate len : Z) (a : avi_t) : avi_t :=
  a <| audio_bytes := i32 (u32 len * avi_sampsize a) |> <| audio_strn := 1 |>
    <| a_fmt := st_fmt c mod 2 ^ 16 |> <| a_chans := st_chans c mod 2 ^ 16 |> <| a_rate := i32 (u32 samples) |> <| mp3rate := i32 (8 * u32 rate) |>
    <| a_bits := st_bits c mod 2 ^ 16 |>.

Lemma audio_run c w strl fuel h i a : has_settings c w -> audio_strl w = Some strl -> words (riff_list strl) -> at_words h i (riff_list strl) ->
  exists samples rate len, read_hdrl (4 + fuel) h i (Build_strm 0 true true false 1) a = Ret (Build_strm 0 true true true 2) (after_audio c samples rate len a).
Proof.
  intros [_ _ _ _ (Hch & Hr & Hb & Hf)] Hs Hw H. unfold audio_strl in Hs. rewrite Hch, Hr, Hb, Hf in Hs.
  cbv zeta in Hs. destruct (div (i32 (st_arate c * (avi_sampsize w ÷ 4))) (st_chans c)) as [rate|]; [|discriminate Hs]. cbn [mbind option_bind] in Hs.
  destruct (div rate (st_chans c)) as [srate|]; [|discriminate Hs]. cbn [mbind option_bind] in Hs.
  destruct (div (st_arate c) (st_bits c)) as [per_bit|]; [|discriminate Hs]. cbn [mbind option_bind] in Hs.
  destruct (div (i32 (per_bit * 8)) (st_chans c)) as [samples|]; [|discriminate Hs].
  cbn [mbind option_bind] in Hs. injection Hs as <-.
  destruct (hdrl_list (3 + fuel) h _ _ _ _ (Build_strm 0 true true false 1) a H eq_refl eq_refl) as [E1 H1].
  clear H.
  assert (Hw1 : words _) by exact (Forall_drop _ 3 _ Hw). cbn [riff_list drop] in Hw1.
  destruct (auds_strh (2 + fuel) h _ _ _ _ _ _ _ _ _ _ _ _ _ _ _ _ _ (Build_strm 0 true true false 1) a H1 Hw1 eq_refl) as [E2 H2].
  clear H1.
  assert (Hw2 : words _) by exact (Forall_drop _ 18 _ Hw1). cbn [drop] in Hw2.
  match type of E2 with _ = read_hdrl _ _ _ ?k ?b => destruct (auds_strf (1 + fuel) h _ _ _ _ _ _ _ _ k b H2 Hw2 eq_refl) as [E3 H3] end.
  eexists _, _, _. exact (eq_trans E1 (eq_trans E2 (eq_trans E3 (hdrl_end fuel h _ _ _ H3)))).
Qed.

Lemma after_video_parsed c w a : settings_ok c -> has_settings c w -> a_chans a = 0 ->
  parsed (c <| st_chans := 0 |>) a (after_video w (10000 * st_rate c) a).
Proof.
  intros [Hw Hht Hr _ _] [Hwd Hhd _ Hcomp _] Hch. split; try exact eq_refl.
  - change (i32 (u32 (width w)) = st_width c). by rewrite Hwd, i32_u32.
  - change (i32 (u32 (height w)) = st_height c). by rewrite Hhd, i32_u32.
  - change (dbl_div (dbl (i32 (u32 (10000 * st_rate c)))) (dbl (i32 (u32 10000))) = dbl (st_rate c)).
    rewrite i32_u32 by lia. change (i32 (u32 10000)) with 10000. by apply frame_rate_exact.
  - exact Hcomp.
  - exact Hch.
  - done.
Qed.

Lemma after_audio_parsed c samples rate len a a1 : 0 <= st_chans c < 2 ^ 16 -> parsed (c <| st_chans := 0 |>) a a1 ->
  parsed c a (after_audio c samples rate len a1).
Proof.
  intros Hch [H1 H2 H3 H4 H5 H6 H7 H8 H9 H10 H11 H12 _]. split; try assumption.
  - change (st_chans c mod 2 ^ 16 = st_chans c). by apply Z.mod_small.
  - intros _. split; [exact eq_refl | split; exact eq_refl].
Qed.

Lemma hdrl_run c w hasIndex ms audio a fuel :
  let hdrl := main_header w hasIndex ms ++ riff_list (video_strl w (10000 * st_rate c)) ++ audio in
  settings_ok c -> has_settings c w -> words hdrl ->
  (if st_chans c =? 0 then audio = [] else exists strl, audio_strl w = Some strl /\ audio = riff_list strl) ->
  a_chans a = 0 -> exists k a', read_hdrl (8 + fuel) (concat hdrl) 0 (Build_strm 0 false false false 0) a = Ret k a' /\
    vids_strh_seen k && vids_strf_seen k = true /\ parsed c a a'.
Proof.
  intros hdrl Hc Hset Hw Haudio Hch. destruct (video_run w hasIndex ms (10000 * st_rate c) audio (4 + fuel) a Hw) as (E & Hat & Hwa).
  change (8 + fuel)%nat with (4 + (4 + fuel))%nat. fold hdrl in E, Hat. rewrite E. clear E.
  destruct (Z.eqb_spec (st_chans c) 0) as [H0 | H0].
  - subst audio. eexists _, _. split; [apply (hdrl_end (3 + fuel)); exact Hat|]. split; [done|].
    pose proof (after_video_parsed c w a Hc Hset Hch) as Hv. assert (Hc0 : c <| st_chans := 0 |> = c) by (clear - H0; destruct c; cbn in *; by subst).
    by rewrite Hc0 in Hv.
  - destruct Haudio as (strl & Hs & ->). destruct (audio_run c w strl fuel _ _ (after_video w (10000 * st_rate c) a) Hset Hs Hwa Hat) as (samples & rate & len & ->).
    eexists _, _. split; [done|]. split; [done|]. apply after_audio_parsed; [apply (so_audio _ Hc)|].
    apply after_video_parsed; try done.
Qed.
