(* ===== verification/AviOpen.v ===== *)
(** * A recording opened and read

    The chunks of a recording that was closed, and of one that was interrupted, as the
    reader goes over them; the index it makes, and the frames and sounds it gives. *)

From Stdlib Require Import Ascii String SpecFloat.
From stdpp Require Import gmap strings.
From S2P Require Import Prelude Update Cstring Double Avi AviBytes AviFile AviParse.

(** ** One chunk *)

Lemma is_tag_words w s tag : length tag = 4%nat -> length w = 4%nat -> is_tag (w ++ s) tag = default false (strncaseeq 4 w tag).
Proof. intros Ht Hw. unfold is_tag. by rewrite strncaseeq_words. Qed.

Lemma is_video_words w s tag : length tag = 4%nat -> length w = 4%nat -> is_video (w ++ s) tag = default false (strncaseeq 3 w tag).
Proof. intros Ht Hw. unfold is_video. f_equal. do 5 (destruct tag as [|? tag]; try done). do 5 (destruct w as [|? w]; try done). Qed.

(** The chunk [tag], [n] is at [p]. *)
Definition chunk_at (b : cstr) (p : Z) (tag : cstr) (n : Z) (r : cstr) : Prop :=
  0 <= p /\ length tag = 4%nat /\ 0 <= n < 2 ^ 31 /\ from b p = tag ++ long2str n ++ r.

Lemma chunk_head b p tag n r : chunk_at b p tag n r -> forall a, bytes_of a = b -> avi_read 8 (at_pos a p) = Ret (tag ++ long2str n) (at_pos a (p + 8)).
Proof.
  intros (Hp & Ht & _ & Hf) a <-. eapply read_run; [done | by rewrite Hf, app_assoc|]. by rewrite length_app, length_long2str, Ht.
Qed.

Lemma chunk_rest b p tag n r : chunk_at b p tag n r -> from b (p + 8) = r.
Proof.
  intros (Hp & Ht & _ & Hf). rewrite app_assoc in Hf. eapply from_next; [done | exact Hf|]. by rewrite length_app, length_long2str, Ht.
Qed.

Lemma head_length (tag : cstr) n : length tag = 4%nat -> (zlen (tag ++ long2str n) =? 8) = true.
Proof. intros Ht. by rewrite length_app, length_long2str, Ht. Qed.

(** The start of [scan_chunks]. *)
Ltac head H := rewrite (bind_ret _ _ _ _ _ (chunk_head _ _ _ _ _ H _ eq_refl)), head_length by apply H; change (negb true) with false; cbv iota;
  rewrite ?size_of_head_nil by apply H.

Section Scan.
Context (a : avi_t).
Implicit Types (p n : Z) (hd : option cstr) (fuel : nat).

Lemma scan_skip fuel hd p tag n r : chunk_at (bytes_of a) p tag n r ->
  strncaseeq 4 tag (lit "LIST") = Some false -> strncaseeq 4 tag (lit "idx1") = Some false -> p + 8 + PAD_EVEN n < 2 ^ 31 ->
  scan_chunks (S fuel) hd (at_pos a p) = scan_chunks fuel hd (at_pos a (p + 8 + PAD_EVEN n)).
Proof.
  intros H H1 H2 Hsmall. pose proof (pad_even_bounds n). destruct H as (Hp & Ht & Hn & Hf) eqn:E. clear E.
  assert (Hc : chunk_at (bytes_of a) p tag n r) by done.
  cbn [scan_chunks]. head Hc. rewrite !is_tag_words, H1, H2 by done. cbn [default from_option id]. rewrite i32_small by lia. cbv zeta iota.
  by rewrite (bind_ret _ _ _ _ _ (lseek_cur_run a (p + 8) (PAD_EVEN n) ltac:(lia))).
Qed.

Lemma scan_hdrl fuel hd p n d r : chunk_at (bytes_of a) p (lit "LIST") n (lit "hdrl" ++ d ++ r) -> n = 4 + zlen d -> PAD_EVEN n = n ->
  scan_chunks (S fuel) hd (at_pos a p) = scan_chunks fuel (Some d) (at_pos a (p + 8 + n)).
Proof.
  intros Hc Hn Hpad. pose proof (chunk_rest _ _ _ _ _ Hc) as Hr. destruct Hc as (Hp & Ht & Hb & Hf) eqn:E. clear E.
  assert (Hc' : chunk_at (bytes_of a) p (lit "LIST") n (lit "hdrl" ++ d ++ r)) by done.
  cbn [scan_chunks]. head Hc'. rewrite !is_tag_words by done. rewrite Hpad, i32_small by lia. cbv zeta.
  change (default false (strncaseeq 4 (lit "LIST") (lit "LIST"))) with true. cbv iota.
  rewrite (bind_ret _ _ _ _ _ (read_run a (p + 8) (lit "hdrl") (d ++ r) 4 ltac:(lia) Hr eq_refl)).
  change (negb (zlen (lit "hdrl") =? 4)) with false. change (is_tag (lit "hdrl") (lit "hdrl")) with true. cbv iota. rewrite (proj2 (Z.ltb_ge _ _)) by lia.
  rewrite (bind_ret _ _ _ _ _ (read_run a (p + 8 + 4) d r (n - 4) ltac:(lia) ltac:(by eapply from_next; [lia | exact Hr|]) ltac:(lia))).
  rewrite (proj2 (Z.eqb_eq _ _)) by lia. change (negb true) with false. cbv iota. by replace (p + 8 + 4 + (n - 4)) with (p + 8 + n) by lia.
Qed.

Lemma scan_movi fuel hd p n r : chunk_at (bytes_of a) p (lit "LIST") n (lit "movi" ++ r) -> 4 <= n -> p + 8 + PAD_EVEN n < 2 ^ 31 ->
  scan_chunks (S fuel) hd (at_pos a p) = scan_chunks fuel hd (at_pos (a <| movi_start := p + 12 |>) (p + 8 + PAD_EVEN n)).
Proof.
  intros Hc Hn Hsmall. pose proof (chunk_rest _ _ _ _ _ Hc) as Hr. pose proof (pad_even_bounds n). destruct Hc as (Hp & Ht & Hb & Hf) eqn:E. clear E.
  assert (Hc' : chunk_at (bytes_of a) p (lit "LIST") n (lit "movi" ++ r)) by done.
  cbn [scan_chunks]. head Hc'. rewrite !is_tag_words by done. rewrite i32_small by lia. cbv zeta.
  change (default false (strncaseeq 4 (lit "LIST") (lit "LIST"))) with true. cbv iota.
  rewrite (bind_ret _ _ _ _ _ (read_run a (p + 8) (lit "movi") r 4 ltac:(lia) Hr eq_refl)).
  change (negb (zlen (lit "movi") =? 4)) with false. change (is_tag (lit "movi") (lit "hdrl")) with false.
  change (is_tag (lit "movi") (lit "movi")) with true. cbv iota.
  rewrite (bind_ret _ _ _ _ _ (tell_run a (p + 8 + 4))). set (a1 := a <| movi_start := p + 12 |>).
  rewrite (bind_ret _ _ _ () (at_pos a1 (p + 8 + 4))) by (unfold modify, a1; by replace (p + 12) with (p + 8 + 4) by lia).
  rewrite (bind_ret _ _ _ _ _ (lseek_cur_run a1 (p + 8 + 4) (PAD_EVEN n - 4) ltac:(lia))).
  by replace (p + 8 + 4 + (PAD_EVEN n - 4)) with (p + 8 + PAD_EVEN n) by lia.
Qed.

Lemma scan_end fuel hd p : 0 <= p -> zlen (from (bytes_of a) p) < 8 -> exists q, scan_chunks (S fuel) hd (at_pos a p) = Ret (inr hd) (at_pos a q).
Proof.
  intros Hp Hs. destruct (read_short a p 8 Hp Hs) as (d & q & Hrun & Hd). exists q. cbn [scan_chunks]. rewrite (bind_ret _ _ _ _ _ Hrun).
  by rewrite (proj2 (Z.eqb_neq _ _)) by lia.
Qed.

(** The index in slices of 16 bytes. *)
Definition slices (d : cstr) (count : nat) : list cstr := map (fun k => take 16 (drop (16 * k) d)) (seq 0 count).

Lemma scan_idx fuel hd p d r : chunk_at (bytes_of a) p (lit "idx1") (zlen d) (d ++ r) -> PAD_EVEN (zlen d) = zlen d ->
  let count := zlen d ÷ 16 in
  scan_chunks (S fuel) hd (at_pos a p) =
    scan_chunks fuel hd (at_pos (a <| n_idx := count |> <| idx := Some (slices d (Z.to_nat count)) |>) (p + 8 + zlen d)).
Proof.
  intros Hc Hpad. pose proof (chunk_rest _ _ _ _ _ Hc) as Hr. destruct Hc as (Hp & Ht & Hb & Hf) eqn:E. clear E.
  assert (Hc' : chunk_at (bytes_of a) p (lit "idx1") (zlen d) (d ++ r)) by done.
  cbn [scan_chunks]. head Hc'. rewrite !is_tag_words by done. rewrite Hpad, i32_small by lia. cbv zeta.
  change (default false (strncaseeq 4 (lit "idx1") (lit "LIST"))) with false. change (default false (strncaseeq 4 (lit "idx1") (lit "idx1"))) with true. cbv iota.
  rewrite (proj2 (Z.ltb_ge _ _)) by lia.
  rewrite (bind_ret _ _ _ _ _ (read_run a (p + 8) d r (zlen d) ltac:(lia) Hr eq_refl)).
  set (a1 := a <| n_idx := zlen d ÷ 16 |> <| idx := Some (slices d (Z.to_nat (zlen d ÷ 16))) |>).
  rewrite (bind_ret _ _ _ () (at_pos a1 (p + 8 + zlen d))) by done. by rewrite Z.eqb_refl.
Qed.

(** Over the frames and sounds of a recording. *)
Lemma scan_items its fuel hd p r : Forall item_ok its -> 0 <= p -> from (bytes_of a) p = body its ++ r -> p + zlen (body its) < 2 ^ 31 ->
  scan_chunks (length its + fuel) hd (at_pos a p) = scan_chunks fuel hd (at_pos a (p + zlen (body its))).
Proof.
  intros Hok. revert p. induction Hok as [|it its Hit _ IH]; intros p Hp Hf Hsmall; [by rewrite Z.add_0_r|].
  change (body (it :: its)) with (chunk_bytes it ++ body its) in *. rewrite <- app_assoc in Hf. rewrite length_app in Hsmall.
  pose proof (chunk_length it Hit) as Hl. destruct Hit as [Hlen Hmem]. pose proof (pad_even_bounds (it_len it)).
  assert (Hc : chunk_at (bytes_of a) p (it_tag it) (it_len it) (it_data it ++ body its ++ r)).
  { split; [done|]. split; [apply tag_length|]. split; [lia|]. rewrite Hf. unfold chunk_bytes, raw_chunk. by rewrite <- !app_assoc. }
  cbn [length Nat.add]. rewrite (scan_skip _ _ _ _ _ _ Hc) by (unfold it_tag; destruct (it_audio it); done || lia).
  replace (p + 8 + PAD_EVEN (it_len it)) with (p + zlen (chunk_bytes it)) by lia.
  rewrite IH; [by rewrite length_app, Nat2Z.inj_add, Z.add_assoc | lia | by eapply from_next | lia].
Qed.
End Scan.

(** ** The bytes of a recording *)

Lemma body_even its : Forall item_ok its -> exists m, zlen (body its) = 2 * m.
Proof.
  induction 1 as [|it its Hit _ [m IH]]; [by exists 0|]. exists (4 + (it_len it + 1) / 2 + m).
  change (body (it :: its)) with (chunk_bytes it ++ body its). rewrite length_app, Nat2Z.inj_add, IH, (chunk_length _ Hit), pad_even. lia.
Qed.

Lemma pad_even_double m : PAD_EVEN (2 * m) = 2 * m.
Proof. rewrite pad_even, (Z.mul_comm 2 m), Z.div_add_l by lia. change (1 / 2) with 0. lia. Qed.

(** What a header gives to the scan: the list of the header, and where the frames begin. *)
Lemma scan_header c movi_len h a fuel r : header_of c movi_len h -> bytes_of a = h ++ r -> 4 <= movi_len -> 2048 + movi_len < 2 ^ 31 ->
  exists w hasIndex ms audio, has_settings c w /\ let hdrl := main_header w hasIndex ms ++ riff_list (video_strl w (10000 * st_rate c)) ++ audio in
    words hdrl /\ (if st_chans c =? 0 then audio = [] else exists strl, audio_strl w = Some strl /\ audio = riff_list strl) /\
    (avi_read 12 (at_pos a 0) = Ret (take 12 h) (at_pos a 12)) /\ is_tag (take 12 h) (lit "RIFF") && is_tag (from (take 12 h) 8) (lit "AVI ") = true /\
    scan_chunks (3 + fuel) None (at_pos a 12) = scan_chunks fuel (Some (concat hdrl)) (at_pos (a <| movi_start := HEADERBYTES |>) (2044 + PAD_EVEN movi_len)).
Proof.
  intros (w & hasIndex & ms & riff_len & audio & junk & Hset & Hw & Hl & Haudio & Hjunk & Hh) Hb Hm Hsmall.
  exists w, hasIndex, ms, audio. split; [done|]. cbv zeta in *. set (hdrl := main_header _ _ _ ++ _) in *.
  assert (Hw' : words hdrl) by exact (Forall_inv_tail Hw). split; [done|]. split; [done|].
  clearbody hdrl. set (k := zlen (lit "hdrl" :: hdrl)) in *. assert (Hk : k <= 100) by (unfold k; lia).
  pose proof (words_length _ Hw') as Hhl. assert (Hkl : k = 1 + zlen hdrl) by (unfold k; cbn [length]; by rewrite Nat2Z.inj_succ, Z.add_1_l).
  unfold header in Hh. cbn [concat] in Hh. change (zlen (lit "hdrl" :: hdrl)) with k in Hh. clearbody k.
  set (r3 := r). set (r2 := lit "LIST" ++ long2str movi_len ++ lit "movi" ++ r3). set (r1 := lit "JUNK" ++ long2str (zlen junk) ++ junk ++ r2).
  assert (H0 : bytes_of a = (lit "RIFF" ++ long2str riff_len ++ lit "AVI ") ++ lit "LIST" ++ long2str (4 * k) ++ lit "hdrl" ++ concat hdrl ++ r1).
  { rewrite Hb, Hh. unfold r1, r2, r3. by rewrite <- !app_assoc. }
  assert (H12 : take 12 h = lit "RIFF" ++ long2str riff_len ++ lit "AVI ") by by rewrite Hh.
  assert (Hat12 : from (bytes_of a) 12 = lit "LIST" ++ long2str (4 * k) ++ lit "hdrl" ++ concat hdrl ++ r1) by by rewrite H0.
  assert (C1 : chunk_at (bytes_of a) 12 (lit "LIST") (4 * k) (lit "hdrl" ++ concat hdrl ++ r1)) by (split; [lia|]; split; [done|]; split; [lia | done]).
  split; [rewrite H12; change 12 with (0 + zlen (lit "RIFF" ++ long2str riff_len ++ lit "AVI ")) at 2; by eapply read_run; [|rewrite from_all; exact H0|]|].
  split; [by rewrite H12|].
  assert (Hpk : PAD_EVEN (4 * k) = 4 * k) by (replace (4 * k) with (2 * (2 * k)) by lia; apply pad_even_double).
  change (3 + fuel)%nat with (S (S (S fuel))). rewrite (scan_hdrl a (S (S fuel)) None 12 (4 * k) _ _ C1) by lia.
  assert (C2 : chunk_at (bytes_of a) (12 + 8 + 4 * k) (lit "JUNK") (zlen junk) (junk ++ r2)).
  { split; [lia|]. split; [done|]. split; [lia|]. pose proof (chunk_rest _ _ _ _ _ C1) as Hr. rewrite app_assoc in Hr.
    eapply from_next; [lia | exact Hr|]. rewrite length_app, Nat2Z.inj_add, Hhl. cbn [length list_ascii_of_string]. lia. }
  assert (Hpj : PAD_EVEN (zlen junk) = zlen junk) by (replace (zlen junk) with (2 * (1004 - 2 * k)) by lia; apply pad_even_double).
  rewrite (scan_skip a _ _ _ _ _ _ C2), Hpj by (done || lia). replace (12 + 8 + 4 * k + 8 + zlen junk) with 2036 by lia.
  assert (C3 : chunk_at (bytes_of a) 2036 (lit "LIST") movi_len (lit "movi" ++ r)).
  { split; [lia|]. split; [done|]. split; [lia|]. replace 2036 with (12 + 8 + 4 * k + 8 + zlen junk) by lia.
    eapply from_next; [lia | exact (chunk_rest _ _ _ _ _ C2) | lia]. }
  pose proof (pad_even_bounds movi_len). by rewrite (scan_movi a _ _ _ _ _ C3) by lia.
Qed.

(** ** The index *)

(** The items with the places of their chunks, the first at [p]. *)
Fixpoint placed (p : Z) (its : list item) : list (Z * item) :=
  match its with [] => [] | it :: its => (p, it) :: placed (p + zlen (chunk_bytes it)) its end.

Definition entry (x : Z * item) : cstr := entry_of x.1 x.2.
Definition place (x : Z * item) : video_index_entry := {| ix_key := it_flags x.2; ix_pos := x.1 + 8; ix_len := it_len x.2 |}.
Definition is_frame (x : Z * item) : bool := negb (it_audio x.2).

(** An item whose key flag is lost. *)
Definition unkeyed (it : item) : item := Build_item (it_audio it) 0 (it_mem it) (it_len it).

Lemma entries_placed p its : entries p its = map entry (placed p its).
Proof. revert p. induction its as [|it its IH]; intros p; [done|]. cbn. by rewrite IH. Qed.

Lemma placed_count p its : length (placed p its) = length its.
Proof. revert p. induction its as [|it its IH]; intros p; cbn; [done|]. by rewrite IH. Qed.

Lemma placed_in p its x : x ∈ placed p its -> exists pre post, its = pre ++ x.2 :: post /\ x.1 = p + zlen (body pre).
Proof.
  revert p. induction its as [|it its IH]; intros p; [by intros ?%elem_of_nil|]. cbn [placed]. intros [-> | Hin]%elem_of_cons.
  - exists [], its. split; [done|]. change (zlen (body [])) with 0. cbn. lia.
  - destruct (IH _ Hin) as (pre & post & -> & Hx). exists (it :: pre), post. split; [done|].
    change (body (it :: pre)) with (chunk_bytes it ++ body pre). rewrite length_app. lia.
Qed.

Lemma slices_concat (l : list cstr) : Forall (fun e => length e = 16%nat) l -> slices (concat l) (length l) = l.
Proof.
  unfold slices. induction 1 as [|e l He Hl IH]; [done|]. cbn [length seq map concat]. f_equal; [cbn [Nat.mul]; by rewrite drop_0, take_app_length'|].
  rewrite <- seq_shift, map_map. rewrite <- IH at 2. apply map_ext. intros k. f_equal. rewrite drop_app_ge by lia. f_equal. lia.
Qed.

Lemma entries_slices p its : slices (concat (entries p its)) (length its) = entries p its.
Proof.
  replace (length its) with (length (entries p its)) by apply entries_length. apply slices_concat. rewrite entries_placed. apply Forall_map, Forall_forall. intros x _. apply entry_length.
Qed.

(** The fields of an entry, when they are numbers of their type. *)
Definition entry_fits (x : Z * item) : Prop := 0 <= x.1 /\ 0 <= it_len x.2 /\ x.1 + 8 + it_len x.2 < 2 ^ 31 /\ 0 <= it_key x.2 < 2 ^ 31.

Lemma index_entry_fields x : entry_fits x ->
  long_at (entry x) 4 = it_flags x.2 /\ ulong_at (entry x) 8 = Some x.1 /\ ulong_at (entry x) 12 = Some (it_len x.2).
Proof.
  intros (Hp & Hl & Hs & Hk). destruct x as [p it]. cbn [fst snd] in *. unfold entry, entry_of, idx_entry. cbn [fst snd].
  rewrite take_ge by (by rewrite tag_length). unfold long_at, ulong_at. cbn [Z.ltb Z.compare].
  assert (Hlast : forall n, str2ulong (long2str n) = Some (u32 n)) by (intros n; rewrite <- (app_nil_r (long2str n)); apply str2ulong_long2str).
  assert (Hu : forall n, 0 <= n < 2 ^ 31 -> u32 n = n) by (intros; unfold u32; apply Z.mod_small; lia).
  split; [|split].
  - rewrite from_app by (by rewrite tag_length). rewrite str2ulong_long2str. cbn [default from_option id].
    unfold it_flags. destruct (it_audio it); [done|]. rewrite Hu by lia. apply i32_small. lia.
  - rewrite app_assoc, from_app by (by rewrite length_app, tag_length). rewrite str2ulong_long2str, Hu by lia. done.
  - rewrite !app_assoc, <- (app_assoc (it_tag it)), from_app by (by rewrite !length_app, tag_length). rewrite Hlast, Hu by lia. done.
Qed.

Lemma entry_is_video x s : is_video (entry x ++ s) (lit "00db") = is_frame x.
Proof. unfold entry, entry_of, is_frame, it_tag. by destruct (it_audio x.2). Qed.

Lemma entry_is_sound x : is_tag (entry x) (lit "01wb") = it_audio x.2.
Proof. unfold entry, entry_of, it_tag. by destruct (it_audio x.2). Qed.

Lemma entry_is_99 x : is_tag (entry x) (lit "99wb") = false.
Proof. unfold entry, entry_of, it_tag. by destruct (it_audio x.2). Qed.

(** A recording of [its], with [r] after them. *)
Record holds (b : cstr) (its : list item) (r : cstr) : Prop := {
  ho_bytes : exists h, b = h ++ body its ++ r /\ zlen h = HEADERBYTES;
  ho_items : Forall item_ok its;
  ho_small : HEADERBYTES + zlen (body its) + zlen r < 2 ^ 31
}.

Lemma holds_item b its r x : holds b its r -> x ∈ placed HEADERBYTES its ->
  exists r', from b x.1 = chunk_bytes x.2 ++ r' /\ item_ok x.2 /\ 0 <= x.1 /\ x.1 + 8 + PAD_EVEN (it_len x.2) + zlen r < 2 ^ 31.
Proof.
  intros [(h & -> & Hh) Hok Hs] (pre & post & -> & Hx)%placed_in. exists (body post ++ r).
  assert (Hit : item_ok x.2) by (apply Forall_app in Hok as [_ Hok]; by apply Forall_inv in Hok).
  rewrite body_app in *. change (body (x.2 :: post)) with (chunk_bytes x.2 ++ body post) in *. unfold HEADERBYTES in *.
  rewrite !length_app in Hs. pose proof (chunk_length _ Hit). split; [|split; [done | lia]].
  rewrite <- !app_assoc, app_assoc. apply from_app. rewrite length_app. lia.
Qed.

Lemma chunk_of_item b p it r : 0 <= p -> item_ok it -> p + 8 + PAD_EVEN (it_len it) < 2 ^ 31 -> from b p = chunk_bytes it ++ r ->
  chunk_at b p (it_tag it) (it_len it) (it_data it ++ r).
Proof.
  intros Hp [Hl _] Hs Hf. pose proof (pad_even_bounds (it_len it)). split; [done|]. split; [apply tag_length|]. split; [lia|].
  rewrite Hf. unfold chunk_bytes, raw_chunk. by rewrite <- !app_assoc.
Qed.

Lemma placed_frames p its : List.filter is_frame (placed p its) = [] -> videos its = [].
Proof. revert p. induction its as [|it its IH]; intros p; [done|]. cbn. unfold is_frame at 1. cbn [snd]. destruct (it_audio it); [apply IH | done]. Qed.

Lemma find_map {A B} (f : A -> B) (p : B -> bool) (l : list A) : List.find p (map f l) = option_map f (List.find (fun x => p (f x)) l).
Proof. induction l as [|x l IH]; [done|]. cbn. by destruct (p (f x)). Qed.

(** The first frame of an index is where its entry says. *)
Definition first_found (b : cstr) (ixs : list item) : Prop :=
  exists x r, List.find is_frame (placed HEADERBYTES ixs) = Some x /\ entry_fits x /\ chunk_at b x.1 (it_tag x.2) (it_len x.2) r.

Lemma index_type_run a p ixs : first_found (bytes_of a) ixs -> idx a = Some (entries HEADERBYTES ixs) -> video_tag a = lit "00db" ->
  exists q, index_type (at_pos a p) = Ret (inr 1) (at_pos a q).
Proof.
  intros (x & r & Hfind & Hfit & Hc) Hi Ht. unfold index_type. rewrite (bind_ret _ _ (at_pos a p) (at_pos a p) (at_pos a p)) by done.
  change (idx (at_pos a p)) with (idx a). rewrite Hi. change (video_tag (at_pos a p)) with (video_tag a). rewrite Ht, entries_placed, find_map.
  replace (List.find _ _) with (List.find is_frame (placed HEADERBYTES ixs)).
  2: { clear. induction (placed HEADERBYTES ixs) as [|x l IH]; [done|]. cbn [List.find]. by rewrite <- (app_nil_r (entry x)), entry_is_video, IH. }
  rewrite Hfind. cbn [option_map]. destruct (index_entry_fields x Hfit) as (_ & Hpos & Hlen). destruct Hfit as (Hp0 & Hl0 & Hs & _).
  rewrite (bind_access _ _ _ _ Hpos), (bind_access _ _ _ _ Hlen).
  rewrite (i32_small x.1) by lia. rewrite (bind_ret _ _ _ _ _ (lseek_run a p x.1 ltac:(lia))).
  rewrite (bind_ret _ _ _ _ _ (chunk_head _ _ _ _ _ Hc a eq_refl)), head_length by apply tag_length. cbn [negb].
  assert (Hsame : default false (strncaseeq 4 (it_tag x.2 ++ long2str (it_len x.2)) (entry x)) = true).
  { unfold entry, entry_of, it_tag. by destruct (it_audio x.2). }
  assert (Hul : ulong_at (it_tag x.2 ++ long2str (it_len x.2)) 4 = Some (it_len x.2)).
  { unfold ulong_at. cbn [Z.ltb Z.compare]. rewrite from_app by by rewrite tag_length. rewrite <- (app_nil_r (long2str _)), str2ulong_long2str.
    f_equal. unfold u32. apply Z.mod_small. lia. }
  rewrite Hsame, bool_decide_eq_true_2 by done. by eexists.
Qed.

(** The reader with an index. *)
Definition with_index (a : avi_t) (es : list cstr) (n m : Z) : avi_t := a <| idx := Some es |> <| n_idx := n |> <| max_len := m |>.

Lemma add_entry_reader a p tag flags q len es n m : fp_idx a = None -> exists n' m',
  avi_add_index_entry tag flags q len (at_pos (with_index a es n m) p) = Ret 0 (at_pos (with_index a (es ++ [idx_entry tag flags q len]) n' m') p).
Proof.
  intros Hfp. set (e := idx_entry tag flags q len). exists (Z.succ n), (if m <? len then len else m).
  unfold avi_add_index_entry. cbv zeta. fold e.
  rewrite (bind_ret _ _ _ () (at_pos (with_index a (es ++ [e]) n m) p)).
  2: { unfold modify. change (fp_idx (at_pos (with_index a es n m) p)) with (fp_idx a). by rewrite Hfp. }
  done.
Qed.

(** The index of an interrupted recording. *)
Lemma search_run its a fuel p es n m r : Forall item_ok its -> 0 <= p -> from (bytes_of a) p = body its ++ r -> zlen r < 8 ->
  p + zlen (body its) < 2 ^ 31 -> fp_idx a = None ->
  exists n' m' q, search_index (length its + S fuel) (at_pos (with_index a es n m) p) = Ret () (at_pos (with_index a (es ++ entries p (map unkeyed its)) n' m') q).
Proof.
  intros Hok. revert es n m p. induction Hok as [|it its Hit Hits IH]; intros es n m p Hp Hf Hr Hs Hfp.
  - change (body [] ++ r) with r in Hf. destruct (read_short (with_index a es n m) p 8 Hp ltac:(change (bytes_of (with_index a es n m)) with (bytes_of a); by rewrite Hf)) as (d & q & Hrun & Hd).
    exists n, m, q. cbn [length Nat.add search_index]. rewrite (bind_ret _ _ _ _ _ Hrun), (proj2 (Z.eqb_neq _ _)) by lia. cbn [negb map entries]. by rewrite app_nil_r.
  - change (body (it :: its)) with (chunk_bytes it ++ body its) in *. rewrite <- app_assoc in Hf. rewrite length_app in Hs.
    pose proof (chunk_length it Hit) as Hl. pose proof (pad_even_bounds (it_len it)) as Hpad.
    pose proof (chunk_of_item _ p it _ Hp Hit ltac:(lia) Hf) as Hc. destruct Hit as [Hlen Hmem].
    set (a1 := with_index a es n m). cbn [length Nat.add search_index].
    rewrite (bind_ret _ _ _ _ _ (chunk_head _ _ _ _ _ Hc a1 eq_refl)), head_length by apply tag_length. cbn [negb]. rewrite size_of_head_nil by (apply tag_length || lia).
    assert (Hlist : is_tag (it_tag it ++ long2str (it_len it)) (lit "LIST") = false) by (unfold it_tag; by destruct (it_audio it)).
    assert (Hstr : stream_chunk (it_tag it ++ long2str (it_len it)) = true) by (unfold it_tag; by destruct (it_audio it)).
    rewrite Hlist, Hstr. rewrite (bind_ret _ _ _ _ _ (tell_run a1 (p + 8))).
    destruct (add_entry_reader a (p + 8) (it_tag it ++ long2str (it_len it)) 0 (p + 8 - 8) (it_len it) es n m Hfp) as (n1 & m1 & Hadd). fold a1 in Hadd.
    rewrite (bind_ret _ _ _ () (at_pos (with_index a (es ++ [entry_of p (unkeyed it)]) n1 m1) (p + 8))).
    2: { rewrite (bind_ret _ _ _ _ _ Hadd). replace (p + 8 - 8) with p by lia. unfold entry_of, idx_entry.
      rewrite (take_app_le (it_tag it)) by by rewrite tag_length. unfold it_flags, it_tag. cbn [unkeyed it_audio it_key it_len]. by destruct (it_audio it). }
    rewrite (bind_ret _ _ _ _ _ (lseek_cur_run _ (p + 8) (i32 (PAD_EVEN (it_len it))) ltac:(rewrite i32_small; lia))).
    rewrite i32_small by lia. replace (p + 8 + PAD_EVEN (it_len it)) with (p + zlen (chunk_bytes it)) by lia.
    destruct (IH (es ++ [entry_of p (unkeyed it)]) n1 m1 (p + zlen (chunk_bytes it))) as (n2 & m2 & q & Hrun);
      [lia | by eapply from_next | done | lia | done|].
    exists n2, m2, q. cbn [map entries]. rewrite Hrun, <- app_assoc. done.
Qed.

(** ** Opening *)

(** A recording that has been opened. *)
Record opened (c : settings) (its : list item) (b : cstr) (a : avi_t) : Prop := {
  op_file : fdes a = Build_file b HEADERBYTES [];
  op_mode : mode a = AVI_MODE_READ;
  op_size : width a = st_width c /\ height a = st_height c /\ fps a = dbl (st_rate c) /\ compressor a = st_compressor c;
  op_chans : a_chans a = st_chans c;
  op_fmt : st_chans c <> 0 -> a_fmt a = st_fmt c mod 2 ^ 16 /\ a_bits a = st_bits c mod 2 ^ 16;
  op_index : video_index a = Some (map place (List.filter is_frame (placed HEADERBYTES its)));
  op_frames : video_frames a = zlen (videos its) /\ video_pos a = 0;
  op_sounds : audio_chunks a = if st_chans c =? 0 then 0 else zlen (sounds its);
  op_video_tag : video_tag a = lit "00db";
  op_audio_tag : audio_tag a = if st_chans c =? 0 then lit "99wb" else lit "01wb"
}.

(** What is known after the header list. *)
Record known (c : settings) (b : cstr) (a : avi_t) : Prop := {
  kn_file : bytes_of a = b /\ f_writes (fdes a) = [];
  kn_mode : mode a = AVI_MODE_READ;
  kn_size : width a = st_width c /\ height a = st_height c /\ fps a = dbl (st_rate c) /\ compressor a = st_compressor c;
  kn_chans : a_chans a = st_chans c;
  kn_fmt : st_chans c <> 0 -> a_fmt a = st_fmt c mod 2 ^ 16 /\ a_bits a = st_bits c mod 2 ^ 16;
  kn_video_tag : video_tag a = lit "00db";
  kn_audio_tag : audio_tag a = if st_chans c =? 0 then lit "99wb" else lit "01wb";
  kn_movi : movi_start a = HEADERBYTES;
  kn_fp : fp_idx a = None
}.

Lemma filter_map {A B} (f : A -> B) (p : B -> bool) (l : list A) : List.filter p (map f l) = map f (List.filter (fun x => p (f x)) l).
Proof. induction l as [|x l IH]; [done|]. cbn. destruct (p (f x)); cbn; by rewrite IH. Qed.

Lemma frames_count p its : length (List.filter is_frame (placed p its)) = length (videos its).
Proof. revert p. induction its as [|it its IH]; intros p; [done|]. cbn. unfold is_frame at 1. cbn [snd]. destruct (it_audio it); cbn; by rewrite IH. Qed.

Lemma sounds_count p its : length (List.filter (fun x => it_audio x.2) (placed p its)) = length (sounds its).
Proof. revert p. induction its as [|it its IH]; intros p; [done|]. cbn. destruct (it_audio it); cbn; by rewrite IH. Qed.

Lemma video_entries its : (forall x, x ∈ placed HEADERBYTES its -> entry_fits x) ->
  map (video_entry 8) (List.filter (fun e => is_video e (lit "00db")) (entries HEADERBYTES its)) = map place (List.filter is_frame (placed HEADERBYTES its)).
Proof.
  intros H. rewrite entries_placed, filter_map, map_map. rewrite (filter_ext _ is_frame) by (intros x; rewrite <- (app_nil_r (entry x)); apply entry_is_video).
  apply map_ext_in. intros x [Hx%list_elem_of_In _]%filter_In. destruct (index_entry_fields x (H x Hx)) as (E1 & E2 & E3). destruct (H x Hx) as (Hp & Hl & Hs & _).
  unfold video_entry, place. rewrite E1. unfold long_at. rewrite E2, E3. cbn [default from_option id]. by rewrite !i32_small by (rewrite ?i32_small; lia).
Qed.

Lemma make_indexes_run c b a its p : known c b a -> idx a = Some (entries HEADERBYTES its) -> videos its <> [] ->
  (forall x, x ∈ placed HEADERBYTES its -> entry_fits x) ->
  exists a', make_indexes 1 (at_pos a p) = Ret 0 a' /\ opened c its b a'.
Proof.
  intros [[Hb Hw] Hm Hsz Hch Hfmt Hvt Hat Hmv _] Hi Hv Hx. unfold make_indexes. rewrite (bind_ret _ _ (at_pos a p) (at_pos a p) (at_pos a p)) by done.
  change (idx (at_pos a p)) with (idx a). rewrite Hi. cbn [default from_option id]. change (video_tag (at_pos a p)) with (video_tag a).
  change (audio_tag (at_pos a p)) with (audio_tag a). change (movi_start (at_pos a p)) with (movi_start a). rewrite Hvt, Hmv.
  set (vs := List.filter (fun e => is_video e _) _). set (sos := List.filter (fun e => is_tag e _) _).
  assert (Hvs : zlen vs = zlen (videos its)).
  { unfold vs. rewrite entries_placed, filter_map, length_map. f_equal. rewrite <- (frames_count HEADERBYTES). f_equal.
    apply filter_ext. intros x. rewrite <- (app_nil_r (entry x)). apply entry_is_video. }
  assert (Hss : zlen sos = if st_chans c =? 0 then 0 else zlen (sounds its)).
  { unfold sos. rewrite Hat, entries_placed, filter_map, length_map. destruct (st_chans c =? 0).
    - rewrite (filter_ext _ (fun _ => false)) by (intros x; apply entry_is_99). clear. induction (placed HEADERBYTES its) as [|x l IH]; [done | exact IH].
    - f_equal. rewrite <- (sounds_count HEADERBYTES). f_equal. apply filter_ext. intros x. apply entry_is_sound. }
  assert (Hidx : map (video_entry 8) vs = map place (List.filter is_frame (placed HEADERBYTES its))) by by apply video_entries.
  assert (Hpos : 0 < zlen (videos its)) by (destruct (videos its); [done | cbn [length]; lia]).
  change (1 =? 1) with true. cbv iota.
  rewrite (proj2 (Z.eqb_neq (zlen vs) 0)) by lia. rewrite Hvs, Hss, Hidx.
  unfold modify, lseek, on_file, modify. change ((HEADERBYTES <? 0) || (2 ^ 31 <=? HEADERBYTES)) with false. cbv iota.
  cbv [mbind M_bind mret M_ret]. eexists. split; [exact eq_refl|].
  split; [|exact Hm | exact Hsz | exact Hch | exact Hfmt | exact eq_refl | exact (conj eq_refl eq_refl) | exact eq_refl | exact Hvt | exact Hat].
  change (Build_file (bytes_of a) HEADERBYTES (f_writes (fdes a)) = Build_file b HEADERBYTES []). by rewrite Hb, Hw.
Qed.

Lemma at_own a : a = at_pos a (f_pos (fdes a)).
Proof. by destruct a as [[]]. Qed.

(** What [AVI_parse_input_file] does when it has the header list. *)
Definition index_part (fuel : nat) : M avi_t Z :=
  found ← index_type;
  match found with
  | inl err => mret err
  | inr idx_type =>
      (if idx_type =? 0 then
         lseek HEADERBYTES ;;
         modify (fun a : avi_t => a <| n_idx := 0 |> <| idx := Some ([] : list cstr) |>) ;;
         search_index fuel
       else mret ()) ;;
      make_indexes (if idx_type =? 0 then 1 else idx_type)
  end.

Definition reader (b : cstr) : avi_t := avi_zero (Build_file b 0 []) AVI_MODE_READ.

(** The steps from the header list on, the chunks scanned with [scanned]. *)
Lemma parse_run getIndex c h r movi_len scanned : settings_ok c -> header_of c movi_len h -> zlen h = HEADERBYTES -> 4 <= movi_len -> 2048 + movi_len < 2 ^ 31 ->
  let b := h ++ r in
  (forall hdrl, exists q, scan_chunks (length b - 1) (Some hdrl) (at_pos ((reader b) <| movi_start := HEADERBYTES |>) (2044 + PAD_EVEN movi_len)) =
    Ret (inr (Some hdrl)) (at_pos scanned q)) -> movi_start scanned = HEADERBYTES ->
  bytes_of scanned = b -> f_writes (fdes scanned) = [] -> mode scanned = AVI_MODE_READ -> a_chans scanned = 0 -> fp_idx scanned = None ->
  exists a, known c b a /\ idx a = idx scanned /\ AVI_parse_input_file getIndex (reader b) = (if getIndex then index_part (2 + length b) (at_pos a HEADERBYTES) else Ret 0 a).
Proof.
  intros Hc Hh Hlen Hm Hms b Hscan Hmovi Hb Hw Hmode Hch Hfp.
  destruct (scan_header c movi_len h (reader b) (length b - 1) r Hh eq_refl Hm Hms) as (w & hasIndex & ms & audio & Hset & Hwords & Haudio & Hread & Htags & Hs).
  set (hdrl := main_header _ _ _ ++ _) in *.
  destruct (Hscan (concat hdrl)) as (q & Hq). 
  assert (Hbl : 2048 <= zlen b) by (unfold b; rewrite length_app; unfold HEADERBYTES in Hlen; lia).
  destruct (hdrl_run c w hasIndex ms audio (at_pos scanned q) (12 * length (concat hdrl) - 6) Hc Hset Hwords Haudio Hch) as (k & a2 & Hk & Hseen & Hp).
  fold hdrl in Hk. replace (8 + (12 * length (concat hdrl) - 6))%nat with (2 + 12 * length (concat hdrl))%nat in Hk.
  2: { pose proof (words_length _ Hwords) as Hl. assert (1 <= length hdrl)%nat by (unfold hdrl; rewrite length_app; cbn [length main_header]; lia). lia. }
  unfold AVI_parse_input_file. change (reader b) with (at_pos (reader b) 0) at 1.
  rewrite (bind_ret _ _ (at_pos (reader b) 0) (at_pos (reader b) 0) (at_pos (reader b) 0)) by done.
  rewrite (bind_ret _ _ _ _ _ Hread). assert (Ht12 : zlen (take 12 h) = 12) by (rewrite length_take; unfold HEADERBYTES in Hlen; lia).
  rewrite Ht12, Htags. change (negb (12 =? 12)) with false. change (negb true) with false. cbv iota zeta.
  change (bytes_of (at_pos (reader b) 0)) with b. replace (3 + (length b - 1))%nat with (2 + length b)%nat in Hs by lia.
  rewrite (bind_ret _ _ _ _ _ (eq_trans Hs Hq)), (bind_ret _ _ _ _ _ Hk), Hseen. change (negb true) with false. cbv iota.
  destruct Hp as [P1 P2 P3 P4 P5 P6 P7 P8 P9 P10 P11 P12 P13].
  assert (Hvs : stream_tag (video_strn a2) (lit "db") = lit "00db") by by rewrite P11.
  set (a3 := a2 <| video_tag := stream_tag (video_strn a2) (lit "db") |>).
  set (a4 := if a_chans a3 =? 0 then a3 <| audio_strn := 99 |> else a3).
  set (a5 := a4 <| audio_tag := stream_tag (audio_strn a4) (lit "wb") |>).
  rewrite (bind_ret _ _ a2 () a3), (bind_ret _ _ a3 () a4), (bind_ret _ _ a4 () a5) by done.
  assert (H4 : a4 = a3 <| audio_strn := (if st_chans c =? 0 then 99 else audio_strn a2) |>).
  { unfold a4. change (a_chans a3) with (a_chans a2). rewrite P12. destruct (st_chans c =? 0); [done|]. unfold a3. by destruct a2. }
  assert (Hm5 : movi_start a5 = HEADERBYTES) by (unfold a5; rewrite H4; change (movi_start a2 = HEADERBYTES); by rewrite P3).
  assert (Hknown : known c b a5).
  { unfold a5. rewrite H4. split.
    - change (fdes a2 = fdes (at_pos scanned q)) in P1. change (bytes_of a2 = b /\ f_writes (fdes a2) = []). by rewrite P1.
    - change (mode a2 = AVI_MODE_READ). by rewrite P2.
    - exact (conj P7 (conj P8 (conj P9 P10))).
    - exact P12.
    - exact (fun H => proj2 (P13 H)).
    - exact Hvs.
    - change (stream_tag (if st_chans c =? 0 then 99 else audio_strn a2) (lit "wb") = if st_chans c =? 0 then lit "99wb" else lit "01wb").
      destruct (Z.eqb_spec (st_chans c) 0) as [H0 | H0]; [done|]. by rewrite (proj1 (P13 H0)).
    - change (movi_start a2 = HEADERBYTES). by rewrite P3.
    - change (fp_idx a2 = None). by rewrite P6. }
  assert (Hi5 : idx a5 = idx scanned) by (unfold a5; rewrite H4; exact P4).
  exists a5. split; [exact Hknown|]. split; [exact Hi5|]. clearbody a5. destruct getIndex; cbn [negb]; [|done].
  rewrite (bind_ret _ _ a5 a5 a5), Hm5 by done. change (HEADERBYTES =? 0) with false. cbv iota.
  rewrite (at_own a5) at 1. by rewrite (bind_ret _ _ _ _ _ (lseek_run a5 (f_pos (fdes a5)) HEADERBYTES ltac:(unfold HEADERBYTES; lia))).
Qed.

(** ** A recording that was closed *)

Lemma items_fit b its r : holds b its r -> forall x, x ∈ placed HEADERBYTES its -> entry_fits x.
Proof.
  intros Hb x Hx. destruct (holds_item _ _ _ _ Hb Hx) as (r' & _ & (Hl & _ & Hk) & Hp & Hs). pose proof (pad_even_bounds (it_len x.2)). unfold entry_fits. lia.
Qed.

Lemma closed_holds h its : zlen h = HEADERBYTES -> Forall item_ok its -> small its -> holds (closed h its) its (index_chunk its).
Proof.
  intros Hh Hok Hs. split; [by exists h | done|]. unfold small in Hs. rewrite index_chunk_length. lia.
Qed.

(** The frames that are found first, the rest as the index says. *)
Lemma open_indexed c its ixs h : settings_ok c -> header_of c (zlen (body its) + 4) h -> zlen h = HEADERBYTES -> Forall item_ok its -> small its ->
  length ixs = length its -> videos ixs <> [] -> (forall x, x ∈ placed HEADERBYTES ixs -> entry_fits x) -> first_found (with_index_of h its ixs) ixs ->
  exists a, AVI_open_input_file (Some (with_index_of h its ixs)) true = Ret (Some a) () /\ opened c ixs (with_index_of h its ixs) a.
Proof.
  intros Hc Hh Hlen Hok Hs Hsame Hv Hfit Hfirst. assert (Hzs : zlen ixs = zlen its) by by rewrite Hsame. destruct (body_even its Hok) as [m Hm].
  assert (Hpad : PAD_EVEN (zlen (body its) + 4) = zlen (body its) + 4) by (rewrite Hm; replace (2 * m + 4) with (2 * (m + 2)) by lia; apply pad_even_double).
  pose proof (entries_text_length HEADERBYTES ixs) as Htl. rewrite Hzs in Htl.
  assert (Hic : index_chunk ixs = lit "idx1" ++ long2str (16 * zlen its) ++ concat (entries HEADERBYTES ixs)) by (unfold index_chunk; by rewrite Hzs).
  assert (Hsl : slices (concat (entries HEADERBYTES ixs)) (length its) = entries HEADERBYTES ixs) by (rewrite <- Hsame; apply entries_slices). set (b := with_index_of h its ixs) in *.
  set (s := (reader b) <| movi_start := HEADERBYTES |> <| n_idx := zlen its |> <| idx := Some (entries HEADERBYTES ixs) |>).
  destruct (parse_run true c h (body its ++ index_chunk ixs) (zlen (body its) + 4) s) as (a & Hk & Hi & Hrun); try done.
  { lia. }
  { unfold small, HEADERBYTES in Hs. lia. }
  { intros hdrl. fold (with_index_of h its ixs). fold b. rewrite Hpad.
    set (a0 := (reader b) <| movi_start := HEADERBYTES |>).
    assert (Hfuel : exists f, (length b - 1)%nat = S (S f)).
    { exists (length b - 3)%nat. unfold b, with_index_of. rewrite !length_app. unfold HEADERBYTES in Hlen. lia. }
    destruct Hfuel as [f ->].
    assert (Hci : chunk_at (bytes_of a0) (2044 + (zlen (body its) + 4)) (lit "idx1") (zlen (concat (entries HEADERBYTES ixs))) (concat (entries HEADERBYTES ixs) ++ [])).
    { split; [lia|]. split; [done|]. split; [unfold small, HEADERBYTES in Hs; rewrite Htl; lia|]. rewrite app_nil_r, Htl, <- Hic.
      change (bytes_of a0) with (h ++ body its ++ index_chunk ixs). rewrite app_assoc. apply from_app. rewrite length_app. unfold HEADERBYTES in Hlen. lia. }
    rewrite (scan_idx a0 _ _ _ _ _ Hci) by (rewrite Htl; replace (16 * zlen its) with (zlen its * 16) by lia; apply pad_even_16).
    assert (Hcount : (16 * zlen its) ÷ 16 = zlen its) by (rewrite (Z.mul_comm 16), Z.quot_mul by lia; done).
    rewrite Htl, Hcount, Nat2Z.id, Hsl. apply scan_end; [lia|].
    change (bytes_of _) with b at 1. rewrite from_beyond; [done|]. unfold b, with_index_of. rewrite !length_app. pose proof (index_chunk_length ixs). unfold HEADERBYTES in Hlen. lia. }
  fold b in Hk, Hrun. destruct (index_type_run a HEADERBYTES ixs) as [q Hq]; [by destruct Hk as [[-> _]] | by rewrite Hi | apply Hk|].
  destruct (make_indexes_run c b a ixs q Hk Hi Hv Hfit) as (a' & Hmk & Hop). exists a'. split; [|done].
  unfold AVI_open_input_file. change (avi_zero _ AVI_MODE_READ) with (reader (h ++ body its ++ index_chunk ixs)). rewrite Hrun. unfold index_part. rewrite (bind_ret _ _ _ _ _ Hq).
  change (1 =? 0) with false. cbv iota. rewrite (bind_ret _ _ (at_pos a q) () (at_pos a q)) by done. by rewrite Hmk.
Qed.

Lemma find_first p its : videos its <> [] -> exists x, List.find is_frame (placed p its) = Some x.
Proof.
  revert p. induction its as [|it its IH]; intros p Hv; [done|]. cbn. unfold is_frame at 1. cbn [snd]. cbn in Hv.
  destruct (it_audio it); [by apply IH | by eexists].
Qed.

Lemma holds_first b its r : holds b its r -> videos its <> [] -> first_found b its.
Proof.
  intros Hb Hv. destruct (find_first HEADERBYTES its Hv) as [x Hfind]. pose proof (find_some _ _ Hfind) as [Hx%list_elem_of_In _].
  destruct (holds_item _ _ _ _ Hb Hx) as (r' & Hf & Hok & Hp & Hs). pose proof (items_fit _ _ _ Hb x Hx) as Hfit.
  exists x, (it_data x.2 ++ r'). split; [done|]. split; [done|]. apply chunk_of_item; [done | done | lia | done].
Qed.

Lemma open_closed c its h : settings_ok c -> header_of c (zlen (body its) + 4) h -> zlen h = HEADERBYTES -> Forall item_ok its -> small its -> videos its <> [] ->
  exists a, AVI_open_input_file (Some (closed h its)) true = Ret (Some a) () /\ opened c its (closed h its) a.
Proof.
  intros Hc Hh Hlen Hok Hs Hv. pose proof (closed_holds h its Hlen Hok Hs) as Hb.
  apply open_indexed; [done | done | done | done | done | done | done | exact (items_fit _ _ _ Hb) | by eapply holds_first].
Qed.

(** ** A recording that was interrupted *)

(** A recording that has only its first header: the writer stopped after the items. *)
Definition interrupted (h : cstr) (its : list item) (r : cstr) : cstr := h ++ body its ++ r.

Lemma videos_unkeyed its : videos (map unkeyed its) = map unkeyed (videos its).
Proof. unfold videos. rewrite filter_map. done. Qed.

Lemma placed_unkeyed p its : placed p (map unkeyed its) = map (fun x => (x.1, unkeyed x.2)) (placed p its).
Proof. revert p. induction its as [|it its IH]; intros p; cbn [map placed]; [done|]. by rewrite IH. Qed.

Lemma sounds_unkeyed its : zlen (sounds (map unkeyed its)) = zlen (sounds its).
Proof. unfold sounds. by rewrite filter_map, length_map. Qed.

Lemma unkeyed_ok its : Forall item_ok its -> Forall item_ok (map unkeyed its).
Proof. intros H. apply Forall_map. eapply Forall_impl; [|exact H]. intros it (Hl & Hm & _). split; [done | split; [done | by vm_compute]]. Qed.

Lemma body_count its : Forall item_ok its -> 8 * zlen its <= zlen (body its).
Proof.
  induction 1 as [|it l Hit _ IH]; [done|]. change (body (it :: l)) with (chunk_bytes it ++ body l). rewrite length_app.
  pose proof (chunk_length _ Hit). destruct Hit as [Hl _]. pose proof (pad_even_bounds (it_len it)). cbn [length]. lia.
Qed.

Lemma parse_interrupted getIndex c its h r : settings_ok c -> header_of c 4 h -> zlen h = HEADERBYTES -> Forall item_ok its -> small its -> zlen r < 8 ->
  let b := interrupted h its r in exists a, known c b a /\ idx a = None /\
    AVI_parse_input_file getIndex (reader b) = (if getIndex then index_part (2 + length b) (at_pos a HEADERBYTES) else Ret 0 a).
Proof.
  intros Hc Hh Hlen Hok Hs Hr b.
  assert (Hbl : zlen b = HEADERBYTES + zlen (body its) + zlen r) by (unfold b, interrupted; rewrite !length_app; lia).
  pose proof (body_count its Hok) as Hcount. set (s := (reader b) <| movi_start := HEADERBYTES |>).
  assert (Hfb : from b HEADERBYTES = body its ++ r) by (apply from_app; lia).
  destruct (parse_run getIndex c h (body its ++ r) 4 s) as (a & Hk & Hi & Hrun); try done.
  { intros hdrl. fold (interrupted h its r). fold b. fold s. change (2044 + PAD_EVEN 4) with HEADERBYTES.
    assert (Hfuel : exists f, (length b - 1)%nat = (length its + S f)%nat).
    { exists (length b - 2 - length its)%nat. unfold HEADERBYTES in Hbl. lia. }
    destruct Hfuel as [f ->]. unfold small in Hs.
    rewrite (scan_items s its _ _ _ r) by (done || lia). apply scan_end; [unfold HEADERBYTES; lia|].
    change (bytes_of s) with b. rewrite from_length by (unfold HEADERBYTES; lia). lia. }
  by exists a.
Qed.

Lemma open_interrupted c its h r : settings_ok c -> header_of c 4 h -> zlen h = HEADERBYTES -> Forall item_ok its -> small its -> zlen r < 8 ->
  videos its <> [] ->
  exists a, AVI_open_input_file (Some (interrupted h its r)) true = Ret (Some a) () /\ opened c (map unkeyed its) (interrupted h its r) a.
Proof.
  intros Hc Hh Hlen Hok Hs Hr Hv. set (b := interrupted h its r).
  assert (Hb : holds b its r) by (split; [by exists h | done | unfold small in Hs; lia]).
  assert (Hbl : zlen b = HEADERBYTES + zlen (body its) + zlen r) by (unfold b, interrupted; rewrite !length_app; lia).
  pose proof (body_count its Hok) as Hcount. assert (Hfb : from b HEADERBYTES = body its ++ r) by (apply from_app; lia).
  destruct (parse_interrupted true c its h r Hc Hh Hlen Hok Hs Hr) as (a & Hk & Hi & Hrun). fold b in Hk, Hrun.
  unfold AVI_open_input_file. change (avi_zero _ AVI_MODE_READ) with (reader b). rewrite Hrun. unfold index_part, index_type.
  rewrite (bind_ret _ _ (at_pos a HEADERBYTES) (inr 0) (at_pos a HEADERBYTES)).
  2: { rewrite (bind_ret _ _ (at_pos a HEADERBYTES) (at_pos a HEADERBYTES) (at_pos a HEADERBYTES)) by done.
    change (idx (at_pos a HEADERBYTES)) with (idx a). by rewrite Hi. }
  change (0 =? 0) with true. cbv iota.
  assert (Hfuel : exists f, (2 + length b)%nat = (length its + S f)%nat).
  { exists (length b + 1 - length its)%nat. unfold HEADERBYTES in Hbl. lia. }
  destruct Hfuel as [f ->].
  destruct (search_run its a f HEADERBYTES [] 0 (max_len a) r) as (n & m & q & Hsr); try done.
  { destruct Hk as [[-> _]]. exact Hfb. }
  { unfold small in Hs. lia. }
  { apply Hk. }
  rewrite (bind_ret _ _ (at_pos a HEADERBYTES) () (at_pos (with_index a (entries HEADERBYTES (map unkeyed its)) n m) q)).
  2: { rewrite (bind_ret _ _ _ _ _ (lseek_run a HEADERBYTES HEADERBYTES ltac:(unfold HEADERBYTES; lia))).
    rewrite (bind_ret _ _ _ () (at_pos (with_index a [] 0 (max_len a)) HEADERBYTES)) by (unfold modify; by destruct a). exact Hsr. }
  destruct (make_indexes_run c b (with_index a (entries HEADERBYTES (map unkeyed its)) n m) (map unkeyed its) q) as (a' & Hmk & Hop).
  { destruct Hk as [K1 K2 K3 K4 K5 K6 K7 K8 K9]. by split. }
  { done. }
  { rewrite videos_unkeyed. by destruct (videos its). }
  { intros x. rewrite placed_unkeyed. intros (y & -> & Hy)%list_elem_of_fmap. destruct (items_fit _ _ _ Hb y Hy) as (F1 & F2 & F3 & _). by split. }
  exists a'. split; [|done]. by rewrite Hmk.
Qed.
