(* ===== verification/AviThms.v ===== *)
(** * Recordings are read back

    What is written to a recording is found in it, frame by frame, after it was closed and
    after it was interrupted. *)

From Stdlib Require Import Ascii String SpecFloat.
From stdpp Require Import gmap strings.
From S2P Require Import Prelude Update Cstring Double Avi AviBytes AviFile AviParse AviOpen.

(** ** The frames one after another *)

Fixpoint read_times (n : nat) (max_vidbuf max_audbuf : Z) : M avi_t (list (Z * cstr)) :=
  match n with
  | O => mret []
  | S n => x ← AVI_read_data max_vidbuf max_audbuf; xs ← read_times n max_vidbuf max_audbuf; mret (x :: xs)
  end.

(** What [AVI_read_data] gives for an item. *)
Definition given (it : item) : Z * cstr := (if it_audio it then 2 else 1, it_data it).

(** A buffer of [max_vidbuf] or [max_audbuf] bytes is enough for the item. *)
Definition fits_buffer (max_vidbuf max_audbuf : Z) (it : item) : Prop := PAD_EVEN (it_len it) <= if it_audio it then max_audbuf else max_vidbuf.

(** And when it may not be enough. *)
Definition given_in (max_vidbuf max_audbuf : Z) (it : item) : Z * cstr :=
  if (if it_audio it then max_audbuf else max_vidbuf) <? PAD_EVEN (it_len it) then (if it_audio it then -2 else -1, []) else given it.

Lemma given_fits max_vidbuf max_audbuf it : fits_buffer max_vidbuf max_audbuf it -> given_in max_vidbuf max_audbuf it = given it.
Proof. intros Hf. unfold given_in, fits_buffer in *. by rewrite (proj2 (Z.ltb_ge _ _)). Qed.

Section Reading.
Context (max_vidbuf max_audbuf : Z).

Lemma read_item c a p it r : mode a = AVI_MODE_READ -> video_tag a = lit "00db" -> audio_tag a = (if st_chans c =? 0 then lit "99wb" else lit "01wb") ->
  (it_audio it = true -> st_chans c <> 0) -> 0 <= p -> item_ok it -> p + 8 + PAD_EVEN (it_len it) < 2 ^ 31 ->
  from (bytes_of a) p = chunk_bytes it ++ r ->
  AVI_read_data max_vidbuf max_audbuf (at_pos a p) = Ret (given_in max_vidbuf max_audbuf it)
    (at_pos (a <| video_pos := (if it_audio it then video_pos a else Z.succ (video_pos a)) |>) (p + zlen (chunk_bytes it))).
Proof.
  intros Hm Hv Ha Hch Hp Hit Hs Hf. pose proof (chunk_of_item _ p it r Hp Hit Hs Hf) as Hc. pose proof (chunk_length it Hit) as Hl.
  pose proof (it_data_length it Hit) as Hd. pose proof (chunk_rest _ _ _ _ _ Hc) as Hr. destruct Hit as [Hlen Hmem]. pose proof (pad_even_bounds (it_len it)) as Hpad.
  unfold AVI_read_data. rewrite (bind_ret _ _ (at_pos a p) (at_pos a p) (at_pos a p)) by done. change (mode (at_pos a p)) with (mode a). rewrite Hm.
  change (AVI_MODE_READ =? AVI_MODE_WRITE) with false. cbv iota. cbn [Nat.add].
  remember (S (length (bytes_of (at_pos a p)))) as fuel eqn:Hfuel. cbn [read_data_loop].
  rewrite (bind_ret _ _ (at_pos a p) (at_pos a p) (at_pos a p)) by done.
  rewrite (bind_ret _ _ _ _ _ (chunk_head _ _ _ _ _ Hc a eq_refl)), head_length by apply tag_length. cbn [negb].
  rewrite size_of_head_nil by (apply tag_length || lia). change (video_tag (at_pos a p)) with (video_tag a). change (audio_tag (at_pos a p)) with (audio_tag a).
  rewrite Hv, Ha, i32_small by lia.
  assert (Hlist : is_tag (it_tag it ++ long2str (it_len it)) (lit "LIST") = false) by (unfold it_tag; by destruct (it_audio it)). rewrite Hlist. cbv zeta.
  assert (Hread : forall a', fdes a' = fdes a -> avi_read (PAD_EVEN (it_len it)) (at_pos a' (p + 8)) = Ret (it_data it) (at_pos a' (p + zlen (chunk_bytes it)))).
  { intros a' Hf'. rewrite Hl. rewrite Z.add_assoc. eapply read_run; [lia | by rewrite Hf'; exact Hr | done]. }
  assert (Hskip : forall a', lseek_cur (PAD_EVEN (it_len it)) (at_pos a' (p + 8)) = Ret (p + zlen (chunk_bytes it)) (at_pos a' (p + zlen (chunk_bytes it)))).
  { intros a'. rewrite lseek_cur_run by lia. by replace (p + 8 + PAD_EVEN (it_len it)) with (p + zlen (chunk_bytes it)) by lia. }
  unfold given_in, given. destruct (it_audio it) eqn:Hau.
  - assert (Hvid : is_video (it_tag it ++ long2str (it_len it)) (lit "00db") = false) by (unfold it_tag; by rewrite Hau). rewrite Hvid.
    rewrite (proj2 (Z.eqb_neq _ _)) by auto. assert (Haud : is_tag (it_tag it ++ long2str (it_len it)) (lit "01wb") = true) by (unfold it_tag; by rewrite Hau). rewrite Haud.
    replace (a <| video_pos := video_pos a |>) with a by by destruct a.
    destruct (Z.ltb_spec max_audbuf (PAD_EVEN (it_len it))); [by rewrite (bind_ret _ _ _ _ _ (Hskip a))|].
    rewrite (bind_ret _ _ _ _ _ (Hread a eq_refl)), Hd. by rewrite (proj2 (Z.ltb_ge _ _)), Z.eqb_refl by lia.
  - assert (Hvid : is_video (it_tag it ++ long2str (it_len it)) (lit "00db") = true) by (unfold it_tag; by rewrite Hau). rewrite Hvid.
    set (a1 := a <| video_pos := Z.succ (video_pos a) |>). rewrite (bind_ret _ _ (at_pos a (p + 8)) () (at_pos a1 (p + 8))) by done.
    destruct (Z.ltb_spec max_vidbuf (PAD_EVEN (it_len it))); [by rewrite (bind_ret _ _ _ _ _ (Hskip a1))|].
    rewrite (bind_ret _ _ _ _ _ (Hread a1 eq_refl)), Hd. by rewrite (proj2 (Z.ltb_ge _ _)), Z.eqb_refl by lia.
Qed.

(** What comes after the frames and sounds: no chunk, or the index. *)
Definition ends (r : cstr) : Prop := zlen r < 8 \/ exists d, r = lit "idx1" ++ long2str (zlen d) ++ d /\ PAD_EVEN (zlen d) = zlen d.

Lemma read_end c a p r : mode a = AVI_MODE_READ -> video_tag a = lit "00db" -> audio_tag a = (if st_chans c =? 0 then lit "99wb" else lit "01wb") ->
  0 <= p -> from (bytes_of a) p = r -> ends r -> zlen r < 8 \/ p + zlen r < 2 ^ 31 ->
  exists q, AVI_read_data max_vidbuf max_audbuf (at_pos a p) = Ret (0, []) (at_pos a q) /\ p <= q /\ zlen (from (bytes_of a) q) < 8.
Proof.
  intros Hm Hv Ha Hp Hf Hr Hs.
  assert (Hshort : forall f q, p <= q -> zlen (from (bytes_of a) q) < 8 ->
    exists q', read_data_loop (S f) max_vidbuf max_audbuf (at_pos a q) = Ret (0, []) (at_pos a q') /\ p <= q' /\ zlen (from (bytes_of a) q') < 8).
  { intros f q Hq Hl. destruct (read_short a q 8 ltac:(lia) Hl) as (d & q' & Hrun & Hd & Hqq). cbn [read_data_loop].
    rewrite (bind_ret _ _ (at_pos a q) (at_pos a q) (at_pos a q)) by done. rewrite (bind_ret _ _ _ _ _ Hrun), (proj2 (Z.eqb_neq _ _)) by lia.
    exists q'. split; [done|]. rewrite from_length in * by lia. lia. }
  unfold AVI_read_data. rewrite (bind_ret _ _ (at_pos a p) (at_pos a p) (at_pos a p)) by done. change (mode (at_pos a p)) with (mode a). rewrite Hm.
  change (AVI_MODE_READ =? AVI_MODE_WRITE) with false. cbv iota. cbn [Nat.add].
  remember (S (length (bytes_of (at_pos a p)))) as fuel eqn:Hfuel. cbn [read_data_loop].
  destruct Hr as [Hr | (d & Hrd & Hpad)].
  { apply (Hshort fuel p ltac:(lia)). by rewrite Hf. }
  assert (Hl : zlen r = 8 + zlen d) by (rewrite Hrd, !length_app, length_long2str; cbn [length list_ascii_of_string]; lia).
  assert (Hc : chunk_at (bytes_of a) p (lit "idx1") (zlen d) d) by (split; [done|]; split; [done|]; split; [lia | by rewrite Hf]).
  rewrite (bind_ret _ _ (at_pos a p) (at_pos a p) (at_pos a p)) by done.
  rewrite (bind_ret _ _ _ _ _ (chunk_head _ _ _ _ _ Hc a eq_refl)), head_length by done. cbn [negb]. rewrite size_of_head_nil by (done || lia).
  change (video_tag (at_pos a p)) with (video_tag a). change (audio_tag (at_pos a p)) with (audio_tag a). rewrite Hv, Ha, Hpad, i32_small by lia. cbv zeta.
  rewrite is_video_words, !is_tag_words by (done || by destruct (_ =? _)).
  change (default false (strncaseeq 4 (lit "idx1") (lit "LIST"))) with false. change (default false (strncaseeq 3 (lit "idx1") (lit "00db"))) with false.
  replace (default false (strncaseeq 4 (lit "idx1") (if st_chans c =? 0 then lit "99wb" else lit "01wb"))) with false by by destruct (_ =? _). cbv iota.
  rewrite (bind_ret _ _ _ _ _ (lseek_cur_run a (p + 8) (zlen d) ltac:(lia))), (proj2 (Z.ltb_ge _ _)) by lia.
  rewrite Hfuel. apply Hshort; [lia|]. rewrite from_beyond; [done|]. assert (Hfl := from_length (bytes_of a) p Hp). rewrite Hf in Hfl. lia.
Qed.

Lemma read_items c r : ends r -> forall its a p, mode a = AVI_MODE_READ -> video_tag a = lit "00db" -> audio_tag a = (if st_chans c =? 0 then lit "99wb" else lit "01wb") ->
  (st_chans c = 0 -> sounds its = []) -> Forall item_ok its -> Forall (fits_buffer max_vidbuf max_audbuf) its ->
  0 <= p -> p + zlen (body its) + zlen r < 2 ^ 31 -> from (bytes_of a) p = body its ++ r ->
  exists a', read_times (S (length its)) max_vidbuf max_audbuf (at_pos a p) = Ret (map given its ++ [(0, [])]) a'.
Proof.
  intros Hr. induction its as [|it its IH]; intros a p Hm Hv Ha Hch Hok Hfit Hp Hs Hf.
  - destruct (read_end c a p r Hm Hv Ha Hp Hf Hr) as (q & Hrun & _); [change (zlen (body [])) with 0 in Hs; lia|]. exists (at_pos a q). cbn [read_times length]. by rewrite (bind_ret _ _ _ _ _ Hrun).
  - apply Forall_cons_1 in Hok as [Hit Hok]. apply Forall_cons_1 in Hfit as [Hf1 Hfit]. change (body (it :: its)) with (chunk_bytes it ++ body its) in *. rewrite <- app_assoc in Hf. rewrite length_app in Hs.
    pose proof (chunk_length it Hit) as Hl.
    assert (Hsnd : it_audio it = true -> st_chans c <> 0).
    { intros Hau H0. specialize (Hch H0). unfold sounds in Hch. cbn in Hch. by rewrite Hau in Hch. }
    pose proof (read_item c a p it (body its ++ r) Hm Hv Ha Hsnd Hp Hit ltac:(lia) Hf) as Hrun. rewrite given_fits in Hrun by done.
    destruct (IH (a <| video_pos := (if it_audio it then video_pos a else Z.succ (video_pos a)) |>) (p + zlen (chunk_bytes it)) Hm Hv Ha) as (a' & Hrest); [|done | done | lia | lia | by eapply from_next|].
    { intros H0. specialize (Hch H0). unfold sounds in *. cbn in Hch. by destruct (it_audio it). }
    exists a'. change (read_times (S (length (it :: its))) max_vidbuf max_audbuf) with
      (x ← AVI_read_data max_vidbuf max_audbuf; xs ← read_times (S (length its)) max_vidbuf max_audbuf; mret (x :: xs)).
    rewrite (bind_ret _ _ _ _ _ Hrun), (bind_ret _ _ _ _ _ Hrest). done.
Qed.
End Reading.

(** ** From the first call to the last *)

Section Whole.
Context (c : settings) (its : list item) (max_vidbuf max_audbuf : Z).

Lemma opened_reads its' b r a : Forall (fits_buffer max_vidbuf max_audbuf) its -> (st_chans c = 0 -> sounds its = []) ->
  holds b its r -> ends r -> opened c its' b a ->
  exists a', read_times (S (length its)) max_vidbuf max_audbuf a = Ret (map given its ++ [(0, [])]) a'.
Proof.
  intros Hfits Hsounds [(h & Hb & Hh) Hok Hs] Hr [O1 O2 _ _ _ _ _ _ O9 O10].
  destruct (read_items max_vidbuf max_audbuf c r Hr its a HEADERBYTES) as (a' & Hrun); try done.
  { rewrite O1. cbn [f_bytes]. rewrite Hb. by apply from_app. }
  exists a'. rewrite (at_own a), O1. exact Hrun.
Qed.

Lemma index_ends l : ends (index_chunk l).
Proof.
  right. exists (concat (entries HEADERBYTES l)). rewrite entries_text_length. split; [done|].
  replace (16 * zlen l) with (zlen l * 16) by lia. apply pad_even_16.
Qed.
End Whole.

(** A recording that can be written and read: its items are in memory, it stays below
    2 GB, and it has a frame. *)
Record recording_ok (c : settings) (its : list item) : Prop := {
  rc_settings : settings_ok c;
  rc_items : Forall item_ok its;
  rc_keys : Forall key_ok its;
  rc_small : small its;
  rc_frames : videos its <> []
}.

(** C5. A recording is read back: when it was closed, the file has its header, the frames
    and sounds, and 16 bytes of index for each; opening it gives the width, the height, the
    rate of frames, the compressor and the sound's channels that were set, and its format
    and bits modulo 2^16 - not its sampling rate, which the header does not keep -, and an
    index with the place, the length and the key flag of every frame; and reading gives
    every frame and sound, in order and with the padding of odd ones, and then the end. *)
Theorem recording_reads_back c its widx old max_vidbuf max_audbuf : recording_ok c its ->
  Forall (fits_buffer max_vidbuf max_audbuf) its -> (st_chans c = 0 -> sounds its = []) ->
  exists b a, recorded c widx old its true = Some b /\ zlen b = HEADERBYTES + zlen (body its) + 8 + 16 * zlen its /\
    AVI_open_input_file (Some b) true = Ret (Some a) () /\ opened c its b a /\
    exists a', read_times (S (length its)) max_vidbuf max_audbuf a = Ret (map given its ++ [(0, [])]) a'.
Proof.
  intros [Hc Hok Hkeys Hsmall Hv] Hfits Hsounds. assert (Hne : its <> []) by (intros ->; by apply Hv).
  destruct (recorded_closed c widx its Hc Hok Hkeys Hsmall old Hne) as (h & Hh & Hlen & Hrec).
  destruct (open_closed c its h Hc Hh Hlen Hok Hsmall Hv) as (a & Hopen & Hop). exists (closed h its), a. split; [done|]. split; [by apply closed_length|].
  split; [done|]. split; [done|]. apply (opened_reads c its max_vidbuf max_audbuf its (closed h its) (index_chunk its) a); [done | done | by apply closed_holds | apply index_ends | exact Hop].
Qed.

(** C6. A recording that was interrupted opens: a new file to which frames and sounds were
    written, and which was never closed, opens with the settings that a closed one opens
    with and the place and length of every frame, and all of it can be read; but no frame
    is a key frame in its index. *)
Theorem interrupted_recording_opens c its widx old max_vidbuf max_audbuf : recording_ok c its -> zlen old <= HEADERBYTES ->
  Forall (fits_buffer max_vidbuf max_audbuf) its -> (st_chans c = 0 -> sounds its = []) ->
  exists b a, recorded c widx old its false = Some b /\ AVI_open_input_file (Some b) true = Ret (Some a) () /\ opened c (map unkeyed its) b a /\
    exists a', read_times (S (length its)) max_vidbuf max_audbuf a = Ret (map given its ++ [(0, [])]) a'.
Proof.
  intros [Hc Hok Hkeys Hsmall Hv] Hold Hfits Hsounds. destruct (recorded_interrupted c widx its Hc Hok Hkeys Hsmall old Hold) as (h & Hh & Hlen & Hrec).
  destruct (open_interrupted c its h [] Hc Hh Hlen Hok Hsmall ltac:(done) Hv) as (a & Hopen & Hop). exists (h ++ body its ++ []), a. split; [done|].
  split; [done|]. split; [done|]. apply (opened_reads c its max_vidbuf max_audbuf (map unkeyed its) (h ++ body its ++ []) [] a); [done | done | | by left | exact Hop].
  split; [by exists h | done | unfold small in Hsmall; cbn [length]; lia].
Qed.

(** ** A concrete recording *)

(** Three frames with a sound after the second, one frame a second. *)
Definition example_settings : settings := Build_settings 352 288 1 (lit "divx") 1 8000 8 7.
Definition example_item (audio : bool) (n : Z) : item := Build_item audio (if n =? 0 then 16 else 0) [chr n; chr (n + 1)] 1.
Definition example_items (first : Z) : list item :=
  [example_item false first; example_item false (first + 1); example_item true 7; example_item false (first + 2)].

Lemma example_recording_ok first : 0 <= first <= 20 -> recording_ok example_settings (example_items first).
Proof.
  intros Hf. split.
  - split; [cbn; lia | cbn; lia | cbn; lia | by split | cbn; lia].
  - assert (Hit : forall audio n, item_ok (example_item audio n)).
    { intros audio n. split; [cbn; lia|]. split; [by vm_compute|]. cbn. destruct (n =? 0); lia. }
    repeat (constructor; [apply Hit|]). constructor.
  - assert (Hkey : forall audio n, key_ok (example_item audio n)) by (intros audio n; unfold key_ok; cbn; destruct (n =? 0); auto).
    repeat (constructor; [apply Hkey|]). constructor.
  - by vm_compute.
  - done.
Qed.

Lemma example_fits first : 0 <= first <= 20 -> Forall (fits_buffer 2 2) (example_items first).
Proof. intros _. repeat (constructor; [by vm_compute|]). constructor. Qed.

Lemma recording_reads_back_witness : exists b a a', recorded example_settings true [] (example_items 0) true = Some b /\ zlen b = 2160 /\
  AVI_open_input_file (Some b) true = Ret (Some a) () /\ video_frames a = 3 /\
  read_times 5 2 2 a = Ret [(1, [chr 0; chr 1]); (1, [chr 1; chr 2]); (2, [chr 7; chr 8]); (1, [chr 2; chr 3]); (0, [])] a'.
Proof.
  destruct (recording_reads_back example_settings (example_items 0) true [] 2 2 (example_recording_ok 0 ltac:(lia)) (example_fits 0 ltac:(lia)) ltac:(discriminate))
    as (b & a & Hb & Hlen & Hopen & Hop & a' & Hread).
  exists b, a, a'. split; [exact Hb|]. split; [exact Hlen|]. split; [exact Hopen|]. split; [exact (proj1 (op_frames _ _ _ _ Hop)) | exact Hread].
Defined.

Lemma interrupted_recording_opens_witness : exists b a a', recorded example_settings true [] (example_items 0) false = Some b /\
  AVI_open_input_file (Some b) true = Ret (Some a) () /\
  video_index a = Some [Build_video_index_entry 0 2056 1; Build_video_index_entry 0 2066 1; Build_video_index_entry 0 2086 1] /\
  read_times 5 2 2 a = Ret [(1, [chr 0; chr 1]); (1, [chr 1; chr 2]); (2, [chr 7; chr 8]); (1, [chr 2; chr 3]); (0, [])] a'.
Proof.
  destruct (interrupted_recording_opens example_settings (example_items 0) true [] 2 2 (example_recording_ok 0 ltac:(lia)) ltac:(discriminate)
    (example_fits 0 ltac:(lia)) ltac:(discriminate)) as (b & a & Hb & Hopen & Hop & a' & Hread).
  exists b, a, a'. split; [exact Hb|]. split; [exact Hopen|]. split; [|exact Hread]. rewrite (op_index _ _ _ _ Hop). vm_compute. reflexivity.
Defined.
