(* ===== verification/AviWriter.v ===== *)
(** * The writer's state

    What holds of an open recording after any calls, when the writes are cut short; where
    the limit of a file's size is; and what an error in the middle of a write does. *)

From Stdlib Require Import Ascii String SpecFloat.
From stdpp Require Import gmap strings.
From S2P Require Import Prelude Update Cstring Double Avi AviBytes AviFile AviThms.

(** ** Calls on a recording *)

Inductive write_op := Op_frame (data : cstr) (len : Z) (key : bool) | Op_sound (data : cstr) (len : Z) | Op_dup.

Definition run_op (o : write_op) : M avi_t Z :=
  match o with
  | Op_frame data len key => AVI_write_frame data len key
  | Op_sound data len => AVI_write_audio data len
  | Op_dup => AVI_dup_frame
  end.
Fixpoint run_ops (os : list write_op) : M avi_t (list Z) :=
  match os with [] => mret [] | o :: os => r ← run_op o; rs ← run_ops os; mret (r :: rs) end.

Definition op_ok (o : write_op) : Prop :=
  match o with Op_frame data len _ | Op_sound data len => 0 <= len /\ PAD_EVEN len <= zlen data | Op_dup => True end.
(** What a call may add to the file and to its index. *)
Definition op_size (o : write_op) : Z :=
  match o with Op_frame _ len _ | Op_sound _ len => 8 + PAD_EVEN len | Op_dup => 0 end.
Fixpoint ops_size (os : list write_op) : Z := match os with [] => 0 | o :: os => op_size o + 16 + ops_size os end.

(** The descriptor is where the file's length says, all of the file up to there is
    written, the index has its entries, and every frame has one. *)
Record well_formed (a : avi_t) : Prop := {
  wf_mode : mode a = AVI_MODE_WRITE;
  wf_at : f_pos (fdes a) = pos a;
  wf_pos : HEADERBYTES <= pos a <= zlen (bytes_of a);
  wf_index : zlen (index_text a) = 16 * n_idx a;
  wf_frames : 0 <= video_frames a <= n_idx a
}.

(** ** Writes that are cut short *)

Lemma overwrite_length (b d : cstr) p : 0 <= p <= zlen b -> zlen (overwrite b d p) = Z.max (zlen b) (p + zlen d).
Proof.
  intros Hp. unfold overwrite. replace (Z.to_nat p - length b)%nat with 0%nat by lia. cbn [replicate]. rewrite app_nil_r.
  rewrite !length_app, length_take, length_drop. lia.
Qed.

(** What [write] can return when it does not fail. *)
Definition counts (ws : list Z) : Prop := Forall (fun n => 0 <= n < 2 ^ 31) ws.
Definition file_ok (f : file) : Prop := counts (f_writes f) /\ 0 <= f_pos f <= zlen (f_bytes f).

Lemma put_bytes_ok d f : 0 <= f_pos f <= zlen (f_bytes f) ->
  0 <= f_pos (put_bytes d f) <= zlen (f_bytes (put_bytes d f)) /\ f_pos (put_bytes d f) = f_pos f + zlen d /\ zlen (f_bytes f) <= zlen (f_bytes (put_bytes d f)).
Proof.
  intros Hf. pose proof (overwrite_length (f_bytes f) d (f_pos f) Hf) as Hl. change (f_bytes (put_bytes d f)) with (overwrite (f_bytes f) d (f_pos f)).
  change (f_pos (put_bytes d f)) with (f_pos f + zlen d). lia.
Qed.

(** A write that gives the whole length has written it, where the kernel lets all of it in. *)
Lemma write_loop_ok ws : forall b r f, counts ws -> 0 <= r -> 0 <= f_pos f <= zlen (f_bytes f) -> zlen b < 2 ^ 31 ->
  f_pos f + (zlen b - r) < 2 ^ 31 ->
  let '(n, f') := write_loop ws b r f in
  file_ok f' /\ zlen (f_bytes f) <= zlen (f_bytes f') /\ (r <= zlen b -> n = zlen b -> f_pos f' = f_pos f + (zlen b - r)).
Proof.
  induction ws as [|n ws IH]; intros b r f Hws Hr Hf Hb Hfit; cbn [write_loop].
  - destruct (Z.leb_spec (zlen b) r) as [Hle | Hlt]; [split; [by split|]; split; cbn; lia|].
    rewrite (proj2 (Z.leb_le _ _)) by (unfold MAX_NON_LFS; lia).
    destruct (put_bytes_ok (from b r) f Hf) as (Hp & Hpos & Hl). rewrite from_length in Hpos by done.
    split; [split; [constructor | exact Hp]|]. split; [exact Hl|]. intros _ _. cbn. change (f_pos (put_bytes (from b r) f) = f_pos f + (zlen b - r)). lia.
  - apply Forall_cons_1 in Hws as [Hn Hws]. destruct (Z.leb_spec (zlen b) r) as [Hle | Hlt].
    { split; [split; [by constructor | done]|]. split; cbn; lia. }
    assert (Hg : granted f n = Z.min n (MAX_NON_LFS - f_pos f)).
    { unfold granted. by rewrite (proj2 (Z.ltb_ge n 0)), (proj2 (Z.leb_gt _ _)) by (unfold MAX_NON_LFS; lia). }
    assert (Hm : 0 <= granted f n < 2 ^ 31) by (rewrite Hg; unfold MAX_NON_LFS; lia).
    set (m := granted f n) in *. clearbody m. rewrite (proj2 (Z.ltb_ge m 0)) by lia. set (f1 := put_bytes _ f).
    destruct (put_bytes_ok (take (Z.to_nat m) (from b r)) f Hf) as (Hp & Hpos & Hl). fold f1 in Hp, Hpos, Hl.
    rewrite length_take in Hpos. pose proof (from_length b r Hr) as Hfl.
    unfold u32. rewrite (Z.mod_small (r + m)) by lia. specialize (IH b (r + m) f1 Hws ltac:(lia) Hp Hb ltac:(lia)).
    destruct (write_loop ws b (r + m) f1) as [k f'] eqn:Hloop. destruct IH as (Hok & Hlen & Hexact). split; [done|]. split; [lia|]. intros _ Hk.
    destruct (Z.le_gt_cases (r + m) (zlen b)) as [Hle | Hgt]; [rewrite (Hexact Hle Hk); lia|].
    exfalso. destruct ws as [|n' ws]; cbn [write_loop] in Hloop; rewrite (proj2 (Z.leb_le _ _)) in Hloop by lia; injection Hloop as <- _; lia.
Qed.

(** The writer's file in order. *)
Definition open_ok (a : avi_t) : Prop := file_ok (fdes a).

Lemma avi_write_ok b a : open_ok a -> f_pos (fdes a) + zlen b < 2 ^ 31 -> exists n f, avi_write b a = Ret n (a <| fdes := f |>) /\ file_ok f /\
  zlen (bytes_of a) <= zlen (f_bytes f) /\ (n = zlen b -> f_pos f = f_pos (fdes a) + zlen b).
Proof.
  intros [Hws Hf] Hb. pose proof (write_loop_ok (f_writes (fdes a)) b 0 (fdes a) Hws ltac:(lia) Hf ltac:(lia) ltac:(lia)) as H.
  unfold avi_write. rewrite (bind_ret _ _ a a a) by done. destruct (write_loop _ b 0 (fdes a)) as [n f]. destruct H as (Hok & Hl & Hn).
  exists n, f. split; [done|]. split; [done|]. split; [done|]. intros He. rewrite Hn; [lia | lia | done].
Qed.

(** A chunk's data, where there is memory for its padding. *)
Lemma whole_data (data : cstr) len : 0 <= PAD_EVEN len <= zlen data -> bytes_at data 0 (PAD_EVEN len) = Some (take (Z.to_nat (PAD_EVEN len)) data).
Proof. intros H. unfold bytes_at. change (0 <? 0) with false. cbn [orb]. by rewrite (proj2 (Z.ltb_ge _ _)) by lia. Qed.

(** A chunk is added whole, or the descriptor is put back. *)
Lemma add_chunk_ok tag data len a : length tag = 4%nat -> 0 <= len -> PAD_EVEN len <= zlen data -> open_ok a -> f_pos (fdes a) = pos a ->
  0 <= pos a -> pos a + 16 + PAD_EVEN len < 2 ^ 31 ->
  exists n f p, avi_add_chunk tag data len a = Ret n (a <| fdes := f |> <| pos := p |>) /\
    file_ok f /\ f_pos f = p /\ zlen (bytes_of a) <= zlen (f_bytes f) /\ (n = 0 /\ p = pos a + 8 + PAD_EVEN len \/ n = -1 /\ p = pos a).
Proof.
  intros Ht Hlen Hmem Hok Hat Hp0 Hs. pose proof (pad_even_bounds len) as Hpad. unfold avi_add_chunk. rewrite (bind_ret _ _ a a a) by done. cbv zeta.
  assert (Hback : forall f, file_ok f -> zlen (bytes_of a) <= zlen (f_bytes f) -> exists f',
    (lseek (pos a) ;; mret (-1)) (a <| fdes := f |>) = Ret (-1) (a <| fdes := f' |> <| pos := pos a |>) /\ file_ok f' /\ f_pos f' = pos a /\ zlen (bytes_of a) <= zlen (f_bytes f')).
  { intros f [Hws Hf] Hl. exists (f <| f_pos := pos a |>). split; [|split; [split; [exact Hws | cbn; destruct Hok as [_ Hin]; rewrite Hat in Hin; lia] | by split]].
    rewrite (bind_ret _ _ _ (pos a) (a <| fdes := f <| f_pos := pos a |> |>)).
    - by destruct a.
    - unfold lseek. by rewrite (proj2 (Z.ltb_ge _ _)), (proj2 (Z.leb_gt _ _)) by lia. }
  assert (H8 : zlen (tag ++ long2str len) = 8) by (rewrite length_app, length_long2str; lia).
  destruct (avi_write_ok (tag ++ long2str len) a Hok ltac:(lia)) as (n1 & f1 & Hw1 & Hok1 & Hl1 & Hn1). rewrite (bind_ret _ _ _ _ _ Hw1).
  set (d := take (Z.to_nat (PAD_EVEN len)) data). assert (Hd : zlen d = PAD_EVEN len) by (unfold d; rewrite length_take; lia).
  pose proof (whole_data data len ltac:(lia)) as Hdata. fold d in Hdata.
  destruct (Z.eqb_spec n1 8) as [-> | Hne]; cbn [negb].
  2: { destruct (Hback f1 Hok1 Hl1) as (f' & Hrun & Hf' & Hp' & Hl'). exists (-1), f', (pos a). split; [exact Hrun|]. split; [done|]. split; [done|]. split; [done|]. by right. }
  rewrite (bind_access _ _ _ _ Hdata). set (a1 := a <| fdes := f1 |>).
  destruct (avi_write_ok d a1 Hok1 ltac:(change (fdes a1) with f1; rewrite Hn1; lia)) as (n2 & f2 & Hw2 & Hok2 & Hl2 & Hn2). rewrite (bind_ret _ _ _ _ _ Hw2). change (bytes_of a1) with (f_bytes f1) in Hl2.
  destruct (Z.eqb_spec n2 (PAD_EVEN len)) as [-> | Hne]; cbn [negb].
  - exists 0, f2, (i32 (pos a + 8 + PAD_EVEN len)). split; [by destruct a|]. rewrite i32_small by lia. split; [done|].
    change (f_pos (fdes a1)) with (f_pos f1) in Hn2. split; [rewrite Hn2, Hn1 by lia; lia|]. split; [lia|]. left. lia.
  - destruct (Hback f2 Hok2 ltac:(lia)) as (f' & Hrun & Hf' & Hp' & Hl'). exists (-1), f', (pos a). split; [exact Hrun|]. split; [done|]. split; [done|]. split; [done|]. by right.
Qed.

(** A frame or sound: its entry is in the index even when its chunk could not be written. *)
Lemma write_data_ok data len audio key a : well_formed a -> open_ok a -> 0 <= len -> PAD_EVEN len <= zlen data ->
  pos a + 8 + PAD_EVEN len + 16 * n_idx a + 32 < 2 ^ 31 ->
  exists n a', avi_write_data data len audio key a = Ret n a' /\ open_ok a' /\ mode a' = AVI_MODE_WRITE /\ f_pos (fdes a') = pos a' /\
    HEADERBYTES <= pos a' <= zlen (bytes_of a') /\ zlen (index_text a') = 16 * n_idx a' /\ n_idx a' = n_idx a + 1 /\ video_frames a' = video_frames a /\
    (n = 0 /\ pos a' = pos a + 8 + PAD_EVEN len \/ n = -1 /\ pos a' = pos a).
Proof.
  intros [Hm Hat Hp Hi Hfr] Hok Hlen Hmem Hs. pose proof (pad_even_bounds len) as Hpad. unfold HEADERBYTES in *.
  unfold avi_write_data. rewrite (bind_ret _ _ a a a) by done. rewrite (proj2 (Z.ltb_ge _ _)) by (rewrite u32_small; unfold AVI_MAX_LEN, HEADERBYTES; lia).
  set (tag := if audio then lit "01wb" else lit "00dc"). set (flags := if audio then 0 else if key then 16 else 0).
  assert (Hentry : (if audio then avi_add_index_entry (lit "01wb") 0 (pos a) len else avi_add_index_entry (lit "00dc") (if key then 16 else 0) (pos a) len) =
    avi_add_index_entry tag flags (pos a) len) by (unfold tag, flags; by destruct audio).
  assert (Hchunk : (if audio then avi_add_chunk (lit "01wb") data len else avi_add_chunk (lit "00dc") data len) = avi_add_chunk tag data len) by (unfold tag; by destruct audio).
  assert (Htag : length tag = 4%nat) by (unfold tag; by destruct audio).
  rewrite Hentry, Hchunk. destruct (add_entry_run tag flags (pos a) len a) as (a1 & He & Hm1 & Hf1 & Hp1 & Hi1 & Hn1 & Hv1 & _).
  rewrite (bind_ret _ _ _ _ _ He).
  destruct (add_chunk_ok tag data len a1 Htag Hlen Hmem ltac:(unfold open_ok; by rewrite Hf1) ltac:(by rewrite Hf1, Hp1) ltac:(lia) ltac:(lia))
    as (n & f & p & Hrun & Hfok & Hfp & Hfl & Hcase). rewrite (bind_ret _ _ _ _ _ Hrun).
  exists (if n =? 0 then 0 else -1), (a1 <| fdes := f |> <| pos := p |>). rewrite Hf1 in Hfl. rewrite Hp1 in Hcase.
  split; [done|]. split; [exact Hfok|]. split; [exact (eq_trans Hm1 Hm)|]. split; [exact Hfp|].
  split; [change (2048 <= p <= zlen (f_bytes f)); destruct Hcase as [[_ ->] | [_ ->]]; [|lia]; destruct Hfok as [_ Hin]; rewrite Hfp in Hin; lia|].
  split; [change (zlen (index_text a1) = 16 * n_idx a1); rewrite Hi1, Hn1, length_app, Nat2Z.inj_add, Hi|].
  - unfold idx_entry. rewrite !length_app, !length_long2str, length_take, Htag. change (Z.of_nat (4 `min` 4 + (4 + (4 + 4)))) with 16. lia.
  - split; [exact Hn1|]. split; [exact Hv1|]. destruct Hcase as [[-> ->] | [-> ->]]; [by left | by right].
Qed.

Lemma run_op_ok o a : well_formed a -> open_ok a -> op_ok o -> pos a + op_size o + 16 * n_idx a + 32 < 2 ^ 31 ->
  exists r a', run_op o a = Ret r a' /\ well_formed a' /\ open_ok a' /\ pos a' <= pos a + op_size o /\ n_idx a' <= n_idx a + 1.
Proof.
  intros Hw Hok Ho Hs. pose proof Hw as [Hm Hat Hp Hi Hfr]. destruct o as [data len key | data len |]; cbn [run_op op_ok op_size] in *.
  - pose proof (pad_even_bounds len). unfold AVI_write_frame. rewrite (bind_ret _ _ a a a) by done. rewrite Hm. change (AVI_MODE_WRITE =? AVI_MODE_READ) with false. cbv iota.
    destruct (write_data_ok data len false key a Hw Hok (proj1 Ho) (proj2 Ho) ltac:(lia)) as (n & a1 & Hrun & Hok1 & Hm1 & Hat1 & Hp1 & Hi1 & Hn1 & Hv1 & Hcase).
    rewrite (bind_ret _ _ _ _ _ Hrun). destruct Hcase as [[-> Hpos] | [-> Hpos]]; cbn [Z.eqb negb].
    + eexists _, _. split; [done|]. split; [|split; [exact Hok1 | cbn; lia]]. split; [exact Hm1 | exact Hat1 | exact Hp1 | exact Hi1 | cbn; lia].
    + eexists _, _. split; [done|]. split; [|split; [exact Hok1 | lia]]. split; [exact Hm1 | exact Hat1 | exact Hp1 | exact Hi1 | lia].
  - pose proof (pad_even_bounds len). unfold AVI_write_audio. rewrite (bind_ret _ _ a a a) by done. rewrite Hm. change (AVI_MODE_WRITE =? AVI_MODE_READ) with false. cbv iota.
    destruct (write_data_ok data len true false a Hw Hok (proj1 Ho) (proj2 Ho) ltac:(lia)) as (n & a1 & Hrun & Hok1 & Hm1 & Hat1 & Hp1 & Hi1 & Hn1 & Hv1 & Hcase).
    rewrite (bind_ret _ _ _ _ _ Hrun). destruct Hcase as [[-> Hpos] | [-> Hpos]]; cbn [Z.eqb negb].
    + eexists _, _. split; [done|]. split; [|split; [exact Hok1 | cbn; lia]]. split; [exact Hm1 | exact Hat1 | exact Hp1 | exact Hi1 | cbn; lia].
    + eexists _, _. split; [done|]. split; [|split; [exact Hok1 | lia]]. split; [exact Hm1 | exact Hat1 | exact Hp1 | exact Hi1 | lia].
  - unfold AVI_dup_frame. rewrite (bind_ret _ _ a a a) by done. rewrite Hm. change (AVI_MODE_WRITE =? AVI_MODE_READ) with false. cbv iota.
    destruct (last_pos a =? 0); [eexists _, _; split; [done|]; split; [done|]; split; [done | lia]|].
    destruct (add_entry_run (lit "00dc") 16 (last_pos a) (last_len a) a) as (a1 & He & Hm1 & Hf1 & Hp1 & Hi1 & Hn1 & Hv1 & _).
    rewrite (bind_ret _ _ _ _ _ He). eexists _, _. split; [done|]. split; [|split; [unfold open_ok in *; cbn; by rewrite Hf1 | cbn; lia]].
    split; [exact (eq_trans Hm1 Hm) | cbn; by rewrite Hf1, Hp1 | cbn; by rewrite Hf1, Hp1 | | cbn; lia].
    change (zlen (index_text a1) = 16 * n_idx a1). rewrite Hi1, Hn1, length_app, Nat2Z.inj_add, Hi. cbn. lia.
Qed.

Lemma ops_size_nonneg os : Forall op_ok os -> 0 <= ops_size os.
Proof.
  induction 1 as [|o os Ho _ IH]; cbn [ops_size]; [lia|]. destruct o as [d l k | d l |]; cbn [op_ok op_size] in *; try lia; pose proof (pad_even_bounds l); lia.
Qed.

Lemma run_ops_ok os : forall a, well_formed a -> open_ok a -> Forall op_ok os -> pos a + 16 * n_idx a + ops_size os + 32 < 2 ^ 31 ->
  exists rs a', run_ops os a = Ret rs a' /\ well_formed a' /\ open_ok a' /\ length rs = length os.
Proof.
  induction os as [|o os IH]; intros a Hw Hok Hos Hs; [by exists [], a|]. apply Forall_cons_1 in Hos as [Ho Hos]. cbn [ops_size] in Hs.
  pose proof (ops_size_nonneg os Hos). destruct (run_op_ok o a Hw Hok Ho ltac:(lia)) as (r & a1 & Hrun & Hw1 & Hok1 & Hp1 & Hn1).
  destruct (IH a1 Hw1 Hok1 Hos ltac:(lia)) as (rs & a2 & Hrun2 & Hw2 & Hok2 & Hlen). exists (r :: rs), a2.
  cbn [run_ops]. rewrite (bind_ret _ _ _ _ _ Hrun), (bind_ret _ _ _ _ _ Hrun2). cbn [length]. auto.
Qed.

Lemma begun_well_formed h c tl a : writing h [] c tl a -> well_formed a /\ forall ws, counts ws ->
  well_formed (a <| fdes ::= fun f => f <| f_writes := ws |> |>) /\ open_ok (a <| fdes ::= fun f => f <| f_writes := ws |> |>).
Proof.
  intros [Hm Hf Hh Hp Hi Hn Hfr _ _]. change (zlen (body [])) with 0 in *. rewrite Z.add_0_r in *.
  assert (Hlen : HEADERBYTES <= zlen (h ++ body [] ++ tl)) by (rewrite length_app; lia).
  assert (Hb : bytes_of a = h ++ body [] ++ tl /\ f_pos (fdes a) = HEADERBYTES) by by rewrite Hf. destruct Hb as [Hb Hat].
  assert (Hix : zlen (index_text a) = 16 * n_idx a) by by rewrite Hi, Hn.
  assert (Hvf : 0 <= video_frames a <= n_idx a) by by rewrite Hfr, Hn.
  split; [|intros ws Hws; split; [|split; [exact Hws|]]].
  - split; [done | by rewrite Hat, Hp | rewrite Hb, Hp; lia | done | done].
  - split; [exact Hm | exact (eq_trans Hat (eq_sym Hp)) | change (HEADERBYTES <= pos a <= zlen (bytes_of a)); rewrite Hb, Hp; lia | exact Hix | exact Hvf].
  - change (0 <= f_pos (fdes a) <= zlen (bytes_of a)). rewrite Hb, Hat. unfold HEADERBYTES in *. lia.
Qed.

(** C27. The writer's state stays in order: after the recording was begun, whatever frames
    and sounds are written, frames repeated and writes of the kernel cut short, the
    descriptor is at the position that the state gives, the file reaches that far, the
    index has 16 bytes for each entry it counts, and there is an entry for every frame. *)
Theorem writer_stays_well_formed c old widx ws os : settings_ok c -> counts ws -> Forall op_ok os -> HEADERBYTES + ops_size os + 32 < 2 ^ 31 ->
  exists a0 a rs a', AVI_open_output_file (Some old) [] widx = Ret (Some a0) () /\ begin c a0 = Ret 0 a /\
    run_ops os (a <| fdes ::= fun f => f <| f_writes := ws |> |>) = Ret rs a' /\ length rs = length os /\ well_formed a'.
Proof.
  intros Hc Hws Hos Hs. destruct (begin_run c old widx Hc) as (a0 & a & h & Hopen & Hbegin & _ & Hw).
  destruct (begun_well_formed h c _ a Hw) as [_ Hwf]. destruct (Hwf ws Hws) as [Hwf1 Hok1].
  destruct (run_ops_ok os _ Hwf1 Hok1 Hos) as (rs & a' & Hrun & Hwf' & _ & Hlen).
  { change (pos a + 16 * n_idx a + ops_size os + 32 < 2 ^ 31). rewrite (wr_pos _ _ _ _ _ Hw), (wr_n _ _ _ _ _ Hw).
    change (zlen (body [])) with 0. cbn [length]. lia. }
  exists a0, a, rs, a'. auto.
Qed.

(** ** The limit of a file's size *)

Lemma overwrite_keeps (b d : cstr) p : 0 <= p <= zlen b -> take (Z.to_nat p) (overwrite b d p) = take (Z.to_nat p) b.
Proof.
  intros Hp. unfold overwrite. replace (Z.to_nat p - length b)%nat with 0%nat by lia. cbn [replicate]. rewrite app_nil_r.
  by rewrite take_app_le, take_take, Nat.min_id by (rewrite length_take; lia).
Qed.

Lemma overwrite_end (b d : cstr) : overwrite b d (zlen b) = b ++ d.
Proof.
  unfold overwrite. rewrite Nat2Z.id, Nat.sub_diag. cbn [replicate]. by rewrite app_nil_r, take_ge, drop_ge, app_nil_r by lia.
Qed.

(** A write that is not cut short, of bytes that fit, and of bytes that do not: what was
    before them stays. *)
Lemma write_fits b a : f_writes (fdes a) = [] -> 0 <= f_pos (fdes a) <= zlen (bytes_of a) -> f_pos (fdes a) + zlen b < 2 ^ 31 ->
  exists f, avi_write b a = Ret (zlen b) (a <| fdes := f |>) /\ f_writes f = [] /\ f_pos f = f_pos (fdes a) + zlen b /\
    f_bytes f = overwrite (bytes_of a) b (f_pos (fdes a)).
Proof.
  intros Hws Hp Hfit. unfold avi_write. rewrite (bind_ret _ _ a a a) by done. rewrite Hws. cbn [write_loop].
  destruct (Z.leb_spec (zlen b) 0) as [Hz | Hpos].
  - destruct b; [|cbn [length] in Hz; lia]. eexists. split; [done|]. split; [done|]. split; [cbn; lia|]. unfold overwrite.
    cbn [length app]. replace (Z.to_nat (f_pos (fdes a)) - length (bytes_of a))%nat with 0%nat by lia. cbn [replicate]. by rewrite app_nil_r, Nat.add_0_r, take_drop.
  - rewrite (proj2 (Z.leb_le _ _)), from_all by (unfold MAX_NON_LFS; lia). eexists. by split_and!.
Qed.

Lemma write_too_far b a : f_writes (fdes a) = [] -> 0 <= f_pos (fdes a) <= zlen (bytes_of a) -> f_pos (fdes a) < 2 ^ 31 <= f_pos (fdes a) + zlen b ->
  exists f, avi_write b a = Ret (2 ^ 32 - 1) (a <| fdes := f |>) /\
    take (Z.to_nat (f_pos (fdes a))) (f_bytes f) = take (Z.to_nat (f_pos (fdes a))) (bytes_of a).
Proof.
  intros Hws Hp Hfar. unfold avi_write. rewrite (bind_ret _ _ a a a) by done. rewrite Hws. cbn [write_loop].
  rewrite (proj2 (Z.leb_gt _ 0)), (proj2 (Z.leb_gt _ _)) by (unfold MAX_NON_LFS; lia). eexists. split; [done|].
  exact (overwrite_keeps (bytes_of a) _ _ Hp).
Qed.

(** A chunk that would go past the largest offset is not added. *)
Lemma add_chunk_too_far tag data len a : length tag = 4%nat -> 0 <= len < 2 ^ 31 -> PAD_EVEN len <= zlen data -> f_writes (fdes a) = [] ->
  f_pos (fdes a) = pos a -> 0 <= pos a <= zlen (bytes_of a) -> pos a < 2 ^ 31 <= pos a + 8 + PAD_EVEN len ->
  exists f, avi_add_chunk tag data len a = Ret (-1) (a <| fdes := f |>) /\ f_pos f = pos a /\
    take (Z.to_nat (pos a)) (f_bytes f) = take (Z.to_nat (pos a)) (bytes_of a).
Proof.
  intros Ht Hlen Hmem Hws Hat Hp Hfar. pose proof (pad_even_bounds len) as Hpad. unfold avi_add_chunk. rewrite (bind_ret _ _ a a a) by done. cbv zeta.
  assert (Hback : forall f, take (Z.to_nat (pos a)) (f_bytes f) = take (Z.to_nat (pos a)) (bytes_of a) -> exists f',
    (lseek (pos a) ;; mret (-1)) (a <| fdes := f |>) = Ret (-1) (a <| fdes := f' |>) /\ f_pos f' = pos a /\
    take (Z.to_nat (pos a)) (f_bytes f') = take (Z.to_nat (pos a)) (bytes_of a)).
  { intros f Hk. exists (f <| f_pos := pos a |>). split; [|by split].
    rewrite (bind_ret _ _ _ (pos a) (a <| fdes := f <| f_pos := pos a |> |>)); [done|].
    unfold lseek. by rewrite (proj2 (Z.ltb_ge _ _)), (proj2 (Z.leb_gt _ _)) by lia. }
  assert (H8 : zlen (tag ++ long2str len) = 8) by (rewrite length_app, length_long2str; lia).
  destruct (Z.lt_ge_cases (pos a + 8) (2 ^ 31)) as [Hin | Hout].
  - destruct (write_fits (tag ++ long2str len) a Hws ltac:(lia) ltac:(lia)) as (f1 & Hw1 & Hws1 & Hp1 & Hb1). rewrite Hat in Hp1, Hb1. rewrite H8 in Hp1.
    rewrite (bind_ret _ _ _ _ _ Hw1), H8. change (negb (8 =? 8)) with false. cbv iota. set (a1 := a <| fdes := f1 |>).
    set (d := take (Z.to_nat (PAD_EVEN len)) data). assert (Hd : zlen d = PAD_EVEN len) by (unfold d; rewrite length_take; lia).
    rewrite (bind_access _ _ _ _ (whole_data data len ltac:(lia))). fold d.
    assert (Hl1 : 0 <= pos a + 8 <= zlen (f_bytes f1)) by (rewrite Hb1, overwrite_length; lia).
    destruct (write_too_far d a1 Hws1) as (f & Hw & Hk); change (fdes a1) with f1 in *; rewrite ?Hp1; [exact Hl1 | lia|]. rewrite Hp1 in Hk.
    rewrite (bind_ret _ _ _ _ _ Hw), (proj2 (Z.eqb_neq _ _)) by lia. cbn [negb]. apply Hback.
    transitivity (take (Z.to_nat (pos a)) (f_bytes f1)); [|rewrite Hb1; by apply overwrite_keeps].
    apply (f_equal (take (Z.to_nat (pos a)))) in Hk. rewrite !take_take in Hk. by replace (Z.to_nat (pos a) `min` Z.to_nat (pos a + 8))%nat with (Z.to_nat (pos a)) in Hk by lia.
  - destruct (write_too_far (tag ++ long2str len) a Hws) as (f & Hw & Hk); rewrite ?Hat; [exact Hp | lia|].
    rewrite (bind_ret _ _ _ _ _ Hw). change (negb (2 ^ 32 - 1 =? 8)) with true. cbv iota. apply Hback. by rewrite <- Hat.
Qed.

(** The limit of a file's size is above what can be written: a frame that would take
    the file past the largest offset is let through by the check of the limit, the kernel
    refuses its bytes, and the frame's entry stays in the index although the frame is not
    in the file: the position and the bytes before it are as they were, -1 is returned and
    the frame is not counted. *)
Theorem limit_is_past_2GB data len key a : mode a = AVI_MODE_WRITE -> f_writes (fdes a) = [] -> 0 <= len < 2 ^ 31 -> PAD_EVEN len <= zlen data ->
  f_pos (fdes a) = pos a -> 0 <= pos a <= zlen (bytes_of a) -> pos a < 2 ^ 31 <= pos a + 8 + PAD_EVEN len ->
  0 <= pos a + 8 + len + 8 + (n_idx a + 1) * 16 <= AVI_MAX_LEN ->
  exists a', AVI_write_frame data len key a = Ret (-1) a' /\
    index_text a' = index_text a ++ idx_entry (lit "00dc") (if key then 16 else 0) (pos a) len /\ n_idx a' = n_idx a + 1 /\
    video_frames a' = video_frames a /\ pos a' = pos a /\ f_pos (fdes a') = pos a /\
    take (Z.to_nat (pos a)) (bytes_of a') = take (Z.to_nat (pos a)) (bytes_of a).
Proof.
  intros Hm Hws Hlen Hmem Hat Hp Hpast Hlim. unfold AVI_write_frame. rewrite (bind_ret _ _ a a a) by done. rewrite Hm.
  change (AVI_MODE_WRITE =? AVI_MODE_READ) with false. cbv iota.
  destruct (add_entry_run (lit "00dc") (if key then 16 else 0) (pos a) len a) as (a1 & He & _ & Hf1 & Hp1 & Hi1 & Hn1 & Hv1 & _).
  destruct (add_chunk_too_far (lit "00dc") data len a1 eq_refl Hlen Hmem) as (f & Hc & Hfp & Hk); rewrite ?Hf1, ?Hp1 in *; try done.
  assert (Hrun : avi_write_data data len false key a = Ret (-1) (a1 <| fdes := f |>)).
  { unfold avi_write_data. rewrite (bind_ret _ _ a a a) by done. rewrite (proj2 (Z.ltb_ge _ _)) by (rewrite u32_small; unfold AVI_MAX_LEN, HEADERBYTES in *; lia).
    by rewrite (bind_ret _ _ _ _ _ He), (bind_ret _ _ _ _ _ Hc). }
  rewrite (bind_ret _ _ _ _ _ Hrun). change (negb (-1 =? 0)) with true. cbv iota.
  eexists. split; [done|]. change (bytes_of a1) with (f_bytes (fdes a1)) in Hk. rewrite ?Hf1 in Hk. by split_and!.
Qed.

(** ** An error in the middle of a write *)

(** [k] bytes are written, the next call fails, and the ones after it succeed. *)
Lemma write_with_error b k a : 0 < k < zlen b -> f_pos (fdes a) + zlen b + 1 < 2 ^ 31 -> 0 <= f_pos (fdes a) -> f_writes (fdes a) = [k; -1] ->
  avi_write b a = Ret (zlen b) (a <| fdes := (put_bytes (from b (k - 1)) (put_bytes (take (Z.to_nat k) b) (fdes a))) <| f_writes := ([] : list Z) |> |>).
Proof.
  intros Hk Hb Hp Hws. unfold avi_write. rewrite (bind_ret _ _ a a a) by done. rewrite Hws. cbn [write_loop].
  assert (Hg : granted (fdes a) k = k).
  { unfold granted. rewrite (proj2 (Z.ltb_ge k 0)), (proj2 (Z.leb_gt _ _)) by (unfold MAX_NON_LFS; lia). unfold MAX_NON_LFS. lia. }
  rewrite (proj2 (Z.leb_gt _ _)), Hg, (proj2 (Z.ltb_ge k 0)), from_all by lia. set (f1 := put_bytes (take (Z.to_nat k) b) (fdes a)).
  change (granted f1 (-1)) with (-1). change (-1 <? 0) with true. cbv iota.
  rewrite Z.add_0_l, (u32_small k) by lia. rewrite (proj2 (Z.leb_gt _ k)) by lia. replace (k + -1) with (k - 1) by lia.
  rewrite (u32_small (k - 1)), (proj2 (Z.leb_gt _ (k - 1))), (proj2 (Z.leb_le _ _)) by (change (f_pos f1) with (f_pos (fdes a) + zlen (take (Z.to_nat k) b)) || idtac; rewrite ?length_take; unfold MAX_NON_LFS; lia).
  done.
Qed.

(** An error in the middle of a write puts a byte into the file twice: the error is
    compared with zero as an unsigned number and takes one from what is counted, the
    writing goes on one byte before where it was, and the frame is reported as written.
    Where [k] bytes of the chunk's head went before the error, the file has these and then
    the head again from the last of them on, so that the frame's bytes, and all that is
    written after them, are one byte further in the file than the position and the index
    say. *)
Theorem error_shifts_the_file data len key k a : mode a = AVI_MODE_WRITE -> f_pos (fdes a) = pos a -> pos a = zlen (bytes_of a) ->
  f_writes (fdes a) = [k; -1] -> 0 < k < 8 -> 0 <= len -> PAD_EVEN len <= zlen data -> 0 <= n_idx a -> pos a + 32 + PAD_EVEN len + 16 * n_idx a < 2 ^ 31 ->
  exists a', AVI_write_frame data len key a = Ret 0 a' /\ pos a' = pos a + 8 + PAD_EVEN len /\ f_pos (fdes a') = pos a' + 1 /\
    index_text a' = index_text a ++ idx_entry (lit "00dc") (if key then 16 else 0) (pos a) len /\
    let head := lit "00dc" ++ long2str len in
    bytes_of a' = bytes_of a ++ take (Z.to_nat k) head ++ drop (Z.to_nat (k - 1)) head ++ take (Z.to_nat (PAD_EVEN len)) data.
Proof.
  intros Hm Hat Hend Hws Hk Hlen Hmem Hn Hs. pose proof (pad_even_bounds len) as Hpad. unfold AVI_write_frame. rewrite (bind_ret _ _ a a a) by done. rewrite Hm.
  change (AVI_MODE_WRITE =? AVI_MODE_READ) with false. cbv iota.
  destruct (add_entry_run (lit "00dc") (if key then 16 else 0) (pos a) len a) as (a1 & He & _ & Hf1 & Hp1 & Hi1 & _).
  set (head := lit "00dc" ++ long2str len). assert (Hh : zlen head = 8) by (unfold head; rewrite length_app, length_long2str; done).
  set (f1 := (put_bytes (from head (k - 1)) (put_bytes (take (Z.to_nat k) head) (fdes a1))) <| f_writes := ([] : list Z) |>).
  assert (Hw1 : avi_write head a1 = Ret 8 (a1 <| fdes := f1 |>)).
  { rewrite (write_with_error head k a1), Hh by (rewrite ?Hf1, ?Hh; lia || exact Hws). done. }
  assert (Hp2 : f_pos f1 = pos a + 9).
  { change (f_pos (fdes a1) + zlen (take (Z.to_nat k) head) + zlen (from head (k - 1)) = pos a + 9). rewrite Hf1, length_take, from_length; lia. }
  assert (Hb2 : f_bytes f1 = bytes_of a ++ take (Z.to_nat k) head ++ drop (Z.to_nat (k - 1)) head).
  { change (overwrite (overwrite (bytes_of a1) (take (Z.to_nat k) head) (f_pos (fdes a1))) (from head (k - 1)) (f_pos (fdes a1) + zlen (take (Z.to_nat k) head)) =
      bytes_of a ++ take (Z.to_nat k) head ++ drop (Z.to_nat (k - 1)) head).
    rewrite Hf1, Hat, Hend, overwrite_end, <- Nat2Z.inj_add, <- length_app, overwrite_end, <- app_assoc. done. }
  assert (Hw2 : exists f2, avi_write (take (Z.to_nat (PAD_EVEN len)) data) (a1 <| fdes := f1 |>) = Ret (PAD_EVEN len) (a1 <| fdes := f2 |>) /\
    f_pos f2 = pos a + 9 + PAD_EVEN len /\ f_bytes f2 = f_bytes f1 ++ take (Z.to_nat (PAD_EVEN len)) data).
  { destruct (write_fits (take (Z.to_nat (PAD_EVEN len)) data) (a1 <| fdes := f1 |>) eq_refl) as (f2 & Hw2 & _ & Hp3 & Hb3);
      change (fdes (a1 <| fdes := f1 |>)) with f1 in *; rewrite ?Hp2, ?Hb2, ?length_app, ?length_take, ?length_drop in *; try lia.
    exists f2. split; [rewrite Hw2; f_equal; lia|]. split; [lia|]. rewrite Hb3.
    replace (pos a + 9) with (zlen (bytes_of a ++ take (Z.to_nat k) head ++ drop (Z.to_nat (k - 1)) head)) by (rewrite !length_app, length_take, length_drop; lia).
    by rewrite overwrite_end. }
  destruct Hw2 as (f2 & Hw2 & Hp3 & Hb3). set (a2 := a1 <| fdes := f2 |> <| pos := i32 (pos a1 + 8 + PAD_EVEN len) |>).
  assert (Hc : avi_add_chunk (lit "00dc") data len a1 = Ret 0 a2).
  { unfold avi_add_chunk. rewrite (bind_ret _ _ a1 a1 a1) by done. cbv zeta. fold head. rewrite (bind_ret _ _ _ _ _ Hw1). change (negb (8 =? 8)) with false. cbv iota.
    rewrite (bind_access _ _ _ _ (whole_data data len ltac:(lia))), (bind_ret _ _ _ _ _ Hw2), Z.eqb_refl. unfold a2. by destruct a1. }
  assert (Hrun : avi_write_data data len false key a = Ret 0 a2).
  { unfold avi_write_data. rewrite (bind_ret _ _ a a a) by done. rewrite (proj2 (Z.ltb_ge _ _)) by (rewrite u32_small; unfold AVI_MAX_LEN, HEADERBYTES in *; lia).
    by rewrite (bind_ret _ _ _ _ _ He), (bind_ret _ _ _ _ _ Hc). }
  rewrite (bind_ret _ _ _ _ _ Hrun). change (negb (0 =? 0)) with false. cbv iota.
  assert (Hpos : i32 (pos a1 + 8 + PAD_EVEN len) = pos a + 8 + PAD_EVEN len) by (rewrite Hp1; apply i32_small; lia).
  eexists. split; [done|]. split; [exact Hpos|]. split; [change (f_pos f2 = i32 (pos a1 + 8 + PAD_EVEN len) + 1); lia|].
  split; [exact Hi1|]. change (f_bytes f2 = bytes_of a ++ take (Z.to_nat k) head ++ drop (Z.to_nat (k - 1)) head ++ take (Z.to_nat (PAD_EVEN len)) data).
  by rewrite Hb3, Hb2, <- !app_assoc.
Qed.


(** ** Concrete calls *)

Lemma writer_stays_well_formed_witness : exists a0 a rs a', AVI_open_output_file (Some []) [] true = Ret (Some a0) () /\
  begin example_settings a0 = Ret 0 a /\
  run_ops [Op_frame [chr 1; chr 2] 1 true; Op_dup; Op_sound [chr 3; chr 4] 2] (a <| fdes ::= fun f => f <| f_writes := [3; 5; 1; 0; 1; 4; 4; 2] |> |>) = Ret rs a' /\
  rs = [0; 0; 0] /\ pos a' = 2068 /\ f_pos (fdes a') = 2068 /\ n_idx a' = 3 /\ video_frames a' = 2.
Proof.
  destruct (writer_stays_well_formed example_settings [] true [3; 5; 1; 0; 1; 4; 4; 2] [Op_frame [chr 1; chr 2] 1 true; Op_dup; Op_sound [chr 3; chr 4] 2])
    as (a0 & a & rs & a' & Hopen & Hbegin & Hrun & _ & Hwf).
  - apply (rc_settings _ _ (example_recording_ok 0 ltac:(lia))).
  - repeat (constructor; [lia|]). constructor.
  - repeat (constructor; [split; vm_compute; discriminate || exact I || (intros H; discriminate H)|]). constructor.
  - reflexivity.
  - exists a0, a, rs, a'. split; [exact Hopen|]. split; [exact Hbegin|]. split; [exact Hrun|].
    pose proof (wf_at _ Hwf) as Hat. vm_compute in Hopen. injection Hopen as <-. vm_compute in Hbegin. injection Hbegin as <-.
    vm_compute in Hrun. injection Hrun as <- <-. split; [reflexivity|]. split; [reflexivity|]. split; [exact Hat|]. split; reflexivity.
Defined.

(** A file of [n] bytes, written so far. *)
Definition example_far (n : nat) : avi_t := (avi_zero (Build_file (replicate n NUL) (Z.of_nat n) []) AVI_MODE_WRITE) <| pos := Z.of_nat n |>.

Lemma limit_is_past_2GB_witness : let n := Z.to_nat (2 ^ 31 - 10) in
  exists a', AVI_write_frame [chr 1; chr 2] 2 true (example_far n) = Ret (-1) a' /\ pos a' = 2 ^ 31 - 10 /\ n_idx a' = 1 /\ video_frames a' = 0.
Proof.
  cbv zeta. generalize (Z2Nat.id (2 ^ 31 - 10) ltac:(lia)). generalize (Z.to_nat (2 ^ 31 - 10)). intros n Hn.
  destruct (limit_is_past_2GB [chr 1; chr 2] 2 true (example_far n)) as (a' & Hrun & _ & Hidx & Hframes & Hpos & _).
  - reflexivity.
  - reflexivity.
  - lia.
  - vm_compute. discriminate.
  - reflexivity.
  - change (0 <= Z.of_nat n <= zlen (replicate n NUL)). rewrite length_replicate. lia.
  - change (Z.of_nat n < 2 ^ 31 <= Z.of_nat n + 8 + 2). lia.
  - change (0 <= Z.of_nat n + 8 + 2 + 8 + 16 <= AVI_MAX_LEN). rewrite Hn. split; vm_compute; discriminate.
  - exists a'. split; [exact Hrun|]. split; [exact (eq_trans Hpos Hn)|]. split; [exact Hidx | exact Hframes].
Defined.

Definition example_failing : avi_t := (avi_zero (Build_file (replicate 2048 NUL) 2048 [7; -1]) AVI_MODE_WRITE) <| pos := 2048 |>.

(** After seven of the head's eight bytes: the head, a zero too many, the frame. *)
Lemma error_shifts_the_file_witness : exists a', AVI_write_frame [chr 1; chr 2] 2 true example_failing = Ret 0 a' /\ pos a' = 2058 /\ f_pos (fdes a') = 2059 /\
  bytes_of a' = bytes_of example_failing ++ lit "00dc" ++ [chr 2; NUL; NUL; NUL; NUL; chr 1; chr 2].
Proof.
  destruct (error_shifts_the_file [chr 1; chr 2] 2 true 7 example_failing eq_refl eq_refl eq_refl eq_refl ltac:(lia) ltac:(lia) ltac:(vm_compute; discriminate)
    ltac:(vm_compute; discriminate) eq_refl) as (a' & Hrun & Hpos & Hat & _ & Hbytes).
  exists a'. rewrite Hpos in Hat. split; [exact Hrun|]. split; [exact Hpos|]. split; [exact Hat | exact Hbytes].
Defined.
