(* ===== verification/AviRepair.v ===== *)
(** * Repairing a recording

    What [avi_fix_bad_file] makes of a recording that was interrupted: the index it finds
    by going over the file, the file with that index at its end, and that it opens. *)

From Stdlib Require Import Ascii String SpecFloat.
From stdpp Require Import gmap strings.
From S2P Require Import Prelude Update Cstring Double Avi AviBytes AviFile AviParse AviOpen AviThms.

(** ** The index that is found *)

(** An item as the found index has it: the flag is 1 for frames that begin as the key
    frames of MPEG-4 do, and the length is that of the padded data. *)
Definition mended (it : item) : item :=
  Build_item (it_audio it) (if bool_decide (ulong_at (take 4 (it_mem it)) 0 = Some 0xb0010000) then 1 else 0) (it_mem it) (PAD_EVEN (it_len it)).

(** A frame that has the four bytes that are looked at. *)
Definition long_enough (it : item) : Prop := it_audio it = false -> 4 <= PAD_EVEN (it_len it).

Lemma mended_ok it : item_ok it -> item_ok (mended it).
Proof.
  intros (Hl & Hm & _). pose proof (pad_even_bounds (it_len it)). split; [cbn; lia|]. cbn [mended it_len it_mem it_key].
  rewrite pad_even_twice. split; [done|]. destruct (bool_decide _); lia.
Qed.

Lemma mended_chunk_length it : length (chunk_bytes (mended it)) = length (chunk_bytes it).
Proof.
  unfold chunk_bytes, raw_chunk. cbn [mended it_mem it_len]. change (it_tag (mended it)) with (it_tag it).
  by rewrite pad_even_twice, !length_app, !length_long2str.
Qed.

Lemma placed_mended p its : placed p (map mended its) = map (fun x => (x.1, mended x.2)) (placed p its).
Proof. revert p. induction its as [|it its IH]; intros p; cbn [map placed]; [done|]. by rewrite mended_chunk_length, IH. Qed.

Lemma videos_mended its : videos (map mended its) = map mended (videos its).
Proof. unfold videos. by rewrite filter_map. Qed.

Lemma mended_count its : zlen (videos its) + zlen (sounds its) = zlen its.
Proof. induction its as [|it its IH]; [done|]. unfold videos, sounds in *. cbn. destruct (it_audio it); cbn [negb length]; lia. Qed.

Section Found.
Context (c : settings) (a : avi_t).
Context (Hvt : video_tag a = lit "00db") (Hat : audio_tag a = if st_chans c =? 0 then lit "99wb" else lit "01wb").

(** One frame or sound. *)
Lemma gen_item it fuel p r text v s : item_ok it -> long_enough it -> (it_audio it = true -> st_chans c <> 0) ->
  0 <= p -> p + 8 + PAD_EVEN (it_len it) < 2 ^ 31 -> from (bytes_of a) p = chunk_bytes it ++ r ->
  gen_index_loop (S fuel) text v s (at_pos a p) =
    gen_index_loop fuel (text ++ entry_of p (mended it)) (if it_audio it then v else v + 1) (if it_audio it then s + 1 else s) (at_pos a (p + zlen (chunk_bytes it))).
Proof.
  intros Hit Hlong Hch Hp Hs Hf. pose proof (chunk_of_item _ p it r Hp Hit Hs Hf) as Hc. pose proof (chunk_length it Hit) as Hl.
  pose proof (it_data_length it Hit) as Hd. pose proof (chunk_rest _ _ _ _ _ Hc) as Hr. destruct Hit as (Hlen & Hmem & _). pose proof (pad_even_bounds (it_len it)) as Hpad.
  cbn [gen_index_loop]. rewrite (bind_ret _ _ (at_pos a p) (at_pos a p) (at_pos a p)) by done.
  rewrite (bind_ret _ _ _ _ _ (chunk_head _ _ _ _ _ Hc a eq_refl)), head_length by apply tag_length. cbn [negb].
  rewrite size_of_head_nil by (apply tag_length || lia). change (video_tag (at_pos a p)) with (video_tag a). change (audio_tag (at_pos a p)) with (audio_tag a).
  rewrite Hvt, Hat, i32_small by lia.
  assert (Hlist : is_tag (it_tag it ++ long2str (it_len it)) (lit "LIST") = false) by (unfold it_tag; by destruct (it_audio it)). rewrite Hlist. cbv zeta.
  rewrite (bind_ret _ _ _ _ _ (tell_run a (p + 8))), (proj2 (Z.ltb_ge _ _)) by lia. replace (p + 8 - 8) with p by lia.
  unfold long_enough in Hlong. unfold entry_of, it_flags, it_tag. cbn [mended it_audio it_key it_len]. destruct (it_audio it) eqn:Hau.
  - assert (Hvid : is_video (lit "01wb" ++ long2str (it_len it)) (lit "00db") = false) by done. rewrite Hvid.
    rewrite (proj2 (Z.eqb_neq _ _)) by auto. assert (Haud : is_tag (lit "01wb" ++ long2str (it_len it)) (lit "01wb") = true) by done. rewrite Haud.
    rewrite (bind_ret _ _ _ _ _ (lseek_cur_run a (p + 8) (PAD_EVEN (it_len it)) ltac:(lia))), (proj2 (Z.ltb_ge _ _)) by lia.
    by replace (p + 8 + PAD_EVEN (it_len it)) with (p + zlen (chunk_bytes it)) by lia.
  - assert (Hvid : is_video (lit "00dc" ++ long2str (it_len it)) (lit "00db") = true) by done. rewrite Hvid. specialize (Hlong eq_refl).
    assert (H4 : from (bytes_of a) (p + 8) = take 4 (it_mem it) ++ drop 4 (it_data it) ++ r).
    { rewrite Hr, app_assoc. f_equal. rewrite <- (take_drop 4 (it_data it)) at 1. f_equal. unfold it_data. rewrite take_take. f_equal. lia. }
    assert (Hn : zlen (take 4 (it_mem it)) = 4) by (rewrite length_take; lia).
    rewrite (bind_ret _ _ _ _ _ (read_run a (p + 8) _ _ 4 ltac:(lia) H4 (eq_sym Hn))), Hn. change (negb (4 =? 4)) with false. cbv iota.
    rewrite (bind_ret _ _ _ _ _ (lseek_cur_run a (p + 8 + 4) (PAD_EVEN (it_len it) - 4) ltac:(lia))), (proj2 (Z.ltb_ge _ _)) by lia.
    by replace (p + 8 + 4 + (PAD_EVEN (it_len it) - 4)) with (p + zlen (chunk_bytes it)) by lia.
Qed.

Lemma gen_items its : forall fuel p text v s, Forall item_ok its -> Forall long_enough its -> (st_chans c = 0 -> sounds its = []) ->
  0 <= p -> p + zlen (body its) < 2 ^ 31 -> from (bytes_of a) p = body its ->
  exists a', gen_index_loop (length its + S fuel) text v s (at_pos a p) =
    Ret (text ++ concat (entries p (map mended its)), v + zlen (videos its), s + zlen (sounds its)) a'.
Proof.
  induction its as [|it its IH]; intros fuel p text v s Hok Hlong Hch Hp Hs Hf.
  - destruct (read_short a p 8 Hp ltac:(by rewrite Hf)) as (d & q & Hrun & Hd). exists (at_pos a q). cbn [length Nat.add gen_index_loop].
    rewrite (bind_ret _ _ (at_pos a p) (at_pos a p) (at_pos a p)) by done.
    rewrite (bind_ret _ _ _ _ _ Hrun), (proj2 (Z.eqb_neq _ _)) by lia. cbn [negb map entries concat videos sounds List.filter length].
    by rewrite app_nil_r, !Z.add_0_r.
  - apply Forall_cons_1 in Hok as [Hit Hok]. apply Forall_cons_1 in Hlong as [Hl1 Hlong].
    change (body (it :: its)) with (chunk_bytes it ++ body its) in *. rewrite length_app in Hs. pose proof (chunk_length it Hit) as Hl.
    assert (Hsnd : it_audio it = true -> st_chans c <> 0).
    { intros Hau H0. specialize (Hch H0). unfold sounds in Hch. cbn in Hch. by rewrite Hau in Hch. }
    cbn [length Nat.add]. rewrite (gen_item it _ p (body its) text v s Hit Hl1 Hsnd Hp ltac:(lia) Hf).
    destruct (IH fuel (p + zlen (chunk_bytes it)) (text ++ entry_of p (mended it)) (if it_audio it then v else v + 1) (if it_audio it then s + 1 else s)) as (a' & Hrun);
      [done | done | | lia | lia | by eapply from_next|].
    { intros H0. specialize (Hch H0). unfold sounds in *. cbn in Hch. by destruct (it_audio it). }
    exists a'. rewrite Hrun. f_equal. cbn [map entries concat]. rewrite mended_chunk_length, <- app_assoc.
    unfold videos, sounds. cbn [List.filter]. destruct (it_audio it); cbn [negb length];
      (apply (f_equal2 pair); [apply (f_equal2 pair); [done | lia] | lia]).
Qed.
End Found.

Lemma gen_index_run c h its : settings_ok c -> header_of c 4 h -> zlen h = HEADERBYTES -> Forall item_ok its -> Forall long_enough its -> small its ->
  (st_chans c = 0 -> sounds its = []) ->
  gen_index_from_file (interrupted h its []) = Ret (Some (concat (entries HEADERBYTES (map mended its)), zlen (videos its), zlen (sounds its))) ().
Proof.
  intros Hc Hh Hlen Hok Hlong Hs Hch. destruct (parse_interrupted false c its h [] Hc Hh Hlen Hok Hs ltac:(done)) as (a & Hk & _ & Hrun).
  unfold gen_index_from_file, AVI_open_input_file. set (b := interrupted h its []) in *.
  change (avi_zero _ AVI_MODE_READ) with (reader b). rewrite Hrun. change (0 <? 0) with false. cbv iota.
  rewrite (at_own a) at 1. rewrite (bind_ret _ _ _ _ _ (lseek_run a _ HEADERBYTES ltac:(unfold HEADERBYTES; lia))).
  pose proof (body_count its Hok) as Hcount. assert (Hbl : zlen b = HEADERBYTES + zlen (body its)) by (unfold b, interrupted; rewrite !length_app; cbn [length]; lia).
  assert (Hfuel : exists f, (2 + length b)%nat = (length its + S f)%nat).
  { exists (length b + 1 - length its)%nat. unfold HEADERBYTES in Hbl. lia. }
  destruct Hfuel as [f ->].
  destruct (gen_items c a (kn_video_tag _ _ _ Hk) (kn_audio_tag _ _ _ Hk) its f HEADERBYTES [] 0 0 Hok Hlong Hch) as (a' & ->); [done | unfold small in Hs; lia | | done].
  rewrite (proj1 (kn_file _ _ _ Hk)). unfold b, interrupted. rewrite app_nil_r. by apply from_app.
Qed.

(** ** The file that is made *)

(** The settings that the header of a repaired file shows. *)
Definition again (c : settings) (arate bits fmt : Z) : settings :=
  Build_settings (st_width c) (st_height c) (st_rate c) (st_compressor c) (st_chans c) arate bits fmt.

Lemma again_ok c a bits : settings_ok c -> (st_chans c <> 0 -> bits <> 0) -> settings_ok (again c (a_rate a) bits (a_fmt a)).
Proof. intros [H1 H2 H3 H4 [H5 _]] Hb. by split. Qed.

Lemma again_set c its b a : opened c its b a -> has_settings (again c (a_rate a) (a_bits a) (a_fmt a)) a.
Proof. intros [_ _ (H1 & H2 & H3 & H4) H5 _ _ _ _ _ _]. by split. Qed.

Lemma rate_not_zero c : settings_ok c -> SFeqb (dbl (st_rate c)) (dbl 0) = false.
Proof.
  intros [_ _ Hr _ _]. assert (Hall : forallb (fun k => negb (SFeqb (dbl (Z.of_nat k)) (dbl 0))) (seq 1 1000) = true) by by vm_compute.
  rewrite forallb_forall in Hall. specialize (Hall (Z.to_nat (st_rate c))). rewrite in_seq, Z2Nat.id in Hall by lia. by apply negb_true_iff, Hall; lia.
Qed.

(** The seconds of a recording. *)
Definition length_secs (c : settings) (its : list item) : Z := zlen (videos its) / st_rate c.

Lemma length_secs_run c its : settings_ok c -> Forall item_ok its -> small its -> videos its <> [] ->
  int_of_dbl (dbl_div (dbl (zlen (videos its))) (dbl (st_rate c))) = Some (length_secs c its).
Proof.
  intros [_ _ Hr _ _] Hok Hs Hv. pose proof (body_count its Hok). pose proof (mended_count its). unfold small, HEADERBYTES in Hs.
  assert (0 < zlen (videos its)) by (destruct (videos its); [done | cbn [length]; lia]). by apply int_of_quotient; lia.
Qed.

Lemma fix_run c h its : settings_ok c -> header_of c 4 h -> zlen h = HEADERBYTES -> Forall item_ok its -> Forall long_enough its -> small its ->
  (st_chans c = 0 -> sounds its = []) -> (st_chans c <> 0 -> st_bits c mod 2 ^ 16 <> 0) -> videos its <> [] ->
  exists arate bits fmt h', let c' := again c arate bits fmt in
    settings_ok c' /\ header_of c' (zlen (body its) + 4) h' /\ zlen h' = HEADERBYTES /\
    avi_fix_bad_file (interrupted h its []) [] true true = Ret (length_secs c its, with_index_of h' its (map mended its)) ().
Proof.
  intros Hc Hh Hlen Hok Hlong Hs Hch Hbits Hv. unfold avi_fix_bad_file.
  destruct (open_interrupted c its h [] Hc Hh Hlen Hok Hs ltac:(done) Hv) as (a & -> & Hop). cbn [negb].
  rewrite (gen_index_run c h its Hc Hh Hlen Hok Hlong Hs Hch). cbn [negb].
  assert (Hset := again_set _ _ _ _ Hop). set (c' := again c (a_rate a) (a_bits a) (a_fmt a)) in *.
  assert (Hc' : settings_ok c').
  { apply again_ok; [done|]. intros H0. rewrite (proj2 (op_fmt _ _ _ _ Hop H0)). by apply Hbits. }
  set (b := interrupted h its []). assert (Hbl : zlen b = HEADERBYTES + zlen (body its)) by (unfold b, interrupted; rewrite !length_app; cbn [length]; lia).
  assert (Heven : Z.odd (zlen b) = false).
  { destruct (body_even its Hok) as [m Hm]. rewrite Hbl, Hm. replace (HEADERBYTES + 2 * m) with (2 * (1024 + m)) by (unfold HEADERBYTES; lia). by rewrite Z.odd_mul. }
  rewrite Heven, Hbl. cbv zeta. match goal with |- context [SFeqb ?x _] => change x with (fps a) end.
  assert (Hfps : fps a = dbl (st_rate c)) by apply (op_size _ _ _ _ Hop). rewrite Hfps, rate_not_zero by done.
  rewrite length_secs_run by done.
  match goal with |- context [AVI_close ?x] => set (a1 := x) end.
  assert (Hend : ending h its (map mended its) c' [] a1).
  { split; [exact eq_refl | | exact Hlen | exact eq_refl | exact eq_refl | split; [|by rewrite length_map]|].
    - exact eq_refl.
    - change (zlen (videos its) + zlen (sounds its) = zlen (map mended its)). by rewrite length_map, mended_count.
    - destruct Hset as [S1 S2 S3 S4 S5]. split; [exact S1 | exact S2 | exact S3 | exact S4 | exact S5]. }
  assert (Hne : its <> []) by (intros ->; by apply Hv).
  destruct (close_ending h its (map mended its) c' [] a1 Hend Hc' Hne Hs) as (a2 & h' & -> & Hh' & Hlen' & Hb).
  exists (a_rate a), (a_bits a), (a_fmt a), h'. split; [done|]. split; [done|]. split; [done|]. by rewrite <- Hb.
Qed.

(** ** It opens *)

(** The first frame has no padding. *)
Definition first_even (its : list item) : Prop := match videos its with it :: _ => PAD_EVEN (it_len it) = it_len it | [] => False end.

Lemma find_videos p its x : List.find is_frame (placed p its) = Some x -> exists l, videos its = x.2 :: l.
Proof.
  revert p. induction its as [|it its IH]; intros p; [done|]. cbn. unfold is_frame at 1. cbn [snd].
  destruct (it_audio it); cbn; [apply IH | intros [= <-]; by eexists].
Qed.

Lemma find_mended p its x : List.find is_frame (placed p its) = Some x -> List.find is_frame (placed p (map mended its)) = Some (x.1, mended x.2).
Proof. intros H. rewrite placed_mended, find_map. change (List.find _ _) with (List.find is_frame (placed p its)). by rewrite H. Qed.

Lemma mended_fits b its r : holds b its r -> forall x, x ∈ placed HEADERBYTES (map mended its) -> entry_fits x.
Proof.
  intros Hb x. rewrite placed_mended. intros (y & -> & Hy)%list_elem_of_fmap. destruct (holds_item _ _ _ _ Hb Hy) as (_ & _ & Hok & Hp & Hs).
  destruct (mended_ok _ Hok) as (Hl & _ & Hk). unfold entry_fits. cbn [fst snd] in *. split; [done|]. split; [done|]. cbn [mended it_len] in *. lia.
Qed.

Lemma mended_first b its r : holds b its r -> first_even its -> first_found b (map mended its).
Proof.
  intros Hb He. assert (Hv : videos its <> []) by (unfold first_even in He; by destruct (videos its)).
  destruct (holds_first b its r Hb Hv) as (x & r' & Hfind & _ & Hc). destruct (find_videos _ _ _ Hfind) as [l Hl]. unfold first_even in He. rewrite Hl in He.
  pose proof (find_mended _ _ _ Hfind) as Hfind'. exists (x.1, mended x.2), r'. split; [done|].
  split; [|cbn [mended fst snd it_len]; by rewrite He].
  apply (mended_fits b its r Hb), list_elem_of_In. by apply (find_some _ _ Hfind').
Qed.

Lemma repaired_holds h its : zlen h = HEADERBYTES -> Forall item_ok its -> small its -> holds (with_index_of h its (map mended its)) its (index_chunk (map mended its)).
Proof.
  intros Hh Hok Hs. split; [by exists h | done|]. unfold small in Hs. rewrite index_chunk_length, length_map. lia.
Qed.

Section Repair.
Context (c : settings) (its : list item) (max_vidbuf max_audbuf : Z).

(** What a recording needs for its repair: the frames have four bytes, and the sound's
    bits are not 0 in the 16 bits that the header has for them. *)
Record repairable : Prop := {
  rp_ok : recording_ok c its;
  rp_long : Forall long_enough its;
  rp_sounds : st_chans c = 0 -> sounds its = [];
  rp_bits : st_chans c <> 0 -> st_bits c mod 2 ^ 16 <> 0
}.

Lemma open_repaired c' h : settings_ok c' -> header_of c' (zlen (body its) + 4) h -> zlen h = HEADERBYTES -> repairable -> st_chans c' = st_chans c ->
  first_even its -> Forall (fits_buffer max_vidbuf max_audbuf) its -> let b := with_index_of h its (map mended its) in
  exists a, AVI_open_input_file (Some b) true = Ret (Some a) () /\ opened c' (map mended its) b a /\
    exists a', read_times (S (length its)) max_vidbuf max_audbuf a = Ret (map given its ++ [(0, [])]) a'.
Proof.
  intros Hc Hh Hlen [[_ Hok _ Hs Hv] _ Hsnd _] Hchans He Hfit b. pose proof (repaired_holds h its Hlen Hok Hs) as Hb.
  destruct (open_indexed c' its (map mended its) h) as (a & Hopen & Hop); try done.
  - by rewrite length_map.
  - rewrite videos_mended. by destruct (videos its).
  - exact (mended_fits _ _ _ Hb).
  - exact (mended_first _ _ _ Hb He).
  - exists a. split; [done|]. split; [done|].
    apply (opened_reads c' its max_vidbuf max_audbuf (map mended its) b (index_chunk (map mended its)) a); [done | by rewrite Hchans | done | apply index_ends | done].
Qed.
End Repair.

(** C8. An interrupted recording is repaired: [avi_fix_bad_file] answers how many seconds
    the recording has, writes the length of the frames and sounds into the header and puts an
    index at the end, with the place and the padded length of every frame and sound; the
    settings that are seen stay. When the first frame needs no padding the repaired file
    opens with that index, and all its frames and sounds are read. *)
Theorem repaired_recording_opens c its widx old max_vidbuf max_audbuf : repairable c its -> zlen old <= HEADERBYTES ->
  exists b arate bits fmt h, recorded c widx old its false = Some b /\
    let c' := again c arate bits fmt in let b' := with_index_of h its (map mended its) in
    header_of c' (zlen (body its) + 4) h /\ zlen h = HEADERBYTES /\ avi_fix_bad_file b [] true true = Ret (length_secs c its, b') () /\
    (first_even its -> Forall (fits_buffer max_vidbuf max_audbuf) its ->
      exists a, AVI_open_input_file (Some b') true = Ret (Some a) () /\ opened c' (map mended its) b' a /\
        exists a', read_times (S (length its)) max_vidbuf max_audbuf a = Ret (map given its ++ [(0, [])]) a').
Proof.
  intros Hrep Hold. pose proof Hrep as [[Hc Hok Hkeys Hsmall Hv] Hlong Hsnd Hbits].
  destruct (recorded_interrupted c widx its Hc Hok Hkeys Hsmall old Hold) as (h & Hh & Hlen & Hrec).
  destruct (fix_run c h its Hc Hh Hlen Hok Hlong Hsmall Hsnd Hbits Hv) as (arate & bits & fmt & h' & Hc' & Hh' & Hlen' & Hfix).
  exists (h ++ body its ++ []), arate, bits, fmt, h'. do 4 (split; [done|]). intros He Hfit. by apply (open_repaired c).
Qed.

(** ** Concrete repairs *)

(** Three frames, the first of [n] bytes and the start of a key frame of MPEG-4, and a sound. *)
Definition mpeg_item (audio : bool) (first n : Z) : item := Build_item audio 0 [chr 0; chr 0; chr 1; chr first; chr 5; chr 6] n.
Definition mpeg_items (n : Z) : list item := [mpeg_item false 0xb0 n; mpeg_item false 0xb6 6; mpeg_item true 7 5; mpeg_item false 0xb6 5].

Lemma mpeg_repairable n : 3 <= n <= 6 -> repairable example_settings (mpeg_items n).
Proof.
  intros Hn. assert (Hit : forall audio first k, 3 <= k <= 6 -> item_ok (mpeg_item audio first k)).
  { intros audio first k Hk. split; [cbn; lia|]. split; [|by vm_compute]. cbn [mpeg_item it_len it_mem length]. rewrite pad_even.
    pose proof (Z.div_le_mono (k + 1) 7 2 ltac:(lia) ltac:(lia)). change (7 / 2) with 3 in *. lia. }
  assert (Hlen : forall audio first k, 3 <= k -> long_enough (mpeg_item audio first k)).
  { intros audio first k Hk _. cbn [mpeg_item it_len]. rewrite pad_even. pose proof (Z.div_le_mono 4 (k + 1) 2 ltac:(lia) ltac:(lia)). change (4 / 2) with 2 in *. lia. }
  assert (Hk : Forall key_ok (mpeg_items n)) by (repeat (constructor; [by left|]); constructor).
  pose proof (example_recording_ok 0 ltac:(lia)) as [Hc _ _ _ _].
  split; [split; [done | | done | | done] | | done | done].
  - repeat (constructor; [apply Hit; lia|]). constructor.
  - unfold small. cbn [mpeg_items body map concat]. rewrite !length_app, !Nat2Z.inj_add, !chunk_length by (apply Hit; lia). cbn [mpeg_item it_len length]. unfold HEADERBYTES.
    pose proof (pad_even_bounds n). change (PAD_EVEN 6) with 6. change (PAD_EVEN 5) with 6. change (zlen (mpeg_items n)) with 4. lia.
  - repeat (constructor; [apply Hlen; lia|]). constructor.
Qed.

Lemma repaired_recording_opens_witness : exists b b' a a', recorded example_settings true [] (mpeg_items 6) false = Some b /\
  avi_fix_bad_file b [] true true = Ret (3, b') () /\ AVI_open_input_file (Some b') true = Ret (Some a) () /\
  option_map (map ix_key) (video_index a) = Some [1; 0; 0] /\
  read_times 5 6 6 a = Ret (map given (mpeg_items 6) ++ [(0, [])]) a'.
Proof.
  destruct (repaired_recording_opens example_settings (mpeg_items 6) true [] 6 6 (mpeg_repairable 6 ltac:(lia)) ltac:(discriminate))
    as (b & arate & bits & fmt & h & Hrec & _ & _ & Hfix & Hopen).
  destruct (Hopen ltac:(done)) as (a & Ha & Hop & a' & Hread); [repeat (constructor; [by vm_compute|]); constructor|].
  exists b, (with_index_of h (mpeg_items 6) (map mended (mpeg_items 6))), a, a'. split; [done|]. split; [done|]. split; [done|].
  split; [|done]. by rewrite (op_index _ _ _ _ Hop).
Defined.

(** Whether a file opens; whether a recording that was interrupted opens before its repair
    and after it. *)
Definition opens (b : cstr) : option bool := match AVI_open_input_file (Some b) true with Ret (Some _) _ => Some true | Ret None _ => Some false | _ => None end.
Definition opens_twice (c : settings) (its : list item) : option (bool * bool) :=
  b ← recorded c true [] its false; before ← opens b;
  match avi_fix_bad_file b [] true true with Ret (_, b') _ => after ← opens b'; Some (before, after) | _ => None end.

(** When the first frame is padded, its entry is not that of its chunk, and the repaired
    file, which opened before, does not open. *)
Lemma odd_first_frame_lost : opens_twice example_settings (mpeg_items 6) = Some (true, true) /\ opens_twice example_settings (mpeg_items 5) = Some (true, false).
Proof. split; vm_compute; reflexivity. Qed.
