(* ===== verification/FileConvert.v ===== *)
(** * Recordings that were interrupted (src/libsrc/fileindex/fileindex.c)

    When the recorder starts, [fileindex_convert_ing] goes over the recordings that the
    index of a partition still has as being recorded: each is renamed, repaired by
    [avi_fix_bad_file] and given a name with its length. *)

From Stdlib Require Import Ascii String.
From stdpp Require Import gmap strings.
From S2P Require Import Prelude Update Ctime Cstring Avi RecName FileIndex.

Definition OLD_FILE_EXT : cstr := lit "_OLD.AVI".

Section Convert.
(** As in FileIndex; of the files that are repaired: what the calls of [write] return,
    whether they open for writing, and whether their index file can be made. *)
Variables (e : disk_env) (tz : Z) (junk : file_info_struct).
Variables (avi_writes : cstr -> list Z) (writable widx : cstr -> bool).

Definition fix_file (name : cstr) : M index_st Z :=
  s ← get_st;
  match (files s !! name : option cstr) with
  | None => mret (-1)
  | Some c =>
      match Avi.avi_fix_bad_file c (avi_writes name) (writable name) (widx name) with
      | Ret (ret, c) _ => put_st (s <| files := <[name := (c : cstr)]> (files s) |>) ;; mret ret
      | Blocked _ => blocked
      | Exited c _ => exit_with c
      | Undef => undef
      end
  end.

Definition rename_file (oldname newname : cstr) : M index_st Z :=
  b ← exists_file oldname; if negb b then mret (-1) else rename e oldname newname.

(** The three names: of the file now (put together again in its own memory), under which it
    is repaired, and the one that the length goes into.  [None]: the memory is too short. *)
Definition convert_names (ingfile : cstr) (lp : nat) : option (cstr * cstr * cstr) :=
  let stem := take lp ingfile in
  let ret := (length ingfile - lp)%nat in
  if (4 <? ret)%nat then
    if (ret <? 11)%nat then None
    else Some (stem ++ lit ".ING" ++ lit "-ps.mpg", stem ++ lit "_OLD" ++ lit "-ps.mpg", stem ++ lit "-ps.mpg")
  else Some (stem ++ RECORDING_FILE_EXT, stem ++ OLD_FILE_EXT, stem ++ IMG_FILE_EXT).

(** The name with the length; [tmp] takes 40 characters and no NUL after them. *)
Definition final_name (aviname : cstr) (time : Z) : option (option cstr) :=
  match strchr aviname "L" with
  | None => Some None
  | Some lp =>
      let lp := S lp in
      match strchr (drop lp aviname) "_" with
      | None => None
      | Some k =>
          let lk := drop (lp + k) aviname in
          if (40 <=? length lk)%nat then None else Some (Some (take lp aviname ++ fmt_d 2 time ++ lk))
      end
  end.

Definition convert_repaired (h : option nat) (oldaviname aviname : cstr) (time : Z) : M index_st Z :=
  final ← access (final_name aviname time);
  match final with
  | None => mret 0
  | Some finalname =>
      fits 100 finalname ;;
      fileindex_add tz junk h finalname ;;
      ret ← rename_file oldaviname finalname;
      (if ret =? 0 then fileindex_del_file h oldaviname else fileindex_del_file h finalname) ;;
      mret 0
  end.

(** A failed repair prints the name as a format into 100 bytes. *)
Definition convert_failed (oldaviname : cstr) : M index_st Z :=
  match strchr oldaviname "%" with Some _ => undef | None => fits 100 oldaviname ;; mret 0 end.

(** From the file's status on: it is repaired when the disk has room for another one. *)
Definition convert_old (h : option nat) (oldaviname aviname : cstr) : M index_st Z :=
  s ← get_st;
  match (files s !! oldaviname : option cstr) with
  | None => mret 0
  | Some c =>
      '(_, info) ← access (hdutil_filename2finfo tz oldaviname junk);
      freesize ← get_disk_free e (cstring (info_partition info));
      if freesize <? Z.shiftr (zlen c) 20 then mret 0 else
      time ← match strstr oldaviname (lit "ps") with Some _ => mret 22 | None => fix_file oldaviname end;
      if 0 <=? time then convert_repaired h oldaviname aviname time else convert_failed oldaviname
  end.

Definition convert_ing_file (h : option nat) (ingfile : cstr) : M index_st Z :=
  match h with
  | None => mret 0
  | Some _ =>
      b ← exists_file ingfile;
      if negb b then fileindex_del_file h ingfile ;; mret 0 else
      match strstr ingfile RECORDING_FILE_EXT with
      | None => mret 0
      | Some lp =>
          '(ingfile, oldaviname, aviname) ← access (convert_names ingfile lp);
          fits 200 oldaviname ;; fits 200 aviname ;;
          fileindex_add tz junk h oldaviname ;;
          ret ← rename_file ingfile oldaviname;
          if negb (ret =? 0) then fileindex_del_file h oldaviname ;; mret 0 else
          fileindex_del_file h ingfile ;; convert_old h oldaviname aviname
      end
  end.

Definition convert_ing_callback (h : option nat) (r : index_row) : M index_st () :=
  convert_ing_file h (r_name r) ;; mret ().

(** The rows of a query whose callback changes the table: one that was deleted before it is
    come to is not given. *)
Fixpoint each_left (d : nat) (callback : index_row -> M index_st ()) (rs : list index_row) : M index_st () :=
  match rs with
  | [] => mret ()
  | r :: rs =>
      s ← get_st; t ← access (tables s !! d);
      (if existsb (named (r_name r)) t then callback r else mret ()) ;; each_left d callback rs
  end.

Definition being_recorded (r : index_row) : bool := r_ing r =? 1.

Definition fileindex_convert_ing (mountpath : cstr) : M index_st Z :=
  h ← GetDabase mountpath;
  match h with
  | None => mret 0
  | Some h =>
      exec_sqlcmd h (fun d => s ← get_st; t ← access (tables s !! d);
        each_left d (convert_ing_callback h) (sql_scan e (List.filter being_recorded t))) ;;
      mret 0
  end.
End Convert.
