(* ===== verification/FileConvertThms.v ===== *)
(** * Interrupted recordings get their names and their index

    [fileindex_convert_ing] on the recordings that the recorder was writing when it
    stopped: the names it makes, what is read from them, and the disk and the index after
    it. *)

From Stdlib Require Import Ascii String.
From stdpp Require Import gmap strings sorting.
From S2P Require Import Prelude Update Ctime Cstring RecThread Avi AviFile AviOpen AviThms AviRepair.
From S2P Require Import RecName RecNameThms FileIndex FileIndexThms FileIndexLock DiskMan DiskManThms DiskManRuns FileConvert.

(** ** Names *)

(** The flags of the name that the recorder gives. *)
Definition name_flags (i : file_info_struct) : cstr :=
  (if info_remote i =? 1 then [REMOTE_TRIG_FLAG] else []) ++ (if (info_remote i =? 1) || negb (info_trig i =? 0) then [LOCK_FILE_FLAG] else []).

(** The name without its extension; while the file is recorded, repaired, and at the end. *)
Definition stem (tz : Z) (i : file_info_struct) : cstr := finfo_base tz i ++ name_flags i.
Definition ing_name (tz : Z) (i : file_info_struct) : cstr := stem tz i ++ RECORDING_FILE_EXT.
Definition old_name (tz : Z) (i : file_info_struct) : cstr := stem tz i ++ OLD_FILE_EXT.

Lemma name_of_stem tz i : finfo2filename tz i = stem tz i ++ IMG_FILE_EXT.
Proof. rewrite filename_flagged. unfold flagged, stem, name_flags. by rewrite <- !app_assoc. Qed.

Section Names.
Variables (tz : Z) (disk part : ascii) (i : file_info_struct).
Hypotheses (Htz : - 86400 <= tz <= 86400) (Hok : info_ok disk part i).

Lemma after_stem ext c p : ext = c :: p -> plain c = false -> c <> REMOTE_TRIG_FLAG -> c <> LOCK_FILE_FLAG ->
  forall e, strstr (stem tz i ++ e) ext = Nat.add (length (stem tz i)) <$> strstr e ext.
Proof.
  intros -> Hc Hr Hl e. apply strstr_skip_ne. unfold stem, name_flags. rewrite !Forall_app. split_and!.
  - eapply list.Forall_impl; [by eapply base_plain|]. intros x Hx ->. congruence.
  - destruct (_ =? _); repeat constructor. done.
  - destruct (_ || _); repeat constructor. done.
Qed.

(** The file is recorded under this name. *)
Lemma recording_name_is : RecThread.recording_name (finfo2filename tz i) = ing_name tz i.
Proof.
  rewrite name_of_stem. unfold RecThread.recording_name, ing_name. rewrite (after_stem IMG_FILE_EXT "."%char (lit "AVI")) by done.
  change (strstr IMG_FILE_EXT IMG_FILE_EXT) with (Some 0%nat). cbn [fmap option_fmap option_map].
  by rewrite Nat.add_0_r, take_app_length.
Qed.

Lemma names_run : strstr (ing_name tz i) RECORDING_FILE_EXT = Some (length (stem tz i)) /\
  convert_names (ing_name tz i) (length (stem tz i)) = Some (ing_name tz i, old_name tz i, finfo2filename tz i).
Proof.
  split.
  - unfold ing_name. rewrite (after_stem RECORDING_FILE_EXT "."%char (lit "ING")) by done.
    change (strstr RECORDING_FILE_EXT RECORDING_FILE_EXT) with (Some 0%nat). cbn [fmap option_fmap option_map]. by rewrite Nat.add_0_r.
  - unfold convert_names, ing_name, old_name. rewrite name_of_stem, length_app, take_app_length.
    by replace (length (stem tz i) + _ - length (stem tz i))%nat with 4%nat by (cbn [RECORDING_FILE_EXT length list_ascii_of_string]; lia).
Qed.

Lemma stem_length : (length (stem tz i) <= 77)%nat.
Proof.
  pose proof (base_length tz disk part i Htz Hok). unfold stem, name_flags. rewrite !length_app.
  destruct (info_remote i =? 1), (info_trig i =? 0); cbn; lia.
Qed.



(** Neither the disk nor the partition is called by one of these letters. *)
Definition letters_ok (disk part : ascii) : Prop := Forall (fun c => c <> "L"%char /\ c <> "p"%char) [disk; part].






Hypothesis Hletters : letters_ok disk part.




(** What is read from the names. *)
Lemma ended_decoded ext (name : cstr) junk : name = stem tz i ++ ext -> length (info_partition junk) = 16%nat ->
  let fl := name_flags i ++ ext in
  match fl with c :: _ => isalnum c = false | [] => True end -> (length fl <= 20)%nat ->
  (forall info, finfo_loop (length fl + 1) tz fl false info = Some (0, info)) -> bool_decide (is_Some (strstr fl RECORDING_FILE_EXT)) = false ->
  exists i', hdutil_filename2finfo tz name junk = Some (0, i') /\ (length (insert_text (row_of name i')) < 200)%nat /\
    cstring (info_partition i') = partition_name disk part /\
    r_ing (row_of name i') = 0 /\ stime i' = stime i /\ info_len i' = info_len i /\ info_channel i' = info_channel i /\ info_trig i' = info_trig i.
Proof.
  intros -> Hj fl Hhd Hl Hend Hing. destruct (parse_ended tz disk part i Htz Hok fl junk Hhd Hl Hend Hj) as (i' & Hp & Hst & Hch & Hlen & Htr & _ & Hlk & Hi & Hpart).
  rewrite Hing in Hi. assert (Hname : finfo_base tz i ++ fl = stem tz i ++ ext) by (unfold fl, stem; by rewrite app_assoc). rewrite Hname in Hp.
  exists i'. split; [done|]. pose proof stem_length. unfold fl, stem in *. rewrite !length_app in *. destruct Hok.
  split; [|done]. eapply (insert_fits _ _ _ false); [rewrite !length_app; lia | by rewrite Hch | by rewrite Htr | exact Hlk | exact Hi].
Qed.

Lemma old_decoded junk : length (info_partition junk) = 16%nat ->
  exists i', hdutil_filename2finfo tz (old_name tz i) junk = Some (0, i') /\ (length (insert_text (row_of (old_name tz i) i')) < 200)%nat /\
    cstring (info_partition i') = partition_name disk part /\ r_ing (row_of (old_name tz i) i') = 0.
Proof.
  intros Hj. destruct (ended_decoded OLD_FILE_EXT (old_name tz i) junk eq_refl Hj) as (i' & ? & ? & ? & ? & _); [..|by exists i'];
    unfold name_flags; destruct (info_remote i =? 1), (info_trig i =? 0); try done; cbn; lia.
Qed.


Lemma stem_plain x : plain x = false -> x <> REMOTE_TRIG_FLAG -> x <> LOCK_FILE_FLAG -> Forall (fun c => c <> x) (stem tz i).
Proof.
  intros Hx Hr Hl. unfold stem, name_flags. rewrite !Forall_app. split_and!.
  - eapply list.Forall_impl; [by eapply base_plain|]. intros c Hc ->. congruence.
  - destruct (_ =? _); repeat constructor. done.
  - destruct (_ || _); repeat constructor. done.
Qed.

(** The names fit their buffers and can be in a statement. *)
Lemma stem_names ext : (length ext <= 8)%nat -> ~ In "'"%char ext -> (length (stem tz i ++ ext) <= 85)%nat /\ strchr (stem tz i ++ ext) "'" = None.
Proof.
  intros Hl Hq. split; [rewrite length_app; pose proof stem_length; lia|]. apply strchr_none, Forall_app. split; [by apply stem_plain|].
  apply list.Forall_forall. intros c Hc%list_elem_of_In ->. done.
Qed.


End Names.

(** ** One recording *)

(** A recording that was interrupted: what its name says, the two characters of its
    partition, its settings, the frames and sounds that were written and what the file had
    before. *)
Record cut := {
  ct_disk : ascii; ct_part : ascii; ct_info : file_info_struct; ct_settings : settings;
  ct_items : list item; ct_widx : bool; ct_old : cstr
}.

Definition cut_seconds (c : cut) : Z := length_secs (ct_settings c) (ct_items c).

(** The name it gets. *)
Definition cut_final (tz : Z) (c : cut) : cstr := finfo2filename tz ((ct_info c) <| info_len := cut_seconds c |>).

Record cut_ok (c : cut) : Prop := {
  cu_info : info_ok (ct_disk c) (ct_part c) (ct_info c);
  cu_letters : letters_ok (ct_disk c) (ct_part c);
  cu_repairable : repairable (ct_settings c) (ct_items c);
  cu_old : zlen (ct_old c) <= Avi.HEADERBYTES;
  cu_stop : stime (ct_info c) + cut_seconds c < 2 ^ 31
}.


Lemma cut_seconds_range c : cut_ok c -> 0 <= cut_seconds c < 2 ^ 31.
Proof.
  intros [_ _ [[[_ _ Hr _ _] Hok _ Hs Hv] _ _ _] _ _]. pose proof (AviOpen.body_count _ Hok). pose proof (mended_count (ct_items c)).
  unfold cut_seconds, length_secs. unfold small, Avi.HEADERBYTES in Hs.
  split; [apply Z.div_pos; lia | apply Z.div_lt_upper_bound; nia].
Qed.


(** ** The call on one recording *)

Section Convert.
Variables (e : disk_env) (tz : Z) (junk : file_info_struct) (avi_writes : cstr -> list Z) (writable widx : cstr -> bool).
Hypotheses (Htz : - 86400 <= tz <= 86400) (Hjunk : length (info_partition junk) = 16%nat).
Hypotheses (Hrename : forall old new, rename_errno e old new = 0) (Hroom : forall f m, 2048 <= free_of e f m).
Hypotheses (Hwrites : forall n, avi_writes n = []) (Hwritable : forall n, writable n = true) (Hwidx : forall n, widx n = true).
Implicit Types (s : index_st) (t : list index_row) (c : cut).

Definition with_files s (f : files_t) : index_st := s <| files := f |>.

Lemma exists_run n s b : files s !! n = Some b -> exists_file n s = Ret true s.
Proof. intros Hn. unfold exists_file. rewrite (bind_ret _ _ s s s) by done. by rewrite Hn. Qed.

Lemma rename_file_run old new s b : files s !! old = Some b ->
  rename_file e old new s = Ret 0 (with_files s (<[new := b]> (delete old (files s)))).
Proof.
  intros Ho. unfold rename_file. rewrite (bind_ret _ _ _ _ _ (exists_run _ _ _ Ho)). cbn [negb]. unfold rename. rewrite Hrename. change (0 =? 0) with true. cbv iota.
  rewrite (bind_ret _ _ s s s) by done. rewrite (bind_access _ _ _ b) by exact Ho. by rewrite bind_put.
Qed.



Lemma final_info_ok c : cut_ok c -> info_ok (ct_disk c) (ct_part c) ((ct_info c) <| info_len := cut_seconds c |>).
Proof. intros Hc. pose proof (cut_seconds_range c Hc). destruct (cu_info c Hc). by split. Qed.



(** The names of a recording fit, and can be in a statement. *)
Lemma cut_names_fit c : cut_ok c -> let ing := ing_name tz (ct_info c) in let old := old_name tz (ct_info c) in let final := cut_final tz c in
  ((length ing <= 85)%nat /\ strchr ing "'" = None) /\ ((length old <= 85)%nat /\ strchr old "'" = None) /\
  (length (finfo2filename tz (ct_info c)) <= 85)%nat /\ ((length final <= 85)%nat /\ strchr final "'" = None).
Proof.
  intros Hc ing old final. pose proof (cu_info c Hc) as Hi.
  assert (Hext : forall i ext, info_ok (ct_disk c) (ct_part c) i -> ext = RECORDING_FILE_EXT \/ ext = OLD_FILE_EXT \/ ext = IMG_FILE_EXT ->
    (length (stem tz i ++ ext) <= 85)%nat /\ strchr (stem tz i ++ ext) "'" = None).
  { intros i ext Hinfo He. apply (stem_names tz _ _ _ Htz Hinfo); destruct He as [-> | [-> | ->]]; cbn; intuition (lia || discriminate). }
  split; [apply Hext; tauto|]. split; [apply Hext; tauto|].
  split; [rewrite name_of_stem; apply Hext; tauto|]. unfold final, cut_final. rewrite name_of_stem. apply Hext; [by apply final_info_ok | tauto].
Qed.

(** Up to the new name of the file that is to be repaired: its row is not one of a file
    that is being recorded. *)
Definition renamed_rows c r1 t : list index_row := List.filter (fun r => negb (named (ing_name tz (ct_info c)) r)) (t ++ [r1]).
Definition renamed_files c (b : cstr) (f : files_t) : files_t := <[old_name tz (ct_info c) := b]> (delete (ing_name tz (ct_info c)) f).
Definition set_aside c d r1 b t s : index_st := with_files (table_set d (renamed_rows c r1 t) s) (renamed_files c b (files s)).

Lemma convert_start c d b s t : cut_ok c -> waits s -> tables s !! d = Some t -> files s !! ing_name tz (ct_info c) = Some b ->
  exists i1, let r1 := row_of (old_name tz (ct_info c)) i1 in r_ing r1 = 0 /\ hdutil_filename2finfo tz (old_name tz (ct_info c)) junk = Some (0, i1) /\
    convert_ing_file e tz junk avi_writes writable widx (Some d) (ing_name tz (ct_info c)) s =
      convert_old e tz junk avi_writes writable widx (Some d) (old_name tz (ct_info c)) (finfo2filename tz (ct_info c)) (set_aside c d r1 b t s).
Proof.
  intros Hc Hw Ht Hf. pose proof (cu_info c Hc) as Hi. destruct (old_decoded tz _ _ _ Htz Hi junk Hjunk) as (i1 & Hp1 & Hfit1 & _ & Hing1).
  destruct (cut_names_fit c Hc) as ([Hn1 Hq1] & [Hn2 Hq2] & Hn3 & _). destruct (names_run tz _ _ _ Htz Hi) as [Hstr Hnames].
  exists i1. split; [done|]. split; [done|]. unfold set_aside, renamed_rows, renamed_files.
  set (ing := ing_name tz (ct_info c)) in *. set (old := old_name tz (ct_info c)) in *. set (base := finfo2filename tz (ct_info c)) in *. clearbody ing old base.
  unfold convert_ing_file. rewrite (bind_ret _ _ _ _ _ (exists_run _ _ _ Hf)). cbn [negb]. rewrite Hstr, (bind_access _ _ _ _ Hnames). cbv beta iota.
  rewrite (bind_ret _ _ _ _ _ (fits_run s 200 old ltac:(lia))), (bind_ret _ _ _ _ _ (fits_run s 200 base ltac:(lia))).
  rewrite (bind_ret _ _ _ _ _ (add_run tz junk d old i1 s t Hw Ht Hq2 Hp1 Hfit1)). set (t1 := t ++ [row_of old i1]). set (s1 := table_set d t1 s).
  assert (Ht1 : tables s1 !! d = Some t1) by (cbn; apply list_lookup_insert_eq; by eapply lookup_lt_Some).
  rewrite (bind_ret _ _ _ _ _ (rename_file_run ing old s1 b Hf)). change (negb (0 =? 0)) with false. cbv iota. set (f1 := <[old := b]> (delete ing (files s1))).
  rewrite (bind_ret _ _ _ _ _ (del_run junk Hjunk d ing (with_files s1 f1) t1 (Forall_nil_2 _) Ht1 Hq1 ltac:(lia))).
  f_equal. unfold s1, with_files, table_set. cbn. by rewrite list_insert_insert_eq.
Qed.

(** A file that finds no room for another is not repaired, and not come to again. *)
Lemma no_room_not_repaired c d b s t : cut_ok c -> waits s -> tables s !! d = Some t -> files s !! ing_name tz (ct_info c) = Some b ->
  (forall f m, free_of e f m < Z.shiftr (zlen b) 20) ->
  exists r1, r_name r1 = old_name tz (ct_info c) /\ being_recorded r1 = false /\
    convert_ing_file e tz junk avi_writes writable widx (Some d) (ing_name tz (ct_info c)) s = Ret 0 (set_aside c d r1 b t s).
Proof.
  intros Hc Hw Ht Hf Hfull. destruct (convert_start c d b s t Hc Hw Ht Hf) as (i1 & Hing1 & Hp1 & ->).
  exists (row_of (old_name tz (ct_info c)) i1). split; [done|]. split; [unfold being_recorded; by rewrite Hing1|]. set (s2 := set_aside _ _ _ _ _ _).
  unfold convert_old. rewrite (bind_ret _ _ s2 s2 s2) by done. change (files s2) with (renamed_files c b (files s)). unfold renamed_files at 1. rewrite lookup_insert_eq.
  rewrite (bind_access _ _ _ _ Hp1). cbv beta iota. unfold get_disk_free. rewrite bind_assoc, (bind_ret _ _ s2 s2 s2) by done.
  rewrite (bind_ret _ _ s2 (free_of e (files s2) (cstring (info_partition i1))) s2) by done. by rewrite (proj2 (Z.ltb_lt _ _)).
Qed.


(** ** All recordings of an index *)








End Convert.

(** ** After a restart *)


(** ** A concrete restart *)







