(* ===== verification/Playback.v ===== *)
(** * Playing recordings back (src/recordplay)

    Five sessions read recordings and send their frames to viewers: a thread per session
    reads a frame and sends it, another accepts the viewers' connections, and the main
    process passes commands on.  The calls on one session get a pointer to it: they are
    calls on a [view_st].  An AVI file is seen as its chunks and its index of frames;
    [open_view], what opening one gives, is an argument here and is defined, with the
    proof that the reader of the file's bytes does what this view of it says, in AviView.
    The devices' answers are arguments too. *)

From Stdlib Require Import Ascii String.
From stdpp Require Import gmap strings sorting.
From S2P Require Import Prelude Update Ctime Cstring RecName FileIndex DiskMan RecordSort.

Definition PLAYBACK_NUM : Z := 5.
Definition MAX_PLAYBACK_NUM : Z := 5.
Definition PLAYBACK_FRAMERATE_25 : Z := 25.
Definition PRE_CONNECT_SEC_MAX : Z := 30.
Definition PLAYBACK_BUFF_LEN : Z := 400 * 1024.
Definition GTSF_HEAD_SIZE : Z := 28.

Definition PLAYBACK_STAT_IDLE : Z := 0.
Definition PLAYBACK_STAT_USED : Z := 1.
Definition PLAYBACK_STAT_OK : Z := 2.

Definition PLAYBACK_CTRL_IDLE : Z := 0.
Definition PLAYBACK_CTRL_CLOSE : Z := 2.
Definition PLAYBACK_CTRL_PAUSE : Z := 3.
Definition PLAYBACK_CTRL_SEEK : Z := 6.

Definition PLAYBACK_SOURCE_FILE : Z := 0.
Definition PLAYBACK_SOURCE_POOL : Z := 1.

Definition PLAYBACK_SUCCESS : Z := 0.
Definition PLAYBACK_ERR_PARAM : Z := -2.
Definition PLAYBACK_ERR_USER_FULL : Z := -3.
Definition PLAYBACK_ERR_NO_FILE : Z := -4.
Definition PLAYBACK_ERR_FILE_ACCESS : Z := -5.
Definition PLAYBACK_ERR_NO_OPEN : Z := -6.
Definition PLAYBACK_ERR_CONNECT : Z := -7.
Definition PLAYBACK_ERR_FILE_NOINDEX : Z := -9.

(** enum transpeed *)
Definition PLAYBACK_QSPEED : Z := 0.
Definition PLAYBACK_HSPEED : Z := 1.
Definition PLAYBACK_NSPEED : Z := 2.
Definition PLAYBACK_2SPEED : Z := 3.
Definition PLAYBACK_4SPEED : Z := 4.
Definition PLAYBACK_ISPEED : Z := 5.

(** ** AVI files

    What AVI_read_data promises of a file of chunks. *)

(** A chunk's data has its padding; a list's tag and the chunks of other tags are passed
    over.  A chunk that is cut short by the end of the file is not one. *)
Inductive chunk := Video_chunk (data : list Z) | Audio_chunk (data : list Z) | Other_chunk.

(** An entry of the index: which chunk the frame is, and its flags. *)
Record view_entry := { ix_at : nat; ix_key : Z }.

(** [avi_at] is the chunk at the position of the file's descriptor.  The rate is the
    whole number that the recorder writes. *)
Record avi_view := {
  chunks : list chunk; avi_at : nat; video_index : option (list view_entry);
  video_pos : Z; video_frames : Z; fps : Z; width : Z; height : Z
}.

#[export] Instance avi_view_settable : Settable avi_view := {| rebuild := fun a =>
  Build_avi_view (chunks a) (avi_at a) (video_index a) (video_pos a) (video_frames a) (fps a) (width a) (height a) |}.

(** The next chunk of [cs], the rest of the file: 1 and a frame, 2 and sound, 0 at the
    end, -1 and -2 when the chunk does not fit. *)
Fixpoint read_chunks (cs : list chunk) (max_vidbuf max_audbuf : Z) (a : avi_view) : Z * list Z * avi_view :=
  match cs with
  | [] => (0, [], a)
  | c :: cs =>
      let a := a <| avi_at ::= S |> in
      match c with
      | Other_chunk => read_chunks cs max_vidbuf max_audbuf a
      | Video_chunk d =>
          let a := a <| video_pos ::= Z.succ |> in
          if max_vidbuf <? zlen d then (-1, [], a) else (1, d, a)
      | Audio_chunk d => if max_audbuf <? zlen d then (-2, [], a) else (2, d, a)
      end
  end.

Definition view_read_data (max_vidbuf max_audbuf : Z) (a : avi_view) : Z * list Z * avi_view :=
  read_chunks (drop (avi_at a) (chunks a)) max_vidbuf max_audbuf a.

(** [lseek] to the header of the frame [video_pos]; [None] past the index. *)
Definition seek_frame (idx : list view_entry) (a : avi_view) : option avi_view :=
  ix ← geti idx (video_pos a); Some (a <| avi_at := ix_at ix |>).

(** ** Sessions *)

Record playback_struct := {
  pb_channel : Z; pb_sourcefrom : Z; pb_frames : Z; Indexfilename : cstr; pb_fileindex : Z;
  recordfiletotal : Z; lastframe : Z; pb_aviinfo : option avi_view; pb_start : Z; pb_stop : Z;
  framrate : Z; pb_state : Z; pb_oper : Z; pre_connect : Z; pb_peeraddr : cstr; pb_peerport : Z;
  pb_speed : Z; pb_socket : Z; packetsum : Z; playbackindex : Z; audio_source : Z
}.

#[export] Instance playback_settable : Settable playback_struct := {| rebuild := fun p =>
  Build_playback_struct (pb_channel p) (pb_sourcefrom p) (pb_frames p) (Indexfilename p) (pb_fileindex p)
    (recordfiletotal p) (lastframe p) (pb_aviinfo p) (pb_start p) (pb_stop p) (framrate p) (pb_state p)
    (pb_oper p) (pre_connect p) (pb_peeraddr p) (pb_peerport p) (pb_speed p) (pb_socket p) (packetsum p)
    (playbackindex p) (audio_source p) |}.

(** [memset] of a session. *)
Definition playback_zero : playback_struct :=
  Build_playback_struct 0 0 0 [] 0 0 0 None 0 0 0 0 0 0 [] 0 0 0 0 0 0.

(** The files and the session a call is given. *)
Record view_st := { vw_index : index_st; vw : playback_struct }.
#[export] Instance view_settable : Settable view_st := {| rebuild := fun v => Build_view_st (vw_index v) (vw v) |}.

(** A call on the files. *)
Definition vw_on_index {A} (m : M index_st A) : M view_st A := fun v =>
  match m (vw_index v) with
  | Ret a i => Ret a (v <| vw_index := i |>)
  | Blocked i => Blocked (v <| vw_index := i |>)
  | Exited c i => Exited c (v <| vw_index := i |>)
  | Undef => Undef
  end.

Definition edit (f : playback_struct -> playback_struct) : M view_st () := modify (fun v : view_st => v <| vw ::= f |>).
Definition vw_file (name : cstr) : M view_st (option cstr) := gets (fun v : view_st => files (vw_index v) !! name).

Section Playback.
Variables (e : disk_env) (v : dm_env) (tz : Z) (junk : file_info_struct).
Variable qsort : (cstr -> cstr -> Z) -> list cstr -> list cstr.
(** Opening a file for reading, and whether the byte before the array [lastfile] is one
    that may be written (C does not say; in the compiled code it is the end of another
    array). *)
Variables (open_view : files_t -> cstr -> option avi_view) (stray_write : bool).

(** ** Files *)

(** [rm -rf] of a file. *)
Definition rm_rf (name : cstr) : M index_st () :=
  modify (fun s : index_st => s <| files ::= fun f : files_t => delete name f |>).

(** A program that [system] runs: it ends and leaves its files. *)
Definition system_run (m : M index_st ()) : M index_st () := fun i =>
  match m i with
  | Ret _ i | Exited _ i => Ret () i
  | Blocked i => Blocked i
  | Undef => Undef
  end.

Definition tmp_name (start queryid : Z) : cstr :=
  lit "/hqdata/index/" ++ fmt_d 0 start ++ lit "-" ++ fmt_d 0 queryid ++ lit "-tmp.txt".
Definition index_name (start queryid : Z) : cstr :=
  lit "/hqdata/index/" ++ fmt_d 0 start ++ lit "-" ++ fmt_d 0 queryid ++ lit ".txt".

(** The first argument of the code is where it writes the name of the list. *)
Definition query_record_index (queryid ch start stop : Z) : M view_st Z :=
  let tmpname := tmp_name start queryid in
  if negb (append_ok e tmpname) then mret PLAYBACK_ERR_FILE_ACCESS else
  vw_on_index (put_file tmpname []) ;;
  let queryindex := {| q_start := start; q_stop := stop; q_ch := ch; q_trig_flag := -1 |} in
  vw_on_index (mpdisk_process_all_partitions v (fun path => fileindex_query_index e path tmpname queryindex)) ;;
  text ← vw_file tmpname;
  if (length (default [] text) =? 0)%nat then mret PLAYBACK_ERR_NO_FILE else
  let indexname := index_name start queryid in
  vw_on_index (system_run (record_sort_main e qsort tmpname indexname)) ;;
  vw_on_index (rm_rf tmpname) ;;
  edit (fun p => p <| Indexfilename := indexname |>) ;;
  mret PLAYBACK_SUCCESS.

(** A line without its last character. *)
Definition chop (line : cstr) : cstr := take (length line - 1) line.

(** The lines that are left: how many. *)
Fixpoint count_lines (fuel : nat) (s : cstr) : Z :=
  match fuel, s with
  | S fuel, _ :: _ => 1 + count_lines fuel (snd (fgets 255 s))
  | _, _ => 0
  end.

(** The line [n] from 1, or the last; [None] of an empty file. *)
Fixpoint nth_line (fuel : nat) (n : Z) (s : cstr) (filename : option cstr) : option cstr :=
  match fuel, s with
  | S fuel, _ :: _ =>
      let '(line, s) := fgets 255 s in
      if n <=? 1 then Some line else nth_line fuel (n - 1) s (Some line)
  | _, _ => filename
  end.

(** "/hqdata" and the name are put together in 256 bytes. *)
Definition open_recording (filename : cstr) : M view_st (option avi_view) :=
  if (length filename <? 249)%nat
  then gets (fun v : view_st => open_view (files (vw_index v)) (lit "/hqdata" ++ filename))
  else undef.

(** How many frames [passtime] seconds are. *)
Definition avi_frames (a : avi_view) (passtime : Z) : Z :=
  i32 (if fps a =? 0 then passtime * PLAYBACK_FRAMERATE_25 else passtime * fps a).

(** The end of playing in the last recording, that started at [from]; false when it
    started after the end. *)
Definition locate_last (a : avi_view) (from : Z) : M view_st bool :=
  w ← get_st;
  let passtime := i32 (i32 (pb_stop (vw w) + 1) - from) in
  if pb_stop (vw w) <? from then mret false else
  (if passtime =? 0 then mret () else
     let lastf := avi_frames a passtime in
     edit (fun p => p <| lastframe := if video_frames a <? lastf then video_frames a else lastf |>)) ;;
  mret true.

(** What [playback_openfile] does with the recording [firstfile] that it opened. *)
Definition open_first (firstinfo : file_info_struct) (avifile : avi_view) : M view_st Z :=
  w ← get_st;
  let start := pb_start (vw w) in
  let passtime := if stime firstinfo <? start then i32 (start - stime firstinfo) else 0 in
  let avifile := if passtime =? 0 then avifile else avifile <| video_pos := avi_frames avifile passtime |> in
  if (video_pos avifile <? 0) || (video_frames avifile <=? video_pos avifile) then mret PLAYBACK_ERR_FILE_ACCESS else
  edit (fun p => p <| pb_aviinfo := Some avifile |>) ;;
  found ← (if recordfiletotal (vw w) =? 1 then locate_last avifile (stime firstinfo) else mret true);
  if negb found then mret PLAYBACK_ERR_FILE_ACCESS else
  edit (fun p => p <| pb_fileindex ::= Z.succ |>) ;;
  match video_index avifile with
  | None => mret PLAYBACK_ERR_FILE_ACCESS
  | Some idx =>
      avifile ← access (seek_frame idx avifile);
      edit (fun p => p <| pb_aviinfo := Some avifile |>) ;;
      mret PLAYBACK_SUCCESS
  end.

Definition playback_openfile : M view_st Z :=
  w ← get_st;
  let p := vw w in
  result ← query_record_index (playbackindex p) (pb_channel p) (pb_start p) (pb_stop p);
  if negb (result =? PLAYBACK_SUCCESS) then mret result else
  edit (fun p => p <| pb_frames := 0 |> <| pb_fileindex := 0 |> <| recordfiletotal := 0 |>) ;;
  w ← get_st;
  text ← vw_file (Indexfilename (vw w));
  match text with
  | None | Some [] => mret PLAYBACK_ERR_NO_FILE
  | Some text =>
      let '(line, rest) := fgets 255 text in
      let firstfile := chop line in
      let total := 1 + count_lines (length rest) rest in
      edit (fun p => p <| recordfiletotal := total |>) ;;
      (if (total =? 1) && negb stray_write then undef else mret ()) ;;
      '(_, firstinfo) ← access (hdutil_filename2finfo tz firstfile junk);
      avifile ← open_recording firstfile;
      match avifile with
      | None => mret PLAYBACK_ERR_FILE_ACCESS
      | Some avifile => open_first firstinfo avifile
      end
  end.

(** The next recording of the list; true when it is open. *)
Definition next_recording : M view_st bool :=
  w ← get_st;
  let p := vw w in
  edit (fun p => p <| pb_aviinfo := (None : option avi_view) |>) ;;
  text ← vw_file (Indexfilename p);
  text ← access text;
  line ← access (nth_line (length text) (pb_fileindex p + 1) text None);
  let filename := chop line in
  '(_, fileinfo) ← access (hdutil_filename2finfo tz filename junk);
  avifile ← open_recording filename;
  match avifile with
  | None => mret false
  | Some avifile =>
      edit (fun p => p <| pb_aviinfo := Some avifile |>) ;;
      found ← (if recordfiletotal p =? pb_fileindex p + 1 then locate_last avifile (stime fileinfo) else mret true);
      if negb found then mret false else
      let avifile := avifile <| video_pos := 0 |> in
      edit (fun p => p <| pb_fileindex ::= Z.succ |> <| pb_aviinfo := Some avifile |>) ;;
      match video_index avifile with
      | None => mret false
      | Some idx =>
          avifile ← access (seek_frame idx avifile);
          edit (fun p => p <| pb_aviinfo := Some avifile |>) ;;
          mret true
      end
  end.

(** What a read gives: what the call returns, [*isvideo], the data, and [*flag]. *)
Record frame_read := { fr_result : Z; fr_isvideo : Z; fr_data : list Z; fr_flag : Z }.
Definition read_nothing (result : Z) : frame_read := {| fr_result := result; fr_isvideo := 0; fr_data := []; fr_flag := 0 |}.

Definition read_open_file (buf_len : Z) : M view_st frame_read :=
  w ← get_st;
  match pb_aviinfo (vw w) with
  | None => mret (read_nothing PLAYBACK_ERR_FILE_ACCESS)
  | Some a =>
      let '(result, data, a) := view_read_data buf_len buf_len a in
      edit (fun p => p <| pb_aviinfo := Some a |>) ;;
      if result =? 1 then
        match video_index a with
        | None => mret (read_nothing PLAYBACK_ERR_FILE_NOINDEX)
        | Some idx =>
            if (video_pos a <? 0) || (video_frames a <? video_pos a) then mret (read_nothing PLAYBACK_ERR_FILE_NOINDEX) else
            ix ← access (geti idx (video_pos a - 1));
            mret {| fr_result := 1; fr_isvideo := 1; fr_data := data; fr_flag := if ix_key ix =? 16 then 1 else 0 |}
        end
      else if result =? 2 then mret {| fr_result := 2; fr_isvideo := 0; fr_data := data; fr_flag := 0 |}
      else mret (read_nothing result)
  end.

Definition playbackreadfileframe (buf_len : Z) : M view_st frame_read :=
  w ← get_st;
  let p := vw w in
  a ← access (pb_aviinfo p);
  if pb_fileindex p =? recordfiletotal p then
    if lastframe p <=? video_pos a
    then edit (fun p => p <| pb_aviinfo := (None : option avi_view) |>) ;; mret (read_nothing 0)
    else read_open_file buf_len
  else if video_frames a - 1 <=? video_pos a then
    opened ← next_recording;
    if opened : bool then read_open_file buf_len else mret (read_nothing PLAYBACK_ERR_FILE_ACCESS)
  else read_open_file buf_len.

End Playback.
