(* ===== verification/PlaybackServer.v ===== *)
(** * The playback server (src/recordplay: playback_main.c, playback_file.c, playback_modcmd.c)

    The sessions, the table of viewers' connections, the rounds of the sessions' threads
    and of the thread that listens, and the commands. *)

From Stdlib Require Import Ascii String.
From stdpp Require Import gmap strings sorting.
From S2P Require Import Prelude Update Ctime Cstring RecName FileIndex DiskMan RecordSort Playback.

Record SOCKS_TABLE := { sk_start : Z; sk_fd : Z; sk_IsUsed : Z }.
#[export] Instance socks_settable : Settable SOCKS_TABLE := {| rebuild := fun k => Build_SOCKS_TABLE (sk_start k) (sk_fd k) (sk_IsUsed k) |}.

Abbreviation timeval := (Z * Z)%type.

(** The fields of a packet's head that are written; [ratio] is [None] when the byte is
    what an earlier packet left. *)
Inductive av_packet :=
| Pk_video (iframe : Z) (ratio : option Z) (data : list Z)
| Pk_audio (a_channel a_wformat a_sampling a_bits a_bitrate : Z) (data : list Z).

Inductive pb_call :=
| Pb_send (fd : Z) (p : av_packet)
| Pb_streamid (fd streamid : Z)
| Pb_close (fd : Z)
| Pb_usleep (usec : Z)
| Pb_answer (query_usr_id status : Z)
| Pb_answer_on (fd query_usr_id status : Z)
| Pb_ctl_answer.

(** What a session's thread keeps between its rounds. *)
Record thread_locals := { th_speed : Z; th_start : timeval; th_diff : timeval }.
#[export] Instance thread_settable : Settable thread_locals := {| rebuild := fun t => Build_thread_locals (th_speed t) (th_start t) (th_diff t) |}.

(** [open_fds] are the process's open sockets; [pb_net] what the next writes to the
    network return: all that was to be written when it is empty. *)
Record pb_st := {
  pb_index : index_st; g_playback : list playback_struct; socketable : list SOCKS_TABLE;
  pb_threads : list thread_locals; open_fds : list Z; pb_net : list Z; pb_out : list pb_call
}.
#[export] Instance pb_settable : Settable pb_st := {| rebuild := fun s =>
  Build_pb_st (pb_index s) (g_playback s) (socketable s) (pb_threads s) (open_fds s) (pb_net s) (pb_out s) |}.

(** A short. *)
Definition i16 (z : Z) : Z := (z + 2 ^ 15) mod 2 ^ 16 - 2 ^ 15.

(** The request of a viewer, as far as it is used. *)
Record viewer_subscribe_record_struct := {
  vs_channel : Z; vs_peer_ip : cstr; vs_peer_port : Z; vs_speed : Z; vs_stream_idx : Z;
  vs_starttime : gt_time_struct; vs_endtime : gt_time_struct
}.

Section Server.
Variables (e : disk_env) (v : dm_env) (tz : Z) (junk : file_info_struct).
Variable qsort : (cstr -> cstr -> Z) -> list cstr -> list cstr.
Variables (open_view : files_t -> cstr -> option avi_view) (stray_write : bool).
(** Closing a session that reads the pool of live frames: opening one is switched off. *)
Variable playbackclosepool : playback_struct -> M pb_st ().

(** ** Calls on one session *)

Definition session (i : Z) : M pb_st playback_struct := s ← get_st; access (geti (g_playback s) i).

Definition on_session {A} (i : Z) (m : M view_st A) : M pb_st A := fun s =>
  match geti (g_playback s) i with
  | None => Undef
  | Some p =>
      let back (w : view_st) := s <| pb_index := vw_index w |> <| g_playback := <[Z.to_nat i := vw w]> (g_playback s) |> in
      match m {| vw_index := pb_index s; vw := p |} with
      | Ret a w => Ret a (back w)
      | Blocked w => Blocked (back w)
      | Exited c w => Exited c (back w)
      | Undef => Undef
      end
  end.

Definition edit_session (i : Z) (f : playback_struct -> playback_struct) : M pb_st () := on_session i (edit f).

Definition pb_emit (c : pb_call) : M pb_st () := modify (fun s : pb_st => s <| pb_out ::= fun l => l ++ [c] |>).

(** [close]. *)
Definition close_fd (fd : Z) : M pb_st () :=
  modify (fun s : pb_st => s <| open_fds ::= List.filter (fun x => negb (x =? fd)) |>) ;; pb_emit (Pb_close fd).

(** A write of [len] bytes. *)
Definition net_write (len : Z) : M pb_st Z :=
  s ← get_st;
  match pb_net s with
  | [] => mret len
  | r :: l => put_st (s <| pb_net := l |>) ;; mret r
  end.

(** ** Opening and closing *)

Definition playback_idle (audio : Z) : playback_struct :=
  playback_zero <| framrate := PLAYBACK_FRAMERATE_25 |> <| pre_connect := PRE_CONNECT_SEC_MAX |>
    <| pb_sourcefrom := PLAYBACK_SOURCE_POOL |> <| pb_speed := PLAYBACK_NSPEED |> <| audio_source := audio |>.

Definition playbackInit : M pb_st Z :=
  modify (fun s : pb_st => s <| g_playback := replicate (Z.to_nat PLAYBACK_NUM)
    (playback_zero <| framrate := PLAYBACK_FRAMERATE_25 |> <| pre_connect := PRE_CONNECT_SEC_MAX |> <| pb_speed := PLAYBACK_NSPEED |>) |>) ;;
  mret PLAYBACK_SUCCESS.

Definition playbackclosefile (index : Z) : M pb_st Z :=
  p ← session index;
  on_session index (vw_on_index (rm_rf (Indexfilename p))) ;;
  edit_session index (fun p => p <| pb_aviinfo := (None : option avi_view) |>) ;;
  (if pb_socket p =? 0 then mret () else
    close_fd (pb_socket p) ;; edit_session index (fun p => p <| pb_socket := 0 |>)) ;;
  mret PLAYBACK_SUCCESS.

(** The slot it frees is the one of its own number. *)
Definition free_slot (index : Z) : M pb_st () :=
  s ← get_st;
  k ← access (geti (socketable s) index);
  l ← access (seti (socketable s) index (k <| sk_IsUsed := 0 |> <| sk_fd := 0 |>));
  put_st (s <| socketable := l |>).

Definition playbackClose (index : Z) : M pb_st Z :=
  if (index <? 0) || (PLAYBACK_NUM <=? index) then mret PLAYBACK_ERR_PARAM else
  p ← session index;
  if pb_state p =? PLAYBACK_STAT_IDLE then mret PLAYBACK_ERR_NO_OPEN else
  (if pb_sourcefrom p =? PLAYBACK_SOURCE_POOL then playbackclosepool p
   else playbackclosefile index ;; free_slot index) ;;
  edit_session index (fun p => playback_idle (audio_source p)) ;;
  mret PLAYBACK_SUCCESS.

(** The first session that is not used, from [i] on. *)
Fixpoint first_idle (l : list playback_struct) (i : Z) : Z :=
  match l with
  | [] => i
  | p :: l => if pb_state p =? PLAYBACK_STAT_IDLE then i else first_idle l (i + 1)
  end.

(** The session [i] with what was asked for. *)
Definition asked (req : viewer_subscribe_record_struct) (i channel : Z) (p : playback_struct) : playback_struct :=
  p <| pb_state := PLAYBACK_STAT_USED |> <| playbackindex := i |>
    <| pb_start := mktime tz (gttime2tm (vs_starttime req)) |> <| pb_stop := mktime tz (gttime2tm (vs_endtime req)) |>
    <| pb_channel := channel |> <| pb_peeraddr := vs_peer_ip req |> <| pb_peerport := i16 (vs_peer_port req) |>
    <| pb_speed := vs_speed req |> <| pb_sourcefrom := PLAYBACK_SOURCE_FILE |>.

(** The start of both calls that open: a session is taken and gets what was asked for;
    [channel] is what the call puts for its channel. *)
Definition take_session (req : viewer_subscribe_record_struct) (channel : playback_struct -> Z) : M pb_st Z :=
  s ← get_st;
  let i := first_idle (g_playback s) 0 in
  if i =? PLAYBACK_NUM then mret PLAYBACK_ERR_USER_FULL else
  edit_session i (fun p => asked req i (channel p) p) ;;
  mret i.

Abbreviation openfile := (playback_openfile e v tz junk qsort open_view stray_write).

Definition playbackfileOpen (req : viewer_subscribe_record_struct) : M pb_st Z :=
  i ← take_session req (fun _ => vs_channel req);
  if i <? 0 then mret i else
  result ← on_session i openfile;
  if negb (result =? PLAYBACK_SUCCESS) then playbackClose i ;; mret result else mret i.

(** [fd] is what connecting to the viewer gives. *)
Definition playbackOpen (req : viewer_subscribe_record_struct) (fd : Z) : M pb_st Z :=
  i ← take_session req pb_channel;
  if i <? 0 then mret i else
  result ← on_session i openfile;
  if negb (result =? PLAYBACK_SUCCESS) then playbackClose i ;; mret result else
  if fd <? 0 then playbackClose i ;; mret PLAYBACK_ERR_CONNECT else
  modify (fun s : pb_st => s <| open_fds ::= cons fd |>) ;;
  r ← net_write (GTSF_HEAD_SIZE + 4);
  if negb (r =? GTSF_HEAD_SIZE + 4) then playbackClose i ;; mret PLAYBACK_ERR_CONNECT else
  pb_emit (Pb_streamid fd (vs_stream_idx req)) ;;
  edit_session i (fun p => p <| pb_socket := fd |> <| pb_state := PLAYBACK_STAT_OK |>) ;;
  mret i.

Definition playbackConnectOK (playbackId fd : Z) : M pb_st Z :=
  if (playbackId <? 0) || (PLAYBACK_NUM <=? playbackId) then mret PLAYBACK_ERR_PARAM else
  p ← session playbackId;
  if negb (pb_state p =? PLAYBACK_STAT_USED) then mret PLAYBACK_ERR_NO_OPEN else
  edit_session playbackId (fun p => p <| pb_socket := fd |> <| pb_state := PLAYBACK_STAT_OK |>) ;;
  mret 0.

(** ** A round of a session's thread *)

Definition timeval_subtract (x y : timeval) : option timeval :=
  if (y.1 <? x.1) || ((x.1 =? y.1) && (y.2 <? x.2)) then None
  else if y.2 - x.2 <? 0 then Some (y.1 - x.1 - 1, y.2 - x.2 + 1000000)
  else Some (y.1 - x.1, y.2 - x.2).

Definition frame_interval (speed : Z) : Z :=
  if speed =? PLAYBACK_QSPEED then 160000
  else if speed =? PLAYBACK_HSPEED then 80000
  else if speed =? PLAYBACK_2SPEED then 20000
  else if speed =? PLAYBACK_4SPEED then 10000
  else 40000.

Definition ratio_of (a : avi_view) : option Z :=
  if (width a =? 720) && (height a =? 576) then Some 0
  else if (width a =? 704) && (height a =? 576) then Some 1
  else if (width a =? 352) && (height a =? 288) then Some 2
  else if (width a =? 320) && (height a =? 240) then Some 3
  else None.

Definition packet_of (p : playback_struct) (a : avi_view) (r : frame_read) : av_packet :=
  if fr_isvideo r =? 1 then Pk_video (if fr_flag r =? 1 then 0 else 1) (ratio_of a) (fr_data r)
  else if audio_source p =? 1 then Pk_audio 1 7 8000 16 64 (fr_data r)
  else Pk_audio 2 255 16000 16 0 (fr_data r).

Definition thread (ch : Z) : M pb_st thread_locals := s ← get_st; access (geti (pb_threads s) ch).
Definition edit_thread (ch : Z) (f : thread_locals -> thread_locals) : M pb_st () :=
  t ← thread ch; s ← get_st; l ← access (seti (pb_threads s) ch (f t)); put_st (s <| pb_threads := l |>).

(** The wait after a frame; [stop] and [start] are the times of the two calls. *)
Definition pace (ch : Z) (stop start : timeval) : M pb_st () :=
  t ← thread ch;
  let diff := default (th_diff t) (timeval_subtract (th_start t) stop) in
  let interval := frame_interval (th_speed t) in
  (if 0 <? diff.1 then mret ()
   else if (diff.2 <? interval) && (9000 <? interval - diff.2) then pb_emit (Pb_usleep (interval - diff.2 - 9000))
   else mret ()) ;;
  edit_thread ch (fun t => t <| th_diff := diff |> <| th_start := start |>).

(** Sending what was read. *)
Definition play_frame (ch : Z) (r : frame_read) (stop start : timeval) : M pb_st () :=
  p ← session ch;
  edit_thread ch (fun t => t <| th_speed := pb_speed p |>) ;;
  a ← access (pb_aviinfo p);
  (if (pb_speed p =? PLAYBACK_ISPEED) && (fr_flag r =? 0) then
     if fr_isvideo r =? 1 then pace ch stop start else mret ()
   else
     result ← net_write (zlen (fr_data r) + GTSF_HEAD_SIZE);
     if result <=? 0 then playbackClose ch ;; mret () else
     pb_emit (Pb_send (pb_socket p) (packet_of p a r)) ;;
     edit_session ch (fun p => p <| packetsum ::= Z.succ |>) ;;
     if fr_isvideo r =? 1 then pace ch stop start else mret ()).

(** The frame is read behind the head of the packet, into a buffer of
    [PLAYBACK_BUFF_LEN]. *)
Definition playback_round (ch : Z) (stop start : timeval) : M pb_st () :=
  p ← session ch;
  (if pb_oper p =? PLAYBACK_CTRL_CLOSE then playbackClose ch ;; mret () else mret ()) ;;
  p ← session ch;
  if pb_oper p =? PLAYBACK_CTRL_PAUSE then pb_emit (Pb_usleep 40000)
  else if pb_oper p =? PLAYBACK_CTRL_SEEK then
    on_session ch (vw_on_index (rm_rf (Indexfilename p))) ;;
    edit_session ch (fun p => p <| pb_aviinfo := (None : option avi_view) |>) ;;
    result ← on_session ch openfile;
    (if negb (result =? PLAYBACK_SUCCESS) then playbackClose ch ;; mret () else mret ()) ;;
    edit_session ch (fun p => p <| pb_oper := PLAYBACK_CTRL_IDLE |>)
  else if negb (pb_state p =? PLAYBACK_STAT_OK) then pb_emit (Pb_usleep 40000)
  else
    r ← on_session ch (playbackreadfileframe tz junk open_view PLAYBACK_BUFF_LEN);
    if fr_result r <=? 0 then playbackClose ch ;; mret ()
    else if PLAYBACK_BUFF_LEN <? GTSF_HEAD_SIZE + zlen (fr_data r) then undef
    else play_frame ch r stop start.

(** ** Commands *)

Inductive ctl_cmd := PAUSE | RESUME | SPEED | SEEK.

Record viewer_subscribe_record_ctl_struct := {
  vc_query_usr_id : Z; vc_ctl_cmd : ctl_cmd; vc_speed : Z; vc_starttime : gt_time_struct; vc_endtime : gt_time_struct
}.

(** The status of an answer is an unsigned short, the session's number an unsigned int. *)
Definition status_of (opench : Z) : Z := if opench <? 0 then opench mod 2 ^ 16 else 0.

Definition process_hdplayback_start (req : viewer_subscribe_record_struct) (fd : Z) : M pb_st Z :=
  opench ← playbackOpen req fd;
  pb_emit (Pb_answer (u32 opench) (status_of opench)) ;;
  mret 0.

Definition process_hdplayback_stop (query_usr_id : Z) : M pb_st Z :=
  let index := i32 query_usr_id in
  if (index <? 0) || (PLAYBACK_NUM <=? index) then mret PLAYBACK_ERR_PARAM else
  p ← session index;
  if pb_state p =? PLAYBACK_STAT_IDLE then mret PLAYBACK_ERR_NO_OPEN else
  edit_session index (fun p => p <| pb_oper := PLAYBACK_CTRL_CLOSE |>) ;;
  mret 0.

Definition process_hdplayback_ctrl (c : viewer_subscribe_record_ctl_struct) : M pb_st Z :=
  let index := i32 (vc_query_usr_id c) in
  if (index <? 0) || (PLAYBACK_NUM <=? index) then mret PLAYBACK_ERR_PARAM else
  p ← session index;
  if pb_state p =? PLAYBACK_STAT_IDLE then mret PLAYBACK_ERR_NO_OPEN else
  edit_session index (fun p =>
    match vc_ctl_cmd c with
    | PAUSE => p <| pb_oper := PLAYBACK_CTRL_PAUSE |>
    | RESUME => p <| pb_oper := PLAYBACK_CTRL_IDLE |>
    | SPEED => p <| pb_speed := vc_speed c |>
    | SEEK => p <| pb_start := mktime tz (gttime2tm (vc_starttime c)) |> <| pb_stop := mktime tz (gttime2tm (vc_endtime c)) |>
                <| pb_oper := PLAYBACK_CTRL_SEEK |>
    end) ;;
  pb_emit Pb_ctl_answer ;;
  mret 0.

(** ** The viewers' connections *)

Fixpoint stop_sessions (n : nat) (i : Z) (fd : Z) : M pb_st () :=
  match n with
  | O => mret ()
  | S n =>
      p ← session i;
      (if (pb_state p =? PLAYBACK_STAT_OK) && (pb_socket p =? fd)
       then edit_session i (fun p => p <| pb_oper := PLAYBACK_CTRL_CLOSE |>) else mret ()) ;;
      stop_sessions n (i + 1) fd
  end.

Definition playback_stopconnect (fd : Z) : M pb_st () := stop_sessions (Z.to_nat PLAYBACK_NUM) 0 fd.

(** [req] is [None] for fewer bytes than a request has. *)
Definition playback_listen_command (req : option viewer_subscribe_record_struct) (fd : Z) : M pb_st Z :=
  match req with
  | None => mret (-1)
  | Some req =>
      opench ← playbackfileOpen req;
      let status := status_of opench in
      pb_emit (Pb_answer_on fd (u32 opench) status) ;;
      (if status =? 0 then playbackConnectOK opench fd ;; mret () else mret ()) ;;
      mret status
  end.

Definition slot (i : Z) : M pb_st SOCKS_TABLE := s ← get_st; access (geti (socketable s) i).
Definition set_slot (i : Z) (k : SOCKS_TABLE) : M pb_st () :=
  s ← get_st; l ← access (seti (socketable s) i k); put_st (s <| socketable := l |>).
Definition clear_slot (i : Z) : M pb_st () :=
  k ← slot i; set_slot i (k <| sk_IsUsed := 0 |> <| sk_fd := 0 |>).

(** Connections of twelve hours are closed. *)
Fixpoint close_old (n : nat) (i : Z) (timenow : Z) : M pb_st () :=
  match n with
  | O => mret ()
  | S n =>
      k ← slot i;
      (if negb (sk_IsUsed k =? 0) && (12 * 3600 <=? timenow - sk_start k)
       then close_fd (sk_fd k) ;; clear_slot i else mret ()) ;;
      close_old n (i + 1) timenow
  end.

(** What happens on the network in a second: a connection that waits, and for a socket
    what [recv] gives, if anything: its end is [None]. *)
Record net_event := { nv_accept : option Z; nv_recv : Z -> option (option (option viewer_subscribe_record_struct)) }.

Definition used_fds (l : list SOCKS_TABLE) : list Z := map sk_fd (List.filter (fun k => negb (sk_IsUsed k =? 0)) l).

(** The first free slot gets the connection; there may be none. *)
Fixpoint take_slot (n : nat) (i : Z) (fd timenow : Z) : M pb_st () :=
  match n with
  | O => mret ()
  | S n =>
      k ← slot i;
      if sk_IsUsed k =? 0 then set_slot i {| sk_start := timenow; sk_fd := fd; sk_IsUsed := 1 |}
      else take_slot n (i + 1) fd timenow
  end.

(** [recv] of a socket of the set: with [ready] it has something to read, otherwise it
    waits; on a closed socket it fails. *)
Fixpoint read_slots (n : nat) (i : Z) (ready : Z -> bool) (ev : net_event) : M pb_st () :=
  match n with
  | O => mret ()
  | S n =>
      k ← slot i;
      (if negb (sk_IsUsed k =? 0) && ready (sk_fd k) then
         s ← get_st;
         let gone := playback_stopconnect (sk_fd k) ;; clear_slot i in
         if negb (existsb (Z.eqb (sk_fd k)) (open_fds s)) then gone else
         match nv_recv ev (sk_fd k) with
         | None => blocked
         | Some None => gone
         | Some (Some req) =>
             ret ← playback_listen_command req (sk_fd k);
             if ret <? 0 then close_fd (sk_fd k) ;; clear_slot i else mret ()
         end
       else mret ()) ;;
      read_slots n (i + 1) ready ev
  end.

(** A round of [playback_listen_thread].  [select] fails when a socket of the set is
    closed, and leaves the set as it was: then everything seems to have something. *)
Definition playback_listen_round (timenow : Z) (ev : net_event) : M pb_st () :=
  close_old (Z.to_nat MAX_PLAYBACK_NUM) 0 timenow ;;
  s ← get_st;
  let set := used_fds (socketable s) in
  let failed := negb (forallb (fun fd => existsb (Z.eqb fd) (open_fds s)) set) in
  let heard := fun fd => match nv_recv ev fd with Some _ => true | None => false end in
  if negb failed && bool_decide (nv_accept ev = None) && negb (existsb heard set) then mret () else
  let ready := fun fd => existsb (Z.eqb fd) set && (failed || heard fd) in
  (if failed || bool_decide (is_Some (nv_accept ev)) then
     match nv_accept ev with
     | None => blocked
     | Some fd =>
         modify (fun s : pb_st => s <| open_fds ::= cons fd |>) ;;
         take_slot (Z.to_nat MAX_PLAYBACK_NUM) 0 fd timenow
     end
   else mret ()) ;;
  read_slots (Z.to_nat MAX_PLAYBACK_NUM) 0 ready ev.

End Server.
