(* ===== verification/PlaybackFiles.v ===== *)
(** * A session reads the recordings of its list

    What a session reads of one AVI file and of the files of a list, and that each call
    reads the next of it. *)

From Stdlib Require Import Ascii String.
From stdpp Require Import gmap strings sorting.
From S2P Require Import Prelude Update Ctime Cstring RecName RecNameThms FileIndex FileIndexThms FileIndexLock DiskMan RecordSort RecordSortThms Playback.

(** ** What is read of a file *)

Definition video_read (key : Z) (d : list Z) : frame_read :=
  {| fr_result := 1; fr_isvideo := 1; fr_data := d; fr_flag := if key =? 16 then 1 else 0 |}.
Definition audio_read (d : list Z) : frame_read := {| fr_result := 2; fr_isvideo := 0; fr_data := d; fr_flag := 0 |}.
Definition key_at (idx : list view_entry) (pos : Z) : Z := default 0 (ix_key <$> geti idx pos).

(** The chunks [cs], from frame [pos] on, until the frame [bound]. *)
Fixpoint play_until (idx : list view_entry) (cs : list chunk) (pos bound : Z) : list frame_read :=
  if bound <=? pos then [] else
  match cs with
  | [] => []
  | Other_chunk :: cs => play_until idx cs pos bound
  | Audio_chunk d :: cs => audio_read d :: play_until idx cs pos bound
  | Video_chunk d :: cs => video_read (key_at idx pos) d :: play_until idx cs (pos + 1) bound
  end.

(** The frames among chunks. *)
Definition video_data (c : chunk) : option (list Z) := match c with Video_chunk d => Some d | _ => None end.
Definition frames_of (cs : list chunk) : list (list Z) := omap video_data cs.

Definition shown (rs : list frame_read) : list (list Z) := map fr_data (List.filter (fun r => fr_isvideo r =? 1) rs).

(** Of the frames the ones before [bound] are shown, each once and in order. *)
Lemma play_until_shows idx cs pos bound : pos <= bound ->
  shown (play_until idx cs pos bound) = take (Z.to_nat (bound - pos)) (frames_of cs).
Proof.
  revert pos. induction cs as [|c cs IH]; intros pos Hb; cbn [play_until].
  { cbn. rewrite firstn_nil. by destruct (bound <=? pos). }
  destruct (Z.leb_spec bound pos) as [Hle | Hlt]; [by replace (Z.to_nat (bound - pos)) with 0%nat by lia|].
  destruct c as [d|d|]; cbn; [|by apply IH..].
  replace (Z.to_nat (bound - pos)) with (S (Z.to_nat (bound - (pos + 1)))) by lia. cbn. f_equal. apply IH. lia.
Qed.

(** A file that can be played: its index has the frames, each at its chunk; there are
    at least two, and no chunk is too long for the buffer. *)
Record avi_ok (a : avi_view) (idx : list view_entry) : Prop := {
  av_index : video_index a = Some idx;
  av_frames : zlen idx = video_frames a;
  av_total : zlen (frames_of (chunks a)) = video_frames a;
  av_two : 2 <= video_frames a;
  av_at i ix : geti idx i = Some ix -> zlen (frames_of (drop (ix_at ix) (chunks a))) = video_frames a - i;
  av_fit d : Video_chunk d ∈ chunks a \/ Audio_chunk d ∈ chunks a -> zlen d <= PLAYBACK_BUFF_LEN - GTSF_HEAD_SIZE
}.

(** The descriptor is where the next frame says. *)
Definition in_step (a : avi_view) : Prop :=
  0 <= video_pos a <= video_frames a /\ zlen (frames_of (drop (avi_at a) (chunks a))) = video_frames a - video_pos a.

(** The rest of an open file. *)
Definition rest_of_file (a : avi_view) (idx : list view_entry) (bound : Z) : list frame_read :=
  play_until idx (drop (avi_at a) (chunks a)) (video_pos a) bound.

(** Two states of one file. *)
Definition same_file (a a' : avi_view) : Prop :=
  chunks a' = chunks a /\ video_index a' = video_index a /\ video_frames a' = video_frames a /\
  fps a' = fps a /\ width a' = width a /\ height a' = height a.

Lemma same_file_ok a a' idx : same_file a a' -> avi_ok a idx -> avi_ok a' idx.
Proof.
  intros (Hc & Hi & Hf & _) [H1 H2 Ht H3 H4 H5]. split; rewrite ?Hc, ?Hi, ?Hf; done.
Qed.

Lemma drop_next {A} n (l : list A) x k : drop n l = x :: k -> drop (S n) l = k.
Proof. intros H. rewrite <- Nat.add_1_r, <- drop_drop, H. done. Qed.

(** A read gives the next frame or sound, and goes on behind it. *)
Lemma read_chunks_next idx lim max cs : lim <= max -> forall a,
  drop (avi_at a) (chunks a) = cs -> (forall d, Video_chunk d ∈ cs \/ Audio_chunk d ∈ cs -> zlen d <= lim) ->
  0 <= video_pos a < video_frames a -> zlen (frames_of cs) = video_frames a - video_pos a ->
  exists r a', read_chunks cs max max a = (fr_result r, fr_data r, a') /\ same_file a a' /\ in_step a' /\
    (r = video_read (key_at idx (video_pos a)) (fr_data r) /\ video_pos a' = video_pos a + 1 \/
     r = audio_read (fr_data r) /\ video_pos a' = video_pos a) /\
    zlen (fr_data r) <= lim /\
    forall bound, video_pos a < bound -> play_until idx cs (video_pos a) bound = r :: rest_of_file a' idx bound.
Proof.
  intros Hlim. induction cs as [|c cs IH]; intros a Hcs Hfit Hpos Hnum; [cbn in Hnum; lia|].
  pose proof (drop_next _ _ _ _ Hcs) as Hnext. set (a1 := a <| avi_at ::= S |>).
  assert (Hfit' : forall d, Video_chunk d ∈ cs \/ Audio_chunk d ∈ cs -> zlen d <= lim)
    by (intros d [Hd | Hd]; apply Hfit; [left | right]; by right).
  destruct c as [d|d|]; cbn [read_chunks]; fold a1.
  - set (a2 := a1 <| video_pos ::= Z.succ |>). exists (video_read (key_at idx (video_pos a)) d), a2.
    rewrite (proj2 (Z.ltb_ge max (zlen d))) by (etransitivity; [apply Hfit; left; by left | done]). cbn [frames_of omap list_omap video_data length] in Hnum.
    split; [done|]. split; [done|]. split; [split; cbn; [lia|]; rewrite Hnext; unfold frames_of; lia|].
    split; [left; split; [done | cbn; lia]|]. split; [apply Hfit; left; by left|].
    intros bound Hb. cbn [play_until]. rewrite (proj2 (Z.leb_gt _ _)) by done. unfold rest_of_file. cbn. by rewrite Hnext, Z.add_1_r.
  - exists (audio_read d), a1. rewrite (proj2 (Z.ltb_ge max (zlen d))) by (etransitivity; [apply Hfit; right; by left | done]).
    split; [done|]. split; [done|]. split; [split; cbn; [lia|]; by rewrite Hnext|].
    split; [by right|]. split; [apply Hfit; right; by left|].
    intros bound Hb. cbn [play_until]. rewrite (proj2 (Z.leb_gt _ _)) by done. unfold rest_of_file. cbn. by rewrite Hnext.
  - destruct (IH a1) as (r & a' & Hr & Hs & Hst & Hkind & Hlen & Hplay); [done | done | done | done|].
    exists r, a'. split; [done|]. split; [done|]. split; [done|]. split; [done|]. split; [done|].
    intros bound Hb. cbn [play_until]. rewrite (proj2 (Z.leb_gt _ _)) by done. by apply Hplay.
Qed.

(** ** A read of a session *)

Lemma bind_edit {A} g (f : () -> M view_st A) w : (edit g ≫= f) w = f () (w <| vw ::= g |>).
Proof. done. Qed.

Lemma seek_ok a idx : avi_ok a idx -> 0 <= video_pos a < video_frames a ->
  exists a', seek_frame idx a = Some a' /\ same_file a a' /\ in_step a' /\ video_pos a' = video_pos a /\
    exists ix, geti idx (video_pos a) = Some ix /\ avi_at a' = ix_at ix.
Proof.
  intros Ha Hpos. destruct (geti_is_Some idx (video_pos a)) as [ix Hix]; [rewrite (av_frames _ _ Ha); lia|].
  exists (a <| avi_at := ix_at ix |>). unfold seek_frame. rewrite Hix. split; [done|]. split; [done|].
  split; [split; cbn; [lia | by apply (av_at _ _ Ha)]|]. split; [done|]. by exists ix.
Qed.

(** The session with the file at another place. *)
Definition with_avi (w : view_st) (a : avi_view) : view_st := w <| vw ::= fun p => p <| pb_aviinfo := Some a |> |>.

Definition read_data_spec (a : avi_view) (idx : list view_entry) (r : frame_read) (a' : avi_view) : Prop :=
  same_file a a' /\ in_step a' /\ 0 < fr_result r /\ zlen (fr_data r) <= PLAYBACK_BUFF_LEN - GTSF_HEAD_SIZE /\
  (video_pos a <= video_pos a') /\
  forall bound, video_pos a < bound -> rest_of_file a idx bound = r :: rest_of_file a' idx bound.

Lemma read_open_run (w : view_st) a idx : pb_aviinfo (vw w) = Some a -> avi_ok a idx -> in_step a ->
  video_pos a < video_frames a ->
  exists r a', read_open_file PLAYBACK_BUFF_LEN w = Ret r (with_avi w a') /\
    read_data_spec a idx r a'.
Proof.
  intros Hw Ha [Hpos Hnum] Hmore.
  destruct (read_chunks_next idx (PLAYBACK_BUFF_LEN - GTSF_HEAD_SIZE) PLAYBACK_BUFF_LEN _ ltac:(unfold GTSF_HEAD_SIZE; lia) a eq_refl)
    as (r & a' & Hr & Hs & Hst & Hkind & Hlen & Hplay); [|lia | done|].
  { intros d Hd. apply (av_fit _ _ Ha). rewrite <- (take_drop (avi_at a) (chunks a)), !elem_of_app. tauto. }
  exists r, a'. split.
  - unfold read_open_file. rewrite (bind_ret _ _ w w w) by done. rewrite Hw. unfold view_read_data. rewrite Hr.
    set (w' := with_avi w a'). rewrite (bind_ret _ _ w () w') by done.
    destruct Hst as [Hp' _]. destruct Hs as (_ & Hi & Hf & _).
    destruct Hkind as [[Hr1 Hpos'] | [Hr2 _]].
    + assert (Hres : fr_result r = 1) by by rewrite Hr1. rewrite Hres. change (1 =? 1) with true. cbv iota.
      rewrite Hi, (av_index _ _ Ha). rewrite (proj2 (Z.ltb_ge _ _)), (proj2 (Z.ltb_ge _ _)) by lia. cbn [orb].
      rewrite Hpos'. replace (video_pos a + 1 - 1) with (video_pos a) by lia.
      destruct (geti_is_Some idx (video_pos a)) as [ix Hix]; [rewrite (av_frames _ _ Ha); lia|].
      rewrite (bind_access _ _ _ _ Hix). transitivity (Ret (video_read (key_at idx (video_pos a)) (fr_data r)) w').
      * unfold video_read, key_at. by rewrite Hix.
      * by rewrite <- Hr1.
    + assert (Hres : fr_result r = 2) by by rewrite Hr2. rewrite Hres. change (2 =? 1) with false. change (2 =? 2) with true. cbv iota.
      transitivity (Ret (audio_read (fr_data r)) w'); [done|]. by rewrite <- Hr2.
  - split; [done|]. split; [done|]. split; [destruct Hkind as [[-> _] | [-> _]]; done|]. split; [done|].
    split; [destruct Hkind as [[_ ->] | [_ ->]]; lia|]. exact Hplay.
Qed.

(** ** The list of recordings *)

Section Session.
Variables (tz : Z) (open_view : files_t -> cstr -> option avi_view).
Hypothesis Htz : - 86400 <= tz <= 86400.

(** A recording of the list and its file as it is opened. *)
Abbreviation rec := (clip * avi_view)%type.
Implicit Types (recs all : list rec).

Definition path_of (r : rec) : cstr := clip_path tz r.1.
Definition idx_of (a : avi_view) : list view_entry := default [] (video_index a).
Definition rate (a : avi_view) : Z := if fps a =? 0 then PLAYBACK_FRAMERATE_25 else fps a.

(** A recording that can be played up to the time [stop]. *)
Record rec_ok (f : files_t) (stop : Z) (r : rec) : Prop := {
  rok_clip : clip_ok r.1;
  rok_open : open_view f (lit "/hqdata" ++ path_of r) = Some r.2;
  rok_avi : avi_ok r.2 (idx_of r.2);
  rok_fresh : video_pos r.2 = 0;
  rok_fps : 0 <= fps r.2;
  rok_start : 0 <= start_of r.1 <= stop;
  rok_stop : stop + 1 < 2 ^ 31 /\ (stop + 1 - start_of r.1) * rate r.2 < 2 ^ 31
}.

(** The frame before which playing the recording ends: of the last one the end of the
    window, of the others their last frame. *)
Definition end_frame (stop : Z) (last : bool) (r : rec) : Z :=
  if last then Z.min (video_frames r.2) ((stop + 1 - start_of r.1) * rate r.2) else video_frames r.2 - 1.

Definition play_file (a : avi_view) (from bound : Z) : list frame_read :=
  play_until (idx_of a) (drop (default 0%nat (ix_at <$> geti (idx_of a) from)) (chunks a)) from bound.

Definition is_nil {A} (l : list A) : bool := match l with [] => true | _ => false end.

Fixpoint played_rest (stop : Z) recs : list frame_read :=
  match recs with
  | [] => []
  | r :: recs => play_file r.2 0 (end_frame stop (is_nil recs) r) ++ played_rest stop recs
  end.

(** The first recording is played from [start] on. *)
Definition first_frame (start : Z) (r : rec) : Z := if start_of r.1 <? start then (start - start_of r.1) * rate r.2 else 0.
Definition played (start stop : Z) recs : list frame_read :=
  match recs with
  | [] => []
  | r :: recs => play_file r.2 (first_frame start r) (end_frame stop (is_nil recs) r) ++ played_rest stop recs
  end.

(** The frames of a recording from [from] up to [bound], and those of the list that are
    in the window. *)
Definition frames_between (a : avi_view) (from bound : Z) : list (list Z) :=
  take (Z.to_nat (bound - from)) (drop (Z.to_nat from) (frames_of (chunks a))).

Fixpoint window_rest (stop : Z) recs : list (list Z) :=
  match recs with
  | [] => []
  | r :: recs => frames_between r.2 0 (end_frame stop (is_nil recs) r) ++ window_rest stop recs
  end.

Definition window (start stop : Z) recs : list (list Z) :=
  match recs with
  | [] => []
  | r :: recs => frames_between r.2 (first_frame start r) (end_frame stop (is_nil recs) r) ++ window_rest stop recs
  end.

Lemma play_file_shows f stop r from bound : rec_ok f stop r -> 0 <= from < video_frames r.2 ->
  shown (play_file r.2 from bound) = frames_between r.2 from bound.
Proof.
  intros [_ _ Ha _ _ _ _] Hfrom. unfold play_file, frames_between.
  destruct (geti_is_Some (idx_of r.2) from) as [ix Hix]; [rewrite (av_frames _ _ Ha); lia|]. rewrite Hix. cbn [fmap option_fmap option_map default from_option id].
  pose proof (av_at _ _ Ha _ _ Hix) as Hnum. pose proof (av_total _ _ Ha) as Htot. set (n := ix_at ix) in *.
  assert (Hdrop : frames_of (drop n (chunks r.2)) = drop (Z.to_nat from) (frames_of (chunks r.2))).
  { rewrite <- (take_drop n (chunks r.2)) in Htot |- * at 2. unfold frames_of in *. rewrite omap_app in *. rewrite length_app in Htot.
    by rewrite drop_app_length' by lia. }
  rewrite <- Hdrop. destruct (Z.le_gt_cases from bound) as [Hle | Hgt]; [by apply play_until_shows|].
  replace (Z.to_nat (bound - from)) with 0%nat by lia.
  assert (Hnone : play_until (idx_of r.2) (drop n (chunks r.2)) from bound = []).
  { destruct (drop n (chunks r.2)); cbn [play_until]; by rewrite (proj2 (Z.leb_le _ _)) by lia. }
  by rewrite Hnone.
Qed.

Lemma played_shows f start stop recs : Forall (rec_ok f stop) recs ->
  match recs with r :: _ => 0 <= first_frame start r < video_frames r.2 | [] => True end ->
  shown (played start stop recs) = window start stop recs.
Proof.
  assert (Happ : forall l l', shown (l ++ l') = shown l ++ shown l').
  { intros l l'. unfold shown. by rewrite filter_app, map_app. }
  assert (Hrest : forall recs, Forall (rec_ok f stop) recs -> shown (played_rest stop recs) = window_rest stop recs).
  { induction 1 as [|r l Hr _ IH]; [done|]. cbn [played_rest window_rest]. rewrite Happ, IH. f_equal.
    eapply play_file_shows; [exact Hr|]. pose proof (av_two _ _ (rok_avi _ _ _ Hr)). lia. }
  intros Hall Hfirst. destruct recs as [|r recs]; [done|]. apply list.Forall_cons in Hall as [Hr Hall].
  cbn [played window]. rewrite Happ, Hrest by done. f_equal. by eapply play_file_shows.
Qed.

Lemma parse_path c i0 : clip_ok c -> length (info_partition i0) = 16%nat ->
  exists i', hdutil_filename2finfo tz (clip_path tz c) i0 = Some (0, i') /\ stime i' = start_of c /\ info_len i' = len_of c.
Proof.
  intros (disk & part & Hok & Hch) H0.
  destruct (clip_line_facts tz Htz c) as (Hl4 & Hl & _ & Hname & _); [by exists disk, part|].
  unfold clip_line in Hl, Hl4. rewrite length_app in Hl, Hl4. cbn [length] in Hl, Hl4.
  set (fl := (if c_remote c then [REMOTE_TRIG_FLAG] else []) ++ (if c_lock c then [LOCK_FILE_FLAG] else []) ++ IMG_FILE_EXT).
  assert (Hfl : Forall (fun c => Ascii.eqb c "_" = false /\ Ascii.eqb c "010" = false) fl /\
    match fl with c :: _ => isalnum c = false | [] => True end /\ (4 <= length fl <= 6)%nat).
  { unfold fl. destruct (c_remote c), (c_lock c); (split_and!; [repeat constructor | reflexivity | cbn; lia | cbn; lia]). }
  destruct Hfl as (Hf & Hhd & Hlf). unfold hdutil_filename2finfo. rewrite (proj2 (Nat.ltb_ge _ _)) by (unfold cstr in *; lia).
  assert (Hsd : strstr (clip_path tz c) (lit "sd") = Some 1%nat).
  { unfold clip_path, clip_name, flagged, finfo_base. rewrite (ok_partition _ _ _ Hok). reflexivity. }
  rewrite Hsd. unfold strncpy at 1. rewrite H0. change (1 + 4 <=? 16)%nat with true. cbv iota beta. cbn [mbind option_bind].
  match goal with |- context [finfo_loop ?n tz ?s false ?i] => set (fuel := n); set (i1 := i) end.
  exists (read_back (c_info c) i1). split; [|done].
  assert (Hscan : finfo_loop (7 + fuel) tz (clip_name tz c) false i1 = Some (0, read_back (c_info c) i1)).
  { unfold clip_name, flagged. fold fl. apply (scan_name tz disk part (c_info c) Htz Hok); [done | done | lia|].
    assert (Hsum : length (clip_name tz c) = (length (finfo_base tz (c_info c)) + length fl)%nat)
      by (unfold clip_name, flagged; fold fl; by rewrite length_app).
    rewrite Hname, length_app in Hsum. cbn [length list_ascii_of_string] in Hsum.
    pose proof (dir_facts tz disk part (c_info c) Htz Hok) as (_ & _ & Ld). rewrite length_app, Ld. unfold fuel. cbn [length list_ascii_of_string].
    unfold cstr in *. lia. }
  rewrite Hname in Hscan. rewrite <- Hscan. reflexivity.
Qed.

Lemma chop_line c : chop (clip_line tz c) = clip_path tz c.
Proof. unfold chop, clip_line. rewrite length_app. cbn [length]. by rewrite Nat.add_sub, take_app_length. Qed.

Lemma fgets_clip c rest : clip_ok c -> fgets 255 (clip_line tz c ++ rest) = (clip_line tz c, rest).
Proof.
  intros Hc. destruct (clip_line_facts tz Htz c Hc) as (_ & Hl & Hnl & _). unfold clip_line in *. rewrite length_app in Hl.
  rewrite <- app_assoc. cbn [app length] in *. apply fgets_line; [done | unfold cstr in *; lia].
Qed.

Lemma lines_rec r recs : lines (map path_of (r :: recs)) = clip_line tz r.1 ++ lines (map path_of recs).
Proof. cbn [map]. rewrite lines_cons. unfold clip_line, path_of. by rewrite <- app_assoc. Qed.

Lemma line_cons c s : exists x k, clip_line tz c ++ s = x :: k.
Proof. unfold clip_line. destruct (clip_path tz c); cbn; eauto. Qed.

Lemma count_lines_recs recs : Forall (fun r => clip_ok r.1) recs -> forall fuel, (length (lines (map path_of recs)) <= fuel)%nat ->
  count_lines fuel (lines (map path_of recs)) = zlen recs.
Proof.
  induction 1 as [|r recs Hr _ IH]; intros fuel Hfuel; [by destruct fuel|]. rewrite lines_rec in *.
  destruct (clip_line_facts tz Htz _ Hr) as (Hl & _). rewrite length_app in Hfuel.
  destruct fuel as [|fuel]; [unfold cstr in *; lia|]. cbn [count_lines].
  destruct (line_cons r.1 (lines (map path_of recs))) as (x & s & Hx). rewrite Hx. rewrite <- Hx, fgets_clip by done. cbn [snd].
  rewrite IH by (unfold cstr in *; lia). cbn [length]. lia.
Qed.

Lemma nth_line_recs recs : Forall (fun r => clip_ok r.1) recs -> forall fuel k r d, (length (lines (map path_of recs)) <= fuel)%nat ->
  recs !! k = Some r -> nth_line fuel (Z.of_nat k + 1) (lines (map path_of recs)) d = Some (clip_line tz r.1).
Proof.
  induction 1 as [|r0 recs Hr _ IH]; intros fuel k r d Hfuel Hk; [done|]. rewrite lines_rec in *.
  destruct (clip_line_facts tz Htz _ Hr) as (Hl & _). rewrite length_app in Hfuel.
  destruct fuel as [|fuel]; [unfold cstr in *; lia|]. cbn [nth_line].
  destruct (line_cons r0.1 (lines (map path_of recs))) as (x & s & Hx). rewrite Hx. rewrite <- Hx, fgets_clip by done.
  destruct k as [|k]; [by injection Hk as <-|]. rewrite (proj2 (Z.leb_gt _ _)) by lia.
  replace (Z.of_nat (S k) + 1 - 1) with (Z.of_nat k + 1) by lia. apply IH; [unfold cstr in *; lia | exact Hk].
Qed.
End Session.
