(* ===== verification/PlaybackPlays.v ===== *)
(** * A session plays its list to the end

    Each read of a session gives the next of what there is to play, through the files
    of the list, and the last one says that it is over. *)

From Stdlib Require Import Ascii String.
From stdpp Require Import gmap strings sorting.
From S2P Require Import Prelude Update Ctime Cstring RecName RecNameThms FileIndex FileIndexThms FileIndexLock DiskMan RecordSort RecordSortThms Playback PlaybackFiles.

Section Plays.
Variables (tz : Z) (junk : file_info_struct).
Variable open_view : files_t -> cstr -> option avi_view.
Hypotheses (Htz : - 86400 <= tz <= 86400) (Hjunk : length (info_partition junk) = 16%nat).

Abbreviation rec := (clip * avi_view)%type.
Abbreviation rec_ok := (rec_ok tz open_view).
Abbreviation path_of := (path_of tz).
Implicit Types (recs all : list rec) (w : view_st).

Definition with_last w (z : Z) : view_st := w <| vw ::= fun p => p <| lastframe := z |> |>.

Lemma locate_last_run w f r : rec_ok f (pb_stop (vw w)) r ->
  forall a, same_file r.2 a -> locate_last a (start_of r.1) w = Ret true (with_last w (end_frame (pb_stop (vw w)) true r)).
Proof.
  intros [_ _ Ha _ Hfps Hs [Hs1 Hs2]] a (_ & _ & Hf & Hfp & _). unfold locate_last. rewrite (bind_ret _ _ w w w) by done.
  cbv zeta. rewrite (proj2 (Z.ltb_ge _ _)) by lia. rewrite (i32_small (pb_stop (vw w) + 1)), i32_small by lia.
  rewrite (proj2 (Z.eqb_neq _ _)) by lia. pose proof (av_two _ _ Ha) as Htwo.
  assert (Hfr : avi_frames a (pb_stop (vw w) + 1 - start_of r.1) = (pb_stop (vw w) + 1 - start_of r.1) * rate r.2).
  { unfold avi_frames, rate in *. rewrite Hfp. destruct (fps r.2 =? 0); rewrite i32_small; try lia; unfold PLAYBACK_FRAMERATE_25 in *; nia. }
  rewrite Hfr, Hf. unfold end_frame. set (n := (_ * rate r.2)) in *.
  assert (Hm : (if video_frames r.2 <? n then video_frames r.2 else n) = Z.min (video_frames r.2) n) by zcase.
  rewrite Hm. done.
Qed.

(** ** The state of a session that plays *)

(** What reads change of a session. *)
Definition moved w w' : Prop := exists a k z,
  w' = w <| vw ::= fun p => p <| pb_aviinfo := a |> <| pb_fileindex := k |> <| lastframe := z |> |>.

Lemma moved_refl w : moved w w.
Proof. exists (pb_aviinfo (vw w)), (pb_fileindex (vw w)), (lastframe (vw w)). by destruct w as [? []]. Qed.

Lemma moved_trans w1 w2 w3 : moved w1 w2 -> moved w2 w3 -> moved w1 w3.
Proof. intros (a & k & z & ->) (a' & k' & z' & ->). exists a', k', z'. by destruct w1 as [? []]. Qed.

Lemma moved_avi w a : moved w (with_avi w a).
Proof. exists (Some a), (pb_fileindex (vw w)), (lastframe (vw w)). by destruct w as [? []]. Qed.

(** The list of the session and its recordings, all of which can be played. *)
Definition has_list all w : Prop :=
  files (vw_index w) !! Indexfilename (vw w) = Some (lines (map path_of all)) /\
  recordfiletotal (vw w) = zlen all /\
  Forall (rec_ok (files (vw_index w)) (pb_stop (vw w))) all.

Lemma has_list_moved all w w' : moved w w' -> has_list all w -> has_list all w'.
Proof. by intros (a & k & z & ->). Qed.

(** Recording [k] (from 0) is open at [a]. *)
Definition at_file all k r a w : Prop :=
  all !! k = Some r /\ pb_fileindex (vw w) = Z.of_nat k + 1 /\ pb_aviinfo (vw w) = Some a /\
  same_file r.2 a /\ in_step a /\
  (is_nil (drop (S k) all) = true -> lastframe (vw w) = end_frame (pb_stop (vw w)) true r).

Definition plays all w (l : list frame_read) : Prop := has_list all w /\ exists k r a, at_file all k r a w /\
  l = rest_of_file a (idx_of r.2) (end_frame (pb_stop (vw w)) (is_nil (drop (S k) all)) r) ++
      played_rest (pb_stop (vw w)) (drop (S k) all).

Lemma last_iff all k r : all !! k = Some r -> (Z.of_nat k + 1 =? zlen all) = is_nil (drop (S k) all).
Proof.
  intros Hk%lookup_lt_Some. destruct (drop (S k) all) as [|x l] eqn:Hd; cbn [is_nil].
  - apply (f_equal length) in Hd. rewrite length_drop in Hd. cbn in Hd. lia.
  - apply (f_equal length) in Hd. rewrite length_drop in Hd. cbn in Hd. lia.
Qed.

Lemma rate_pos f stop r : rec_ok f stop r -> 1 <= rate r.2.
Proof. intros [_ _ _ _ Hf _ _]. unfold rate, PLAYBACK_FRAMERATE_25. zcase. Qed.

Lemma end_frame_range f stop last r : rec_ok f stop r -> 1 <= end_frame stop last r <= video_frames r.2.
Proof.
  intros Hr. pose proof (rate_pos _ _ _ Hr). destruct Hr as [_ _ Ha _ _ Hs _]. pose proof (av_two _ _ Ha).
  unfold end_frame. destruct last; nia.
Qed.

Lemma rest_empty a idx bound : bound <= video_pos a -> rest_of_file a idx bound = [].
Proof. intros Hb. unfold rest_of_file. destruct (drop _ _); cbn; by rewrite (proj2 (Z.leb_le _ _)) by lia. Qed.

(** The state after opening recording [k]. *)
Definition opened_at all k r a w : view_st :=
  w <| vw ::= fun p => p <| pb_aviinfo := Some a |> <| pb_fileindex := Z.of_nat k + 1 |>
    <| lastframe := if is_nil (drop (S k) all) then end_frame (pb_stop (vw w)) true r else lastframe (vw w) |> |>.

Lemma next_recording_run all k r w : has_list all w -> all !! k = Some r -> pb_fileindex (vw w) = Z.of_nat k ->
  exists a, next_recording tz junk open_view w = Ret true (opened_at all k r a w) /\
    same_file r.2 a /\ in_step a /\ video_pos a = 0 /\
    exists ix, geti (idx_of r.2) 0 = Some ix /\ avi_at a = ix_at ix.
Proof.
  intros (Hidx & Htot & Hall) Hk Hfi. pose proof (proj1 (list.Forall_forall _ _) Hall r (list_elem_of_lookup_2 _ _ _ Hk)) as Hr.
  pose proof (av_two _ _ (rok_avi _ _ _ _ _ Hr)) as Htwo.
  set (a0 := r.2 <| video_pos := 0 |>).
  destruct (seek_ok a0 (idx_of r.2)) as (a & Hseek & Hsame & Hst & Hp0 & ix & Hix & Hat);
    [eapply same_file_ok, (rok_avi _ _ _ _ _ Hr); by split_and! | cbn; lia|].
  exists a. split; [|split_and!; [done | done | done | by exists ix]].
  unfold next_recording. rewrite (bind_ret _ _ w w w) by done. cbv zeta.
  set (w1 := w <| vw ::= fun p => p <| pb_aviinfo := (None : option avi_view) |> |>). rewrite (bind_ret _ _ w () w1) by done.
  rewrite (bind_ret _ _ w1 (Some (lines (map path_of all))) w1) by (unfold vw_file, gets; by rewrite <- Hidx).
  rewrite (bind_access _ _ w1 _ eq_refl). rewrite Hfi.
  assert (Hclips : Forall (fun r => clip_ok r.1) all) by (eapply list.Forall_impl; [exact Hall|]; by intros r' []).
  rewrite (bind_access _ _ w1 (clip_line tz r.1)) by (by apply (nth_line_recs tz Htz)).
  rewrite (chop_line tz). destruct (parse_path tz Htz (r.1) junk (rok_clip _ _ _ _ _ Hr) Hjunk) as (i' & Hp & Hstart & _).
  rewrite (bind_access _ _ w1 _ Hp). cbv beta iota.
  assert (Hopen : open_recording open_view (clip_path tz r.1) w1 = Ret (Some r.2) w1).
  { unfold open_recording. destruct (clip_line_facts tz Htz _ (rok_clip _ _ _ _ _ Hr)) as (_ & Hl & _). unfold clip_line in Hl.
    rewrite length_app in Hl. rewrite (proj2 (Nat.ltb_lt _ _)) by (unfold cstr in *; lia). unfold gets. f_equal.
    apply (rok_open _ _ _ _ _ Hr). }
  rewrite (bind_ret _ _ _ _ _ Hopen). set (w2 := with_avi w1 r.2). rewrite (bind_ret _ _ w1 () w2) by done.
  rewrite Htot. replace (zlen all =? Z.of_nat k + 1) with (is_nil (drop (S k) all)) by (rewrite <- (last_iff _ _ _ Hk); apply Z.eqb_sym).
  set (w3 := if is_nil (drop (S k) all) then with_last w2 (end_frame (pb_stop (vw w)) true r) else w2).
  assert (Hfound : (if is_nil (drop (S k) all) then locate_last r.2 (stime i') else mret true) w2 = Ret true w3).
  { unfold w3. destruct (is_nil _); [|done]. rewrite Hstart. by apply (locate_last_run w2 (files (vw_index w))). }
  rewrite (bind_ret _ _ _ _ _ Hfound). cbn [negb]. fold a0. rewrite bind_edit.
  assert (Hvi : video_index a0 = Some (idx_of r.2)) by exact (av_index _ _ (rok_avi _ _ _ _ _ Hr)). rewrite Hvi.
  rewrite (bind_access _ _ _ a Hseek). rewrite bind_edit. unfold mret, M_ret. f_equal.
  unfold w3, w2, w1, opened_at, with_last, with_avi. destruct w as [? []]. cbn in Hfi |- *. rewrite Hfi. by destruct (is_nil _).
Qed.

Lemma opened_moved all k r a w : moved w (opened_at all k r a w).
Proof. by eexists _, _, _. Qed.

Lemma start_bound f stop r : rec_ok f stop r -> start_of r.1 <= stop.
Proof. intros []. lia. Qed.

Lemma play_file_rest r a ix f stop from bound : rec_ok f stop r -> same_file r.2 a -> video_pos a = from ->
  geti (idx_of r.2) from = Some ix -> avi_at a = ix_at ix -> rest_of_file a (idx_of r.2) bound = play_file r.2 from bound.
Proof.
  intros Hr (Hc & _) Hp Hix Hat. unfold rest_of_file, play_file. by rewrite Hc, Hp, Hix, Hat.
Qed.

(** A read gives the head of what there is to play. *)
Definition reads all w (r : frame_read) (l : list frame_read) : Prop :=
  0 < fr_result r /\ zlen (fr_data r) <= PLAYBACK_BUFF_LEN - GTSF_HEAD_SIZE /\
  exists w', playbackreadfileframe tz junk open_view PLAYBACK_BUFF_LEN w = Ret r w' /\ moved w w' /\
    is_Some (pb_aviinfo (vw w')) /\ plays all w' l.

(** Reading on in the open file. *)
Lemma read_on all k r a w l bound : has_list all w -> at_file all k r a w ->
  bound = end_frame (pb_stop (vw w)) (is_nil (drop (S k) all)) r -> video_pos a < bound ->
  exists x l', rest_of_file a (idx_of r.2) bound ++ l = x :: l' ++ l /\
  0 < fr_result x /\ zlen (fr_data x) <= PLAYBACK_BUFF_LEN - GTSF_HEAD_SIZE /\
  exists w' a', read_open_file PLAYBACK_BUFF_LEN w = Ret x w' /\ moved w w' /\
    at_file all k r a' w' /\ l' = rest_of_file a' (idx_of r.2) bound.
Proof.
  intros Hl (Hk & Hfi & Ha & Hsame & Hst & Hlast) -> Hmore. destruct (Hl) as (_ & _ & Hall).
  pose proof (proj1 (list.Forall_forall _ _) Hall r (list_elem_of_lookup_2 _ _ _ Hk)) as Hr.
  pose proof (end_frame_range _ _ (is_nil (drop (S k) all)) _ Hr) as Hend.
  destruct (Hsame) as (_ & _ & Hf & _).
  destruct (read_open_run w a (idx_of r.2) Ha) as (x & a' & Hrun & Hs' & Hst' & Hres & Hlen & _ & Hplay);
    [by eapply same_file_ok, (rok_avi _ _ _ _ _ Hr) | done | lia|].
  exists x, (rest_of_file a' (idx_of r.2) (end_frame (pb_stop (vw w)) (is_nil (drop (S k) all)) r)).
  split; [by rewrite Hplay|]. split; [done|]. split; [done|].
  exists (with_avi w a'), a'. split; [done|]. split; [apply moved_avi|]. split; [|done].
  split_and!; try done. destruct Hsame as (? & ? & ? & ? & ? & ?), Hs' as (? & ? & ? & ? & ? & ?). split_and!; congruence.
Qed.

Lemma played_rest_cons stop k all r : all !! k = Some r ->
  played_rest stop (drop k all) = play_file r.2 0 (end_frame stop (is_nil (drop (S k) all)) r) ++ played_rest stop (drop (S k) all).
Proof. intros Hk. by rewrite (drop_S _ _ _ Hk). Qed.

Lemma plays_step all w x l : plays all w (x :: l) -> reads all w x l.
Proof.
  intros (Hl & k & r & a & Hat & Heq). destruct (Hat) as (Hk & Hfi & Ha & Hsame & Hst & Hlast). destruct (Hl) as (Hidx & Htot & Hall).
  pose proof (proj1 (list.Forall_forall _ _) Hall r (list_elem_of_lookup_2 _ _ _ Hk)) as Hr.
  pose proof (last_iff _ _ _ Hk) as Hiff. destruct (Hsame) as (_ & _ & Hf & _).
  unfold reads, playbackreadfileframe. rewrite (bind_ret _ _ w w w) by done. cbv zeta. rewrite Ha, (bind_access _ _ w a) by done.
  rewrite Hfi, Htot, Hiff.
  assert (Hon : video_pos a < end_frame (pb_stop (vw w)) (is_nil (drop (S k) all)) r ->
    0 < fr_result x /\ zlen (fr_data x) <= PLAYBACK_BUFF_LEN - GTSF_HEAD_SIZE /\
    exists w', read_open_file PLAYBACK_BUFF_LEN w = Ret x w' /\ moved w w' /\ is_Some (pb_aviinfo (vw w')) /\ plays all w' l).
  { intros Hmore. destruct (read_on all k r a w (played_rest (pb_stop (vw w)) (drop (S k) all)) _ Hl Hat eq_refl Hmore)
      as (y & l' & Hcons & Hres & Hlen & w' & a' & Hrun & Hmv & Hat' & ->).
    rewrite Hcons in Heq. injection Heq as -> ->. split; [done|]. split; [done|]. exists w'. split; [done|]. split; [done|].
    split; [exists a'; apply Hat'|]. split; [by eapply has_list_moved|]. exists k, r, a'. split; [done|].
    destruct Hmv as (? & ? & ? & ->). done. }
  destruct (Z.lt_ge_cases (video_pos a) (end_frame (pb_stop (vw w)) (is_nil (drop (S k) all)) r)) as [Hmore | Hover].
  { destruct (is_nil (drop (S k) all)) eqn:Hnil.
    - rewrite Hlast by done. rewrite (proj2 (Z.leb_gt _ _)) by lia. by apply Hon.
    - unfold end_frame in Hmore. rewrite Hf, (proj2 (Z.leb_gt _ _)) by lia. by apply Hon. }
  rewrite rest_empty in Heq by done. cbn [app] in Heq.
  destruct (is_nil (drop (S k) all)) eqn:Hnil; [destruct (drop (S k) all); [by cbn in Heq | done]|].
  unfold end_frame in Hover. rewrite Hf, (proj2 (Z.leb_le _ _)) by lia.
  destruct (all !! S k) as [r'|] eqn:Hk'; [|apply lookup_ge_None, drop_ge in Hk'; by rewrite Hk' in Hnil].
  destruct (next_recording_run all (S k) r' w Hl Hk') as (a' & Hnext & Hsame' & Hst' & Hp' & ix & Hix & Hat'); [lia|].
  rewrite (bind_ret _ _ _ _ _ Hnext). cbv iota. set (w1 := opened_at all (S k) r' a' w) in *.
  pose proof (proj1 (list.Forall_forall _ _) Hall r' (list_elem_of_lookup_2 _ _ _ Hk')) as Hr'.
  assert (Hat1 : at_file all (S k) r' a' w1).
  { split_and!; try done. intros Hn. cbn [w1 opened_at]. cbn. by rewrite Hn. }
  pose proof (has_list_moved _ _ _ (opened_moved all (S k) r' a' w) Hl) as Hl1. fold w1 in Hl1.
  rewrite (played_rest_cons _ _ _ _ Hk') in Heq.
  rewrite <- (play_file_rest r' a' ix _ _ 0 _ Hr' Hsame' Hp' Hix Hat') in Heq.
  destruct (read_on all (S k) r' a' w1 (played_rest (pb_stop (vw w)) (drop (S (S k)) all)) _ Hl1 Hat1 eq_refl)
    as (y & l' & Hcons & Hres & Hlen & w' & a2 & Hrun & Hmv & Hat2 & ->).
  { rewrite Hp'. pose proof (end_frame_range _ _ (is_nil (drop (S (S k)) all)) _ Hr'). cbn. lia. }
  change (pb_stop (vw w1)) with (pb_stop (vw w)) in Hcons. rewrite Hcons in Heq. injection Heq as -> ->.
  split; [done|]. split; [done|]. exists w'. split; [done|]. split; [eapply moved_trans; [apply opened_moved | exact Hmv]|].
  split; [exists a2; apply Hat2|]. split; [by eapply has_list_moved|]. exists (S k), r', a2. split; [done|].
  destruct Hmv as (? & ? & ? & ->). done.
Qed.

Lemma plays_end all w : plays all w [] ->
  exists w', playbackreadfileframe tz junk open_view PLAYBACK_BUFF_LEN w = Ret (read_nothing 0) w' /\ moved w w'.
Proof.
  intros (Hl & k & r & a & Hat & Heq). destruct (Hat) as (Hk & Hfi & Ha & Hsame & Hst & Hlast). destruct (Hl) as (Hidx & Htot & Hall).
  pose proof (proj1 (list.Forall_forall _ _) Hall r (list_elem_of_lookup_2 _ _ _ Hk)) as Hr.
  symmetry in Heq. apply app_eq_nil in Heq as [Hrest Hnext].
  assert (Hover : end_frame (pb_stop (vw w)) (is_nil (drop (S k) all)) r <= video_pos a).
  { destruct (Z.lt_ge_cases (video_pos a) (end_frame (pb_stop (vw w)) (is_nil (drop (S k) all)) r)) as [Hmore | ?]; [|done].
    destruct (read_on all k r a w [] _ Hl Hat eq_refl Hmore) as (y & l' & Hcons & _). rewrite Hrest in Hcons. done. }
  assert (Hnil : is_nil (drop (S k) all) = true).
  { destruct (all !! S k) as [r'|] eqn:Hk'; [|apply lookup_ge_None, drop_ge in Hk'; by rewrite Hk'].
    pose proof (proj1 (list.Forall_forall _ _) Hall r' (list_elem_of_lookup_2 _ _ _ Hk')) as Hr'.
    rewrite (played_rest_cons _ _ _ _ Hk') in Hnext. apply app_eq_nil in Hnext as [Hp _].
    destruct (next_recording_run all (S k) r' (w <| vw ::= fun p => p <| pb_fileindex := Z.of_nat (S k) |> |>)) as (a' & _ & Hsame' & Hst' & Hp' & ix & Hix & Hat');
      [done | done | done|].
    rewrite <- (play_file_rest r' a' ix _ _ 0 _ Hr' Hsame' Hp' Hix Hat') in Hp.
    pose proof (end_frame_range _ _ (is_nil (drop (S (S k)) all)) _ Hr').
    destruct (read_open_run (with_avi w a') a' (idx_of r'.2) eq_refl) as (x & a2 & _ & _ & _ & _ & _ & _ & Hplay);
      [by eapply same_file_ok, (rok_avi _ _ _ _ _ Hr') | done | destruct Hsame' as (_ & _ & -> & _); lia|].
    rewrite Hplay in Hp by lia. done. }
  rewrite Hnil in Hover. exists (w <| vw ::= fun p => p <| pb_aviinfo := (None : option avi_view) |> |>).
  split; [|exists None, (pb_fileindex (vw w)), (lastframe (vw w)); by destruct w as [? []]].
  unfold playbackreadfileframe. rewrite (bind_ret _ _ w w w) by done. cbv zeta. rewrite Ha, (bind_access _ _ w a) by done.
  rewrite Hfi, Htot, (last_iff _ _ _ Hk), Hnil, (Hlast Hnil). by rewrite (proj2 (Z.leb_le _ _)).
Qed.

(** ** Opening the list *)

(** [start] is within the first recording that is played. *)
Definition starts_in (start : Z) (r : rec) : Prop := first_frame start r < video_frames r.2 /\ first_frame start r < 2 ^ 31.

Lemma first_seek f stop start r : rec_ok f stop r -> starts_in start r ->
  let passtime := if start_of r.1 <? start then i32 (start - start_of r.1) else 0 in
  0 <= first_frame start r /\
  (if passtime =? 0 then r.2 else r.2 <| video_pos := avi_frames r.2 passtime |>) = r.2 <| video_pos := first_frame start r |>.
Proof.
  intros Hr [_ Hsmall]. pose proof (rate_pos _ _ _ Hr) as Hrate. destruct Hr as [_ _ _ Hfresh Hfps _ _]. unfold first_frame in *.
  revert Hsmall. destruct (Z.ltb_spec (start_of r.1) start) as [Hlt | Hge]; intros Hsmall.
  - rewrite i32_small by nia. rewrite (proj2 (Z.eqb_neq _ _)) by lia. split; [nia|].
    assert (Hfr : avi_frames r.2 (start - start_of r.1) = (start - start_of r.1) * rate r.2); [|by rewrite Hfr].
    unfold avi_frames, rate, PLAYBACK_FRAMERATE_25 in *. destruct (fps r.2 =? 0); rewrite i32_small; nia.
  - split; [done|]. change (0 =? 0) with true. cbv iota. revert Hfresh. destruct r as [c []]. cbn. by intros ->.
Qed.

Lemma open_first_run all r recs info w : all = r :: recs -> has_list all w -> pb_fileindex (vw w) = 0 ->
  starts_in (pb_start (vw w)) r -> stime info = start_of r.1 ->
  exists w', open_first info r.2 w = Ret PLAYBACK_SUCCESS w' /\ moved w w' /\
    plays all w' (played (pb_start (vw w)) (pb_stop (vw w)) all).
Proof.
  intros -> Hl Hfi Hin Hst. destruct (Hl) as (Hidx & Htot & Hall).
  pose proof (proj1 (list.Forall_forall _ _) Hall r (list_elem_of_here _ _)) as Hr.
  destruct (first_seek _ _ _ _ Hr Hin) as [Hpos Hseek]. cbv zeta in Hseek.
  unfold open_first. rewrite (bind_ret _ _ w w w) by done. cbv zeta. rewrite Hst, Hseek.
  set (a0 := r.2 <| video_pos := first_frame (pb_start (vw w)) r |>) in *.
  assert (Hp0 : video_pos a0 = first_frame (pb_start (vw w)) r) by done. assert (Hf0 : video_frames a0 = video_frames r.2) by done.
  rewrite Hp0, Hf0. destruct Hin as [Hin _]. rewrite (proj2 (Z.ltb_ge _ _)), (proj2 (Z.leb_gt _ _)) by lia. cbn [orb].
  rewrite bind_edit. set (w1 := with_avi w a0). change (w <| vw ::= fun p => p <| pb_aviinfo := Some a0 |> |>) with w1.
  assert (Hsame0 : same_file r.2 a0) by by split_and!.
  destruct (seek_ok a0 (idx_of r.2)) as (a & Hsk & Hsame & Hstep & Hp & ix & Hix & Hat);
    [eapply same_file_ok, (rok_avi _ _ _ _ _ Hr); done | rewrite Hp0, Hf0; lia|].
  set (w2 := if recordfiletotal (vw w) =? 1 then with_last w1 (end_frame (pb_stop (vw w)) true r) else w1).
  assert (Hfound : (if recordfiletotal (vw w) =? 1 then locate_last a0 (start_of r.1) else mret true) w1 = Ret true w2).
  { unfold w2. destruct (_ =? 1); [|done]. by apply (locate_last_run w1 (files (vw_index w))). }
  rewrite (bind_ret _ _ _ _ _ Hfound). cbn [negb]. rewrite bind_edit.
  assert (Hvi : video_index a0 = Some (idx_of r.2)) by exact (av_index _ _ (rok_avi _ _ _ _ _ Hr)).
  rewrite Hvi, (bind_access _ _ _ a Hsk), bind_edit. eexists. split; [done|].
  assert (Hmv : moved w (opened_at (r :: recs) 0 r a w)) by apply opened_moved.
  assert (Heq : w2 <| vw ::= fun p => p <| pb_fileindex ::= Z.succ |> |> <| vw ::= fun p => p <| pb_aviinfo := Some a |> |>
    = opened_at (r :: recs) 0 r a w).
  { unfold w2, opened_at. rewrite Htot. change (drop 1 (r :: recs)) with recs. cbn [length].
    replace (Z.of_nat (S (length recs)) =? 1) with (is_nil recs) by (destruct recs; [done|]; cbn [is_nil length]; symmetry; apply Z.eqb_neq; lia).
    unfold w1, with_avi, with_last. destruct w as [? []]. cbn in Hfi |- *. rewrite Hfi. by destruct (is_nil recs). }
  rewrite Heq. split; [done|]. split; [by eapply has_list_moved|]. exists 0%nat, r, a.
  split; [split_and!; try done|].
  - intros Hn. cbn in Hn |- *. by rewrite Hn.
  - cbn [played drop]. change (pb_stop (vw (opened_at (r :: recs) 0 r a w))) with (pb_stop (vw w)). f_equal. symmetry.
    destruct Hsame as (? & ? & ? & ? & ? & ?), Hsame0 as (? & ? & ? & ? & ? & ?).
    eapply play_file_rest; [exact Hr | split_and!; congruence | congruence | rewrite <- Hp0; exact Hix | exact Hat].
Qed.
End Plays.
