(* ===== verification/PlaybackQuery.v ===== *)
(** * The list of a session

    The query of all partitions writes the recordings that are found; sorted, they are
    the session's list. *)

From Stdlib Require Import Ascii String.
From stdpp Require Import gmap strings sorting.
From S2P Require Import Prelude Update Ctime Cstring RecName RecNameThms FileIndex FileIndexThms FileIndexLock DiskMan RecordSort RecordSortThms Playback PlaybackFiles PlaybackPlays.

(** ** All partitions *)

Section Partitions.
Context {St : Type} (v : dm_env) (fn : cstr -> M St Z).

(** The mount points, and a call for each. *)
Definition mounts_of (i : nat) : list cstr := map (fun j => mount_path v i (Z.of_nat j + 1)) (seq 0 (Z.to_nat (part_num v i))).
Definition mounts : list cstr := concat (map mounts_of (seq 0 (length (disk_sizes v)))).

Fixpoint over (ms : list cstr) : M St Z :=
  match ms with [] => mret 0 | m :: ms => r ← fn m; r' ← over ms; mret (r + r') end.

Lemma over_app l1 l2 s : over (l1 ++ l2) s = (r ← over l1; r' ← over l2; mret (r + r')) s.
Proof.
  revert s. induction l1 as [|m l1 IH]; intros s; cbn [app over].
  - cbv [mbind M_bind mret M_ret]. by destruct (over l2 s).
  - cbv [mbind M_bind mret M_ret] in *. destruct (fn m s) as [r s1| | |]; [|done..]. rewrite IH.
    destruct (over l1 s1) as [r1 s2| | |]; [|done..]. destruct (over l2 s2) as [r2 s3| | |]; [|done..]. by rewrite Z.add_assoc.
Qed.

Lemma partitions_over n i j s : process_partitions v n i (Z.of_nat j + 1) fn s =
  over (map (fun j => mount_path v i (Z.of_nat j + 1)) (seq j n)) s.
Proof.
  revert j s. induction n as [|n IH]; intros j s; [done|]. cbn [process_partitions seq map over].
  cbv [mbind M_bind]. destruct (fn _ s) as [r s1| | |]; [|done..].
  replace (Z.of_nat j + 1 + 1) with (Z.of_nat (S j) + 1) by lia. by rewrite IH.
Qed.

Lemma disks_over n i s : process_disks v n i fn s = over (concat (map mounts_of (seq i n))) s.
Proof.
  revert i s. induction n as [|n IH]; intros i s; [done|]. cbn [process_disks seq map concat]. rewrite over_app.
  cbv [mbind M_bind]. rewrite (partitions_over _ i 0). fold (mounts_of i). destruct (over _ s) as [r s1| | |]; [|done..].
  by rewrite IH.
Qed.

Lemma all_partitions_over s : mpdisk_process_all_partitions v fn s = over mounts s.
Proof. apply disks_over. Qed.
End Partitions.

(** ** The query *)

Section Query.
Variables (e : disk_env) (q : query_index_process_struct) (fp : cstr).
Context `{!DiskLaws e}.
Hypothesis Hq : query_fits q.

(** The partitions' databases are open, with the rows [ts]. *)
Definition all_opened (s : index_st) (ms : list cstr) (ts : list (list index_row)) : Prop :=
  Forall2 (fun m t => exists d, opened s m d t) ms ts.

Lemma found_same s s' t : (forall n, n <> fp -> files s' !! n = files s !! n) -> Forall (name_fits fp) t ->
  found e q s' t = found e q s t.
Proof.
  intros Hf Ht. unfold found. apply filter_ext_in. intros r Hr%list_elem_of_In.
  rewrite (scan_perm (e := e)) in Hr. apply list_elem_of_In, filter_In in Hr as [Hr _]. rewrite list.Forall_forall in Ht.
  apply list_elem_of_In, Ht in Hr as [_ Hne]. unfold on_disk. by rewrite Hf.
Qed.

Lemma query_all ms ts s : all_opened s ms ts -> waits s -> Forall (Forall (name_fits fp)) ts ->
  exists x s', over (fun m => fileindex_query_index e m fp q) ms s = Ret x s' /\
    (forall n, n <> fp -> files s' !! n = files s !! n) /\
    default [] (files s' !! fp : option cstr) = default [] (files s !! fp : option cstr) ++
      lines (map (drop 7) (names (concat (map (found e q s) ts)))) /\
    db_info s' = db_info s /\ tables s' = tables s /\ waits s'.
Proof.
  revert ts s. induction ms as [|m ms IH]; intros ts s Ho Hw Hn; inversion Ho as [|? t ? ts' [d Hd] Ho']; subst.
  { exists 0, s. split; [done|]. split; [done|]. by rewrite app_nil_r. }
  apply list.Forall_cons in Hn as [Hn Hns]. cbn [over].
  destruct (query_run e q fp m d t s Hd Hw Hq Hn) as (s1 & Hrun & Hf & Htext & Hdb & Htb & Hw1).
  rewrite (bind_ret _ _ _ _ _ Hrun).
  assert (Ho1 : all_opened s1 ms ts').
  { eapply list.Forall2_impl; [exact Ho'|]. intros m' t' [d' Hd']. exists d'. unfold opened. by rewrite Hdb, Htb. }
  destruct (IH ts' s1 Ho1 Hw1 Hns) as (x & s2 & Hrun2 & Hf2 & Htext2 & Hdb2 & Htb2 & Hw2).
  rewrite (bind_ret _ _ _ _ _ Hrun2). exists (0 + x), s2. split; [done|].
  split; [intros n Hne; by rewrite Hf2, Hf|]. split; [|split_and!; congruence || done].
  assert (Hsame : map (found e q s1) ts' = map (found e q s) ts').
  { apply map_ext_in. intros t' Ht'%list_elem_of_In. rewrite list.Forall_forall in Hns. by apply found_same, Hns. }
  rewrite Htext2, Htext, Hsame, <- app_assoc. f_equal. cbn [map concat]. unfold lines. by rewrite !map_app, concat_app.
Qed.
End Query.

(** ** Opening a session's recordings *)

Section Open.
Variables (e : disk_env) (v : dm_env) (tz : Z) (junk : file_info_struct).
Variable qsort : (cstr -> cstr -> Z) -> list cstr -> list cstr.
Variables (open_view : files_t -> cstr -> option avi_view) (stray_write : bool).
Context `{!DiskLaws e} `{!QsortLaws qsort}.
Hypotheses (Htz : - 86400 <= tz <= 86400) (Hjunk : length (info_partition junk) = 16%nat).
(** The AVI file of a recording. *)
Variable avi_of : clip -> avi_view.
Implicit Types (w : view_st) (c : clip) (cs : list clip).

Definition rec_of c : clip * avi_view := (c, avi_of c).

(** A recording that can be played from [start] to [stop], in its file [f]. *)
Record playable (f : files_t) (start stop : Z) c : Prop := {
  pl_clip : clip_ok c;
  pl_open f' : f' !! clip_name tz c = f !! clip_name tz c -> open_view f' (clip_name tz c) = Some (avi_of c);
  pl_avi : avi_ok (avi_of c) (idx_of (avi_of c));
  pl_fresh : video_pos (avi_of c) = 0;
  pl_fps : 0 <= fps (avi_of c);
  pl_start : 0 <= start_of c <= stop;
  pl_stop : (stop + 1 - start_of c) * rate (avi_of c) < 2 ^ 31;
  pl_in : starts_in start (rec_of c)
}.

Lemma tmp_not_index start id : tmp_name start id <> index_name start id.
Proof.
  intros Heq. apply (f_equal length) in Heq. unfold tmp_name, index_name in Heq. rewrite !length_app in Heq. cbn in Heq. lia.
Qed.

Lemma clip_not_index c start id : clip_ok c -> clip_name tz c <> index_name start id /\ clip_name tz c <> tmp_name start id.
Proof.
  intros (disk & part & Hok & _). unfold clip_name, flagged, finfo_base. rewrite (ok_partition _ _ _ Hok).
  split; intros Heq; apply (f_equal (fun l => l !! 8%nat)) in Heq; discriminate Heq.
Qed.

Lemma playable_ok f f' start stop c : stop + 1 < 2 ^ 31 -> playable f start stop c -> f' !! clip_name tz c = f !! clip_name tz c ->
  rec_ok tz open_view f' stop (rec_of c).
Proof.
  intros Hstop [Hc Ho Ha Hf Hfps Hs Hst _] Hsame. split; try done. unfold path_of. cbn [fst snd rec_of].
  destruct (clip_line_facts tz Htz c Hc) as (_ & _ & _ & <- & _). by apply Ho.
Qed.

Lemma query_index_run w ts cs id ch start stop :
  let tmp := tmp_name start id in let out := index_name start id in
  append_ok e tmp = true -> append_ok e out = true ->
  all_opened (vw_index w) (mounts v) ts -> waits (vw_index w) -> Forall (Forall (name_fits tmp)) ts -> -1 <= ch < 2 ^ 16 ->
  cs <> [] -> Forall clip_ok cs ->
  names (concat (map (found e (Build_query_index_process_struct start stop ch (-1)) (vw_index w)) ts)) = map (clip_name tz) cs ->
  exists cs' i', cs' ≡ₚ cs /\ StronglySorted clip_le cs' /\
    query_record_index e v qsort id ch start stop w =
      Ret PLAYBACK_SUCCESS (w <| vw_index := i' |> <| vw ::= fun p => p <| Indexfilename := out |> |>) /\
    files i' !! out = Some (lines (map (clip_path tz) cs')) /\
    forall n, n <> tmp -> n <> out -> files i' !! n = files (vw_index w) !! n.
Proof.
  intros tmp out Hat Hao Ho Hw Hn Hch Hne Hcs Hfound.
  set (q := Build_query_index_process_struct start stop ch (-1)) in *.
  set (i0 := vw_index w) in *. set (i1 := i0 <| files := <[tmp := ([] : cstr)]> (files i0) |>).
  assert (Hmap : map (found e q i1) ts = map (found e q i0) ts).
  { apply map_ext_in. intros t Ht%list_elem_of_In. rewrite list.Forall_forall in Hn. apply (found_same e q tmp); [|by apply Hn].
    intros n Hnt. cbn. by rewrite lookup_insert_ne. }
  destruct (query_all e q tmp ltac:(split; cbn; lia) (mounts v) ts i1) as (x & i2 & Hrun & Hf2 & Htext & Hdb & Htb & Hw2); [done..|].
  rewrite Hmap, Hfound in Htext. cbn [files i1] in Htext. assert (H1 : files i1 !! tmp = Some ([] : cstr)) by (cbn; by rewrite lookup_insert_eq).
  rewrite H1, map_map in Htext. change (default [] (files i2 !! tmp : option cstr) = lines (map (clip_path tz) cs)) in Htext.
  assert (Hlen : lines (map (clip_path tz) cs) <> []).
  { destruct cs as [|c cs]; [done|]. cbn [map]. rewrite lines_cons. by destruct (clip_path tz c). }
  assert (H2 : files i2 !! tmp = Some (lines (map (clip_path tz) cs))).
  { destruct (files i2 !! tmp); cbn in Htext; congruence. }
  destruct (sort_main_run e qsort tz Htz cs tmp out i2 Hcs (tmp_not_index start id) Hao H2) as (cs' & Hperm & Hsort & Hmain).
  set (i3 := i2 <| files := <[out := (lines (map (clip_path tz) cs') : cstr)]> (files i2) |>) in Hmain. exists cs', (i3 <| files := delete tmp (files i3) |>).
  split; [done|]. split; [done|]. split; [|split].
  - unfold query_record_index. cbv zeta. fold tmp out q. rewrite Hat. cbn [negb].
    set (w1 := w <| vw_index := i1 |>). rewrite (bind_ret _ _ w () w1) by done.
    set (w2 := w <| vw_index := i2 |>).
    assert (Hall : vw_on_index (mpdisk_process_all_partitions v (fun path => fileindex_query_index e path tmp q)) w1 = Ret x w2).
    { unfold vw_on_index. rewrite all_partitions_over. change (vw_index w1) with i1. by rewrite Hrun. }
    rewrite (bind_ret _ _ _ _ _ Hall). rewrite (bind_ret _ _ w2 (Some (lines (map (clip_path tz) cs))) w2) by (unfold vw_file, gets; by rewrite <- H2).
    cbn [default from_option].
    rewrite (proj2 (Nat.eqb_neq _ _)) by (by intros ?%nil_length_inv).
    set (w3 := w <| vw_index := i3 |>).
    assert (Hsys : vw_on_index (system_run (record_sort_main e qsort tmp out)) w2 = Ret () w3).
    { unfold vw_on_index, system_run. change (vw_index w2) with i2. by rewrite Hmain. }
    rewrite (bind_ret _ _ _ _ _ Hsys). rewrite (bind_ret _ _ w3 () (w <| vw_index := (i3 <| files := delete tmp (files i3) |>) |>)) by done.
    by rewrite bind_edit.
  - cbn. rewrite lookup_delete_ne by apply tmp_not_index. by rewrite lookup_insert_eq.
  - intros n Hnt Hno. cbn. rewrite lookup_delete_ne, lookup_insert_ne, Hf2 by done. cbn. by rewrite lookup_insert_ne.
Qed.

(** What opening changes of a session, before it reads. *)
Definition reopened (w : view_st) (i : index_st) (name : cstr) (total : Z) : view_st :=
  w <| vw_index := i |> <| vw ::= fun p => p <| Indexfilename := name |> <| pb_frames := 0 |> <| pb_fileindex := 0 |>
    <| recordfiletotal := total |> |>.

Lemma openfile_run w ts cs :
  let p := vw w in let tmp := tmp_name (pb_start p) (playbackindex p) in let out := index_name (pb_start p) (playbackindex p) in
  append_ok e tmp = true -> append_ok e out = true ->
  all_opened (vw_index w) (mounts v) ts -> waits (vw_index w) -> Forall (Forall (name_fits tmp)) ts -> -1 <= pb_channel p < 2 ^ 16 ->
  cs <> [] -> Forall (playable (files (vw_index w)) (pb_start p) (pb_stop p)) cs -> pb_stop p + 1 < 2 ^ 31 ->
  names (concat (map (found e (Build_query_index_process_struct (pb_start p) (pb_stop p) (pb_channel p) (-1)) (vw_index w)) ts)) =
    map (clip_name tz) cs ->
  stray_write = true \/ (1 < length cs)%nat ->
  exists cs' i' w', cs' ≡ₚ cs /\ StronglySorted clip_le cs' /\
    playback_openfile e v tz junk qsort open_view stray_write w = Ret PLAYBACK_SUCCESS w' /\
    moved (reopened w i' out (zlen cs')) w' /\
    plays tz open_view (map rec_of cs') w' (played (pb_start p) (pb_stop p) (map rec_of cs')).
Proof.
  intros p tmp out Hat Hao Ho Hw Hn Hch Hne Hcs Hstop Hfound Hstray.
  assert (Hclips : Forall clip_ok cs) by (eapply list.Forall_impl; [exact Hcs|]; by intros c []).
  destruct (query_index_run w ts cs (playbackindex p) (pb_channel p) (pb_start p) (pb_stop p) Hat Hao Ho Hw Hn Hch Hne Hclips Hfound)
    as (cs' & i' & Hperm & Hsort & Hquery & Htext & Hsame). fold out in Hquery, Htext. fold tmp out in Hsame.
  exists cs', i'.
  assert (Hcs' : Forall (playable (files (vw_index w)) (pb_start p) (pb_stop p)) cs') by by rewrite Hperm.
  assert (Hall : Forall (rec_ok tz open_view (files i') (pb_stop p)) (map rec_of cs')).
  { apply list.Forall_forall. intros r Hr. apply list_elem_of_In, in_map_iff in Hr as (c & <- & Hc%list_elem_of_In).
    rewrite list.Forall_forall in Hcs'. specialize (Hcs' c Hc). eapply playable_ok; [done | exact Hcs'|].
    destruct (clip_not_index c (pb_start p) (playbackindex p)) as [? ?]; [apply Hcs'|]. by apply Hsame. }
  destruct cs' as [|c cs']; [by apply Permutation_nil in Hperm; subst|].
  assert (Hlen : length cs = S (length cs')) by by rewrite <- (Permutation_length Hperm).
  apply list.Forall_cons in Hcs' as [Hc Hcs']. cbn [map] in Hall. apply list.Forall_cons in Hall as [Hr Hrest].
  set (all := map rec_of (c :: cs')) in *. set (w2 := reopened w i' out (zlen (c :: cs'))).
  destruct (parse_path tz Htz c junk (pl_clip _ _ _ _ Hc) Hjunk) as (info & Hp & Hst & _).
  assert (Hlist : has_list tz open_view all w2).
  { split; [|split; [unfold all; by rewrite length_map | by constructor]]. unfold all. rewrite map_map. exact Htext. }
  destruct (open_first_run tz junk open_view Hjunk all (rec_of c) (map rec_of cs') info w2 eq_refl Hlist eq_refl (pl_in _ _ _ _ Hc) Hst)
    as (w' & Hrun & Hmv & Hplays).
  exists w'. split; [done|]. split; [done|]. split; [|by split].
  unfold playback_openfile. rewrite (bind_ret _ _ w w w) by done. cbv zeta. fold p. rewrite (bind_ret _ _ _ _ _ Hquery).
  change (negb (PLAYBACK_SUCCESS =? PLAYBACK_SUCCESS)) with false. cbv iota. rewrite bind_edit.
  match goal with |- (_ ≫= _) ?x = _ => set (w1 := x) end. rewrite (bind_ret _ _ w1 w1 w1) by done.
  destruct Hlist as [Hlist _]. change all with (rec_of c :: map rec_of cs') in Hlist. rewrite (lines_rec tz) in Hlist. change (rec_of c).1 with c in Hlist.
  rewrite (bind_ret _ _ w1 (Some (clip_line tz c ++ lines (map (path_of tz) (map rec_of cs')))) w1)
    by exact (f_equal (fun t => Ret t w1) Hlist).
  destruct (line_cons tz c (lines (map (path_of tz) (map rec_of cs')))) as (x & k & Hx). rewrite Hx, <- Hx.
  rewrite (fgets_clip tz Htz) by apply Hc. cbv beta iota zeta.
  rewrite (count_lines_recs tz Htz) by (done || (eapply list.Forall_impl; [exact Hrest|]; by intros r [])).
  rewrite bind_edit. assert (Hw2 : w1 <| vw ::= fun q => q <| recordfiletotal := 1 + zlen (map rec_of cs') |> |> = w2).
  { unfold w1, w2, reopened. rewrite length_map. cbn [length]. replace (1 + zlen cs') with (Z.of_nat (S (length cs'))) by lia. done. }
  rewrite Hw2. assert (Hs : (if (1 + zlen (map rec_of cs') =? 1) && negb stray_write then undef else mret ()) w2 = Ret () w2).
  { destruct Hstray as [-> | Hmany]; [by rewrite andb_false_r|]. rewrite length_map, (proj2 (Z.eqb_neq _ _)) by lia. done. }
  rewrite (bind_ret _ _ _ _ _ Hs), (chop_line tz), (bind_access _ _ w2 _ Hp). cbv beta iota.
  assert (Hopen : open_recording open_view (clip_path tz c) w2 = Ret (Some (avi_of c)) w2).
  { unfold open_recording. destruct (clip_line_facts tz Htz _ (pl_clip _ _ _ _ Hc)) as (_ & Hl & _). unfold clip_line in Hl.
    rewrite length_app in Hl. rewrite (proj2 (Nat.ltb_lt _ _)) by (unfold cstr in *; lia). unfold gets. f_equal. apply (rok_open _ _ _ _ _ Hr). }
  rewrite (bind_ret _ _ _ _ _ Hopen). exact Hrun.
Qed.
End Open.
