(* ===== verification/PlaybackRuns.v ===== *)
(** * Viewers see what was recorded

    A viewer's request is answered with the recordings that were found, in order of
    time, each frame of the window once; then the session is free again. *)

From Stdlib Require Import Ascii String.
From stdpp Require Import gmap strings sorting.
From S2P Require Import Prelude Update Ctime Cstring RecName RecNameThms FileIndex FileIndexThms FileIndexLock DiskMan RecordSort RecordSortThms DiskManRuns Playback PlaybackServer PlaybackFiles PlaybackPlays PlaybackQuery.

(** ** What is sent *)

Definition sent_on (fd : Z) (c : pb_call) : option av_packet :=
  match c with Pb_send fd' p => if fd' =? fd then Some p else None | _ => None end.
Definition sent (fd : Z) (out : list pb_call) : list av_packet := omap (sent_on fd) out.

(** What a packet has of the recording. *)
Definition content (p : av_packet) : frame_read :=
  match p with
  | Pk_video iframe _ d => {| fr_result := 1; fr_isvideo := 1; fr_data := d; fr_flag := if iframe =? 0 then 1 else 0 |}
  | Pk_audio _ _ _ _ _ d => audio_read d
  end.

Definition shaped (r : frame_read) : Prop := (exists k d, r = video_read k d) \/ (exists d, r = audio_read d).

Lemma content_packet p a r : shaped r -> content (packet_of p a r) = r.
Proof.
  intros [(k & d & ->) | (d & ->)]; unfold packet_of, video_read; cbn -[Z.eqb].
  - by destruct (k =? 16).
  - by destruct (audio_source p =? 1).
Qed.

Lemma play_until_shaped idx cs pos bound : Forall shaped (play_until idx cs pos bound).
Proof.
  revert pos. induction cs as [|c cs IH]; intros pos; cbn [play_until]; destruct (bound <=? pos); try by constructor.
  destruct c; [constructor; [left; eauto | done] | constructor; [right; eauto | done] | done].
Qed.

Lemma played_rest_shaped stop recs : Forall shaped (played_rest stop recs).
Proof. induction recs; [constructor|]. apply Forall_app. split; [apply play_until_shaped | done]. Qed.

Lemma sent_app fd l l' : sent fd (l ++ l') = sent fd l ++ sent fd l'.
Proof. apply omap_app. Qed.

(** ** The parts of a round *)

Section Basics.
Implicit Types (s : pb_st).

Lemma session_run i p s : geti (g_playback s) i = Some p -> session i s = Ret p s.
Proof. intros Hp. unfold session. rewrite (bind_ret _ _ s s s) by done. by rewrite Hp. Qed.

(** [s] with session [i]. *)
Definition with_session s (i : Z) (p : playback_struct) : pb_st := s <| g_playback := <[Z.to_nat i := p]> (g_playback s) |>.

Lemma with_session_get s i p p' : geti (g_playback s) i = Some p -> geti (g_playback (with_session s i p')) i = Some p'.
Proof.
  intros Hi%geti_Some. cbn. apply (geti_seti_eq (g_playback s)). by apply seti_Some.
Qed.

Lemma with_session_other s i p' j : 0 <= i -> i <> j -> geti (g_playback (with_session s i p')) j = geti (g_playback s) j.
Proof. intros Hi Hne. cbn. unfold geti. zcase; [|done]. apply list_lookup_insert_ne. lia. Qed.

Lemma edit_session_run i f p s : geti (g_playback s) i = Some p -> edit_session i f s = Ret () (with_session s i (f p)).
Proof. intros Hp. unfold edit_session, on_session. rewrite Hp. unfold edit, modify. by destruct s. Qed.

Lemma on_session_run {A} i (m : M view_st A) p s a w : geti (g_playback s) i = Some p ->
  m {| vw_index := pb_index s; vw := p |} = Ret a w ->
  on_session i m s = Ret a ((with_session s i (vw w)) <| pb_index := vw_index w |>).
Proof. intros Hp Hm. unfold on_session. rewrite Hp, Hm. by destruct s. Qed.

(** The thread's own variables are what changes, and what it sends. *)
Definition paced s s' : Prop := exists t l, s' = s <| pb_threads := t |> <| pb_out := pb_out s ++ l |> /\
  length t = length (pb_threads s) /\ forall fd, sent fd l = [].

Lemma paced_refl s : paced s s.
Proof. exists (pb_threads s), []. split; [|done]. rewrite app_nil_r. by destruct s. Qed.

Lemma paced_trans s1 s2 s3 : paced s1 s2 -> paced s2 s3 -> paced s1 s3.
Proof.
  intros (t & l & -> & Ht & Hl) (t' & l' & -> & Ht' & Hl'). exists t', (l ++ l'). cbn in *. split; [|split; [congruence|]].
  - cbn. by rewrite app_assoc.
  - intros fd. by rewrite sent_app, Hl, Hl'.
Qed.

Lemma thread_run ch s : 0 <= ch < zlen (pb_threads s) -> exists t, thread ch s = Ret t s.
Proof.
  intros Hch. destruct (geti_is_Some (pb_threads s) ch Hch) as [t Ht]. exists t.
  unfold thread. rewrite (bind_ret _ _ s s s) by done. by rewrite Ht.
Qed.

Lemma edit_thread_run ch f s : 0 <= ch < zlen (pb_threads s) -> exists s', edit_thread ch f s = Ret () s' /\ paced s s'.
Proof.
  intros Hch. destruct (thread_run ch s Hch) as [t Ht]. unfold edit_thread. rewrite (bind_ret _ _ _ _ _ Ht), (bind_ret _ _ s s s) by done.
  rewrite (bind_access _ _ _ _ (seti_Some _ _ (f t) Hch)). eexists. split; [done|].
  exists (<[Z.to_nat ch := f t]> (pb_threads s)), []. rewrite app_nil_r. split; [by destruct s|]. split; [apply length_insert | done].
Qed.

Lemma pace_run ch a b s : 0 <= ch < zlen (pb_threads s) -> exists s', pace ch a b s = Ret () s' /\ paced s s'.
Proof.
  intros Hch. destruct (thread_run ch s Hch) as [t Ht]. unfold pace. rewrite (bind_ret _ _ _ _ _ Ht). cbv zeta.
  match goal with |- context [(?m ≫= _) s] =>
    assert (Hm : exists s1, m s = Ret () s1 /\ paced s s1) end.
  { destruct (0 <? _); [exists s; split; [done | apply paced_refl]|].
    destruct (_ && _); [|exists s; split; [done | apply paced_refl]]. eexists. split; [done|].
    eexists (pb_threads s), [_]. split; [reflexivity|]. split; done. }
  destruct Hm as (s1 & Hm & Hp). rewrite (bind_ret _ _ _ _ _ Hm).
  assert (Hch1 : 0 <= ch < zlen (pb_threads s1)) by (destruct Hp as (t1 & l & -> & Hl & _); cbn; lia).
  destruct (edit_thread_run ch (fun t0 => t0 <| th_diff := default (th_diff t) (timeval_subtract (th_start t) a) |> <| th_start := b |>) s1 Hch1)
    as (s2 & Hrun & Hp2).
  exists s2. split; [exact Hrun | by eapply paced_trans].
Qed.

End Basics.

(** ** Closing a session *)

Section Close.
Variable playbackclosepool : playback_struct -> M pb_st ().
Implicit Types (s : pb_st).
Abbreviation playbackClose := (playbackClose playbackclosepool).

Definition others_same (ch : Z) s s' : Prop := forall j, j <> ch -> geti (g_playback s') j = geti (g_playback s) j.

(** Session [ch] is free, and its list is gone. *)
Definition freed (ch : Z) (audio : Z) s : Prop := geti (g_playback s) ch = Some (playback_idle audio).

Lemma close_run ch p s : geti (g_playback s) ch = Some p -> 0 <= ch < PLAYBACK_NUM -> zlen (socketable s) = MAX_PLAYBACK_NUM ->
  pb_state p <> PLAYBACK_STAT_IDLE -> pb_sourcefrom p = PLAYBACK_SOURCE_FILE ->
  exists s', playbackClose ch s = Ret PLAYBACK_SUCCESS s' /\ freed ch (audio_source p) s' /\ others_same ch s s' /\
    (forall fd, sent fd (pb_out s') = sent fd (pb_out s)) /\
    files (pb_index s') = delete (Indexfilename p) (files (pb_index s)) /\
    (exists k, geti (socketable s) ch = Some k /\
      socketable s' = <[Z.to_nat ch := k <| sk_IsUsed := 0 |> <| sk_fd := 0 |>]> (socketable s)) /\
    open_fds s' = (if pb_socket p =? 0 then open_fds s else List.filter (fun x => negb (x =? pb_socket p)) (open_fds s)).
Proof.
  intros Hp Hch Hslots Hst Hsrc. unfold PlaybackServer.playbackClose.
  rewrite (proj2 (Z.ltb_ge _ _)), (proj2 (Z.leb_gt _ _)) by lia. cbn [orb]. rewrite (bind_ret _ _ _ _ _ (session_run _ _ _ Hp)).
  rewrite (proj2 (Z.eqb_neq _ _)) by done. rewrite Hsrc. change (PLAYBACK_SOURCE_FILE =? PLAYBACK_SOURCE_POOL) with false. cbv iota.
  set (i1 := pb_index s). set (i2 := i1 <| files := delete (Indexfilename p) (files i1) |>).
  set (s1 := (with_session s ch p) <| pb_index := i2 |>).
  set (p2 := p <| pb_aviinfo := (None : option avi_view) |>). set (s2 := with_session s1 ch p2).
  assert (Hs1 : geti (g_playback s1) ch = Some p) by exact (with_session_get s ch p p Hp).
  assert (Hs2 : geti (g_playback s2) ch = Some p2) by exact (with_session_get s1 ch p p2 Hs1).
  assert (Hclose : exists s3 p3, (if pb_socket p =? 0 then mret () else
      close_fd (pb_socket p) ;; edit_session ch (fun p => p <| pb_socket := 0 |>)) s2 = Ret () s3 /\
      geti (g_playback s3) ch = Some p3 /\ audio_source p3 = audio_source p /\ others_same ch s2 s3 /\ socketable s3 = socketable s /\
      (forall fd, sent fd (pb_out s3) = sent fd (pb_out s)) /\ pb_index s3 = pb_index s1 /\
      open_fds s3 = (if pb_socket p =? 0 then open_fds s else List.filter (fun x => negb (x =? pb_socket p)) (open_fds s))).
  { destruct (pb_socket p =? 0); [by exists s2, p2|].
    set (s21 := s2 <| open_fds ::= List.filter (fun x => negb (x =? pb_socket p)) |> <| pb_out ::= fun l => l ++ [Pb_close (pb_socket p)] |>).
    exists (with_session s21 ch (p2 <| pb_socket := 0 |>)), (p2 <| pb_socket := 0 |>).
    split; [|split; [exact (with_session_get s21 ch p2 _ Hs2)|]].
    - rewrite (bind_ret _ _ s2 () s21) by done. by rewrite (edit_session_run ch _ p2 s21 Hs2).
    - split; [done|]. split; [intros j Hj; by apply (with_session_other s21); lia|]. split; [done|]. split; [|by split].
      intros fd. transitivity (sent fd (pb_out s ++ [Pb_close (pb_socket p)])); [done|]. by rewrite sent_app, app_nil_r. }
  destruct Hclose as (s3 & p3 & Hrun3 & Hp3 & Hau & Hoth3 & Hsl3 & Hsent3 & Hidx3 & Hfds3).
  assert (Hfile : playbackclosefile ch s = Ret PLAYBACK_SUCCESS s3).
  { unfold playbackclosefile. rewrite (bind_ret _ _ _ _ _ (session_run _ _ _ Hp)).
    assert (Hrm : vw_on_index (rm_rf (Indexfilename p)) {| vw_index := pb_index s; vw := p |} = Ret () {| vw_index := i2; vw := p |}) by done.
    rewrite (bind_ret _ _ _ _ _ (on_session_run ch _ p s () _ Hp Hrm)). fold s1.
    rewrite (bind_ret _ _ _ _ _ (edit_session_run ch _ p s1 Hs1)). fold p2 s2. by rewrite (bind_ret _ _ _ _ _ Hrun3). }
  destruct (geti_is_Some (socketable s3) ch) as [k Hk]; [rewrite Hsl3; unfold PLAYBACK_NUM, MAX_PLAYBACK_NUM in *; lia|].
  set (s4 := s3 <| socketable := <[Z.to_nat ch := k <| sk_IsUsed := 0 |> <| sk_fd := 0 |>]> (socketable s3) |>).
  assert (Hfree : free_slot ch s3 = Ret () s4).
  { unfold free_slot. rewrite (bind_ret _ _ s3 s3 s3) by done. rewrite (bind_access _ _ _ _ Hk).
    by rewrite (bind_access _ _ _ _ (seti_Some _ _ _ (geti_Some _ _ _ Hk))). }
  rewrite bind_assoc, (bind_ret _ _ _ _ _ Hfile), (bind_ret _ _ _ _ _ Hfree).
  rewrite (bind_ret _ _ _ _ _ (edit_session_run ch _ p3 s4 Hp3)). eexists. split; [done|].
  split; [unfold freed; rewrite Hau; exact (with_session_get s4 ch p3 _ Hp3)|]. split; [|split; [done|]].
  - intros j Hj. rewrite (with_session_other s4) by lia. change (g_playback s4) with (g_playback s3). rewrite Hoth3 by done.
    unfold s2. rewrite (with_session_other s1) by lia. apply (with_session_other s); lia.
  - split; [cbn; by rewrite Hidx3|]. split; [|done]. exists k. rewrite <- Hsl3. by split.
Qed.
End Close.

Section Runs.
Variables (e : disk_env) (v : dm_env) (tz : Z) (junk : file_info_struct).
Variable qsort : (cstr -> cstr -> Z) -> list cstr -> list cstr.
Variables (open_view : files_t -> cstr -> option avi_view) (stray_write : bool).
Variable playbackclosepool : playback_struct -> M pb_st ().
Hypotheses (Htz : - 86400 <= tz <= 86400) (Hjunk : length (info_partition junk) = 16%nat).

Abbreviation playback_round := (playback_round e v tz junk qsort open_view stray_write playbackclosepool).
Abbreviation playbackClose := (playbackClose playbackclosepool).
Implicit Types (s : pb_st) (all : list (clip * avi_view)).

(** The rounds of a session's thread, each with the times of its two calls. *)
Fixpoint playback_rounds (ch : Z) (tvs : list (timeval * timeval)) : M pb_st () :=
  match tvs with
  | [] => mret ()
  | (stop, start) :: tvs => playback_round ch stop start ;; playback_rounds ch tvs
  end.

(** ** A session that plays *)

Definition view_at s (p : playback_struct) : view_st := {| vw_index := pb_index s; vw := p |}.

(** Session [ch] sends [l] on [fd], from the list [name]. *)
Record watches all (ch fd : Z) (name : cstr) (l : list frame_read) s (p : playback_struct) : Prop := {
  wt_session : geti (g_playback s) ch = Some p;
  wt_ch : 0 <= ch < PLAYBACK_NUM /\ ch < zlen (pb_threads s) /\ zlen (socketable s) = MAX_PLAYBACK_NUM;
  wt_state : pb_state p = PLAYBACK_STAT_OK /\ pb_oper p = PLAYBACK_CTRL_IDLE /\ pb_sourcefrom p = PLAYBACK_SOURCE_FILE;
  wt_fd : pb_socket p = fd /\ Indexfilename p = name;
  wt_speed : pb_speed p <> PLAYBACK_ISPEED;
  wt_net : pb_net s = [];
  wt_plays : plays tz open_view all (view_at s p) l;
  wt_shaped : Forall shaped l
}.

Lemma paced_watches all ch fd name l s s' p : paced s s' -> watches all ch fd name l s p -> watches all ch fd name l s' p.
Proof. intros (t & o & -> & Ht & _) []. split; try done. cbn. lia. Qed.

Lemma paced_sent s s' fd : paced s s' -> sent fd (pb_out s') = sent fd (pb_out s).
Proof.
  intros (t & o & -> & _ & Ho). transitivity (sent fd (pb_out s ++ o)); [done|]. by rewrite sent_app, Ho, app_nil_r.
Qed.

Lemma paced_others ch s s' : paced s s' -> others_same ch s s'.
Proof. by intros (t & o & -> & _) j _. Qed.

(** The round up to the read. *)
Lemma round_reads all ch fd name l s p a b : watches all ch fd name l s p ->
  playback_round ch a b s =
    (r ← on_session ch (playbackreadfileframe tz junk open_view PLAYBACK_BUFF_LEN);
     if fr_result r <=? 0 then playbackClose ch ;; mret ()
     else if PLAYBACK_BUFF_LEN <? GTSF_HEAD_SIZE + zlen (fr_data r) then undef
     else play_frame playbackclosepool ch r a b) s.
Proof.
  intros [Hp _ (Hst & Hop & _) _ _ _ _ _]. unfold PlaybackServer.playback_round.
  rewrite (bind_ret _ _ _ _ _ (session_run _ _ _ Hp)), Hop. change (PLAYBACK_CTRL_IDLE =? PLAYBACK_CTRL_CLOSE) with false. cbv iota.
  rewrite (bind_ret _ _ s () s) by done. rewrite (bind_ret _ _ _ _ _ (session_run _ _ _ Hp)), Hop, Hst. done.
Qed.

Lemma moved_fields s p w : moved (view_at s p) w -> vw_index w = pb_index s /\
  pb_state (vw w) = pb_state p /\ pb_oper (vw w) = pb_oper p /\ pb_sourcefrom (vw w) = pb_sourcefrom p /\
  pb_socket (vw w) = pb_socket p /\ Indexfilename (vw w) = Indexfilename p /\ pb_speed (vw w) = pb_speed p.
Proof. by intros (x & k & z & ->). Qed.

(** Sending what was read: one more packet, and the session is as after the read. *)
Lemma play_frame_run all ch fd name l s p x a b : watches all ch fd name l s p -> shaped x -> is_Some (pb_aviinfo p) ->
  exists s' pk, play_frame playbackclosepool ch x a b s = Ret () s' /\ content pk = x /\
    sent fd (pb_out s') = sent fd (pb_out s) ++ [pk] /\ pb_index s' = pb_index s /\ others_same ch s s' /\
    watches all ch fd name l s' (p <| packetsum ::= Z.succ |>).
Proof.
  intros Hw Hx [av Hav]. pose proof (wt_ch _ _ _ _ _ _ _ Hw) as (Hch & Hth & _). unfold play_frame.
  rewrite (bind_ret _ _ _ _ _ (session_run _ _ _ (wt_session _ _ _ _ _ _ _ Hw))).
  destruct (edit_thread_run ch (fun t => t <| th_speed := pb_speed p |>) s ltac:(lia)) as (s1 & Hed & Hp1).
  rewrite (bind_ret _ _ _ _ _ Hed), Hav, (bind_access _ _ s1 av) by done.
  rewrite (proj2 (Z.eqb_neq (pb_speed p) PLAYBACK_ISPEED)) by apply Hw. cbn [andb].
  pose proof (paced_watches _ _ _ _ _ _ _ _ Hp1 Hw) as Hw1. destruct Hw1 as [Hs1 Hch1 Hst1 Hfd1 Hsp1 Hnet1 Hpl1 Hsh1].
  assert (Hwr : net_write (zlen (fr_data x) + GTSF_HEAD_SIZE) s1 = Ret (zlen (fr_data x) + GTSF_HEAD_SIZE) s1).
  { unfold net_write. rewrite (bind_ret _ _ s1 s1 s1) by done. by rewrite Hnet1. }
  rewrite (bind_ret _ _ _ _ _ Hwr). rewrite (proj2 (Z.leb_gt _ _)) by (unfold GTSF_HEAD_SIZE; lia).
  set (pk := packet_of p av x). set (s2 := s1 <| pb_out ::= fun l => l ++ [Pb_send (pb_socket p) pk] |>).
  rewrite (bind_ret _ _ s1 () s2) by done. rewrite (bind_ret _ _ _ _ _ (edit_session_run ch _ p s2 Hs1)).
  set (s3 := with_session s2 ch (p <| packetsum ::= Z.succ |>)).
  assert (Hw3 : watches all ch fd name l s3 (p <| packetsum ::= Z.succ |>)).
  { split; try done. by apply (with_session_get s2 ch p). }
  assert (Hpace : exists s4, (if fr_isvideo x =? 1 then pace ch a b else mret ()) s3 = Ret () s4 /\ paced s3 s4).
  { destruct (_ =? 1); [apply pace_run; cbn; destruct Hch1; lia | exists s3; split; [done | apply paced_refl]]. }
  destruct Hpace as (s4 & Hrun & Hp4). exists s4, pk. split; [exact Hrun|]. split; [by apply content_packet|].
  split; [|split; [|split]].
  - rewrite (paced_sent _ _ _ Hp4). transitivity (sent fd (pb_out s1 ++ [Pb_send (pb_socket p) pk])); [done|].
    rewrite sent_app, (paced_sent _ _ _ Hp1). f_equal. unfold sent. cbn. by rewrite (proj1 Hfd1), Z.eqb_refl.
  - destruct Hp4 as (? & ? & -> & _). by destruct Hp1 as (? & ? & -> & _).
  - intros j Hj. rewrite (paced_others ch _ _ Hp4 j Hj). unfold s3. rewrite with_session_other by (done || lia).
    by apply (paced_others ch _ _ Hp1 j Hj).
  - by eapply paced_watches.
Qed.

Lemma round_plays all ch fd name x l s p a b : watches all ch fd name (x :: l) s p ->
  exists s' p' pk, playback_round ch a b s = Ret () s' /\ content pk = x /\
    sent fd (pb_out s') = sent fd (pb_out s) ++ [pk] /\ pb_index s' = pb_index s /\ others_same ch s s' /\
    watches all ch fd name l s' p'.
Proof.
  intros Hw. rewrite (round_reads _ _ _ _ _ _ _ _ _ Hw). destruct Hw as [Hs Hch Hst Hfd Hsp Hnet Hpl Hsh].
  apply list.Forall_cons in Hsh as [Hx Hsh].
  destruct (plays_step tz junk open_view Htz Hjunk all _ x l Hpl) as (Hres & Hlen & w & Hrun & Hmv & Hav & Hplays).
  rewrite (bind_ret _ _ _ _ _ (on_session_run _ _ _ _ _ _ Hs Hrun)).
  destruct (moved_fields _ _ _ Hmv) as (Hidx & Hst' & Hop' & Hsrc' & Hsock' & Hname' & Hsp').
  rewrite (proj2 (Z.leb_gt _ _)), (proj2 (Z.ltb_ge _ _)) by lia.
  set (s1 := (with_session s ch (vw w)) <| pb_index := vw_index w |>).
  assert (Hw1 : watches all ch fd name l s1 (vw w)).
  { split; [by apply (with_session_get s ch p) | done | rewrite Hst', Hop', Hsrc'; done | by rewrite Hsock', Hname' | by rewrite Hsp' | done | | done].
    unfold view_at, s1. cbn. by destruct w. }
  destruct (play_frame_run all ch fd name l s1 (vw w) x a b Hw1 Hx Hav) as (s' & pk & Hrun' & Hpk & Hsent & Hi & Hoth & Hw').
  exists s', ((vw w) <| packetsum ::= Z.succ |>), pk. split; [done|]. split; [done|]. split; [done|].
  split; [by rewrite Hi; unfold s1; cbn|]. split; [|done].
  intros j Hj. rewrite Hoth by done. unfold s1. apply (with_session_other s); lia.
Qed.

(** ** The end *)

Lemma round_ends all ch fd name s p a b : watches all ch fd name [] s p ->
  exists s', playback_round ch a b s = Ret () s' /\ freed ch (audio_source p) s' /\ others_same ch s s' /\
    sent fd (pb_out s') = sent fd (pb_out s) /\ files (pb_index s') = delete name (files (pb_index s)).
Proof.
  intros Hw. rewrite (round_reads _ _ _ _ _ _ _ _ _ Hw). destruct Hw as [Hs Hch Hst Hfd Hsp Hnet Hpl Hsh].
  destruct (plays_end tz junk open_view Htz Hjunk all _ Hpl) as (w & Hrun & Hmv).
  rewrite (bind_ret _ _ _ _ _ (on_session_run _ _ _ _ _ _ Hs Hrun)).
  destruct (moved_fields _ _ _ Hmv) as (Hidx & Hst' & Hop' & Hsrc' & Hsock' & Hname' & Hsp').
  set (s1 := (with_session s ch (vw w)) <| pb_index := vw_index w |>).
  destruct (close_run playbackclosepool ch (vw w) s1) as (s' & Hclose & Hfreed & Hoth & Hsent & Hfiles & _);
    [exact (with_session_get s ch p _ Hs) | apply Hch | apply Hch | rewrite Hst', (proj1 Hst); done | rewrite Hsrc'; apply Hst|].
  exists s'. split; [change (fr_result (read_nothing 0) <=? 0) with true; cbv iota; by rewrite (bind_ret _ _ _ _ _ Hclose)|].
  assert (Hau : audio_source (vw w) = audio_source p) by by destruct Hmv as (x & k & z & ->).
  rewrite Hau in Hfreed. split; [done|]. split; [|split].
  - intros j Hj. rewrite Hoth by done. apply (with_session_other s); lia.
  - by rewrite Hsent.
  - rewrite Hfiles. unfold s1. cbn. by rewrite Hidx, Hname', (proj2 Hfd).
Qed.

Lemma round_idle ch audio s a b : freed ch audio s ->
  playback_round ch a b s = Ret () (s <| pb_out ::= fun l => l ++ [Pb_usleep 40000] |>).
Proof.
  intros Hf. unfold PlaybackServer.playback_round. rewrite (bind_ret _ _ _ _ _ (session_run _ _ _ Hf)).
  change (pb_oper (playback_idle audio) =? PLAYBACK_CTRL_CLOSE) with false. cbv iota. rewrite (bind_ret _ _ s () s) by done.
  by rewrite (bind_ret _ _ _ _ _ (session_run _ _ _ Hf)).
Qed.

Lemma rounds_idle ch audio tvs : forall s, freed ch audio s -> exists s', playback_rounds ch tvs s = Ret () s' /\
  freed ch audio s' /\ others_same ch s s' /\ (forall fd, sent fd (pb_out s') = sent fd (pb_out s)) /\ pb_index s' = pb_index s.
Proof.
  induction tvs as [|[a b] tvs IH]; intros s Hf; [by exists s|]. cbn [playback_rounds]. rewrite (bind_ret _ _ _ _ _ (round_idle ch audio s a b Hf)).
  set (s1 := s <| pb_out ::= fun l => l ++ [Pb_usleep 40000] |>). destruct (IH s1 Hf) as (s' & Hrun & Hf' & Hoth & Hsent & Hi). exists s'.
  split; [done|]. split; [done|]. split; [done|]. split; [|done].
  intros fd. rewrite Hsent. transitivity (sent fd (pb_out s ++ [Pb_usleep 40000])); [done|]. by rewrite sent_app, app_nil_r.
Qed.

Lemma rounds_play all ch fd name l : forall tvs s p, watches all ch fd name l s p -> (length l < length tvs)%nat ->
  exists s' pks audio, playback_rounds ch tvs s = Ret () s' /\ map content pks = l /\
    sent fd (pb_out s') = sent fd (pb_out s) ++ pks /\ freed ch audio s' /\ others_same ch s s' /\
    files (pb_index s') = delete name (files (pb_index s)).
Proof.
  induction l as [|x l IH]; intros [|[a b] tvs] s p Hw Hlen; cbn [length playback_rounds] in *; try lia.
  - destruct (round_ends all ch fd name s p a b Hw) as (s1 & Hrun & Hf & Hoth & Hsent & Hfiles).
    rewrite (bind_ret _ _ _ _ _ Hrun). destruct (rounds_idle ch (audio_source p) tvs s1 Hf) as (s' & Hrun' & Hf' & Hoth' & Hsent' & Hi).
    exists s', [], (audio_source p). split; [done|]. split; [done|]. split; [by rewrite Hsent', Hsent, app_nil_r|]. split; [done|].
    split; [intros j Hj; by rewrite Hoth', Hoth|]. by rewrite Hi.
  - destruct (round_plays all ch fd name x l s p a b Hw) as (s1 & p1 & pk & Hrun & Hpk & Hsent & Hi & Hoth & Hw1).
    rewrite (bind_ret _ _ _ _ _ Hrun). destruct (IH tvs s1 p1 Hw1 ltac:(lia)) as (s' & pks & audio & Hrun' & Hpks & Hsent' & Hf & Hoth' & Hfiles).
    exists s', (pk :: pks), audio. split; [done|]. split; [by cbn; rewrite Hpk, Hpks|].
    split; [by rewrite Hsent', Hsent, <- app_assoc|]. split; [done|].
    split; [intros j Hj; by rewrite Hoth', Hoth|]. by rewrite Hfiles, Hi.
Qed.
End Runs.

(** ** A viewer's request *)

Section Request.
Variables (e : disk_env) (v : dm_env) (tz : Z) (junk : file_info_struct).
Variable qsort : (cstr -> cstr -> Z) -> list cstr -> list cstr.
Variables (open_view : files_t -> cstr -> option avi_view) (stray_write : bool).
Variable playbackclosepool : playback_struct -> M pb_st ().
Context `{!DiskLaws e} `{!QsortLaws qsort}.
Hypotheses (Htz : - 86400 <= tz <= 86400) (Hjunk : length (info_partition junk) = 16%nat).
Variable avi_of : clip -> avi_view.
Implicit Types (s : pb_st) (req : viewer_subscribe_record_struct).

Definition req_start req : Z := mktime tz (gttime2tm (vs_starttime req)).
Definition req_stop req : Z := mktime tz (gttime2tm (vs_endtime req)).
Definition req_query req : query_index_process_struct := Build_query_index_process_struct (req_start req) (req_stop req) (vs_channel req) (-1).

(** The server has session [i] free for the request, and nothing fails on the network. *)
Record ready_for req (i : Z) s : Prop := {
  rd_idle : first_idle (g_playback s) 0 = i /\ 0 <= i < PLAYBACK_NUM;
  rd_session : exists p, geti (g_playback s) i = Some p /\ pb_oper p = PLAYBACK_CTRL_IDLE;
  rd_lists : zlen (pb_threads s) = PLAYBACK_NUM /\ zlen (socketable s) = MAX_PLAYBACK_NUM;
  rd_net : pb_net s = [];
  rd_req : -1 <= vs_channel req < 2 ^ 16 /\ req_stop req + 1 < 2 ^ 31 /\ vs_speed req <> PLAYBACK_ISPEED;
  rd_append : append_ok e (tmp_name (req_start req) i) = true /\ append_ok e (index_name (req_start req) i) = true
}.

(** The recordings the request finds are [cs], in the tables [ts] of the partitions;
    [play] of each. *)
Record finds (play : clip -> Prop) req (i : Z) (ts : list (list index_row)) (cs : list clip) s : Prop := {
  fd_opened : all_opened (pb_index s) (mounts v) ts;
  fd_waits : waits (pb_index s);
  fd_fits : Forall (Forall (name_fits (tmp_name (req_start req) i))) ts;
  fd_found : names (concat (map (found e (req_query req) (pb_index s)) ts)) = map (clip_name tz) cs;
  fd_some : cs <> [] /\ (stray_write = true \/ (1 < length cs)%nat);
  fd_play : Forall play cs
}.

(** Each of them can be played. *)
Abbreviation finds_playable req i ts cs s := (finds (playable tz open_view avi_of (files (pb_index s)) (req_start req) (req_stop req)) req i ts cs s).

(** A session that was opened for the request. *)
Record asked_for req (i : Z) (p : playback_struct) : Prop := {
  af_times : pb_start p = req_start req /\ pb_stop p = req_stop req;
  af_where : pb_channel p = vs_channel req /\ playbackindex p = i;
  af_state : pb_state p = PLAYBACK_STAT_USED /\ pb_oper p = PLAYBACK_CTRL_IDLE /\ pb_sourcefrom p = PLAYBACK_SOURCE_FILE;
  af_speed : pb_speed p = vs_speed req
}.

Lemma asked_asked_for req i p : pb_oper p = PLAYBACK_CTRL_IDLE -> asked_for req i (asked tz req i (vs_channel req) p).
Proof. intros Hoper. split; unfold req_start, req_stop, asked; cbn; [by split | by split | by split_and! | done]. Qed.

Lemma asked_for_moved req i w w' i' out n : asked_for req i (vw w) -> moved (reopened w i' out n) w' ->
  asked_for req i (vw w') /\ Indexfilename (vw w') = out.
Proof. intros [Ht Hw Hs Hp] (x & k & z & ->). split; [|done]. split; [exact Ht | exact Hw | exact Hs | exact Hp]. Qed.

Lemma take_session_run req i s : ready_for req i s -> exists p, geti (g_playback (with_session s i p)) i = Some p /\
  asked_for req i p /\ take_session tz req (fun _ => vs_channel req) s = Ret i (with_session s i p).
Proof.
  intros [[Hidle Hi] (p & Hp & Hoper) _ _ _ _]. exists (asked tz req i (vs_channel req) p).
  split; [exact (with_session_get s i p _ Hp)|]. split; [by apply asked_asked_for|].
  unfold take_session. rewrite (bind_ret _ _ s s s) by done. cbv zeta. rewrite Hidle, (proj2 (Z.eqb_neq _ _)) by lia.
  by rewrite (bind_ret _ _ _ _ _ (edit_session_run i _ p s Hp)).
Qed.

(** Only session [i] and the files differ. *)
Definition rest_same (i : Z) s s' : Prop := others_same i s s' /\ pb_threads s' = pb_threads s /\
  socketable s' = socketable s /\ pb_net s' = pb_net s /\ pb_out s' = pb_out s.

Lemma file_opens req i ts cs s : ready_for req i s -> finds_playable req i ts cs s ->
  exists cs' s1 p1, cs' ≡ₚ cs /\ StronglySorted clip_le cs' /\
    playbackfileOpen e v tz junk qsort open_view stray_write playbackclosepool req s = Ret i s1 /\
    geti (g_playback s1) i = Some p1 /\ asked_for req i p1 /\ Indexfilename p1 = index_name (req_start req) i /\ rest_same i s s1 /\
    plays tz open_view (map (rec_of avi_of) cs') (view_at s1 p1) (played (req_start req) (req_stop req) (map (rec_of avi_of) cs')).
Proof.
  intros Hready [Ho Hw Hn Hf [Hne Hstray] Hpl]. destruct (take_session_run req i s Hready) as (p0 & Hs0 & Hasked & Htake).
  destruct Hready as [[_ Hi] _ _ _ (Hch & Hstop & _) [Hat Hao]]. pose proof Hasked as [[Hst Hsp] [Hc Hx] _ _].
  destruct (openfile_run e v tz junk qsort open_view stray_write Htz Hjunk avi_of (view_at s p0) ts cs)
    as (cs' & i' & w & Hperm & Hsort & Hopen & Hmv & Hplays); cbn [view_at vw vw_index]; rewrite ?Hst, ?Hsp, ?Hc, ?Hx; try done.
  cbn [view_at vw vw_index] in Hplays, Hmv. rewrite Hst, Hsp in Hplays. rewrite Hst, Hx in Hmv.
  destruct (asked_for_moved req i (view_at s p0) _ _ _ _ Hasked Hmv) as [Hasked1 Hname].
  set (s0 := with_session s i p0). set (s1 := ((with_session s0 i (vw w)) <| pb_index := vw_index w |>)).
  exists cs', s1, (vw w). split; [done|]. split; [done|]. split; [|split; [|split; [|split; [|split]]]]; try done.
  - unfold playbackfileOpen. rewrite (bind_ret _ _ _ _ _ Htake), (proj2 (Z.ltb_ge _ _)) by lia.
    by rewrite (bind_ret _ _ _ _ _ (on_session_run i _ p0 s0 _ _ Hs0 Hopen)).
  - exact (with_session_get s0 i p0 _ Hs0).
  - split; [|done]. intros j Hj. change (g_playback s1) with (g_playback (with_session s0 i (vw w))).
    rewrite (with_session_other s0) by lia. by apply (with_session_other s); lia.
Qed.

Lemma connect_run i fd p s : geti (g_playback s) i = Some p -> pb_state p = PLAYBACK_STAT_USED -> 0 <= i < PLAYBACK_NUM ->
  playbackConnectOK i fd s = Ret 0 (with_session s i (p <| pb_socket := fd |> <| pb_state := PLAYBACK_STAT_OK |>)).
Proof.
  intros Hp Hst Hi. unfold playbackConnectOK. rewrite (proj2 (Z.ltb_ge _ _)), (proj2 (Z.leb_gt _ _)) by lia. cbn [orb].
  rewrite (bind_ret _ _ _ _ _ (session_run _ _ s Hp)), Hst. change (negb (PLAYBACK_STAT_USED =? PLAYBACK_STAT_USED)) with false.
  cbv iota. by rewrite (bind_ret _ _ _ _ _ (edit_session_run i _ p s Hp)).
Qed.

Abbreviation listen_command := (playback_listen_command e v tz junk qsort open_view stray_write playbackclosepool).

Lemma request_opens req fd i ts cs s : ready_for req i s -> finds_playable req i ts cs s ->
  exists cs' s1 p1, cs' ≡ₚ cs /\ StronglySorted clip_le cs' /\ listen_command (Some req) fd s = Ret 0 s1 /\
    watches tz open_view (map (rec_of avi_of) cs') i fd (index_name (req_start req) i)
      (played (req_start req) (req_stop req) (map (rec_of avi_of) cs')) s1 p1 /\
    others_same i s s1 /\ pb_out s1 = pb_out s ++ [Pb_answer_on fd i 0] /\
    Forall (rec_ok tz open_view (files (pb_index s1)) (req_stop req)) (map (rec_of avi_of) cs').
Proof.
  intros Hready Hfinds. destruct (file_opens req i ts cs s Hready Hfinds)
    as (cs' & s1 & p1 & Hperm & Hsort & Hfile & Hs1 & [[_ Hsp] _ (Hst & Hop & Hsrc) Hspd] & Hname & (Hoth & Htb & Hsb & Hnb & Hob) & Hplays).
  destruct Hready as [[_ Hi] _ [Hth Hsl] Hnet (_ & _ & Hspeed) _].
  set (s2 := (s1 <| pb_out ::= fun l => l ++ [Pb_answer_on fd i 0] |>)).
  pose proof (connect_run i fd p1 s2 Hs1 Hst Hi) as Hok. set (p3 := (p1 <| pb_socket := fd |> <| pb_state := PLAYBACK_STAT_OK |>)) in *.
  exists cs', (with_session s2 i p3), p3. split; [done|]. split; [done|]. split; [|split; [|split; [|split]]].
  - unfold playback_listen_command. rewrite (bind_ret _ _ _ _ _ Hfile). cbv zeta. unfold status_of.
    rewrite (proj2 (Z.ltb_ge _ _)), (u32_small i) by (unfold PLAYBACK_NUM in *; lia).
    rewrite (bind_ret _ _ s1 () s2) by done. change (0 =? 0) with true. cbv iota. rewrite bind_assoc. by rewrite (bind_ret _ _ _ _ _ Hok).
  - split; [exact (with_session_get s2 i _ p3 Hs1) | cbn; rewrite Htb, Hsb; lia | done | done | cbn; by rewrite Hspd | cbn; by rewrite Hnb | |].
    + destruct Hplays as ((Hl1 & Hl2 & Hl3) & k & r & a & Hat' & Heq). split; [by split_and! | by exists k, r, a].
    + destruct (map (rec_of avi_of) cs'); [constructor|]. apply Forall_app. split; [apply play_until_shaped | apply played_rest_shaped].
  - intros j Hj. rewrite (with_session_other s2) by lia. by apply Hoth.
  - cbn. by rewrite Hob.
  - destruct Hplays as [(_ & _ & Hall) _]. cbn in Hall. by rewrite Hsp in Hall.
Qed.
End Request.

(** The answer to a viewer's request and the rounds that serve it. *)
Lemma requests_are_played e v tz junk qsort AVI_open stray_write pool avi_of req fd i ts cs (s : pb_st) :
  DiskLaws e -> QsortLaws qsort -> - 86400 <= tz <= 86400 -> length (info_partition junk) = 16%nat ->
  ready_for e tz req i s ->
  finds e v tz stray_write (playable tz AVI_open avi_of (files (pb_index s)) (req_start tz req) (req_stop tz req)) req i ts cs s ->
  let start := req_start tz req in let stop := req_stop tz req in
  exists cs' s1, let recs := map (rec_of avi_of) cs' in
    cs' ≡ₚ cs /\ StronglySorted clip_le cs' /\
    playback_listen_command e v tz junk qsort AVI_open stray_write pool (Some req) fd s = Ret 0 s1 /\
    pb_out s1 = pb_out s ++ [Pb_answer_on fd i 0] /\
    forall tvs, (length (played start stop recs) < length tvs)%nat ->
      exists s2 packets audio, playback_rounds e v tz junk qsort AVI_open stray_write pool i tvs s1 = Ret () s2 /\
        sent fd (pb_out s2) = sent fd (pb_out s) ++ packets /\
        map content packets = played start stop recs /\ shown (map content packets) = window start stop recs /\
        freed i audio s2 /\ files (pb_index s2) !! index_name start i = None /\ others_same i s s2.
Proof.
  intros Hlaws Hq Htz Hj Hready Hfinds start stop.
  destruct (request_opens e v tz junk qsort AVI_open stray_write pool Htz Hj avi_of req fd i ts cs s Hready Hfinds)
    as (cs' & s1 & p1 & Hperm & Hsort & Hrun & Hw & Hoth & Hout & Hall).
  assert (Hsent : sent fd (pb_out s1) = sent fd (pb_out s)) by by rewrite Hout, sent_app, app_nil_r.
  exists cs', s1. cbv zeta. split; [done|]. split; [done|]. split; [done|]. split; [done|]. intros tvs Hlen.
  destruct (rounds_play e v tz junk qsort AVI_open stray_write pool Htz Hj _ _ _ _ _ tvs s1 p1 Hw Hlen)
    as (s2 & pks & audio & Hrounds & Hpks & Hsent2 & Hf & Hoth2 & Hfiles).
  exists s2, pks, audio. split; [done|]. split; [by rewrite Hsent2, Hsent|]. split; [done|]. split; [|split; [done|split]].
  - rewrite Hpks. eapply played_shows; [exact Hall|].
    destruct cs' as [|c cs']; [done|]. cbn [map]. pose proof (fd_play _ _ _ _ _ _ _ _ _ _ Hfinds) as Hpl.
    rewrite <- Hperm in Hpl. apply list.Forall_cons in Hpl as [Hc _]. cbn [map] in Hall. apply list.Forall_cons in Hall as [Hr _].
    split; [|apply Hc]. eapply proj1, first_seek; [exact Hj | exact Hr | apply Hc].
  - rewrite Hfiles. apply lookup_delete_eq.
  - intros j Hjn. by rewrite Hoth2, Hoth.
Qed.

(** ** A concrete server *)

(** One disk with one partition. *)
Definition example_dm_env : dm_env :=
  Build_dm_env [1] (fun _ => 1) (fun _ _ => lit "/dev/sda1") (fun _ => 0) (fun _ _ => None) (fun _ => true).

Definition example_clip (t ch : Z) : clip := {| c_info := example_recording t ch; c_remote := false; c_lock := false |}.

Definition example_req : viewer_subscribe_record_struct :=
  Build_viewer_subscribe_record_struct (-1) [] 0 2 0 (Build_gt_time_struct 2006 4 21 11 5 5) (Build_gt_time_struct 2006 4 21 11 6 5).

Definition example_server : pb_st :=
  Build_pb_st example_index
    (replicate 5 (playback_zero <| framrate := 25 |> <| pre_connect := 30 |> <| pb_speed := 2 |>))
    (Build_SOCKS_TABLE 0 7 1 :: replicate 4 (Build_SOCKS_TABLE 0 0 0)) (replicate 5 (Build_thread_locals 2 (0, 0) (0, 0))) [7] [] [].
