(* ===== verification/PlaybackTable.v ===== *)
(** * The table of viewers and the sessions

    A session that ends frees the slot of its own number, which need not be its
    viewer's: what the listening thread does then. *)

From Stdlib Require Import Ascii String.
From stdpp Require Import gmap strings sorting.
From S2P Require Import Prelude Update Ctime Cstring RecName FileIndex DiskMan RecordSort Playback PlaybackServer PlaybackRuns DiskManRuns.

Section Table.
Implicit Types (s : pb_st).

Lemma slot_run i k s : geti (socketable s) i = Some k -> slot i s = Ret k s.
Proof. intros Hk. unfold slot. rewrite (bind_ret _ _ s s s) by done. by rewrite Hk. Qed.

(** Every connection is younger than twelve hours. *)
Definition all_young (now : Z) s : Prop := Forall (fun k => now - sk_start k < 12 * 3600) (socketable s).

Lemma close_old_young now n : forall i s, 0 <= i -> i + Z.of_nat n <= zlen (socketable s) -> all_young now s ->
  close_old n i now s = Ret () s.
Proof.
  induction n as [|n IH]; intros i s Hi Hn Hy; [done|]. cbn [close_old].
  destruct (geti_is_Some (socketable s) i) as [k Hk]; [lia|]. rewrite (bind_ret _ _ _ _ _ (slot_run _ _ _ Hk)).
  assert (Hlt : now - sk_start k < 12 * 3600).
  { rewrite geti_to_nat in Hk by lia. unfold all_young in Hy. rewrite list.Forall_forall in Hy.
    by apply (Hy k), list_elem_of_lookup_2 with (Z.to_nat i). }
  rewrite (proj2 (Z.leb_gt _ _)), andb_false_r by lia. rewrite (bind_ret _ _ s () s) by done. apply IH; [lia | lia | done].
Qed.

Lemma used_in j k s : geti (socketable s) j = Some k -> sk_IsUsed k <> 0 -> sk_fd k ∈ used_fds (socketable s).
Proof.
  intros Hk Hu. rewrite geti_to_nat in Hk by (apply geti_Some in Hk; lia). apply list_elem_of_lookup_2 in Hk.
  unfold used_fds. apply list_elem_of_In, in_map, filter_In. split; [by apply list_elem_of_In|].
  apply negb_true_iff. by apply Z.eqb_neq.
Qed.

(** The set has a closed socket and nobody connects: the round waits in [accept]. *)
Lemma stale_waits e v tz junk qsort AVI_open stray_write pool j k now ev s :
  geti (socketable s) j = Some k -> sk_IsUsed k <> 0 -> sk_fd k ∉ open_fds s -> zlen (socketable s) = MAX_PLAYBACK_NUM ->
  all_young now s -> nv_accept ev = None ->
  playback_listen_round e v tz junk qsort AVI_open stray_write pool now ev s = Blocked s.
Proof.
  intros Hk Hu Hclosed Hlen Hy Hacc. unfold playback_listen_round.
  assert (Hfuel : Z.of_nat (Z.to_nat MAX_PLAYBACK_NUM) = MAX_PLAYBACK_NUM) by (unfold MAX_PLAYBACK_NUM; lia).
  rewrite (bind_ret _ _ _ _ _ (close_old_young now (Z.to_nat MAX_PLAYBACK_NUM) 0 s ltac:(lia) ltac:(lia) Hy)). rewrite (bind_ret _ _ s s s) by done. cbv zeta.
  assert (Hfail : forallb (fun fd => existsb (Z.eqb fd) (open_fds s)) (used_fds (socketable s)) = false).
  { apply not_true_iff_false. rewrite forallb_forall. intros Hall. apply Hclosed.
    destruct (proj1 (existsb_exists _ _) (Hall _ (proj1 (list_elem_of_In _ _) (used_in j k s Hk Hu)))) as (fd & Hfd & Heq).
    apply Z.eqb_eq in Heq as ->. by apply list_elem_of_In. }
  rewrite Hfail. cbn [negb andb orb]. by rewrite Hacc.
Qed.
End Table.

(** C40. When a session ends whose number is not that of its viewer's slot, the slot of its
    own number is freed, whoever has it, while the viewer's keeps the socket that was
    closed; from then on the thread that listens waits in [accept] until somebody
    connects, and neither requests nor broken connections are noticed. *)
Theorem crossed_viewers_hang e v tz junk qsort AVI_open stray_write pool i j p k now ev (s : pb_st) :
  geti (g_playback s) i = Some p -> pb_state p = PLAYBACK_STAT_OK -> pb_sourcefrom p = PLAYBACK_SOURCE_FILE ->
  0 <= i < PLAYBACK_NUM -> zlen (socketable s) = MAX_PLAYBACK_NUM ->
  geti (socketable s) j = Some k -> sk_IsUsed k <> 0 -> sk_fd k = pb_socket p -> pb_socket p <> 0 -> i <> j ->
  all_young now s -> nv_accept ev = None ->
  exists s', playbackClose pool i s = Ret PLAYBACK_SUCCESS s' /\
    (exists k', geti (socketable s') i = Some k' /\ sk_IsUsed k' = 0) /\
    geti (socketable s') j = Some k /\ (pb_socket p ∉ open_fds s') /\
    playback_listen_round e v tz junk qsort AVI_open stray_write pool now ev s' = Blocked s'.
Proof.
  intros Hp Hst Hsrc Hi Hlen Hk Hu Hfd Hnz Hne Hy Hacc.
  destruct (close_run pool i p s Hp Hi Hlen) as (s' & Hrun & _ & _ & _ & _ & (ki & Hki & Hsk) & Hopen); [by rewrite Hst | done|].
  exists s'. split; [done|]. set (k0 := (ki <| sk_IsUsed := 0 |> <| sk_fd := 0 |>)) in *.
  pose proof (geti_Some _ _ _ Hki) as Hir. pose proof (geti_Some _ _ _ Hk) as Hjr.
  assert (Hslot : geti (socketable s') i = Some k0) by (rewrite Hsk; apply (geti_seti_eq (socketable s)); by apply seti_Some).
  assert (Hother : geti (socketable s') j = Some k).
  { rewrite Hsk, <- Hk. apply (geti_seti_ne (socketable s) i j k0); [by apply seti_Some | done]. }
  assert (Hclosed : pb_socket p ∉ open_fds s').
  { rewrite Hopen, (proj2 (Z.eqb_neq _ _)) by done. rewrite list_elem_of_In, filter_In, Z.eqb_refl. intros [_ ?]. discriminate. }
  split; [by exists k0|]. split; [done|]. split; [done|].
  apply (stale_waits e v tz junk qsort AVI_open stray_write pool j k); [done | done | by rewrite Hfd | by rewrite Hsk, length_insert | | done].
  unfold all_young in *. rewrite Hsk. apply list.Forall_insert; [done|]. cbn. rewrite geti_to_nat in Hki by lia.
  rewrite list.Forall_forall in Hy. by apply (Hy ki), list_elem_of_lookup_2 with (Z.to_nat i).
Qed.

(** The second viewer to connect asks first: it gets session 0, and its connection is
    in slot 1. *)
Definition crossed_server : pb_st :=
  example_server <| socketable := (Build_SOCKS_TABLE 100 7 1 :: Build_SOCKS_TABLE 101 8 1 :: replicate 3 (Build_SOCKS_TABLE 0 0 0)) |>
    <| g_playback := ((playback_zero <| pb_state := PLAYBACK_STAT_OK |> <| pb_socket := 8 |>) :: replicate 4 playback_zero) |>
    <| open_fds := [7; 8] |>.

(** The first viewer's request, which waits, is not read. *)
Lemma crossed_viewers_hang_witness : exists s',
  playbackClose (fun _ => mret ()) 0 crossed_server = Ret PLAYBACK_SUCCESS s' /\
  playback_listen_round example_disk example_dm_env 28800 (example_recording 0 0) (fun _ l => l) (fun _ _ => None) true (fun _ => mret ())
    200 {| nv_accept := None; nv_recv := fun fd => if fd =? 7 then Some (Some (Some example_req)) else None |} s' = Blocked s'.
Proof.
  destruct (crossed_viewers_hang example_disk example_dm_env 28800 (example_recording 0 0) (fun _ l => l) (fun _ _ => None) true (fun _ => mret ())
    0 1 (playback_zero <| pb_state := PLAYBACK_STAT_OK |> <| pb_socket := 8 |>) (Build_SOCKS_TABLE 101 8 1) 200
    {| nv_accept := None; nv_recv := fun fd => if fd =? 7 then Some (Some (Some example_req)) else None |} crossed_server)
    as (s' & Hrun & _ & _ & _ & Hblock);
    [reflexivity | reflexivity | reflexivity | unfold PLAYBACK_NUM; lia | reflexivity | reflexivity | discriminate | reflexivity
    | discriminate | discriminate | repeat (constructor; [cbn; lia|]); constructor | reflexivity|].
  exists s'. split; [exact Hrun | exact Hblock].
Defined.
