(* ===== verification/AviView.v ===== *)
(** * An AVI file as the playback server sees it

    The view of a file as its chunks (Playback), made from the bytes, and the proof that
    reading the bytes of a recording does what the view says. *)

From Stdlib Require Import Ascii String SpecFloat.
From stdpp Require Import gmap strings.
From S2P Require Import Prelude Update Cstring FileIndex Playback PlaybackFiles Double Avi AviBytes AviFile AviParse AviOpen AviThms.

(** ** The view of a file *)

(** A chunk and where it is. *)
Abbreviation cell := (Z * chunk)%type.

Fixpoint cells (fuel : nat) (video audio b : cstr) (p : Z) : list cell :=
  match fuel with
  | O => []
  | S fuel =>
      let data := take 8 (from b p) in
      if negb (zlen data =? 8) then [] else
      if is_tag data (lit "LIST") then (p, Other_chunk) :: cells fuel video audio b (p + 12) else
      let n := i32 (PAD_EVEN (size_of data)) in
      let d := map ord (take (Z.to_nat n) (from b (p + 8))) in
      if n <? 0 then [] else
      if is_video data video then if zlen d =? n then (p, Video_chunk d) :: cells fuel video audio b (p + 8 + n) else []
      else if is_tag data audio then if zlen d =? n then (p, Audio_chunk d) :: cells fuel video audio b (p + 8 + n) else []
      else (p, Other_chunk) :: cells fuel video audio b (p + 8 + n)
  end.

(** Which cell is at [p]. *)
Fixpoint cell_at (cs : list cell) (p : Z) : nat :=
  match cs with [] => 0 | (q, _) :: cs => if q =? p then 0 else S (cell_at cs p) end.

Definition view_of (a : avi_t) : avi_view :=
  let cs := cells (S (length (bytes_of a))) (video_tag a) (audio_tag a) (bytes_of a) (f_pos (fdes a)) in
  Build_avi_view (map snd cs) 0
    (map (fun e => Build_view_entry (cell_at cs (ix_pos e - 8)) (Avi.ix_key e)) <$> Avi.video_index a)
    (Avi.video_pos a) (Avi.video_frames a) (default 0 (int_of_dbl (Avi.fps a))) (Avi.width a) (Avi.height a).

(** Opening a file for playing. *)
Definition open_view (f : files_t) (name : cstr) : option avi_view :=
  bytes ← (f !! name : option cstr);
  match AVI_open_input_file (Some bytes) true with Ret (Some a) _ => Some (view_of a) | _ => None end.

(** ** The view of a recording *)

Definition chunk_of (it : item) : chunk := if it_audio it then Audio_chunk (map ord (it_data it)) else Video_chunk (map ord (it_data it)).

Fixpoint frame_entries (n : nat) (its : list item) : list view_entry :=
  match its with
  | [] => []
  | it :: its => if it_audio it then frame_entries (S n) its else Build_view_entry n (it_flags it) :: frame_entries (S n) its
  end.

(** [its'] has the key flags that the index has; [k] chunks follow. *)
Definition recording_view (c : settings) (its its' : list item) (k : nat) : avi_view :=
  Build_avi_view (map chunk_of its ++ replicate k Other_chunk) 0 (Some (frame_entries 0 its')) 0 (zlen (videos its)) (st_rate c) (st_width c) (st_height c).

Definition cells_of (p : Z) (its : list item) : list cell := map (fun x => (x.1, chunk_of x.2)) (placed p its).

(** The chunks that follow: none, or the index. *)
Definition tail_cells (p : Z) (r : cstr) : list cell := if zlen r <? 8 then [] else [(p, Other_chunk)].

Section View.
Context (c : settings) (its : list item) (b r : cstr).
Hypotheses (Hb : holds b its r) (Hr : ends r) (Hsounds : st_chans c = 0 -> sounds its = []).
Let audio : cstr := if st_chans c =? 0 then lit "99wb" else lit "01wb".

Lemma take_head p tag n s : chunk_at b p tag n s -> take 8 (from b p) = tag ++ long2str n.
Proof. intros (_ & Ht & _ & ->). rewrite app_assoc. apply take_app_length'. by rewrite length_app, length_long2str, Ht. Qed.

Lemma cells_end fuel p : 0 <= p -> from b p = r -> p + zlen r < 2 ^ 31 -> cells (S (S fuel)) (lit "00db") audio b p = tail_cells p r.
Proof.
  intros Hp Hf Hs. assert (Hshort : forall f q, zlen (from b q) < 8 -> cells (S f) (lit "00db") audio b q = []).
  { intros f q Hq. cbn [cells]. rewrite take_ge by lia. by rewrite (proj2 (Z.eqb_neq _ _)) by lia. }
  unfold tail_cells. destruct (Z.ltb_spec (zlen r) 8) as [Hlt | Hge]; [apply Hshort; by rewrite Hf|].
  destruct Hr as [Hr' | (d & Hrd & Hpad)]; [lia|].
  assert (Hl : zlen r = 8 + zlen d) by (rewrite Hrd, !length_app, length_long2str; cbn [length list_ascii_of_string]; lia).
  assert (Hc : chunk_at b p (lit "idx1") (zlen d) d) by (split; [done|]; split; [done|]; split; [lia | by rewrite Hf]).
  remember (S fuel) as f1 eqn:Hf1. cbn [cells]. rewrite (take_head _ _ _ _ Hc), head_length by done. cbn [negb].
  rewrite is_video_words, !is_tag_words by (done || (unfold audio; by destruct (_ =? _))).
  change (default false (strncaseeq 4 (lit "idx1") (lit "LIST"))) with false. change (default false (strncaseeq 3 (lit "idx1") (lit "00db"))) with false.
  replace (default false (strncaseeq 4 (lit "idx1") audio)) with false by (unfold audio; by destruct (_ =? _)). cbv iota.
  rewrite size_of_head_nil by (done || lia). rewrite Hpad, i32_small by lia. cbv zeta. rewrite (proj2 (Z.ltb_ge _ _)) by lia.
  rewrite Hf1, Hshort; [done|]. rewrite from_beyond; [done|]. assert (Hfl := from_length b p Hp). rewrite Hf in Hfl. lia.
Qed.

Lemma cells_items l : forall fuel p, Forall item_ok l -> (st_chans c = 0 -> sounds l = []) -> 0 <= p -> from b p = body l ++ r -> p + zlen (body l) + zlen r < 2 ^ 31 ->
  cells (length l + S (S fuel)) (lit "00db") audio b p = cells_of p l ++ tail_cells (p + zlen (body l)) r.
Proof.
  induction l as [|it l IH]; intros fuel p Hok Hch Hp Hf Hs.
  - change (zlen (body [])) with 0 in *. rewrite Z.add_0_r in *. by apply cells_end.
  - apply Forall_cons_1 in Hok as [Hit Hok]. change (body (it :: l)) with (chunk_bytes it ++ body l) in *. rewrite <- app_assoc in Hf. rewrite length_app in Hs.
    pose proof (chunk_length it Hit) as Hl. pose proof (chunk_of_item b p it (body l ++ r) Hp Hit ltac:(lia) Hf) as Hc.
    pose proof (chunk_rest _ _ _ _ _ Hc) as Hrest. pose proof (it_data_length it Hit) as Hd. destruct Hit as [Hlen Hmem]. pose proof (pad_even_bounds (it_len it)) as Hpad.
    assert (Hnext : cells (length l + S (S fuel)) (lit "00db") audio b (p + 8 + PAD_EVEN (it_len it)) = cells_of (p + zlen (chunk_bytes it)) l ++ tail_cells (p + zlen (chunk_bytes it ++ body l)) r).
    { replace (p + 8 + PAD_EVEN (it_len it)) with (p + zlen (chunk_bytes it)) by lia. rewrite IH; [by rewrite length_app, Nat2Z.inj_add, Z.add_assoc | done | | lia | by eapply from_next | lia].
      intros H0. specialize (Hch H0). unfold sounds in *. cbn in Hch. by destruct (it_audio it). }
    cbn [length Nat.add cells]. rewrite (take_head _ _ _ _ Hc), head_length by apply tag_length. cbn [negb].
    assert (Hlist : is_tag (it_tag it ++ long2str (it_len it)) (lit "LIST") = false) by (unfold it_tag; by destruct (it_audio it)). rewrite Hlist.
    rewrite size_of_head_nil by (apply tag_length || lia). rewrite i32_small by lia. cbv zeta. rewrite (proj2 (Z.ltb_ge _ _)) by lia.
    assert (Htake : take (Z.to_nat (PAD_EVEN (it_len it))) (from b (p + 8)) = it_data it) by (rewrite Hrest; apply take_app_length'; lia).
    rewrite Htake, length_map, Hd, Z.eqb_refl, Hnext. unfold cells_of. cbn [placed map fst snd].
    destruct (it_audio it) eqn:Hau.
    + assert (Hvid : is_video (it_tag it ++ long2str (it_len it)) (lit "00db") = false) by (unfold it_tag; by rewrite Hau). rewrite Hvid.
      assert (Haud : is_tag (it_tag it ++ long2str (it_len it)) audio = true).
      { unfold audio. destruct (Z.eqb_spec (st_chans c) 0) as [H0 | H0]; [|unfold it_tag; by rewrite Hau]. specialize (Hch H0). unfold sounds in Hch. cbn in Hch. by rewrite Hau in Hch. }
      assert (Hck : chunk_of it = Audio_chunk (map ord (it_data it))) by (unfold chunk_of; by rewrite Hau). by rewrite Haud, Hck.
    + assert (Hvid : is_video (it_tag it ++ long2str (it_len it)) (lit "00db") = true) by (unfold it_tag; by rewrite Hau).
      assert (Hck : chunk_of it = Video_chunk (map ord (it_data it))) by (unfold chunk_of; by rewrite Hau). by rewrite Hvid, Hck.
Qed.
End View.

Lemma placed_above p its x : Forall item_ok its -> x ∈ placed p its -> p <= x.1.
Proof. intros _ (pre & post & _ & ->)%placed_in. lia. Qed.

Lemma cell_at_placed tl its : Forall item_ok its -> forall p n l, (forall q, q ∈ l -> (q : cell).1 < p) -> length l = n ->
  map (fun x => Build_view_entry (cell_at (l ++ cells_of p its ++ tl) x.1) (it_flags x.2)) (List.filter is_frame (placed p its)) = frame_entries n its.
Proof.
  assert (Hskip : forall l cs (p : Z), (forall q, q ∈ l -> (q : cell).1 < p) -> cell_at (l ++ cs) p = (length l + cell_at cs p)%nat).
  { induction l as [|[q ch] l IH]; intros cs p Hl; [done|]. cbn [app cell_at length]. assert (q < p) by (apply (Hl (q, ch)); by left).
    rewrite (proj2 (Z.eqb_neq _ _)) by lia. rewrite IH; [done|]. intros x Hx. apply Hl. by right. }
  induction 1 as [|it its Hit _ IH]; intros p n l Hl Hn; [done|].
  pose proof (chunk_length it Hit) as Hcl. destruct Hit as [Hlen _]. pose proof (pad_even_bounds (it_len it)).
  assert (Hrest : map (fun x => Build_view_entry (cell_at (l ++ cells_of p (it :: its) ++ tl) x.1) (it_flags x.2)) (List.filter is_frame (placed (p + zlen (chunk_bytes it)) its)) = frame_entries (S n) its).
  { rewrite <- (IH (p + zlen (chunk_bytes it)) (S n) (l ++ [(p, chunk_of it)])).
    - apply map_ext. intros x. do 2 f_equal. by rewrite <- app_assoc.
    - intros q [Hq | Hq]%elem_of_app; [specialize (Hl _ Hq); lia|]. apply list_elem_of_singleton in Hq. subst q. cbn. lia.
    - rewrite length_app. cbn. lia. }
  cbn [placed List.filter frame_entries]. unfold is_frame at 1. cbn [snd]. destruct (it_audio it); cbn [negb map]; [exact Hrest|].
  rewrite Hrest. do 2 f_equal. rewrite Hskip by done. cbn [cells_of placed map fst snd app cell_at]. rewrite Z.eqb_refl. lia.
Qed.

Lemma cells_of_same its its' : map unkeyed its' = map unkeyed its -> forall p, cells_of p its' = cells_of p its.
Proof.
  revert its'. induction its as [|it its IH]; intros [|it' its'] H p; try done. injection H as Ha Hm Hl Hrest.
  assert (Hc : chunk_bytes it' = chunk_bytes it /\ chunk_of it' = chunk_of it).
  { unfold chunk_bytes, chunk_of, it_tag, it_data. by rewrite Ha, Hm, Hl. }
  destruct Hc as [Hcb Hch]. unfold cells_of in *. cbn [placed map fst snd]. rewrite Hcb, Hch. f_equal. by apply IH.
Qed.

Lemma cells_chunks p its : map snd (cells_of p its) = map chunk_of its.
Proof. unfold cells_of. revert p. induction its as [|it its IH]; intros p; [done|]. cbn [placed map fst snd]. by rewrite IH. Qed.

Lemma same_videos its its' : map unkeyed its' = map unkeyed its -> zlen (videos its') = zlen (videos its).
Proof.
  revert its'. induction its as [|it its IH]; intros [|it' its'] H; try done. injection H as Ha _ _ Hrest. specialize (IH _ Hrest).
  unfold videos in *. cbn. rewrite Ha. destruct (it_audio it); cbn; lia.
Qed.

Definition tail_count (r : cstr) : nat := if zlen r <? 8 then 0 else 1.

Section Opened.
Context (c : settings) (its its' : list item) (b r : cstr).
Hypotheses (Hb : holds b its r) (Hr : ends r) (Hsounds : st_chans c = 0 -> sounds its = []).
Hypotheses (Hsame : map unkeyed its' = map unkeyed its) (Hok : Forall item_ok its') (Hc : settings_ok c).

Lemma recording_cells : exists cs, cells (S (length b)) (lit "00db") (if st_chans c =? 0 then lit "99wb" else lit "01wb") b HEADERBYTES =
  cells_of HEADERBYTES its ++ cs /\ map snd cs = replicate (tail_count r) Other_chunk.
Proof.
  destruct Hb as [(h & -> & Hh) Hits Hs]. pose proof (body_count its Hits). set (b := h ++ body its ++ r).
  assert (Hl : zlen b = HEADERBYTES + zlen (body its) + zlen r) by (unfold b; rewrite !length_app; lia).
  assert (Hfuel : exists f, S (length b) = (length its + S (S f))%nat) by (exists (length b - 1 - length its)%nat; unfold HEADERBYTES in Hl; lia).
  destruct Hfuel as [f ->]. exists (tail_cells (HEADERBYTES + zlen (body its)) r). split.
  - apply cells_items; try done. unfold b. by apply from_app.
  - unfold tail_cells, tail_count. by destruct (zlen r <? 8).
Qed.

Lemma opened_view a : opened c its' b a -> view_of a = recording_view c its its' (tail_count r).
Proof.
  intros [O1 _ (O3 & O4 & O5 & _) _ _ O6 [O7 O7'] _ O9 O10]. destruct recording_cells as (cs & Hcells & Hcs).
  unfold view_of. cbv zeta. rewrite O1, O3, O4, O5, O6, O7, O7', O9, O10. cbn [f_bytes f_pos]. rewrite Hcells.
  assert (Hrate : int_of_dbl (dbl (st_rate c)) = Some (st_rate c)).
  { pose proof (so_rate _ Hc). apply int_of_dbl_is; [apply dbl_int_is|]; lia. }
  rewrite Hrate. unfold recording_view. f_equal.
  - by rewrite map_app, cells_chunks, Hcs.
  - cbn [fmap option_fmap option_map]. f_equal. rewrite map_map, <- (cell_at_placed cs its' Hok HEADERBYTES 0 []); [|intros q ?%elem_of_nil; done | done].
    rewrite (cells_of_same its its' Hsame). apply map_ext. intros x. unfold place. cbn [ix_pos Avi.ix_key]. do 2 f_equal. lia.
  - by apply same_videos.
Qed.
End Opened.

(** ** The reader does what the view says *)

(** A reader of the recording [b] and the view of it are at the same place. *)
Record shows (c : settings) (its : list item) (b r : cstr) (a : avi_t) (v : avi_view) : Prop := {
  sh_file : bytes_of a = b /\ mode a = AVI_MODE_READ;
  sh_tags : video_tag a = lit "00db" /\ audio_tag a = (if st_chans c =? 0 then lit "99wb" else lit "01wb");
  sh_chunks : chunks v = map chunk_of its ++ replicate (tail_count r) Other_chunk;
  sh_frame : Playback.video_pos v = Avi.video_pos a;
  sh_place : (avi_at v <= length its)%nat /\ f_pos (fdes a) = HEADERBYTES + zlen (body (take (avi_at v) its)) \/
    (length (chunks v) <= avi_at v)%nat /\ 0 <= f_pos (fdes a) /\ zlen (from b (f_pos (fdes a))) < 8
}.

Section Refines.
Context (c : settings) (its : list item) (b r : cstr).
Hypotheses (Hb : holds b its r) (Hr : ends r) (Hsounds : st_chans c = 0 -> sounds its = []).

Lemma take_item k it : its !! k = Some it -> body (take (S k) its) = body (take k its) ++ chunk_bytes it.
Proof. intros Hk. rewrite (take_S_r _ _ _ Hk), body_app. f_equal. unfold body. cbn. apply app_nil_r. Qed.

Lemma from_place k : (k <= length its)%nat -> from b (HEADERBYTES + zlen (body (take k its))) = body (drop k its) ++ r.
Proof.
  intros Hk. destruct Hb as [(h & -> & Hh) _ _]. rewrite <- (take_drop k its) at 1. rewrite body_app, <- !app_assoc, app_assoc.
  apply from_app. rewrite length_app. lia.
Qed.

Lemma view_next max_vidbuf max_audbuf (v : avi_view) k : chunks v = map chunk_of its ++ replicate (tail_count r) Other_chunk -> avi_at v = k ->
  view_read_data max_vidbuf max_audbuf v =
  match its !! k with
  | Some it =>
      let d := map ord (it_data it) in
      let v := v <| avi_at ::= S |> <| Playback.video_pos := (if it_audio it then Playback.video_pos v else Z.succ (Playback.video_pos v)) |> in
      if (if it_audio it then max_audbuf else max_vidbuf) <? zlen d then ((if it_audio it then -2 else -1), [], v) else ((if it_audio it then 2 else 1), d, v)
  | None => (0, [], v <| avi_at := if (length (chunks v) <=? k)%nat then k else length (chunks v) |>)
  end.
Proof.
  intros Hch Hk. unfold view_read_data. rewrite Hch, Hk. destruct (its !! k) as [it|] eqn:Hit.
  - assert (Hd : drop k (map chunk_of its ++ replicate (tail_count r) Other_chunk) = chunk_of it :: drop (S k) (map chunk_of its) ++ replicate (tail_count r) Other_chunk).
    { rewrite drop_app_le by (rewrite length_map; apply lookup_lt_Some in Hit; lia).
      rewrite (drop_S _ (chunk_of it)) by (by rewrite list_lookup_fmap, Hit). done. }
    rewrite Hd. unfold chunk_of at 1. destruct (it_audio it); cbn [read_chunks]; [|done]. by destruct v.
  - apply lookup_ge_None in Hit. assert (Hl : length (map chunk_of its ++ replicate (tail_count r) Other_chunk) = (length its + tail_count r)%nat) by by rewrite length_app, length_map, length_replicate.
    rewrite Hl. destruct (Nat.leb_spec (length its + tail_count r) k) as [Hle | Hgt].
    + rewrite drop_ge by lia. cbn [read_chunks]. destruct v; cbn in *; by subst.
    + unfold tail_count in *. destruct (zlen r <? 8); [lia|]. assert (k = length its) as Hkk by lia.
      rewrite drop_app_ge, length_map by (rewrite length_map; lia). replace (k - length its)%nat with 0%nat by lia. cbn [drop replicate read_chunks].
      replace (length its + 1)%nat with (S (avi_at v)) by lia. done.
Qed.

Lemma index_places its' : forall p n, Forall2 (fun ix e => Playback.ix_key ix = Avi.ix_key e /\
    exists k, ix_at ix = (n + k)%nat /\ (k < length its')%nat /\ ix_pos e - 8 = p + zlen (body (take k its')))
  (frame_entries n its') (map place (List.filter is_frame (placed p its'))).
Proof.
  induction its' as [|it its' IH]; intros p n; [constructor|]. cbn [frame_entries placed List.filter]. unfold is_frame at 1. cbn [snd].
  assert (Hrest : Forall2 (fun ix e => Playback.ix_key ix = Avi.ix_key e /\
      exists k, ix_at ix = (n + k)%nat /\ (k < length (it :: its'))%nat /\ ix_pos e - 8 = p + zlen (body (take k (it :: its'))))
    (frame_entries (S n) its') (map place (List.filter is_frame (placed (p + zlen (chunk_bytes it)) its')))).
  { refine (list.Forall2_impl _ _ _ _ (IH (p + zlen (chunk_bytes it)) (S n)) _). intros ix e (Hkey & k & Hat & Hk & Hp). split; [done|]. exists (S k). cbn [take length].
    change (body (it :: take k its')) with (chunk_bytes it ++ body (take k its')). rewrite length_app. lia. }
  destruct (it_audio it); cbn [negb map]; [exact Hrest|]. constructor; [|exact Hrest].
  split; [done|]. exists 0%nat. cbn [place ix_pos fst ix_at take length]. change (zlen (body [])) with 0. lia.
Qed.

Lemma same_bodies its' its0 : map unkeyed its' = map unkeyed its0 -> body its' = body its0.
Proof.
  revert its0. induction its' as [|it its' IH]; intros [|it0 its0] H; try done. injection H as Ha Hm Hl Hrest.
  change (chunk_bytes it ++ body its' = chunk_bytes it0 ++ body its0). rewrite (IH _ Hrest). f_equal. unfold chunk_bytes, it_tag. by rewrite Ha, Hm, Hl.
Qed.

(** Going to a frame of the index, in the file and in its view. *)
Lemma seek_shows its' a v i ix e : map unkeyed its' = map unkeyed its -> shows c its b r a v ->
  geti (frame_entries 0 its') i = Some ix -> geti (map place (List.filter is_frame (placed HEADERBYTES its'))) i = Some e ->
  exists p a', lseek (ix_pos e - 8) a = Ret p a' /\ shows c its b r a' (v <| avi_at := ix_at ix |>).
Proof.
  intros Hsame [[Hf Hm] [Hvt Hat] Hch Hvp _] Hix He. pose proof (geti_Some _ _ _ Hix) as Hi. rewrite geti_to_nat in Hix by lia. rewrite geti_to_nat in He by lia.
  destruct (Forall2_lookup_lr _ _ _ _ _ _ (index_places its' HEADERBYTES 0) Hix He) as (_ & k & Hk & Hlt & Hp).
  assert (Hlen : length its' = length its) by (rewrite <- (length_map unkeyed its'), Hsame; apply length_map).
  assert (Hbody : body (take k its') = body (take k its)) by (apply same_bodies; by rewrite <- !firstn_map, Hsame). rewrite Hbody in Hp.
  assert (Hle : zlen (body (take k its)) <= zlen (body its)).
  { rewrite <- (take_drop k its) at 2. rewrite body_app, length_app. lia. }
  pose proof (ho_small _ _ _ Hb) as Hs. unfold HEADERBYTES in *. rewrite (at_own a), lseek_run by lia. eexists _, _. split; [done|].
  split; [by split | by split | exact Hch | exact Hvp|]. left. cbn [Nat.add] in Hk. split; [cbn; lia|].
  change (ix_pos e - 8 = 2048 + zlen (body (take (ix_at ix) its))). by rewrite Hk.
Qed.

Lemma read_shows max_vidbuf max_audbuf (a : avi_t) (v : avi_view) : shows c its b r a v ->
  let '(res, d, v') := view_read_data max_vidbuf max_audbuf v in
  exists data a', AVI_read_data max_vidbuf max_audbuf a = Ret (res, data) a' /\ d = map ord data /\ shows c its b r a' v'.
Proof.
  intros [[Hf Hm] [Hvt Hat] Hch Hvp Hpl]. pose proof (ho_items _ _ _ Hb) as Hok. pose proof (ho_small _ _ _ Hb) as Hs.
  rewrite (view_next _ _ v (avi_at v) Hch eq_refl). rewrite (at_own a). set (p := f_pos (fdes a)) in *.
  destruct (its !! avi_at v) as [it|] eqn:Hit.
  - destruct Hpl as [[Hk Hp] | [Hk _]].
    2: { apply lookup_lt_Some in Hit. rewrite Hch, length_app, length_map in Hk. lia. }
    assert (Hiok : item_ok it) by by eapply Forall_lookup_1.
    pose proof (from_place _ Hk) as Hfrom. rewrite <- Hp, (drop_S _ _ _ Hit) in Hfrom. change (body (it :: drop (S (avi_at v)) its)) with (chunk_bytes it ++ body (drop (S (avi_at v)) its)) in Hfrom.
    rewrite <- app_assoc, <- Hf in Hfrom. pose proof (chunk_length it Hiok) as Hcl. pose proof (it_data_length it Hiok) as Hdl.
    assert (Hnext : zlen (body (take (S (avi_at v)) its)) = zlen (body (take (avi_at v) its)) + zlen (chunk_bytes it)) by (rewrite (take_item _ _ Hit), length_app; lia).
    assert (Hle : zlen (body (take (S (avi_at v)) its)) <= zlen (body its)).
    { rewrite <- (take_drop (S (avi_at v)) its) at 2. rewrite body_app, length_app. lia. }
    assert (Hsnd : it_audio it = true -> st_chans c <> 0).
    { intros Hau H0. specialize (Hsounds H0). apply list_elem_of_lookup_2 in Hit. apply list_elem_of_In in Hit.
      assert (Hin : In it (sounds its)) by by apply filter_In. by rewrite Hsounds in Hin. }
    pose proof (read_item max_vidbuf max_audbuf c a p it _ Hm Hvt Hat Hsnd ltac:(unfold HEADERBYTES in *; lia) Hiok ltac:(unfold HEADERBYTES in *; lia) Hfrom) as Hrun.
    cbv zeta. rewrite length_map, Hdl. unfold given_in, given in Hrun.
    assert (Hshow : shows c its b r (at_pos (a <| Avi.video_pos := (if it_audio it then Avi.video_pos a else Z.succ (Avi.video_pos a)) |>) (p + zlen (chunk_bytes it)))
      (v <| avi_at ::= S |> <| Playback.video_pos := (if it_audio it then Playback.video_pos v else Z.succ (Playback.video_pos v)) |>)).
    { split; [by split | by split | exact Hch | |].
      - rewrite Hvp. by destruct (it_audio it).
      - left. split; [apply lookup_lt_Some in Hit; exact Hit|]. change (p + zlen (chunk_bytes it) = HEADERBYTES + zlen (body (take (S (avi_at v)) its))). lia. }
    destruct (_ <? _); eexists _, _; (split; [exact Hrun|]; split; [done | exact Hshow]).
  - assert (Hend : exists q, AVI_read_data max_vidbuf max_audbuf (at_pos a p) = Ret (0, []) (at_pos a q) /\ 0 <= q /\ zlen (from (bytes_of a) q) < 8).
    { apply lookup_ge_None in Hit. destruct Hpl as [[Hk Hp] | (Hk & Hp & Hl)].
      - pose proof (from_place _ Hk) as Hfrom. rewrite <- Hp, drop_ge in Hfrom by lia. change (body [] ++ r) with r in Hfrom. rewrite <- Hf in Hfrom.
        rewrite take_ge in Hp by lia.
        destruct (read_end max_vidbuf max_audbuf c a p r Hm Hvt Hat ltac:(unfold HEADERBYTES in *; lia) Hfrom Hr ltac:(lia)) as (q & Hq & Hpq & Hl).
        exists q. split; [done|]. unfold HEADERBYTES in *. lia.
      - rewrite <- Hf in Hl. destruct (read_end max_vidbuf max_audbuf c a p (from (bytes_of a) p) Hm Hvt Hat Hp eq_refl) as (q & Hq & Hpq & Hl'); [by left | by left|].
        exists q. split; [done|]. lia. }
    destruct Hend as (q & Hrun & Hq & Hl). exists [], (at_pos a q). split; [exact Hrun|]. split; [done|]. rewrite Hf in Hl.
    split; [by split | by split | exact Hch | exact Hvp|]. right. split; [|by split].
    cbn. destruct (Nat.leb_spec (length (chunks v)) (avi_at v)); lia.
Qed.
End Refines.

(** The bytes of a recording, the reader that opens it and the view of it. *)
Definition indexed (finish : bool) (its : list item) : list item := if finish then its else map unkeyed its.

Lemma unkeyed_twice its : map unkeyed (map unkeyed its) = map unkeyed its.
Proof. rewrite map_map. done. Qed.

Lemma recorded_opens c its widx old (finish : bool) : recording_ok c its -> (finish = false -> zlen old <= HEADERBYTES) ->
  exists b r a, recorded c widx old its finish = Some b /\ AVI_open_input_file (Some b) true = Ret (Some a) () /\
    opened c (indexed finish its) b a /\ holds b its r /\ ends r /\ tail_count r = (if finish then 1%nat else 0%nat).
Proof.
  intros [Hc Hok Hkeys Hsmall Hv] Hold. destruct finish.
  - assert (Hne : its <> []) by (intros ->; by apply Hv).
    destruct (recorded_closed c widx its Hc Hok Hkeys Hsmall old Hne) as (h & Hh & Hlen & Hrec).
    destruct (open_closed c its h Hc Hh Hlen Hok Hsmall Hv) as (a & Hopen & Hop). exists (closed h its), (index_chunk its), a.
    do 3 (split; [done|]). split; [by apply closed_holds|]. split; [apply index_ends|].
    unfold tail_count. rewrite index_chunk_length. by rewrite (proj2 (Z.ltb_ge _ _)) by lia.
  - destruct (recorded_interrupted c widx its Hc Hok Hkeys Hsmall old (Hold eq_refl)) as (h & Hh & Hlen & Hrec).
    destruct (open_interrupted c its h [] Hc Hh Hlen Hok Hsmall ltac:(done) Hv) as (a & Hopen & Hop). exists (h ++ body its ++ []), [], a.
    do 3 (split; [done|]). split; [|split; [by left | done]].
    split; [by exists h | done | unfold small in Hsmall; cbn [length]; lia].
Qed.

Lemma indexed_ok finish its : Forall item_ok its -> Forall item_ok (indexed finish its) /\ map unkeyed (indexed finish its) = map unkeyed its.
Proof. intros H. destruct finish; [done|]. split; [by apply unkeyed_ok | apply unkeyed_twice]. Qed.

Lemma open_view_run f name b a : f !! name = Some b -> AVI_open_input_file (Some b) true = Ret (Some a) () -> open_view f name = Some (view_of a).
Proof. intros Hf Ha. unfold open_view. rewrite Hf. cbn [mbind option_bind]. by rewrite Ha. Qed.

(** C9. Reading the bytes of a recording does what the view of it as chunks and an index
    says: opening the file gives the view of what was written; from then on every read
    with buffers of any size returns what the view's read returns, the data byte for byte
    - also when the buffer is too small and at the end - and going to a frame of the index
    goes to the frame's chunk. *)
Theorem recordings_are_viewed c its widx old (finish : bool) : recording_ok c its -> (finish = false -> zlen old <= HEADERBYTES) ->
  (st_chans c = 0 -> sounds its = []) ->
  let view := recording_view c its (indexed finish its) (if finish then 1 else 0) in
  exists b r a, recorded c widx old its finish = Some b /\ AVI_open_input_file (Some b) true = Ret (Some a) () /\
    (forall f name, f !! name = Some b -> open_view f name = Some view) /\
    shows c its b r a view /\
    (forall max_vidbuf max_audbuf a v, shows c its b r a v ->
      let '(res, d, v') := view_read_data max_vidbuf max_audbuf v in
      exists data a', AVI_read_data max_vidbuf max_audbuf a = Ret (res, data) a' /\ d = map ord data /\ shows c its b r a' v') /\
    (forall a' v i ix e, shows c its b r a' v -> geti (idx_of view) i = Some ix -> geti (default [] (Avi.video_index a)) i = Some e ->
      exists p a'', lseek (ix_pos e - 8) a' = Ret p a'' /\ shows c its b r a'' (v <| avi_at := ix_at ix |>)).
Proof.
  intros Hrec Hold Hsnd view. destruct (recorded_opens c its widx old finish Hrec Hold) as (b & r & a & Hb & Hopen & Hop & Hh & Hr & Ht).
  destruct (indexed_ok finish its (rc_items _ _ Hrec)) as [Hok Hsame]. exists b, r, a. split; [exact Hb|]. split; [exact Hopen|].
  pose proof (opened_view c its _ b r Hh Hr Hsnd Hsame Hok (rc_settings _ _ Hrec) a Hop) as Hview. rewrite Ht in Hview.
  split; [intros f name Hf; by rewrite (open_view_run f name b a Hf Hopen), Hview|].
  destruct Hop as [O1 O2 _ _ _ O6 [_ O7] _ O9 O10]. split; [|split].
  - split; [by rewrite O1 | done | cbn; by rewrite Ht | by rewrite O7|]. left. rewrite O1. split; [cbn; lia|]. change (HEADERBYTES = HEADERBYTES + 0). lia.
  - intros mv ma a0 v. by apply read_shows.
  - intros a0 v i ix e Hs Hix He. rewrite O6 in He. by eapply seek_shows.
Qed.

Lemma recordings_are_viewed_witness : exists b r a data a', recorded example_settings true [] (example_items 0) true = Some b /\
  AVI_open_input_file (Some b) true = Ret (Some a) () /\ AVI_read_data 2 2 a = Ret (1, data) a' /\ map ord data = [0; 1] /\
  shows example_settings (example_items 0) b r a'
    ((recording_view example_settings (example_items 0) (example_items 0) 1) <| avi_at := 1%nat |> <| Playback.video_pos := 1 |>).
Proof.
  destruct (recordings_are_viewed example_settings (example_items 0) true [] true (example_recording_ok 0 ltac:(lia)) ltac:(discriminate) ltac:(discriminate))
    as (b & r & a & Hb & Hopen & _ & Hshow & Hread & _).
  destruct (Hread 2 2 a _ Hshow) as (data & a' & Hrun & Hd & Hshow'). exists b, r, a, data, a'.
  split; [exact Hb|]. split; [exact Hopen|]. split; [exact Hrun|]. split; [exact (eq_sym Hd) | exact Hshow'].
Defined.
