(* ===== verification/AviPlays.v ===== *)
(** * What was recorded is played

    The recordings that the recorder leaves are files that the playback server can play,
    and it plays them. *)

From Stdlib Require Import Ascii String SpecFloat Sorted.
From stdpp Require Import gmap strings sorting.
From S2P Require Import Prelude Update Ctime Cstring RecName RecNameThms FileIndex FileIndexThms FileIndexLock DiskMan DiskManThms DiskManRuns.
From S2P Require Import RecordSort RecordSortThms Double Avi AviBytes AviFile AviOpen AviThms Playback PlaybackServer PlaybackFiles PlaybackPlays PlaybackQuery PlaybackRuns AviView.






(** ** The view of a recording can be played *)









(** ** A viewer's request *)





(** ** A concrete recording *)





